(* ===== verification/_CoqProject ===== *)
-Q . S2P
Prelude.v
Machine.v
Text.v
Deps.v
Key.v
Auth.v
Logging.v
Schema.v
World.v
Database.v
External.v
Authorizer.v
Signing.v
YubikeySigner.v
KmsSigner.v
Signers.v
Proto.v
Server.v
Validation.v
Issuance.v
Registration.v
X509Issuance.v
AllowedSigners.v
Service.v
LoggingThread.v
ServerConfig.v
ServerMain.v
AgentProtocol.v
AgentConfig.v
AgentClient.v
Restart.v
AgentHandler.v
Slots.v
AgentSocket.v
Shell.v
Cli.v
CliModes.v
CommandLine.v
AgentMain.v
Ffi.v
FfiEnroll.v
FfiSigning.v
FfiDevices.v
Gui.v
EndToEnd.v
Enrolled.v
Tokens.v
SignedData.v
Toy.v
Examples.v
ServiceExamples.v
SignerExamples.v
ConfigExamples.v
AgentExamples.v
RestartExamples.v
CliExamples.v
TokenExamples.v
GuiExamples.v
