(* ===== verification/Prelude.v ===== *)
(** * Rustica: a verification development

    Rustica is an SSH certificate authority.  A server ([src/rustica]) issues
    SSH and X.509 certificates to clients that are known by their mTLS
    certificate and prove a key; an agent ([src/rustica-agent], its command line
    [src/rustica-agent-cli]) stands behind the socket of the SSH client, keeps a
    short-lived certificate from such a server and signs with a key file, a FIDO
    device or a Yubikey.  This library models both, as shallow embeddings, up to
    the crates they are built from, and proves what makes them correct.

    ** How the code is modelled

    A function that can fail or panic returns an [outcome]; one with effects is
    a state-passing function of the monad [st] (this file), which keeps what was
    done before a failure.  The server runs in a [World] (World.v): its clock,
    its log, the tables of its database, the cache and the rate limiter of the
    allowed signers, its locks.  The agent's library runs in an [AgentWorld]
    (AgentConfig.v): the service it talks to, of any type, its clock, devices,
    configuration file and standard output; the programs around it run in a
    [ShellWorld] (Shell.v) that adds the files.  What the environment answers
    (clock, devices, disk, remote services) is a function of the number of calls
    made before, so every behaviour of it is covered.  Integers have their
    machine width (Machine.v), with both the wrapping and the checked build of
    Rust; texts are UTF-8 bytes (Text.v).

    The crates of Cargo.toml are not in the repository.  Each is a class of
    operations (Deps.v; KmsSigner.v, Shell.v, FfiSigning.v and FfiDevices.v for
    those that one part uses), and what the code relies on is a second class of
    laws, for instance that a signed certificate reads back as itself.  The
    libraries of Toy.v satisfy all of them and run.

    ** The server

    - Key.v (error.rs, key.rs, verification.rs), Auth.v, Database.v with
      Schema.v, External.v and Authorizer.v (auth/): the keys and their
      attestation, and who may have what.  The interface of an authorizer is the
      class [Authorizer] with [AuthorizerLaws]; the handlers are proved against
      it, the local database and the external service implement it.
    - Signing.v, YubikeySigner.v, KmsSigner.v, Signers.v (signing/): the trait
      [Signer] as a record of operations, its three implementations, and the
      mechanism built of them.  A mutex of the Yubikey signer is modelled with
      its poisoning.
    - Server.v, Registration.v, X509Issuance.v, AllowedSigners.v (server.rs): the
      request handlers, whole; their theorems are in Validation.v, Issuance.v
      and the files of the handlers themselves.  The handler of the allowed
      signers is also cut at its locks into steps, so that several requests
      interleave.
    - Service.v: the histories of a server, any requests to any handlers one
      after the other, and what they add to the log and to the database.  The
      part of the log that records what was granted is [audit_log] (World.v).
    - Logging.v and LoggingThread.v (logging/), ServerConfig.v (config/mod.rs),
      ServerMain.v (main.rs).

    ** The agent

    - AgentProtocol.v (sshagent/protocol.rs, handler.rs, agent.rs): the wire
      format and the loop over one connection; AgentSocket.v (agent.rs): the
      listener and its tasks as a step relation, and what becomes of them when
      the runtime is dropped.
    - AgentConfig.v, AgentClient.v (config/, rustica/), AgentHandler.v (lib.rs):
      the configuration, the calls of a server, the handler behind the socket.
      Restart.v reads the configuration file again that the agent wrote, Slots.v
      compares the ways the programs read the name of a slot.
    - Cli.v, CliModes.v (config/ of the command line), AgentMain.v (its main.rs),
      with the theorems of CommandLine.v.
    - Ffi.v, FfiEnroll.v, FfiSigning.v, FfiDevices.v (ffi/): what other programs
      call; a C string is its bytes, a nullable pointer an option.
    - Gui.v (src/rustica-agent-gui): what the window of the graphical agent
      remembers and what one frame does, the answers of its widgets being the
      frame.
    - EndToEnd.v makes the server's handlers the service of the agent.
      Enrolled.v and Tokens.v run the programs that register a FIDO key and
      refresh a token's certificate against them, and SignedData.v follows the
      list of signers through both.

    ** What is proved

    - Who gets a certificate: a challenge is accepted exactly when it is signed,
      fresh and untouched (Validation.v); a certificate needs proof and
      authorization and says what was authorized, under the key the
      configuration names (Issuance.v, ServerConfig.v, X509Issuance.v); the
      authorizers decide by their tables and answers (Database.v, External.v).
    - What is registered: only proved and attested keys, once (Registration.v).
    - Whole histories (Service.v): whatever was granted answered a challenge the
      server itself made seconds before, the log has one entry for each grant and
      no other, and the table of keys is the list of the registrations.
    - What is written down: one log for each certificate (Issuance.v), delivered
      to every backend (LoggingThread.v), so that the program prints a line for
      everything it grants, with what it granted, where its configuration asks
      for that (ServerMain.v).
    - The allowed signers: fresh, fetched once a period, every request answered
      (AllowedSigners.v), and verification of signed data attributes it as the
      server's list does (SignedData.v).
    - The agent's conversation with a server: both agree on the challenge as long
      as it is not longer than the server's limit, the client signs only for its
      own key, the certificate is for it (EndToEnd.v, AgentClient.v), and it is
      used while it is valid (AgentHandler.v); a FIDO
      key that the program reports as registered is in the server's table
      (Enrolled.v), a token receives a certificate of its own key (Tokens.v), and
      renewed credentials survive a restart where the file was written
      (Restart.v).
    - The agent's conversation with its clients: requests are read exactly and
      answers read back (AgentProtocol.v), connections end (AgentSocket.v), and
      however the agent was started every signature is by the key asked for, in
      every interleaving (Ffi.v).
    - The programs around it: the command line panics only where clap's debug
      assertions stop it, which command is lost, what multi mode offers
      (CommandLine.v), where a new key ends up (AgentMain.v, FfiEnroll.v), what
      the window keeps (Gui.v).

    The main theorems that have hypotheses are applied to a concrete input in
    Examples.v, ServiceExamples.v, SignerExamples.v, ConfigExamples.v,
    AgentExamples.v, RestartExamples.v, CliExamples.v, TokenExamples.v and
    GuiExamples.v, in lemmas whose names end in [_witness].

    ** Bounds

    [handle_client] (AgentProtocol.v) has fuel for its turns: a turn consumes at
    least the length field of a request, so as many turns as there are bytes are
    enough ([connection_ends]).  [utf8_valid] (Text.v) has fuel for its
    characters and is given the number of bytes.  The logging thread runs over
    the list of what it receives.  Everything else is structural.

    ** Not modelled

    The build scripts, the layout and labels of the graphical agent, and its
    Start button, whose handler is commented out.  The log macros of the agent
    are left out; the server's are effects.  [println!] is one too, and never
    fails; left out are the lines of the agent's socket and runtime when they
    end, and what a notification function does (its calls are counted).  A line
    that is handed to the macros of the log crate counts as printed, whatever the
    filter of env_logger.  Serde's and clap's parsing is a parameter, and so is
    clap's lookup of a subcommand, because it may panic on a name that is not
    declared; the declarations that clap checks arguments against are data
    (CliModes.v).  The functions of the interface that give memory back have no
    effect that a functional model shows; [shutdown_rustica_agent] is modelled by
    how far each task of the runtime got.  Handlers of the server other than the one of the
    allowed signers run one after the other: each touches the shared state in
    single queries and messages, but their interleavings are not steps here.
    Cryptography, TLS, gRPC, TOML, SQL and the devices are parameters, as are
    the derived [Debug] texts (AgentMain.v).

    ** Plan

    Next: registration of a Yubikey's SSH key against the server, as in
    Enrolled.v; the configuration file of the server as a round trip; the
    queries of the database as steps, so that the handlers of Service.v
    interleave. *)
From Stdlib Require Import ZArith Lia.
From Stdlib Require Import Strings.Byte.
From stdpp Require Export base gmap strings list fin_maps pretty.

Open Scope Z_scope.
Set Default Goal Selector "!".

(** ** Results, outcomes and stateful computations *)

(** Rust's [Result<A, E>]. *)
Inductive result (E A : Type) : Type :=
| Ok (a : A)
| Err (e : E).
Arguments Ok {_ _} _.
Arguments Err {_ _} _.

(** A [Result] of code that can also panic ([unwrap], [expect], an indexing
    that fails, checked arithmetic of a debug build). *)
Inductive outcome (E A : Type) : Type :=
| Ret (a : A)
| Raise (e : E)
| Panic.
Arguments Ret {_ _} _.
Arguments Raise {_ _} _.
Arguments Panic {_ _}.

#[export] Instance result_ret E : MRet (result E) := λ A a, Ok a.
#[export] Instance result_bind E : MBind (result E) := λ A B f m,
  match m with Ok a => f a | Err e => Err e end.
#[export] Instance outcome_ret E : MRet (outcome E) := λ A a, Ret a.
#[export] Instance outcome_bind E : MBind (outcome E) := λ A B f m,
  match m with Ret a => f a | Raise e => Raise e | Panic => Panic end.

(** A computation over a state [S]: what it did to the state is kept when it
    fails or panics (messages already sent stay sent). *)
Definition st (S E A : Type) : Type := S → S * outcome E A.

#[export] Instance st_ret S E : MRet (st S E) := λ A a s, (s, Ret a).
#[export] Instance st_bind S E : MBind (st S E) := λ A B f m s,
  match m s with
  | (s', Ret a) => f a s'
  | (s', Raise e) => (s', Raise e)
  | (s', Panic) => (s', Panic)
  end.

Section Computations.
Context {S E : Type}.

Definition throw {A} (e : E) : st S E A := λ s, (s, Raise e).
Definition panic {A} : st S E A := λ s, (s, Panic).
Definition get : st S E S := λ s, (s, Ret s).
Definition gets {A} (f : S → A) : st S E A := λ s, (s, Ret (f s)).
Definition modify (f : S → S) : st S E () := λ s, (f s, Ret ()).

(** [?] and [match] on a [Result] that is a value. *)
Definition of_outcome {A} (o : outcome E A) : st S E A := λ s, (s, o).
Definition of_result {A} (r : result E A) : st S E A := λ s,
  (s, match r with Ok a => Ret a | Err e => Raise e end).
Definition of_option {A} (e : E) (o : option A) : st S E A := λ s,
  (s, match o with Some a => Ret a | None => Raise e end).
(** [unwrap] and [expect]. *)
Definition unwrap {A} (o : option A) : st S E A := λ s,
  (s, match o with Some a => Ret a | None => Panic end).

(** [unwrap] and [expect] of a [Result]. *)
Definition expect_ok {E' A} (r : result E' A) : st S E A := λ s,
  (s, match r with Ok a => Ret a | Err _ => Panic end).

(** Run a computation of another error type and look at its [Result]; a
    panic unwinds through it. *)
Definition attempt {E' A} (m : st S E' A) : st S E (result E' A) := λ s,
  match m s with
  | (s', Ret a) => (s', Ret (Ok a))
  | (s', Raise e) => (s', Ret (Err e))
  | (s', Panic) => (s', Panic)
  end.

(** [map_err]. *)
Definition map_err {E' A} (f : E' → E) (m : st S E' A) : st S E A := λ s,
  match m s with
  | (s', Ret a) => (s', Ret a)
  | (s', Raise e) => (s', Raise (f e))
  | (s', Panic) => (s', Panic)
  end.
End Computations.

(** The monad laws, pointwise. *)
Lemma st_ret_bind {S E A B} (a : A) (f : A → st S E B) s :
  (mret a ≫= f) s = f a s.
Proof. done. Qed.

Lemma st_bind_ret {S E A} (m : st S E A) s : (m ≫= mret) s = m s.
Proof. unfold mbind, st_bind, mret, st_ret. by destruct (m s) as [? []]. Qed.

Lemma st_bind_assoc {S E A B C} (m : st S E A) (f : A → st S E B) (g : B → st S E C) s :
  ((m ≫= f) ≫= g) s = (m ≫= (λ a, f a ≫= g)) s.
Proof. unfold mbind, st_bind. by destruct (m s) as [? []]. Qed.

(** Inversion of the bind of a run that returned. *)
Lemma st_bind_Ret {S E A B} (m : st S E A) (f : A → st S E B) s s' b :
  (m ≫= f) s = (s', Ret b) ↔ ∃ s1 a, m s = (s1, Ret a) ∧ f a s1 = (s', Ret b).
Proof.
  unfold mbind, st_bind. destruct (m s) as [s1 []]; split; intros; destruct_and?; naive_solver.
Qed.

(** Split a run at a bind. *)
Lemma st_bind_run {S E A B} (m : st S E A) (f : A → st S E B) s s' r :
  (m ≫= f) s = (s', r) →
  (∃ s1 a, m s = (s1, Ret a) ∧ f a s1 = (s', r)) ∨
  (∃ e, m s = (s', Raise e) ∧ r = Raise e) ∨ (m s = (s', Panic) ∧ r = Panic).
Proof.
  unfold mbind, st_bind. destruct (m s) as [s1 [a|e|]]; [left; eauto|intros [= <- <-]; eauto..].
Qed.

(** What [map_err] and [attempt] make of a run. *)
Lemma map_err_run {S E E' A} (f : E' → E) (m : st S E' A) (s s' : S) r :
  map_err f m s = (s', r) → ∃ o, m s = (s', o) ∧
    match o with Ret x => r = Ret x | Raise e => r = Raise (f e) | Panic => r = Panic end.
Proof. unfold map_err. destruct (m s) as [s1 [x|e|]]; intros [= <- <-]; by eexists. Qed.
Lemma attempt_run {S E E' A} (m : st S E' A) (s s' : S) (r : outcome E (result E' A)) :
  attempt m s = (s', r) → ∃ o, m s = (s', o) ∧
    match o with
    | Ret x => r = Ret (Ok x) | Raise e => r = Ret (Err e) | Panic => r = Panic
    end.
Proof. unfold attempt. destruct (m s) as [s1 [x|e|]]; intros [= <- <-]; by eexists. Qed.

Lemma result_bind_Ok {E A B} (m : result E A) (f : A → result E B) b :
  (m ≫= f) = Ok b ↔ ∃ a, m = Ok a ∧ f a = Ok b.
Proof. destruct m; simpl; naive_solver. Qed.

(** Unfold the monad's operations and compute. *)
Ltac st_unfold :=
  unfold mbind, st_bind, mret, st_ret, get, gets, modify, throw, panic, of_outcome,
    of_result, of_option, unwrap, expect_ok, attempt, map_err in *.
Ltac st_run := repeat (progress (st_unfold; cbn -[decide] in *; simplify_eq)).

(** The runs of the primitives that return. *)
Section Returns.
Context {S E : Type}.
Implicit Types s : S.

Lemma mret_Ret {A} (a b : A) s s' :
  (mret a : st S E A) s = (s', Ret b) ↔ s' = s ∧ b = a.
Proof. unfold mret, st_ret. naive_solver. Qed.
Lemma throw_Ret {A} (e : E) (b : A) s s' : throw e s = (s', Ret b) ↔ False.
Proof. unfold throw. naive_solver. Qed.
Lemma panic_Ret {A} (b : A) s s' : (panic : st S E A) s = (s', Ret b) ↔ False.
Proof. unfold panic. naive_solver. Qed.
Lemma gets_Ret {A} (f : S → A) b s s' :
  (gets f : st S E A) s = (s', Ret b) ↔ s' = s ∧ b = f s.
Proof. unfold gets. naive_solver. Qed.
Lemma get_Ret (b : S) s s' : (get : st S E S) s = (s', Ret b) ↔ s' = s ∧ b = s.
Proof. unfold get. naive_solver. Qed.
Lemma modify_Ret (f : S → S) u s s' :
  (modify f : st S E ()) s = (s', Ret u) ↔ s' = f s.
Proof. unfold modify. destruct u. naive_solver. Qed.
Lemma of_outcome_Ret {A} (o : outcome E A) b s s' :
  (of_outcome o : st S E A) s = (s', Ret b) ↔ s' = s ∧ o = Ret b.
Proof. unfold of_outcome. naive_solver. Qed.
Lemma of_result_Ret {A} (r : result E A) b s s' :
  (of_result r : st S E A) s = (s', Ret b) ↔ s' = s ∧ r = Ok b.
Proof. unfold of_result. destruct r; naive_solver. Qed.
Lemma of_option_Ret {A} (e : E) (o : option A) b s s' :
  (of_option e o : st S E A) s = (s', Ret b) ↔ s' = s ∧ o = Some b.
Proof. unfold of_option. destruct o; naive_solver. Qed.
Lemma unwrap_Ret {A} (o : option A) b s s' :
  (unwrap o : st S E A) s = (s', Ret b) ↔ s' = s ∧ o = Some b.
Proof. unfold unwrap. destruct o; naive_solver. Qed.
Lemma expect_ok_Ret {E' A} (r : result E' A) b s s' :
  (expect_ok r : st S E A) s = (s', Ret b) ↔ s' = s ∧ r = Ok b.
Proof. unfold expect_ok. destruct r; naive_solver. Qed.
Lemma attempt_Ret {E' A} (m : st S E' A) (r : result E' A) s s' :
  (attempt m : st S E _) s = (s', Ret r) ↔
    m s = (s', match r with Ok a => Ret a | Err e => Raise e end).
Proof. unfold attempt. destruct (m s) as [? []], r; naive_solver. Qed.
Lemma then_throw_Ret {A B} (m : st S E B) (e : E) (b : A) s s' :
  (m ≫= λ _, throw e) s = (s', Ret b) ↔ False.
Proof. unfold throw, mbind, st_bind. destruct (m s) as [? []]; naive_solver. Qed.
Lemma map_err_Ret {E' A} (f : E' → E) (m : st S E' A) b s s' :
  (map_err f m : st S E A) s = (s', Ret b) ↔ m s = (s', Ret b).
Proof. unfold map_err. destruct (m s) as [? []]; naive_solver. Qed.
End Returns.

Create HintDb st_inv discriminated.
#[export] Hint Rewrite @mret_Ret @throw_Ret @panic_Ret @gets_Ret @get_Ret @modify_Ret
  @of_outcome_Ret @of_result_Ret @of_option_Ret @unwrap_Ret @expect_ok_Ret @attempt_Ret
  @map_err_Ret : st_inv.

(** Take a run that returned apart, statement by statement. *)
Ltac st_inv_step :=
  match goal with
  | H : (_ ≫= λ _, throw _) _ = (_, Ret _) |- _ => by apply then_throw_Ret in H
  | H : (_ ≫= _) _ = (_, Ret _) |- _ =>
      apply st_bind_Ret in H as (? & ? & ? & ?); cbv beta in *
  | H : _ ∧ _ |- _ => destruct H
  | H : ∃ _, _ |- _ => destruct H
  | H : False |- _ => destruct H
  | x : () |- _ => destruct x
  | H : ?x = _ |- _ => is_var x; subst x
  | H : _ = ?x |- _ => is_var x; subst x
  | H : ?m _ = (_, Ret _) |- _ => progress autorewrite with st_inv in H
  | H : Ret _ = Ret _ |- _ => injection H as H
  | H : Ok _ = Ok _ |- _ => injection H as H
  | H : Some _ = Some _ |- _ => injection H as H
  | H : (_, _) = (_, _) |- _ => injection H as H
  | H : (match ?x with (_, _) => _ end) _ = (_, Ret _) |- _ => destruct x eqn:?
  end.
Ltac st_inv := repeat (st_inv_step; cbn [fst snd] in *).
(** Also split on the conditions of the code. *)
Ltac st_inv_all :=
  repeat first [progress st_inv
    | match goal with
      | H : (match ?x with _ => _ end) _ = (_, Ret _) |- _ => destruct x eqn:?
      end].

(** ** What a computation does to its state, whatever it returns *)

Definition preserves {S E A} (R : relation S) (m : st S E A) : Prop := ∀ s, R s (m s).1.

Section Preserves.
Context {S E : Type} (R : relation S) `{!PreOrder R}.

Lemma preserves_bind {A B} (m : st S E A) (f : A → st S E B) :
  preserves R m → (∀ a, preserves R (f a)) → preserves R (m ≫= f).
Proof.
  intros Hm Hf s. specialize (Hm s). unfold mbind, st_bind.
  destruct (m s) as [s' [a|e|]]; cbn in *; [|done..]. etrans; [done|apply Hf].
Qed.
Lemma preserves_mret {A} (a : A) : preserves R (mret a : st S E A).
Proof. intros s. cbn. reflexivity. Qed.
Lemma preserves_throw {A} e : preserves R (throw e : st S E A).
Proof. intros s. cbn. reflexivity. Qed.
Lemma preserves_panic {A} : preserves R (panic : st S E A).
Proof. intros s. cbn. reflexivity. Qed.
Lemma preserves_get : preserves R (get : st S E S).
Proof. intros s. cbn. reflexivity. Qed.
Lemma preserves_gets {A} (f : S → A) : preserves R (gets f : st S E A).
Proof. intros s. cbn. reflexivity. Qed.
Lemma preserves_of_outcome {A} o : preserves R (of_outcome o : st S E A).
Proof. intros s. cbn. reflexivity. Qed.
Lemma preserves_of_result {A} r : preserves R (of_result r : st S E A).
Proof. intros s. cbn. reflexivity. Qed.
Lemma preserves_of_option {A} e o : preserves R (of_option e o : st S E A).
Proof. intros s. cbn. reflexivity. Qed.
Lemma preserves_unwrap {A} o : preserves R (unwrap o : st S E A).
Proof. intros s. cbn. reflexivity. Qed.
Lemma preserves_expect_ok {E' A} r : preserves R (expect_ok (E' := E') r : st S E A).
Proof. intros s. cbn. reflexivity. Qed.
Lemma preserves_attempt {E' A} (m : st S E' A) :
  preserves R m → preserves R (attempt m : st S E _).
Proof. intros Hm s. specialize (Hm s). unfold attempt. by destruct (m s) as [? []]. Qed.
Lemma preserves_map_err {E' A} f (m : st S E' A) :
  preserves R m → preserves R (map_err f m : st S E A).
Proof. intros Hm s. specialize (Hm s). unfold map_err. by destruct (m s) as [? []]. Qed.
End Preserves.

Lemma run_preserves {S E A} (R : relation S) (m : st S E A) s s' r :
  preserves R m → m s = (s', r) → R s s'.
Proof. intros Hm Hr. specialize (Hm s). by rewrite Hr in Hm. Qed.

(** A computation that keeps [R] when it does not return. *)
Definition fails_keeping {S E A} (R : relation S) (m : st S E A) : Prop :=
  ∀ s s' r, m s = (s', r) → match r with Ret _ => True | _ => R s s' end.

Section FailsKeeping.
Context {S E : Type} (R : relation S) `{!PreOrder R}.

Lemma preserves_fails_keeping {A} (m : st S E A) : preserves R m → fails_keeping R m.
Proof. intros Hm s s' r Hr. specialize (Hm s). rewrite Hr in Hm. cbn in Hm. by destruct r. Qed.
Lemma fails_keeping_total {A} (m : st S E A) :
  (∀ s, ∃ s' a, m s = (s', Ret a)) → fails_keeping R m.
Proof. intros Hm s s' r Hr. destruct (Hm s) as (s1 & a & Hs). rewrite Hs in Hr. by injection Hr as <- <-. Qed.
Lemma fails_keeping_bind {A B} (m : st S E A) (f : A → st S E B) :
  preserves R m → (∀ a, fails_keeping R (f a)) → fails_keeping R (m ≫= f).
Proof.
  intros Hm Hf s s' r. specialize (Hm s). unfold mbind, st_bind.
  destruct (m s) as [s1 [a|e|]]; cbn in Hm; [|by intros [= <- <-]..].
  intros Hr. apply Hf in Hr. destruct r; [done|by etrans..].
Qed.
End FailsKeeping.

Create HintDb preserves discriminated.
#[export] Hint Resolve preserves_mret preserves_throw preserves_panic preserves_get
  preserves_gets preserves_of_outcome preserves_of_result preserves_of_option
  preserves_unwrap preserves_expect_ok preserves_attempt preserves_map_err : preserves.

(** Walk through the statements of a computation. *)
Ltac preserve :=
  repeat first
    [ progress intros
    | apply preserves_bind; [typeclasses eauto| |]
    | solve [eauto with preserves typeclass_instances]
    | match goal with |- preserves _ (match ?x with _ => _ end) => destruct x end ].

Ltac keep_when_failing :=
  repeat first
    [ progress intros
    | match goal with |- fails_keeping _ (match ?x with _ => _ end) => destruct x end
    | apply fails_keeping_bind; [typeclasses eauto|solve [preserve]|]
    | apply preserves_fails_keeping; solve [preserve]
    | solve [apply fails_keeping_total; intros; do 2 eexists; reflexivity] ].

(** ** Which errors a computation can end with *)

Definition raises {S E A} (P : E → Prop) (m : st S E A) : Prop :=
  ∀ s s' e, m s = (s', Raise e) → P e.

Section Raises.
Context {S E : Type} (P : E → Prop).

Lemma raises_bind {A B} (m : st S E A) (f : A → st S E B) :
  raises P m → (∀ a, raises P (f a)) → raises P (m ≫= f).
Proof.
  intros Hm Hf s s' e. unfold mbind, st_bind. destruct (m s) as [s1 [a|e'|]] eqn:Hs.
  - apply Hf.
  - intros [= <- <-]. by eapply Hm.
  - done.
Qed.
Lemma raises_mret {A} (a : A) : raises P (mret a : st S E A).
Proof. by intros s s' e. Qed.
Lemma raises_throw {A} e : P e → raises P (throw e : st S E A).
Proof. by intros He s s' e' [= <- <-]. Qed.
Lemma raises_panic {A} : raises P (panic : st S E A).
Proof. by intros s s' e. Qed.
Lemma raises_of_option {A} e o : P e → raises P (of_option e o : st S E A).
Proof. intros He s s' e'. unfold of_option. destruct o; naive_solver. Qed.
Lemma raises_of_result {A} (r : result E A) :
  (∀ e, r = Err e → P e) → raises P (of_result r : st S E A).
Proof. intros He s s' e'. unfold of_result. destruct r; naive_solver. Qed.
Lemma raises_unwrap {A} o : raises P (unwrap o : st S E A).
Proof. intros s s' e'. unfold unwrap. destruct o; naive_solver. Qed.
Lemma raises_expect_ok {E' A} r : raises P (expect_ok (E' := E') r : st S E A).
Proof. intros s s' e'. unfold expect_ok. destruct r; naive_solver. Qed.
Lemma raises_attempt {E' A} (m : st S E' A) : raises P (attempt m : st S E _).
Proof. intros s s' e'. unfold attempt. destruct (m s) as [? []]; naive_solver. Qed.
Lemma raises_map_err {E' A} (f : E' → E) (m : st S E' A) :
  (∀ e, P (f e)) → raises P (map_err f m).
Proof. intros Hf s s' e. unfold map_err. destruct (m s) as [? []]; naive_solver. Qed.
End Raises.

Create HintDb raises discriminated.
#[export] Hint Resolve raises_mret raises_panic raises_unwrap raises_expect_ok
  raises_attempt : raises.

(** Walk through the statements; what is left are the errors thrown. *)
Ltac raise :=
  repeat first
    [ progress intros
    | solve [eauto with raises]
    | apply raises_bind
    | apply raises_throw
    | apply raises_of_option
    | apply raises_of_result
    | apply raises_map_err
    | match goal with |- raises _ (match ?x with _ => _ end) => destruct x end ].

(** ** Computations that do not panic *)

Definition total {S E A} (m : st S E A) : Prop := ∀ s, (m s).2 ≠ Panic.

Section Total.
Context {S E : Type}.

Lemma total_bind {A B} (m : st S E A) (f : A → st S E B) :
  total m → (∀ a, total (f a)) → total (m ≫= f).
Proof.
  intros Hm Hf s. specialize (Hm s). unfold mbind, st_bind.
  destruct (m s) as [s' [a|e|]]; cbn in *; [apply Hf|done..].
Qed.
(** With what is known of a value the first part returned. *)
Lemma total_bind_Ret {A B} (m : st S E A) (f : A → st S E B) :
  total m → (∀ s s' a, m s = (s', Ret a) → total (f a)) → total (m ≫= f).
Proof.
  intros Hm Hf s. specialize (Hm s). unfold mbind, st_bind.
  destruct (m s) as [s' [a|e|]] eqn:Hs; cbn in *; [by eapply Hf|done..].
Qed.
Lemma total_mret {A} (a : A) : total (mret a : st S E A).
Proof. by intros s. Qed.
Lemma total_throw {A} e : total (throw e : st S E A).
Proof. by intros s. Qed.
Lemma total_get : total (get : st S E S).
Proof. by intros s. Qed.
Lemma total_modify f : total (modify f : st S E ()).
Proof. by intros s. Qed.
Lemma total_of_option {A} e o : total (of_option e o : st S E A).
Proof. intros s. unfold of_option. by destruct o. Qed.
Lemma total_of_result {A} r : total (of_result r : st S E A).
Proof. intros s. unfold of_result. by destruct r. Qed.
Lemma total_of_outcome {A} o : o ≠ Panic → total (of_outcome o : st S E A).
Proof. by intros Ho s. Qed.
Lemma total_unwrap {A} o : is_Some o → total (unwrap o : st S E A).
Proof. intros [a ->] s. done. Qed.
Lemma total_attempt {E' A} (m : st S E' A) : total m → total (attempt m : st S E _).
Proof. intros Hm s. specialize (Hm s). unfold attempt. by destruct (m s) as [? []]. Qed.
Lemma total_map_err {E' A} (f : E' → E) (m : st S E' A) : total m → total (map_err f m).
Proof. intros Hm s. specialize (Hm s). unfold map_err. by destruct (m s) as [? []]. Qed.
End Total.

Create HintDb total discriminated.
#[export] Hint Resolve total_mret total_throw total_get total_modify total_of_option
  total_of_result total_attempt total_map_err : total.

(** Walk through the statements; what is left are the panics that are possible. *)
Ltac totally :=
  repeat first
    [ progress intros
    | solve [eauto with total]
    | match goal with
      | |- total (map_err _ _) => apply total_map_err
      | |- total (_ ≫= _) => apply total_bind
      end
    | match goal with |- total (match ?x with _ => _ end) => destruct x eqn:? end ].

(** ** [HashMap]s *)

(** [collect] into a [HashMap]: a later entry replaces an earlier one. *)
Definition collect_map {A} (l : list (string * A)) : gmap string A :=
  list_to_map (reverse l).

Lemma collect_map_NoDup {A} (l : list (string * A)) k v :
  NoDup l.*1 → collect_map l !! k = Some v ↔ (k, v) ∈ l.
Proof.
  intros Hnd. unfold collect_map. rewrite <-elem_of_list_to_map.
  - apply elem_of_reverse.
  - by rewrite fmap_reverse, reverse_Permutation.
Qed.
