(* ===== verification/Machine.v ===== *)
(** * Machine integers and durations

    Fixed-width integers are [Z] with their range; an arithmetic operation out
    of range panics in a debug build and wraps around in a release build (the
    workspace's Cargo.toml leaves [overflow-checks] at its default in both
    profiles).  [Duration] is a [Z] of nanoseconds. *)
From S2P Require Import Prelude.
From Stdlib Require Import ZArith Lia.

(** The Cargo profile the program was built with. *)
Variant profile := Debug | Release.

Definition in_u64 (z : Z) : Prop := 0 ≤ z < 2 ^ 64.
Definition in_u32 (z : Z) : Prop := 0 ≤ z < 2 ^ 32.
Definition in_i64 (z : Z) : Prop := - 2 ^ 63 ≤ z < 2 ^ 63.

#[export] Instance in_u64_dec z : Decision (in_u64 z).
Proof. unfold in_u64. apply _. Defined.
#[export] Instance in_u32_dec z : Decision (in_u32 z).
Proof. unfold in_u32. apply _. Defined.
#[export] Instance in_i64_dec z : Decision (in_i64 z).
Proof. unfold in_i64. apply _. Defined.

Definition U64_MAX : Z := 2 ^ 64 - 1.

(** Casts with [as]. *)
Definition as_u64 (z : Z) : Z := z mod 2 ^ 64.
Definition as_u32 (z : Z) : Z := z mod 2 ^ 32.
Definition as_i64 (z : Z) : Z :=
  let m := z mod 2 ^ 64 in if decide (m < 2 ^ 63) then m else m - 2 ^ 64.

Section Arith.
Context {E : Type} (p : profile).

(** The [u64] result of an operation whose exact value is [z]. *)
Definition u64_of (z : Z) : outcome E Z :=
  if decide (in_u64 z) then Ret z
  else match p with Debug => Panic | Release => Ret (as_u64 z) end.

Definition u64_add (a b : Z) : outcome E Z := u64_of (a + b).
Definition u64_sub (a b : Z) : outcome E Z := u64_of (a - b).
End Arith.

(** [Duration]: [secs : u64] and [nanos < 10^9] as one count of nanoseconds. *)
Definition NANOS_PER_SEC : Z := 10 ^ 9.
Definition in_duration (d : Z) : Prop := 0 ≤ d < 2 ^ 64 * NANOS_PER_SEC.
#[export] Instance in_duration_dec z : Decision (in_duration z).
Proof. unfold in_duration. apply _. Defined.

Definition as_secs (d : Z) : Z := d / NANOS_PER_SEC.
Definition from_secs (s : Z) : Z := s * NANOS_PER_SEC.

(** [Duration + Duration] panics on overflow in every profile. *)
Definition duration_add {E} (a b : Z) : outcome E Z :=
  if decide (in_duration (a + b)) then Ret (a + b) else Panic.

Create HintDb machine discriminated.
#[export] Hint Unfold in_u64 in_u32 in_i64 in_duration as_u64 as_u32 as_i64
  U64_MAX as_secs from_secs NANOS_PER_SEC : machine.

(** Arithmetic goals about machine integers. *)
Ltac machine := autounfold with machine in *; lia.

Lemma as_u64_range z : in_u64 (as_u64 z).
Proof. unfold in_u64, as_u64. apply Z.mod_pos_bound. lia. Qed.

Lemma as_u32_range z : in_u32 (as_u32 z).
Proof. unfold in_u32, as_u32. apply Z.mod_pos_bound. lia. Qed.

Lemma as_u64_id z : in_u64 z → as_u64 z = z.
Proof. unfold in_u64, as_u64. intros. by apply Z.mod_small. Qed.

Lemma as_u32_id z : in_u32 z → as_u32 z = z.
Proof. unfold in_u32, as_u32. intros. by apply Z.mod_small. Qed.

(** A negative [i64] cast to [u64] is at least [2^63]. *)
Lemma as_u64_neg z : in_i64 z → z < 0 → as_u64 z = z + 2 ^ 64.
Proof.
  unfold in_i64, as_u64. intros. symmetry.
  apply Z.mod_unique with (q := -1); lia.
Qed.

Lemma as_i64_range z : in_i64 (as_i64 z).
Proof.
  unfold in_i64, as_i64. pose proof (Z.mod_pos_bound z (2 ^ 64)).
  case_decide; lia.
Qed.

Lemma u64_of_ok {E} p z : in_u64 z → u64_of (E := E) p z = Ret z.
Proof. intros. unfold u64_of. by rewrite decide_True. Qed.

Lemma u64_of_release {E} z : u64_of (E := E) Release z = Ret (as_u64 z).
Proof.
  unfold u64_of. case_decide; [|done]. by rewrite as_u64_id.
Qed.

Lemma u64_sub_ok {E} p a b :
  in_u64 a → in_u64 b → b ≤ a → u64_sub (E := E) p a b = Ret (a - b).
Proof. intros. apply u64_of_ok. machine. Qed.

(** Underflow: a wrapped difference in release, a panic in debug. *)
Lemma u64_sub_under {E} p a b :
  in_u64 a → in_u64 b → a < b →
  u64_sub (E := E) p a b =
    match p with Debug => Panic | Release => Ret (a - b + 2 ^ 64) end.
Proof.
  intros. unfold u64_sub, u64_of. rewrite decide_False by machine.
  destruct p; [done|]. f_equal. unfold as_u64. symmetry.
  apply Z.mod_unique with (q := -1); machine.
Qed.

Lemma u64_of_Ret {E} p z v :
  u64_of (E := E) p z = Ret v → v = as_u64 z ∧ in_u64 v.
Proof.
  unfold u64_of. case_decide as H.
  - intros [= <-]. by rewrite as_u64_id.
  - destruct p; intros; simplify_eq. split; [done|apply as_u64_range].
Qed.

Lemma as_secs_range d : in_duration d → in_u64 (as_secs d).
Proof.
  unfold in_duration, in_u64, as_secs, NANOS_PER_SEC. intros [].
  split; [apply Z.div_pos; lia|]. apply Z.div_lt_upper_bound; lia.
Qed.

Lemma duration_add_Ret {E} a b d :
  duration_add (E := E) a b = Ret d ↔ d = a + b ∧ in_duration (a + b).
Proof. unfold duration_add. case_decide; naive_solver. Qed.

#[export] Hint Resolve as_u64_range as_u32_range as_i64_range as_secs_range : machine.
