(* ===== verification/Text.v ===== *)
(** * Strings and bytes

    A Rust [String]/[&str] is the [string] of its UTF-8 bytes, so [len] is
    [String.length]; [Vec<u8>] is [list byte].  The functions of the standard
    library the program uses on them: [join], [split], [splitn], [lines],
    [parse::<u64>], [parse::<i64>], [parse::<u8>], [to_string], [from_utf8],
    [replace], [strip_prefix], [ends_with]. *)
From Stdlib Require Import ZArith Lia Strings.Byte Strings.String.
From Stdlib Require Export Strings.Ascii.
From S2P Require Import Prelude Machine.

Open Scope stdpp_scope.
Open Scope Z_scope.

#[export] Instance byte_eq_dec : EqDecision byte := Byte.byte_eq_dec.

#[export] Program Instance byte_countable : Countable byte :=
  inj_countable Byte.to_N Byte.of_N _.
Next Obligation. intros b. apply Byte.of_to_N. Qed.

Definition bytes : Type := list byte.

(** [str::as_bytes]. *)
Definition as_bytes (s : string) : bytes := list_byte_of_string s.
Definition of_bytes (bs : bytes) : string := string_of_list_byte bs.

(** [str::len]. *)
Definition len (s : string) : Z := Z.of_nat (String.length s).

(** [Vec::len]. *)
Definition vec_len {A} (l : list A) : Z := Z.of_nat (length l).

(** [[String]::join]. *)
Definition join (sep : string) (l : list string) : string := String.concat sep l.

Definition newline : string := String "010" "".

Definition is_empty (s : string) : bool :=
  match s with EmptyString => true | _ => false end.

(** [str::split(c)] for a character: always at least one piece. *)
Fixpoint split (c : ascii) (s : string) : list string :=
  match s with
  | EmptyString => [EmptyString]
  | String a s' =>
      if decide (a = c) then EmptyString :: split c s'
      else match split c s' with
           | [] => [String a EmptyString]
           | p :: ps => String a p :: ps
           end
  end.

(** [str::split_once(c)]: at the first occurrence of [c]. *)
Fixpoint split_once (c : ascii) (s : string) : option (string * string) :=
  match s with
  | EmptyString => None
  | String a s' =>
      if decide (a = c) then Some (EmptyString, s')
      else match split_once c s' with
           | Some (l, r) => Some (String a l, r)
           | None => None
           end
  end.

(** [str::strip_prefix] and [starts_with]. *)
Fixpoint strip_prefix (p s : string) : option string :=
  match p, s with
  | EmptyString, _ => Some s
  | String a p', String b s' => if decide (a = b) then strip_prefix p' s' else None
  | _, _ => None
  end.
Definition starts_with (p s : string) : bool :=
  match strip_prefix p s with Some _ => true | None => false end.
Definition ends_with (p s : string) : bool :=
  starts_with (String.rev p) (String.rev s).

(** [s.replace(c, "")] for a one-character pattern. *)
Fixpoint remove_char (c : ascii) (s : string) : string :=
  match s with
  | EmptyString => EmptyString
  | String a s' => if decide (a = c) then remove_char c s' else String a (remove_char c s')
  end.

Definition has_char (c : ascii) (s : string) : Prop := c ∈ list_ascii_of_string s.
#[export] Instance has_char_dec c s : Decision (has_char c s).
Proof. unfold has_char. apply _. Defined.

(** ** Decimal integers *)

Definition digit_of (a : ascii) : option Z :=
  let n := Z.of_N (N_of_ascii a) in
  if decide (48 ≤ n ≤ 57) then Some (n - 48) else None.

(** The loop of [from_str_radix]: multiply and add, both checked against the
    bound of the type. *)
Fixpoint parse_digits (max : Z) (acc : Z) (s : string) : option Z :=
  match s with
  | EmptyString => Some acc
  | String a s' =>
      match digit_of a with
      | None => None
      | Some d =>
          let acc' := acc * 10 + d in
          if decide (acc' ≤ max) then parse_digits max acc' s' else None
      end
  end.

(** [parse] at an unsigned type: an optional plus sign, then at least one digit. *)
Definition parse_unsigned (max : Z) (s : string) : option Z :=
  match s with
  | EmptyString => None
  | String a s' =>
      if decide (a = "+"%char) then
        (if is_empty s' then None else parse_digits max 0 s')
      else parse_digits max 0 s
  end.

Definition parse_u64 : string → option Z := parse_unsigned (2 ^ 64 - 1).
Definition parse_u8 : string → option Z := parse_unsigned 255.

(** [parse::<i64>]: an optional sign, then at least one digit. *)
Definition parse_i64 (s : string) : option Z :=
  match s with
  | EmptyString => None
  | String a s' =>
      if decide (a = "+"%char) then
        (if is_empty s' then None else parse_digits (2 ^ 63 - 1) 0 s')
      else if decide (a = "-"%char) then
        (if is_empty s' then None else Z.opp <$> parse_digits (2 ^ 63) 0 s')
      else parse_digits (2 ^ 63 - 1) 0 s
  end.

(** [to_string] of an integer. *)
Definition int_to_string (z : Z) : string := pretty z.

(** ** UTF-8 *)

Definition in_range (lo hi : Z) (b : byte) : bool :=
  let n := Z.of_N (Byte.to_N b) in bool_decide (lo ≤ n ≤ hi).
Definition is_cont : byte → bool := in_range 128 191.

(** Well-formed UTF-8 (the table of the Unicode standard), as
    [String::from_utf8] checks it; [fuel] bounds the number of characters. *)
Fixpoint utf8_valid (fuel : nat) (bs : bytes) : bool :=
  match fuel with
  | O => match bs with [] => true | _ => false end
  | S fuel =>
      match bs with
      | [] => true
      | b :: r =>
          if in_range 0 127 b then utf8_valid fuel r
          else if in_range 194 223 b then
            match r with c :: r => is_cont c && utf8_valid fuel r | _ => false end
          else if in_range 224 239 b then
            match r with
            | c :: d :: r =>
                (if in_range 224 224 b then in_range 160 191 c
                 else if in_range 237 237 b then in_range 128 159 c
                 else is_cont c) && is_cont d && utf8_valid fuel r
            | _ => false
            end
          else if in_range 240 244 b then
            match r with
            | c :: d :: e :: r =>
                (if in_range 240 240 b then in_range 144 191 c
                 else if in_range 244 244 b then in_range 128 143 c
                 else is_cont c) && is_cont d && is_cont e && utf8_valid fuel r
            | _ => false
            end
          else false
      end
  end.

(** [String::from_utf8]. *)
Definition from_utf8 (bs : bytes) : option string :=
  if utf8_valid (length bs) bs then Some (of_bytes bs) else None.

(** ** Integers as bytes *)

Definition byte_of_Z (z : Z) : byte := default Byte.x00 (Byte.of_N (Z.to_N (z mod 256))).
Definition Z_of_byte (b : byte) : Z := Z.of_N (Byte.to_N b).

(** [to_le_bytes] of an [n]-byte integer. *)
Fixpoint le_bytes (n : nat) (z : Z) : bytes :=
  match n with
  | O => []
  | S n => byte_of_Z z :: le_bytes n (z / 256)
  end.
(** [to_be_bytes]. *)
Definition be_bytes (n : nat) (z : Z) : bytes := reverse (le_bytes n z).

(** [from_be_bytes]. *)
Definition be_decode (bs : bytes) : Z := foldl (λ acc b, acc * 256 + Z_of_byte b) 0 bs.

(** ** Lemmas *)

Create HintDb text discriminated.

Lemma digit_of_char (n : N) :
  (n < 10)%N → digit_of (pretty_N_char n) = Some (Z.of_N n).
Proof.
  intros. assert (n = 0 ∨ n = 1 ∨ n = 2 ∨ n = 3 ∨ n = 4 ∨ n = 5 ∨ n = 6
    ∨ n = 7 ∨ n = 8 ∨ n = 9)%N as H' by lia.
  by repeat destruct H' as [->|H']; [..|subst].
Qed.

(** Parsing a number that was printed in front of [s] goes on with its value. *)
Lemma parse_digits_pretty max (x : N) s :
  0 ≤ max →
  parse_digits max 0 (pretty_N_go x s) =
    if decide (Z.of_N x ≤ max) then parse_digits max (Z.of_N x) s else None.
Proof.
  intros Hm. revert s. induction (N.lt_wf_0 x) as [x _ IH]; intros s.
  assert (x = 0 ∨ 0 < x)%N as [->|Hx] by lia.
  - rewrite pretty_N_go_0, decide_True; [done|lia].
  - rewrite pretty_N_go_step by done.
    rewrite IH by (by apply N.div_lt). simpl.
    rewrite digit_of_char by (by apply N.mod_lt).
    assert (Z.of_N (x `div` 10) * 10 + Z.of_N (x `mod` 10) = Z.of_N x) as ->.
    { pose proof (N.div_mod x 10 ltac:(lia)). lia. }
    assert (x `div` 10 ≤ x)%N by (apply N.Div0.div_le_upper_bound; lia).
    repeat case_decide; try done; lia.
Qed.

Lemma int_to_string_pos p : int_to_string (Z.pos p) = pretty_N_go (N.pos p) EmptyString.
Proof. reflexivity. Qed.

Lemma parse_digits_to_string max z :
  0 ≤ z ≤ max → parse_digits max 0 (int_to_string z) = Some z.
Proof.
  intros Hz. destruct z as [|p|p]; [..|lia].
  - change (int_to_string 0) with "0". cbn -[decide digit_of]. change (digit_of "0"%char) with (Some 0). cbn -[decide]. by rewrite decide_True by lia.
  - rewrite int_to_string_pos, parse_digits_pretty by lia. rewrite decide_True by (simpl; lia). done.
Qed.

Lemma parse_unsigned_digits max s v :
  s ≠ EmptyString → parse_digits max 0 s = Some v → parse_unsigned max s = Some v.
Proof.
  destruct s as [|a s]; [done|]. intros _ H. unfold parse_unsigned.
  case_decide as Ha; [|done]. subst a. simpl in H. discriminate.
Qed.

Lemma pretty_N_go_length x s :
  (String.length s ≤ String.length (pretty_N_go x s))%nat.
Proof.
  revert s. induction (N.lt_wf_0 x) as [x _ IH]; intros s.
  assert (x = 0 ∨ 0 < x)%N as [->|Hx] by lia; [by rewrite pretty_N_go_0|].
  rewrite pretty_N_go_step by done.
  etrans; [|by apply IH, N.div_lt]. simpl. lia.
Qed.

Lemma int_to_string_nonempty z : int_to_string z ≠ EmptyString.
Proof.
  destruct z as [|p|p]; [done| |done].
  rewrite int_to_string_pos, pretty_N_go_step by done. intros Hc.
  pose proof (pretty_N_go_length (N.pos p `div` 10)
    (String (pretty_N_char (N.pos p `mod` 10)) EmptyString)) as Hl.
  rewrite Hc in Hl. simpl in Hl. lia.
Qed.

Lemma parse_unsigned_to_string max z :
  0 ≤ z ≤ max → parse_unsigned max (int_to_string z) = Some z.
Proof.
  intros. apply parse_unsigned_digits; [apply int_to_string_nonempty|].
  by apply parse_digits_to_string.
Qed.

(** [n.to_string().parse::<u64>()] gives [n] back. *)
Lemma parse_u64_to_string z : in_u64 z → parse_u64 (int_to_string z) = Some z.
Proof. unfold in_u64. intros. apply parse_unsigned_to_string. lia. Qed.

Lemma parse_digits_bounds max acc s v :
  0 ≤ acc ≤ max → parse_digits max acc s = Some v → 0 ≤ v ≤ max.
Proof.
  revert acc. induction s as [|a s IH]; simpl; intros acc Hacc H; [by simplify_eq|].
  destruct (digit_of a) as [d|] eqn:Hd; [|done]. case_decide; [|done].
  apply (IH (acc * 10 + d)); [|done]. unfold digit_of in Hd. case_decide; simplify_eq. lia.
Qed.

Lemma parse_u64_range s v : parse_u64 s = Some v → in_u64 v.
Proof.
  unfold parse_u64, parse_unsigned, in_u64. intros H.
  assert (0 ≤ v ≤ 2 ^ 64 - 1); [|lia].
  destruct s as [|a s]; [done|]. case_decide.
  - destruct (is_empty s); [done|]. by eapply parse_digits_bounds; [|exact H].
  - by eapply parse_digits_bounds; [|exact H].
Qed.

Lemma strip_prefix_Some p s r : strip_prefix p s = Some r ↔ s = p +:+ r.
Proof.
  revert s. induction p as [|a p IH]; intros s; simpl.
  { split; [by intros [= ->]|by intros ->]. }
  destruct s as [|b s]; [done|]. case_decide as Hab.
  - subst. rewrite IH. split; [by intros ->|by intros [= ->]].
  - split; [done|]. intros [=]. congruence.
Qed.

Lemma string_app_inj_l p s s' : p +:+ s = p +:+ s' → s = s'.
Proof. induction p; simpl; [done|]. intros [=]. auto. Qed.

Lemma string_app_assoc (a b c : string) : (a +:+ b) +:+ c = a +:+ (b +:+ c).
Proof.
  induction a as [|x a IH]; [done|].
  change (String x ((a +:+ b) +:+ c) = String x (a +:+ (b +:+ c))). by rewrite IH.
Qed.

Lemma list_ascii_app s s' :
  list_ascii_of_string (s +:+ s') = (list_ascii_of_string s ++ list_ascii_of_string s')%list.
Proof. induction s; simpl; by f_equal. Qed.

Lemma has_char_app c s s' : has_char c (s +:+ s') ↔ has_char c s ∨ has_char c s'.
Proof. unfold has_char. rewrite list_ascii_app. apply elem_of_app. Qed.

Lemma has_char_cons c a s : has_char c (String a s) ↔ c = a ∨ has_char c s.
Proof. unfold has_char. simpl. apply elem_of_cons. Qed.

Lemma has_char_nil c : ¬ has_char c EmptyString.
Proof. unfold has_char. simpl. apply not_elem_of_nil. Qed.

(** A separator that does not occur on the left is found where it was put. *)
Lemma split_once_app c l r :
  ¬ has_char c l → split_once c (l +:+ String c r) = Some (l, r).
Proof.
  induction l as [|a l IH]; simpl; intros H; [by rewrite decide_True|].
  rewrite has_char_cons in H. rewrite decide_False by naive_solver.
  rewrite IH by naive_solver. done.
Qed.

Lemma split_no_char c s : ¬ has_char c s → split c s = [s].
Proof.
  induction s as [|a s IH]; simpl; [done|]. rewrite has_char_cons. intros Hc.
  rewrite decide_False by naive_solver. rewrite IH by naive_solver. done.
Qed.

Lemma split_app c s r : ¬ has_char c s → split c (s +:+ String c r) = s :: split c r.
Proof.
  induction s as [|a s IH]; intros Hc.
  - change (split c (String c r) = EmptyString :: split c r). simpl. by rewrite decide_True.
  - change (split c (String a (s +:+ String c r)) = String a s :: split c r).
    simpl. rewrite has_char_cons in Hc. rewrite decide_False by naive_solver.
    rewrite IH by naive_solver. done.
Qed.

(** Splitting what was joined with a separator that occurs in no piece. *)
Lemma split_join c l :
  l ≠ [] → Forall (λ s, ¬ has_char c s) l → split c (join (String c EmptyString) l) = l.
Proof.
  intros Hne Hl. induction Hl as [|s l Hs Hl IH]; [done|].
  destruct l as [|s' l]; [by apply split_no_char|].
  change (join (String c EmptyString) (s :: s' :: l)) with
    (s +:+ String c (join (String c EmptyString) (s' :: l))).
  rewrite split_app by done. by rewrite IH.
Qed.

Lemma no_dash_digits x s :
  ¬ has_char "-"%char s → ¬ has_char "-"%char (pretty_N_go x s).
Proof.
  revert s. induction (N.lt_wf_0 x) as [x _ IH]; intros s Hs.
  assert (x = 0 ∨ 0 < x)%N as [->|Hx] by lia; [by rewrite pretty_N_go_0|].
  rewrite pretty_N_go_step by done. apply IH; [by apply N.div_lt|].
  rewrite has_char_cons. intros [H|]; [|done].
  unfold pretty_N_char in H. by repeat case_match.
Qed.

Lemma int_to_string_no_dash z : 0 ≤ z → ¬ has_char "-"%char (int_to_string z).
Proof.
  destruct z as [|p|p]; [| |lia]; intros _.
  - vm_compute. intros H. inversion H as [|? ? ? H']; subst. inversion H'.
  - rewrite int_to_string_pos. apply no_dash_digits, has_char_nil.
Qed.

Lemma int_to_string_inj z z' :
  0 ≤ z → 0 ≤ z' → int_to_string z = int_to_string z' → z = z'.
Proof. intros _ _ H. by apply (inj pretty) in H. Qed.

Lemma list_byte_of_bytes bs : as_bytes (of_bytes bs) = bs.
Proof. apply list_byte_of_string_of_list_byte. Qed.

Lemma of_bytes_as_bytes s : of_bytes (as_bytes s) = s.
Proof. apply string_of_list_byte_of_string. Qed.

#[export] Instance as_bytes_inj : Inj (=) (=) as_bytes.
Proof. intros s s' H. by rewrite <-(of_bytes_as_bytes s), H, of_bytes_as_bytes. Qed.
Lemma from_utf8_Some b t : from_utf8 b = Some t → b = as_bytes t.
Proof.
  unfold from_utf8. destruct (utf8_valid _ _); [|done]. intros [= <-].
  by rewrite list_byte_of_bytes.
Qed.

(** ASCII text is UTF-8. *)
Lemma from_utf8_ascii s :
  Forall (λ b, in_range 0 127 b = true) (as_bytes s) → from_utf8 (as_bytes s) = Some s.
Proof.
  intros Hs. unfold from_utf8. rewrite of_bytes_as_bytes.
  replace (utf8_valid (length (as_bytes s)) (as_bytes s)) with true; [done|]. symmetry.
  induction Hs as [|b l Hb _ IH]; [done|]. cbn [length utf8_valid]. by rewrite Hb.
Qed.

Lemma length_as_bytes s : length (as_bytes s) = String.length s.
Proof. induction s as [|a s IH]; [done|]. unfold as_bytes in *. simpl. by f_equal. Qed.

Lemma Z_of_byte_of_Z z : Z_of_byte (byte_of_Z z) = z mod 256.
Proof.
  unfold byte_of_Z, Z_of_byte. pose proof (Z.mod_pos_bound z 256 ltac:(lia)).
  destruct (Byte.of_N (Z.to_N (z mod 256))) eqn:Hb; cbn.
  - apply Byte.to_of_N in Hb. rewrite Hb. lia.
  - apply Byte.of_N_None_iff in Hb. lia.
Qed.

Lemma Z_of_byte_range b : 0 ≤ Z_of_byte b < 256.
Proof. unfold Z_of_byte. destruct b; cbn; lia. Qed.

Lemma length_le_bytes n z : length (le_bytes n z) = n.
Proof. revert z. induction n; intros z; cbn; by f_equal. Qed.
Lemma length_be_bytes n z : length (be_bytes n z) = n.
Proof. unfold be_bytes. rewrite length_reverse. apply length_le_bytes. Qed.

Lemma be_decode_app bs b : be_decode (bs ++ [b]) = be_decode bs * 256 + Z_of_byte b.
Proof. unfold be_decode. by rewrite foldl_app. Qed.

(** [from_be_bytes (to_be_bytes z)]. *)
Lemma be_decode_bytes n z : 0 ≤ z < 256 ^ Z.of_nat n → be_decode (be_bytes n z) = z.
Proof.
  revert z. induction n as [|n IH]; intros z Hz; [cbn in *; lia|].
  unfold be_bytes. cbn [le_bytes]. rewrite reverse_cons, be_decode_app.
  fold (be_bytes n (z / 256)). rewrite IH, Z_of_byte_of_Z.
  - pose proof (Z.div_mod z 256). lia.
  - replace (Z.of_nat (S n)) with (Z.of_nat n + 1) in Hz by lia.
    rewrite Z.pow_add_r, Z.pow_1_r in Hz by lia.
    split; [apply Z.div_pos; lia|]. apply Z.div_lt_upper_bound; lia.
Qed.

Lemma be_decode_range bs : 0 ≤ be_decode bs < 256 ^ vec_len bs.
Proof.
  unfold vec_len. induction bs as [|b bs IH] using rev_ind; [cbn; lia|].
  rewrite be_decode_app, length_app, Nat2Z.inj_add, Z.pow_add_r by lia.
  pose proof (Z_of_byte_range b). cbn [length]. change (256 ^ Z.of_nat 1) with 256. nia.
Qed.

#[export] Hint Resolve parse_u64_to_string int_to_string_no_dash has_char_nil : text.
#[export] Hint Rewrite list_byte_of_bytes of_bytes_as_bytes length_as_bytes
  has_char_app has_char_cons : text.

Example parse_u64_plus : parse_u64 "+42" = Some 42.
Proof. reflexivity. Qed.
Example parse_u64_overflow : parse_u64 "18446744073709551616" = None.
Proof. reflexivity. Qed.
Example split_empty : split ","%char "" = [""].
Proof. reflexivity. Qed.
