(* ===== verification/Deps.v ===== *)
(** * Interfaces of the libraries the program calls

    The crates of Cargo.toml are not part of the repository, so each is a
    class of operations ([SshCerts], [Hmac], ...); the definitions of the
    other files take them as arguments.  What the program relies on is a
    second class of laws ([SshCertsLaws], ...), each the documented behaviour
    of the crate; a theorem that needs one says so in its context. *)
From Stdlib Require Import ZArith.
From S2P Require Import Prelude Machine Text.

(** ** sshcerts *)

(** [sshcerts::ssh::CertType]. *)
Variant CertType := User | Host.
#[export] Instance cert_type_eq_dec : EqDecision CertType.
Proof. solve_decision. Defined.
#[export] Instance cert_type_countable : Countable CertType.
Proof.
  refine (inj_countable' (λ t, if t is User then true else false)
    (λ b : bool, if b then User else Host) _).
  by intros [].
Defined.

(** [sshcerts::ssh::Certificate]: the public fields the program reads, sets
    through the builder or assigns. *)
Record Certificate (PK : Type) : Type := mkCertificate {
  c_key : PK;
  c_cert_type : CertType;
  c_serial : Z;
  c_key_id : string;
  c_principals : list string;
  c_valid_after : Z;
  c_valid_before : Z;
  c_critical_options : gmap string string;
  c_extensions : gmap string string;
  c_signature_key : PK;
  c_signature : bytes;
  c_comment : option string;
  c_serialized : bytes;
}.
Arguments mkCertificate {_}.
Arguments c_key {_} _.
Arguments c_cert_type {_} _.
Arguments c_serial {_} _.
Arguments c_key_id {_} _.
Arguments c_principals {_} _.
Arguments c_valid_after {_} _.
Arguments c_valid_before {_} _.
Arguments c_critical_options {_} _.
Arguments c_extensions {_} _.
Arguments c_signature_key {_} _.
Arguments c_signature {_} _.
Arguments c_comment {_} _.
Arguments c_serialized {_} _.

Class SshCerts := {
  PublicKey : Type;
  PrivateKey : Type;
  (** [Fingerprint], compared with [==], and its [hash] field. *)
  Fingerprint : Type;
  fingerprint_eq_dec :: EqDecision Fingerprint;
  fingerprint_hash : Fingerprint → string;
  fingerprint : PublicKey → Fingerprint;
  pk_from_string : string → option PublicKey;
  pk_to_string : PublicKey → string;
  pk_from_bytes : bytes → option PublicKey;
  pk_encode : PublicKey → bytes;
  sk_from_string : string → option PrivateKey;
  sk_from_bytes : bytes → option PrivateKey;
  pubkey : PrivateKey → PublicKey;
  sk_comment : PrivateKey → string;
  (** [key_type.is_sk] *)
  sk_is_sk : PrivateKey → bool;
  (** [PrivateKey::sign] *)
  sk_sign : PrivateKey → bytes → option bytes;
  cert_type_to_string : CertType → string;
  cert_type_as_u32 : CertType → Z;
  cert_type_try_from : string → option CertType;
  standard_extensions : gmap string string;
  (** [Certificate::builder(pubkey, type, signing_pubkey)] *)
  cert_builder : PublicKey → CertType → PublicKey → option (Certificate PublicKey);
  (** [Certificate::sign(signer)] *)
  cert_sign : Certificate PublicKey → PrivateKey → option (Certificate PublicKey);
  tbs_certificate : Certificate PublicKey → bytes;
  add_signature : Certificate PublicKey → bytes → option (Certificate PublicKey);
  cert_to_string : Certificate PublicKey → string;
  (** the error is its text *)
  cert_from_string : string → result string (Certificate PublicKey);
  cert_from_bytes : bytes → option (Certificate PublicKey);
}.

(** [fingerprint().hash], what the program compares. *)
Definition pk_hash `{SshCerts} (pk : PublicKey) : string :=
  fingerprint_hash (fingerprint pk).

(** The builder's setters: the named field is replaced. *)
Section Setters.
Context {PK : Type}.
Implicit Types c : Certificate PK.

Definition set_serial (v : Z) c : Certificate PK :=
  mkCertificate (c_key c) (c_cert_type c) v (c_key_id c) (c_principals c) (c_valid_after
    c) (c_valid_before c) (c_critical_options c) (c_extensions c) (c_signature_key c)
    (c_signature c) (c_comment c) (c_serialized c).
Definition set_key_id (v : string) c : Certificate PK :=
  mkCertificate (c_key c) (c_cert_type c) (c_serial c) v (c_principals c) (c_valid_after
    c) (c_valid_before c) (c_critical_options c) (c_extensions c) (c_signature_key c)
    (c_signature c) (c_comment c) (c_serialized c).
Definition set_principals (v : list string) c : Certificate PK :=
  mkCertificate (c_key c) (c_cert_type c) (c_serial c) (c_key_id c) v (c_valid_after c)
    (c_valid_before c) (c_critical_options c) (c_extensions c) (c_signature_key c)
    (c_signature c) (c_comment c) (c_serialized c).
Definition set_valid_after (v : Z) c : Certificate PK :=
  mkCertificate (c_key c) (c_cert_type c) (c_serial c) (c_key_id c) (c_principals c) v
    (c_valid_before c) (c_critical_options c) (c_extensions c) (c_signature_key c)
    (c_signature c) (c_comment c) (c_serialized c).
Definition set_valid_before (v : Z) c : Certificate PK :=
  mkCertificate (c_key c) (c_cert_type c) (c_serial c) (c_key_id c) (c_principals c)
    (c_valid_after c) v (c_critical_options c) (c_extensions c) (c_signature_key c)
    (c_signature c) (c_comment c) (c_serialized c).
Definition set_critical_options (v : gmap string string) c : Certificate PK :=
  mkCertificate (c_key c) (c_cert_type c) (c_serial c) (c_key_id c) (c_principals c)
    (c_valid_after c) (c_valid_before c) v (c_extensions c) (c_signature_key c)
    (c_signature c) (c_comment c) (c_serialized c).
Definition set_extensions (v : gmap string string) c : Certificate PK :=
  mkCertificate (c_key c) (c_cert_type c) (c_serial c) (c_key_id c) (c_principals c)
    (c_valid_after c) (c_valid_before c) (c_critical_options c) v (c_signature_key c)
    (c_signature c) (c_comment c) (c_serialized c).
(** assignment to the public field, as the agent does *)
Definition set_signature_key (v : PK) c : Certificate PK :=
  mkCertificate (c_key c) (c_cert_type c) (c_serial c) (c_key_id c) (c_principals c)
    (c_valid_after c) (c_valid_before c) (c_critical_options c) (c_extensions c) v
    (c_signature c) (c_comment c) (c_serialized c).
End Setters.

(** Two certificates that say the same: everything signed is equal, keys up to
    their fingerprint (a key read back may have lost its comment). *)
Definition same_tbs `{SshCerts} (c c' : Certificate PublicKey) : Prop :=
  pk_hash (c_key c) = pk_hash (c_key c') ∧ c_cert_type c = c_cert_type c' ∧
  c_serial c = c_serial c' ∧ c_key_id c = c_key_id c' ∧
  c_principals c = c_principals c' ∧
  c_valid_after c = c_valid_after c' ∧ c_valid_before c = c_valid_before c' ∧
  c_critical_options c = c_critical_options c' ∧ c_extensions c = c_extensions c' ∧
  pk_hash (c_signature_key c) = pk_hash (c_signature_key c').

#[export] Instance same_tbs_equivalence `{SshCerts} : Equivalence same_tbs.
Proof.
  unfold same_tbs. split.
  - done.
  - intros c c'. naive_solver.
  - intros c c' c''. intros; destruct_and?. repeat split; congruence.
Qed.

(** What the program relies on. *)
Class SshCertsLaws `{SshCerts} : Prop := {
  (** the builder sets the certified key, the type and the signing key *)
  cert_builder_fields pk ty ca c :
    cert_builder pk ty ca = Some c →
    c_key c = pk ∧ c_cert_type c = ty ∧ c_signature_key c = ca;
  (** signing does not change what is signed *)
  cert_sign_tbs c sk c' : cert_sign c sk = Some c' → same_tbs c c';
  add_signature_tbs c sig c' : add_signature c sig = Some c' → same_tbs c c';
  (** a signed certificate reads back as itself *)
  cert_sign_parses c sk c' :
    cert_sign c sk = Some c' →
    ∃ c'', cert_from_string (cert_to_string c') = Ok c'' ∧ same_tbs c' c'';
  (** a key reads back with its fingerprint *)
  pk_to_string_parses pk :
    ∃ pk', pk_from_string (pk_to_string pk) = Some pk' ∧ pk_hash pk' = pk_hash pk;
  pk_encode_parses pk :
    ∃ pk', pk_from_bytes (pk_encode pk) = Some pk' ∧ pk_hash pk' = pk_hash pk;
  (** the wire values of the certificate types *)
  cert_type_as_u32_values :
    cert_type_as_u32 User = 1 ∧ cert_type_as_u32 Host = 2;
}.

(** ** ring: HMAC and digests *)

Class Hmac := {
  HmacKey : Type;
  hmac_sign : HmacKey → bytes → bytes;
  hmac_verify : HmacKey → bytes → bytes → bool;
  sha256 : bytes → bytes;
}.

Class HmacLaws `{Hmac} : Prop := {
  (** [verify] recomputes the tag and compares it *)
  hmac_verify_spec k m t : hmac_verify k m t = true ↔ t = hmac_sign k m;
}.

(** ** hex *)

Class Hex := {
  hex_encode : bytes → string;
  hex_decode : string → option bytes;
}.

Class HexLaws `{Hex} : Prop := {
  hex_encode_length b : String.length (hex_encode b) = (2 * length b)%nat;
  hex_decode_encode b : hex_decode (hex_encode b) = Some b;
}.

(** ** x509-parser *)

Definition OID_COMMON_NAME : string := "2.5.4.3".

Class X509 := {
  X509Certificate : Type;
  (** [parse_x509_certificate] and [X509Certificate::from_der]; the error is its text *)
  x509_from_der : bytes → result string X509Certificate;
  (** [validity().not_after.timestamp()], an [i64] *)
  not_after_timestamp : X509Certificate → Z;
  (** [subject.iter_rdn()]: per RDN its attributes, an OID and [as_str] of the value *)
  subject_rdns : X509Certificate → list (list (string * option string));
  Spki : Type;
  spki_eq_dec :: EqDecision Spki;
  subject_pki : X509Certificate → Spki;
}.

(** ** zstd *)

Class Zstd := {
  (** the encoder's three fallible calls: create, write, finish *)
  zstd_encoder_new : result string ();
  zstd_write_all : bytes → result string ();
  zstd_finish : bytes → result string bytes;
  (** the decoder: create, read to a string *)
  zstd_decoder_new : bytes → result string ();
  zstd_read_to_string : bytes → result string string;
}.

Class ZstdLaws `{Zstd} : Prop := {
  zstd_decode_encode s bs :
    zstd_finish (as_bytes s) = Ok bs →
    zstd_decoder_new bs = Ok () ∧ zstd_read_to_string bs = Ok s;
}.

(** ** lru: [LruCache<String, Duration>] *)

Class Lru := {
  LruCache : Type;
  (** [LruCache::new(capacity)] *)
  lru_new : Z → LruCache;
  (** [peek]: look up without touching the order *)
  lru_peek : LruCache → string → option Z;
  (** [push]: the cache after, and the entry it returns *)
  lru_push : LruCache → string → Z → LruCache * option (string * Z);
}.

Class LruLaws `{Lru} : Prop := {
  lru_peek_new n k : lru_peek (lru_new n) k = None;
  (** the pushed entry is in the cache *)
  lru_push_same c k v c' r : lru_push c k v = (c', r) → lru_peek c' k = Some v;
  (** an existing key: the old entry is returned and nothing else changes *)
  lru_push_hit c k v old :
    lru_peek c k = Some old → snd (lru_push c k v) = Some (k, old);
  (** a new key: nothing is returned, or the evicted entry of another key is *)
  lru_push_miss c k v :
    lru_peek c k = None →
    match snd (lru_push c k v) with
    | None => True
    | Some (k', v') => k' ≠ k ∧ lru_peek c k' = Some v'
    end;
  (** the other keys keep their entries, apart from the one returned *)
  lru_push_other c k v k' :
    k' ≠ k → fst <$> snd (lru_push c k v) ≠ Some k' →
    lru_peek (fst (lru_push c k v)) k' = lru_peek c k';
}.

(** ** sshcerts: attestation *)

(** [verify_certificate_chain]: what a valid PIV chain says of the key. *)
Record ValidPIVKey (PK : Type) : Type := {
  piv_public_key : PK;
  piv_pin_policy : Z;
  piv_touch_policy : Z;
  piv_firmware : string;
  piv_serial : Z;
}.
Arguments piv_public_key {_} _.
Arguments piv_pin_policy {_} _.
Arguments piv_touch_policy {_} _.
Arguments piv_firmware {_} _.
Arguments piv_serial {_} _.

Class Attestation `{SshCerts} := {
  (** [verify_certificate_chain(client, intermediate, None)] *)
  verify_certificate_chain : bytes → bytes → option (ValidPIVKey PublicKey);
  (** [verify_auth_data(auth_data, signature, challenge, alg, intermediate, None)]:
      the parsed data and the firmware *)
  AuthData : Type;
  aaguid : AuthData → bytes;
  ssh_public_key : AuthData → string → option PublicKey;
  verify_auth_data : bytes → bytes → bytes → Z → bytes → option (AuthData * option string);
}.

(** ** rcgen *)

(** [CustomExtension], built by [from_oid_content(oid, content)]. *)
Record CustomExtension : Type := from_oid_content {
  oid_components : list Z;
  content : bytes;
}.

Variant SignAlgorithm := PKCS_ECDSA_P256_SHA256 | PKCS_ECDSA_P384_SHA384 | OtherAlgorithm.
Variant DnType := CommonName | OrganizationName.
Variant SanType := Rfc822Name (s : string) | DnsName (s : string) | OtherName (s : string).
Variant KeyUsagePurpose := DigitalSignature | OtherUsage.

(** [CertificateParams]: the fields the program sets; instants are seconds. *)
Record CertificateParams (KP : Type) : Type := {
  alg : SignAlgorithm;
  not_before : Z;
  not_after : Z;
  serial_number : option bytes;
  subject_alt_names : list SanType;
  distinguished_name : list (DnType * string);
  is_ca : bool;
  key_usages : list KeyUsagePurpose;
  extended_key_usages : list string;
  name_constraints : option string;
  custom_extensions : list CustomExtension;
  use_authority_key_identifier_extension : bool;
  key_pair : option KP;
}.
Arguments alg {_} _.
Arguments not_before {_} _.
Arguments not_after {_} _.
Arguments serial_number {_} _.
Arguments subject_alt_names {_} _.
Arguments distinguished_name {_} _.
Arguments is_ca {_} _.
Arguments key_usages {_} _.
Arguments extended_key_usages {_} _.
Arguments name_constraints {_} _.
Arguments custom_extensions {_} _.
Arguments use_authority_key_identifier_extension {_} _.
Arguments key_pair {_} _.

(** The trait [RemoteKeyPair]: a key that signs somewhere else; the n-th call
    may answer as it likes. *)
Record RemoteKeyPair : Type := {
  remote_public_key : bytes;
  remote_sign : bytes → nat → option bytes;
  remote_algorithm : SignAlgorithm;
}.

Class Rcgen := {
  KeyPair : Type;
  (** [KeyPair::from_remote] *)
  keypair_from_remote : RemoteKeyPair → option KeyPair;
  (** [rcgen::Certificate] *)
  RcgenCertificate : Type;
  (** [base64::decode] and [KeyPair::from_der] *)
  base64_decode : string → option bytes;
  keypair_from_der : bytes → option KeyPair;
  (** [CertificateParams::new(subject_alt_names)] *)
  params_new : list string → CertificateParams KeyPair;
  (** [SystemTime + Duration] and its conversion to a date: [false] panics *)
  date_in_range : Z → bool;
  (** [Certificate::from_params]; without a key pair a random one is made *)
  from_params : CertificateParams KeyPair → nat → option RcgenCertificate;
  serialize_private_key_pem : RcgenCertificate → string;
  (** [serialize_pem], [serialize_pem_with_signer]: the CA's key may be remote *)
  serialize_pem : RcgenCertificate → nat → result string string;
  serialize_pem_with_signer : RcgenCertificate → RcgenCertificate → nat → option string;
  (** [CertificateSigningRequest]: its key, with the parameters *)
  CsrKey : Type;
  csr_from_der : bytes → result string (CertificateParams KeyPair * CsrKey);
  serialize_der_with_signer :
    CertificateParams KeyPair * CsrKey → RcgenCertificate → nat → option bytes;
}.

(** ** The Yubikeys of sshcerts *)

(** The policies of the yubikey crate. *)
Variant YkPinPolicy := PinPolicyDefault | PinPolicyNever | PinPolicyOnce | PinPolicyAlways.
Variant YkTouchPolicy := TouchPolicyDefault | TouchPolicyNever | TouchPolicyAlways | TouchPolicyCached.

Class Yubikeys `{SshCerts} := {
  SlotId : Type;
  slot_eq_dec :: EqDecision SlotId;
  slot_try_from : Z → option SlotId;
  (** [SlotId::Retired(RetiredSlotId::try_from(n))] *)
  retired_slot_try_from : Z → option SlotId;
  slot_attestation : SlotId;
  slot_to_string : SlotId → string;
  slot_debug : SlotId → string;
  (** an open key; every operation may answer differently each time, so it is
      told how many were made *)
  Yubikey : Type;
  (** the text of the error of the n-th operation, where it failed *)
  device_error_text : nat → string;
  (** [Context::open()], and [iter()] of what it opened: the serial of each
      connected reader that opens *)
  yk_context : nat → result string ();
  yk_readers : nat → option (list (option Z));
  yk_open : Z → nat → option Yubikey;
  (** [Yubikey::new()]: the first key found *)
  yk_new : nat → option Yubikey;
  yk_serial : Yubikey → Z;
  yk_reconnect : Yubikey → nat → bool;
  yk_fetch_pubkey : Yubikey → SlotId → nat → option PublicKey;
  yk_fetch_subject : Yubikey → SlotId → nat → option string;
  yk_sign : Yubikey → bytes → SlotId → nat → option bytes;
  yk_unlock : Yubikey → bytes → bytes → nat → bool;
  yk_pin_retries : Yubikey → nat → option Z;
  yk_generate_csr : Yubikey → SlotId → nat → option bytes;
  yk_fetch_attestation : Yubikey → SlotId → nat → result string bytes;
  yk_fetch_certificate : Yubikey → SlotId → nat → option bytes;
  (** [provision(slot, subject, EccP384, touch, pin)] *)
  yk_provision : Yubikey → SlotId → string → YkTouchPolicy → YkPinPolicy → nat → bool;
  yk_write_certificate : Yubikey → SlotId → bytes → nat → bool;
  (** [CSRSigner::new(serial, slot)]: [None] when it panics *)
  csr_signer_new : Z → SlotId → nat → option RemoteKeyPair;
}.

(** The retired slots of PIV are 0x82 to 0x95. *)
Class YubikeysLaws `{Yubikeys} : Prop := {
  retired_slot_exists n : 130 ≤ n < 150 → is_Some (retired_slot_try_from n);
}.

(** ** asn1 and the [Oid] of x509-parser *)

Class Asn1 := {
  (** [Oid::from_str], then [oid.iter()]: [None] inside when the arcs do not
      fit in 64 bits *)
  oid_from_str : string → option (option (list Z));
  (** [asn1::write_single(&Utf8String::new(s))] *)
  write_utf8_string : string → option bytes;
}.

(** ** tonic: [Status] *)

Variant Code := PermissionDenied | Cancelled | InvalidArgument | Unavailable
  | ResourceExhausted | OtherCode (n : Z).
#[export] Instance code_eq_dec : EqDecision Code.
Proof. solve_decision. Defined.

Record Status : Type := { code : Code; message : string }.

Definition permission_denied (m : string) : Status := {| code := PermissionDenied; message := m |}.
Definition cancelled (m : string) : Status := {| code := Cancelled; message := m |}.
Definition invalid_argument (m : string) : Status := {| code := InvalidArgument; message := m |}.
Definition unavailable (m : string) : Status := {| code := Unavailable; message := m |}.
Definition resource_exhausted (m : string) : Status := {| code := ResourceExhausted; message := m |}.
