(* ===== verification/Key.v ===== *)
(** * Keys and their attestation

    [rustica/src/key.rs] (the key and attestation types),
    [rustica/src/error.rs] (the server's error codes) and
    [rustica/src/verification.rs] (the two chain verifiers). *)
From Stdlib Require Import ZArith Lia.
From S2P Require Import Prelude Machine Text Deps.

(** ** error.rs *)

Inductive RusticaServerError : Type :=
| Success
| TimeExpired
| BadChallenge
| InvalidKey
| UnsupportedKeyType
| BadCertOptions
| NotAuthorized
| BadRequest
| PivClientCertTooBig
| PivIntermediateCertTooBig
| U2fAttestationTooBig
| U2fIntermediateCertTooBig
| Unknown.

#[export] Instance server_error_eq_dec : EqDecision RusticaServerError.
Proof. solve_decision. Defined.

(** [e as i64]: the discriminants. *)
Definition error_code (e : RusticaServerError) : Z :=
  match e with
  | Success => 0
  | TimeExpired => 1
  | BadChallenge => 2
  | InvalidKey => 3
  | UnsupportedKeyType => 4
  | BadCertOptions => 5
  | NotAuthorized => 6
  | BadRequest => 7
  | PivClientCertTooBig => 8
  | PivIntermediateCertTooBig => 9
  | U2fAttestationTooBig => 10
  | U2fIntermediateCertTooBig => 11
  | Unknown => 9001
  end.

(** [{:?}] of the derived [Debug]. *)
Definition error_debug (e : RusticaServerError) : string :=
  match e with
  | Success => "Success"
  | TimeExpired => "TimeExpired"
  | BadChallenge => "BadChallenge"
  | InvalidKey => "InvalidKey"
  | UnsupportedKeyType => "UnsupportedKeyType"
  | BadCertOptions => "BadCertOptions"
  | NotAuthorized => "NotAuthorized"
  | BadRequest => "BadRequest"
  | PivClientCertTooBig => "PivClientCertTooBig"
  | PivIntermediateCertTooBig => "PivIntermediateCertTooBig"
  | U2fAttestationTooBig => "U2fAttestationTooBig"
  | U2fIntermediateCertTooBig => "U2fIntermediateCertTooBig"
  | Unknown => "Unknown"
  end.

#[export] Instance error_code_inj : Inj (=) (=) error_code.
Proof. intros [] []; done. Qed.

(** ** key.rs *)

Inductive TouchPolicy : Type := TouchNever | TouchAlways | TouchCached.
Inductive PinPolicy : Type := PinNever | PinOnce | PinAlways.

#[export] Instance touch_policy_eq_dec : EqDecision TouchPolicy.
Proof. solve_decision. Defined.
#[export] Instance pin_policy_eq_dec : EqDecision PinPolicy.
Proof. solve_decision. Defined.

(** [Display], which prints the [Debug] name. *)
Definition pin_policy_to_string (p : PinPolicy) : string :=
  match p with PinNever => "Never" | PinOnce => "Once" | PinAlways => "Always" end.
Definition touch_policy_to_string (p : TouchPolicy) : string :=
  match p with TouchNever => "Never" | TouchAlways => "Always" | TouchCached => "Cached" end.

(** [TryFrom<u8>]. *)
Definition touch_policy_try_from (v : Z) : option TouchPolicy :=
  if decide (v = 1) then Some TouchNever
  else if decide (v = 2) then Some TouchAlways
  else if decide (v = 3) then Some TouchCached
  else None.
Definition pin_policy_try_from (v : Z) : option PinPolicy :=
  if decide (v = 1) then Some PinNever
  else if decide (v = 2) then Some PinOnce
  else if decide (v = 3) then Some PinAlways
  else None.

Record PIVAttestation : Type := {
  pin_policy : PinPolicy;
  touch_policy : TouchPolicy;
  pa_serial : Z;
  pa_firmware : string;
  pa_certificate : bytes;
  pa_intermediate : bytes;
}.

Record U2fAttestation : Type := {
  ua_aaguid : string;
  ua_firmware : string;
  ua_auth_data : bytes;
  ua_auth_data_signature : bytes;
  ua_intermediate : bytes;
  ua_challenge : bytes;
  ua_application : bytes;
  ua_alg : Z;
}.

Inductive KeyAttestation : Type :=
| Piv (a : PIVAttestation)
| U2f (a : U2fAttestation).

Record Key : Type := {
  k_fingerprint : string;
  k_attestation : option KeyAttestation;
}.

(** ** verification.rs *)

Definition CERT_MAX_SIZE : Z := 1024 * 2.

(** [ok_or] of a call whose error is replaced by [map_err(|_| e)]. *)
Definition ok_or {E A} (e : E) (o : option A) : result E A :=
  match o with Some a => Ok a | None => Err e end.

Section Verification.
Context `{Attestation, Hmac, Hex}.

Definition verify_piv_certificate_chain (client intermediate : bytes)
    : result RusticaServerError Key :=
  if decide (vec_len intermediate > CERT_MAX_SIZE) then Err PivIntermediateCertTooBig
  else if decide (vec_len client > CERT_MAX_SIZE) then Err PivClientCertTooBig
  else
    data ← ok_or InvalidKey (verify_certificate_chain client intermediate);
    pin ← ok_or InvalidKey (pin_policy_try_from (piv_pin_policy data));
    touch ← ok_or InvalidKey (touch_policy_try_from (piv_touch_policy data));
    Ok {| k_fingerprint := pk_hash (piv_public_key data);
          k_attestation := Some (Piv
            {| pin_policy := pin; touch_policy := touch;
               pa_serial := piv_serial data; pa_firmware := piv_firmware data;
               pa_certificate := client; pa_intermediate := intermediate |}) |}.

Definition verify_u2f_certificate_chain (auth_data auth_data_signature intermediate : bytes)
    (alg : Z) (challenge application : bytes) (u2f_challenge_hashed : bool)
    : result RusticaServerError Key :=
  if decide (vec_len intermediate > CERT_MAX_SIZE) then Err U2fIntermediateCertTooBig
  else if decide (vec_len auth_data > CERT_MAX_SIZE) then Err U2fAttestationTooBig
  else
    let challenge := if u2f_challenge_hashed then challenge else sha256 challenge in
    '(data, firmware) ← ok_or InvalidKey
      (verify_auth_data auth_data auth_data_signature challenge alg intermediate);
    parsed_application ← ok_or InvalidKey (from_utf8 application);
    pk ← ok_or InvalidKey (ssh_public_key data parsed_application);
    Ok {| k_fingerprint := pk_hash pk;
          k_attestation := Some (U2f
            {| ua_aaguid := hex_encode (aaguid data);
               ua_firmware := default "Unknown" firmware;
               ua_auth_data := auth_data; ua_auth_data_signature := auth_data_signature;
               ua_intermediate := intermediate; ua_challenge := challenge;
               ua_application := application; ua_alg := alg |}) |}.
End Verification.

(** ** Lemmas *)

Lemma ok_or_Ok {E A} (e : E) (o : option A) a : ok_or e o = Ok a ↔ o = Some a.
Proof. destruct o; simpl; naive_solver. Qed.

Lemma ok_or_Err {E A} (e e' : E) (o : option A) : ok_or e o = Err e' ↔ o = None ∧ e' = e.
Proof. destruct o; simpl; naive_solver. Qed.

Create HintDb outcome discriminated.
#[export] Hint Rewrite @result_bind_Ok @ok_or_Ok : outcome.
