(* ===== verification/Auth.v ===== *)
(** * Authorization: the types every authorizer shares

    [rustica/src/auth/mod.rs] (requests, authorizations, errors) and the
    [From<AuthorizationError>] of [rustica/src/error.rs]. *)
From Stdlib Require Import ZArith.
From S2P Require Import Prelude Machine Text Deps Key.

Inductive AuthorizationError : Type :=
| AE_CertType
| AE_NotAuthorized
| AE_AuthorizerError
| AE_ConnectionFailure
| AE_DatabaseError (m : string)
| AE_ExternalError (m : string).

(** [Display]. *)
Definition auth_error_to_string (e : AuthorizationError) : string :=
  match e with
  | AE_CertType => "Not authorized for this certificate type"
  | AE_NotAuthorized => "Not authorized"
  | AE_AuthorizerError => "Authorization error"
  | AE_ConnectionFailure => "Could not connect to authorization service"
  | AE_DatabaseError m => "Database error: " +:+ m
  | AE_ExternalError m => m
  end.

(** [From<AuthorizationError> for RusticaServerError]. *)
Definition server_error_of_auth (e : AuthorizationError) : RusticaServerError :=
  match e with
  | AE_CertType => BadCertOptions
  | AE_NotAuthorized => NotAuthorized
  | _ => Unknown
  end.

Record SshAuthorization : Type := {
  sa_serial : Z;
  sa_valid_before : Z;
  sa_valid_after : Z;
  sa_principals : list string;
  sa_hosts : option (list string);
  sa_extensions : gmap string string;
  sa_force_command : option string;
  sa_force_source_ip : bool;
  sa_authority : string;
}.

Record SshAuthorizationRequestProperties : Type := {
  sp_fingerprint : string;
  sp_mtls_identities : list string;
  sp_requester_ip : string;
  sp_principals : list string;
  sp_servers : list string;
  sp_valid_before : Z;
  sp_valid_after : Z;
  sp_cert_type : CertType;
  sp_authority : string;
}.

Record X509AuthorizationRequestProperties : Type := {
  xp_authority : string;
  xp_mtls_identities : list string;
  xp_requester_ip : string;
  xp_attestation : bytes;
  xp_attestation_intermediate : bytes;
  xp_key : Key;
}.

Record X509Authorization : Type := {
  xa_authority : string;
  xa_issuer : string;
  xa_common_name : string;
  xa_sans : list string;
  xa_serial : Z;
  xa_valid_before : Z;
  xa_valid_after : Z;
  xa_extensions : list CustomExtension;
}.

Record RegisterKeyRequestProperties : Type := {
  rp_fingerprint : string;
  rp_pubkey : string;
  rp_mtls_identities : list string;
  rp_requester_ip : string;
  rp_attestation : option KeyAttestation;
}.

Record AllowedSigner : Type := {
  as_identity : string;
  as_pubkey : string;
}.

(** [AllowedSigners]: the one field of the struct. *)
Record AllowedSigners : Type := {
  allowed_signers_list : list AllowedSigner;
}.
