(* ===== verification/Logging.v ===== *)
(** * Logging

    The log messages of [rustica/src/logging/mod.rs], the thread that
    distributes them ([start_logging_thread]) and what the stdout logger of
    [rustica/src/logging/stdout.rs] prints. *)
From Stdlib Require Import ZArith.
From S2P Require Import Prelude Machine Text.

Inductive Severity : Type := Info | Warning | Error.

Record CertificateIssued : Type := {
  ci_fingerprint : string;
  ci_signed_by : string;
  ci_serial : Z;
  ci_authority : string;
  ci_certificate_type : string;
  ci_mtls_identities : list string;
  ci_principals : list string;
  ci_extensions : gmap string string;
  ci_critical_options : gmap string string;
  ci_valid_after : Z;
  ci_valid_before : Z;
  ci_new_access_certificate_issued : bool;
}.

Record X509CertificateIssued : Type := {
  xi_authority : string;
  xi_mtls_identities : list string;
  xi_serial : Z;
  xi_extensions : gmap string string;
  xi_valid_after : Z;
  xi_valid_before : Z;
}.

Record KeyInfo : Type := {
  ki_fingerprint : string;
  ki_mtls_identities : list string;
}.

Record KeyRegistrationFailure : Type := {
  krf_key_info : KeyInfo;
  krf_message : string;
}.

Record InternalMessage : Type := {
  im_severity : Severity;
  im_message : string;
}.

Inductive Log : Type :=
| LogCertificateIssued (ci : CertificateIssued)
| LogX509CertificateIssued (xi : X509CertificateIssued)
| LogKeyRegistered (ki : KeyInfo)
| LogKeyRegistrationFailure (krf : KeyRegistrationFailure)
| LogInternalMessage (im : InternalMessage)
| LogHeartbeat.

(** The events the server is to account for: what it signed and registered. *)
Definition is_audit_event (l : Log) : bool :=
  match l with
  | LogCertificateIssued _ | LogX509CertificateIssued _ | LogKeyRegistered _ => true
  | LogKeyRegistrationFailure _ | LogInternalMessage _ | LogHeartbeat => false
  end.
