(* ===== verification/Schema.v ===== *)
(** * The local database's tables

    [rustica/src/auth/database/schema.rs] and [models.rs].  A table is the
    list of its rows; the primary keys are those the migrations of
    [rustica/migrations] end with. *)
From Stdlib Require Import ZArith.
From S2P Require Import Prelude Machine Text.

Record FingerprintPrincipalAuthorization : Type := {
  fpa_fingerprint : string;
  fpa_principal : string;
  fpa_authority : string;
}.

Record FingerprintHostAuthorization : Type := {
  fha_fingerprint : string;
  fha_hostname : string;
  fha_authority : string;
}.

Record FingerprintExtension : Type := {
  fe_fingerprint : string;
  fe_extension_name : string;
  fe_extension_value : option string;
  fe_authority : string;
}.

Record FingerprintPermission : Type := {
  fp_fingerprint : string;
  fp_host_unrestricted : bool;
  fp_principal_unrestricted : bool;
  fp_can_create_host_certs : bool;
  fp_can_create_user_certs : bool;
  fp_max_creation_time : Z;
  fp_authority : string;
}.

Record RegisteredKey : Type := {
  rk_fingerprint : string;
  rk_pubkey : string;
  rk_user : string;
  rk_pin_policy : option string;
  rk_touch_policy : option string;
  rk_hsm_serial : option string;
  rk_firmware : option string;
  rk_attestation_certificate : option string;
  rk_attestation_intermediate : option string;
  rk_auth_data : option string;
  rk_auth_data_signature : option string;
  rk_aaguid : option string;
  rk_challenge : option string;
  rk_alg : option Z;
  rk_application : option string;
}.

Record X509AuthorizationRow : Type := {
  xr_user : string;
  xr_hsm_serial : string;
  xr_require_touch : bool;
  xr_authority : string;
}.

(** The tables the authorizer reads or writes. *)
Record Database : Type := {
  fingerprint_principal_authorizations : list FingerprintPrincipalAuthorization;
  fingerprint_host_authorizations : list FingerprintHostAuthorization;
  fingerprint_extensions : list FingerprintExtension;
  fingerprint_permissions : list FingerprintPermission;
  registered_keys : list RegisteredKey;
  x509_authorizations : list X509AuthorizationRow;
}.

(** The primary keys. *)
Definition fpa_key (r : FingerprintPrincipalAuthorization) :=
  (fpa_fingerprint r, fpa_principal r, fpa_authority r).
Definition fha_key (r : FingerprintHostAuthorization) :=
  (fha_fingerprint r, fha_hostname r, fha_authority r).
Definition fe_key (r : FingerprintExtension) :=
  (fe_fingerprint r, fe_authority r, fe_extension_name r).
Definition fp_key (r : FingerprintPermission) := (fp_fingerprint r, fp_authority r).
Definition rk_key (r : RegisteredKey) := rk_fingerprint r.
Definition xr_key (r : X509AuthorizationRow) := (xr_user r, xr_hsm_serial r).

(** The constraint SQLite enforces on every table. *)
Record db_wf (db : Database) : Prop := {
  wf_fpa : NoDup (fpa_key <$> fingerprint_principal_authorizations db);
  wf_fha : NoDup (fha_key <$> fingerprint_host_authorizations db);
  wf_fe : NoDup (fe_key <$> fingerprint_extensions db);
  wf_fp : NoDup (fp_key <$> fingerprint_permissions db);
  wf_rk : NoDup (rk_key <$> registered_keys db);
  wf_xr : NoDup (xr_key <$> x509_authorizations db);
}.

(** A query [filter(...)] whose condition fixes the primary key returns at
    most one row. *)
Lemma filter_key_unique {A K} `{EqDecision K} (f : A → K) (k : K)
    (P : A → Prop) `{∀ x, Decision (P x)} (l : list A) :
  NoDup (f <$> l) → (∀ x, P x → f x = k) →
  filter P l = [] ∨ ∃ x, filter P l = [x].
Proof.
  intros Hnd HP. induction l as [|x l IH]; [by left|].
  apply NoDup_cons in Hnd as [Hx Hnd]. specialize (IH Hnd).
  rewrite filter_cons. case_decide as Hpx; [|done]. right. exists x. f_equal.
  destruct IH as [|[y Hy]]; [done|].
  assert (y ∈ filter P l) as Hin by (rewrite Hy; set_solver).
  apply list_elem_of_filter in Hin as [Hpy Hyl]. destruct Hx.
  rewrite (HP x Hpx), <-(HP y Hpy). by apply list_elem_of_fmap_2.
Qed.

(** A row found by its full key is the one the query returns first. *)
Lemma filter_key_lookup {A K} `{EqDecision K} (f : A → K)
    (P : A → Prop) `{∀ x, Decision (P x)} (l : list A) x :
  NoDup (f <$> l) → (∀ y, P y ↔ f y = f x) →
  x ∈ l → filter P l = [x].
Proof.
  intros Hnd HP Hx.
  destruct (filter_key_unique f (f x) P l Hnd) as [He|[y He]]; [naive_solver|..].
  - assert (x ∈ filter P l) as Hin by (apply list_elem_of_filter; naive_solver).
    rewrite He in Hin. set_solver.
  - assert (x ∈ filter P l) as Hin by (apply list_elem_of_filter; naive_solver).
    rewrite He in Hin |- *. f_equal. set_solver.
Qed.
