(* ===== verification/World.v ===== *)
(** * The state the server runs in

    One value of [World] is everything the handlers of the server can change
    or observe in order: the log channel, the local database, the calls made
    to the external authorizer, the rate limiter and the allowed-signers cache
    of [RusticaServer], and how far the clock, the fault sources and the
    libraries with answers of their own have been read.  [Env] is what the program cannot change: the build profile, the
    readings of the clock, the answers of the network and of the disk. *)
From Stdlib Require Import ZArith.
From S2P Require Import Prelude Machine Text Deps Key Auth Logging Schema.

(** [AuthServer] of [rustica/src/auth/external.rs]. *)
Record AuthServer : Type := {
  server : string;
  port : string;
  ca : string;
  mtls_cert : string;
  mtls_key : string;
}.

(** The messages of [proto/author.proto]. *)
Record AuthorizeRequest : Type := {
  ar_identities : gmap string string;
  ar_authorization_request : gmap string string;
}.
Record AddIdentityDataRequest : Type := {
  ai_identities : gmap string string;
  ai_identity_data : gmap string string;
}.
Inductive AuthorCall : Type :=
| Authorize (r : AuthorizeRequest)
| AddIdentityData (r : AddIdentityDataRequest)
| GetAllowedSigners.

(** How far setting up the TLS channel to the author got. *)
Variant Connection := InvalidUri | TlsConfigError | ConnectError | Connected.

(** [AllowedSignersCache] of [rustica/src/server.rs]. *)
Record AllowedSignersCache : Type := {
  compressed_allowed_signers : bytes;
  expiry_timestamp : Z;
}.

Class Env := {
  build : profile;
  (** the n-th [SystemTime::now().duration_since(UNIX_EPOCH)], in nanoseconds;
      [None] before 1970 *)
  clock : nat → option Z;
  (** can the SQLite file be opened *)
  db_opens : string → bool;
  (** diesel's error for the n-th statement, if it fails *)
  db_fault : nat → option string;
  (** diesel's error text for a violated primary key *)
  unique_violation : string;
  (** the n-th attempt to connect to the author *)
  author_connect : nat → AuthServer → string → Connection;
  (** its answers, which may depend on every call made before *)
  author_authorize : list AuthorCall → AuthorizeRequest → result Status (gmap string string);
  author_add_identity_data : list AuthorCall → AddIdentityDataRequest → result Status ();
  author_allowed_signers : list AuthorCall → result Status (list (string * string));
  (** [Display] of a tonic [Status] *)
  status_to_string : Status → string;
  (** the order in which a [HashMap] is iterated *)
  map_order : gmap string string → list (string * string);
}.

(** The clock reads a [Duration], an iteration visits every entry once. *)
Class EnvLaws `{Env} : Prop := {
  clock_range n d : clock n = Some d → in_duration d;
  map_order_perm m : map_order m ≡ₚ map_to_list m;
}.

Record World `{Lru} : Type := mkWorld {
  w_clock : nat;
  w_logs : list Log;
  w_db : Database;
  w_db_ops : nat;
  w_connects : nat;
  w_author : list AuthorCall;
  w_limiter : LruCache;
  w_cache : AllowedSignersCache;
  w_calls : nat;
  (** per lock of a Yubikey, whether a panic poisoned it *)
  w_mutexes : list bool;
  (** the lines the handlers print *)
  w_out : list string;
}.

Section Effects.
Context `{Lru, Env} {E : Type}.

Definition set_clock (n : nat) (w : World) : World :=
  mkWorld _ n (w_logs w) (w_db w) (w_db_ops w) (w_connects w) (w_author w)
    (w_limiter w) (w_cache w) (w_calls w) (w_mutexes w) (w_out w).
Definition set_logs (l : list Log) (w : World) : World :=
  mkWorld _ (w_clock w) l (w_db w) (w_db_ops w) (w_connects w) (w_author w)
    (w_limiter w) (w_cache w) (w_calls w) (w_mutexes w) (w_out w).
Definition set_db (d : Database) (w : World) : World :=
  mkWorld _ (w_clock w) (w_logs w) d (w_db_ops w) (w_connects w) (w_author w)
    (w_limiter w) (w_cache w) (w_calls w) (w_mutexes w) (w_out w).
Definition set_db_ops (n : nat) (w : World) : World :=
  mkWorld _ (w_clock w) (w_logs w) (w_db w) n (w_connects w) (w_author w)
    (w_limiter w) (w_cache w) (w_calls w) (w_mutexes w) (w_out w).
Definition set_connects (n : nat) (w : World) : World :=
  mkWorld _ (w_clock w) (w_logs w) (w_db w) (w_db_ops w) n (w_author w)
    (w_limiter w) (w_cache w) (w_calls w) (w_mutexes w) (w_out w).
Definition set_author (c : list AuthorCall) (w : World) : World :=
  mkWorld _ (w_clock w) (w_logs w) (w_db w) (w_db_ops w) (w_connects w) c
    (w_limiter w) (w_cache w) (w_calls w) (w_mutexes w) (w_out w).
Definition set_limiter (c : LruCache) (w : World) : World :=
  mkWorld _ (w_clock w) (w_logs w) (w_db w) (w_db_ops w) (w_connects w) (w_author w)
    c (w_cache w) (w_calls w) (w_mutexes w) (w_out w).
Definition set_cache (c : AllowedSignersCache) (w : World) : World :=
  mkWorld _ (w_clock w) (w_logs w) (w_db w) (w_db_ops w) (w_connects w) (w_author w)
    (w_limiter w) c (w_calls w) (w_mutexes w) (w_out w).
Definition set_calls (n : nat) (w : World) : World :=
  mkWorld _ (w_clock w) (w_logs w) (w_db w) (w_db_ops w) (w_connects w) (w_author w)
    (w_limiter w) (w_cache w) n (w_mutexes w) (w_out w).
Definition set_mutexes (l : list bool) (w : World) : World :=
  mkWorld _ (w_clock w) (w_logs w) (w_db w) (w_db_ops w) (w_connects w) (w_author w)
    (w_limiter w) (w_cache w) (w_calls w) l (w_out w).

Definition set_out (l : list string) (w : World) : World :=
  mkWorld _ (w_clock w) (w_logs w) (w_db w) (w_db_ops w) (w_connects w) (w_author w)
    (w_limiter w) (w_cache w) (w_calls w) (w_mutexes w) l.

(** [println!]. *)
Definition server_println (line : string) : st World E () := λ w,
  (set_out (w_out w ++ [line]) w, Ret ()).

(** A call of a library whose answer is not a function of its arguments (a
    random key, a hardware token, a remote signer): [f] is told how many such
    calls were made before. *)
Definition library_call {A} (f : nat → A) : st World E A := λ w,
  (set_calls (S (w_calls w)) w, Ret (f (w_calls w))).

(** [SystemTime::now().duration_since(UNIX_EPOCH)]. *)
Definition read_clock : st World E (option Z) := λ w,
  (set_clock (S (w_clock w)) w, Ret (clock (w_clock w))).

(** [let _ = log_sender.send(l)]: a closed channel is ignored. *)
Definition send_log (l : Log) : st World E () := λ w,
  (set_logs (w_logs w ++ [l]) w, Ret ()).

(** The macros [rustica_error!] and [rustica_warning!]. *)
Definition rustica_error (m : string) : st World E () :=
  send_log (LogInternalMessage {| im_severity := Error; im_message := m |}).
Definition rustica_warning (m : string) : st World E () :=
  send_log (LogInternalMessage {| im_severity := Warning; im_message := m |}).

(** One SQL statement: its number decides whether it fails. *)
Definition db_statement {A} (m : st World E A) : st World E (result string A) := λ w,
  let w1 := set_db_ops (S (w_db_ops w)) w in
  match db_fault (w_db_ops w) with
  | Some e => (w1, Ret (Err e))
  | None =>
      match m w1 with
      | (w2, Ret a) => (w2, Ret (Ok a))
      | (w2, Raise e) => (w2, Raise e)
      | (w2, Panic) => (w2, Panic)
      end
  end.

(** [u64] arithmetic of the build. *)
Definition add_u64 (a b : Z) : st World E Z := of_outcome (u64_add build a b).
Definition sub_u64 (a b : Z) : st World E Z := of_outcome (u64_sub build a b).
End Effects.

Section EffectReturns.
Context `{Lru, Env} {E : Type}.
Implicit Types w : World.

Lemma read_clock_Ret w w' r :
  (read_clock : st World E _) w = (w', Ret r) ↔
    w' = set_clock (S (w_clock w)) w ∧ r = clock (w_clock w).
Proof. unfold read_clock. naive_solver. Qed.
Lemma send_log_Ret l w w' u :
  (send_log l : st World E _) w = (w', Ret u) ↔ w' = set_logs (w_logs w ++ [l]) w.
Proof. unfold send_log. destruct u. naive_solver. Qed.
Lemma server_println_Ret l w w' u :
  (server_println l : st World E _) w = (w', Ret u) ↔ w' = set_out (w_out w ++ [l]) w.
Proof. unfold server_println. destruct u. naive_solver. Qed.
Lemma rustica_error_Ret m w w' u :
  (rustica_error m : st World E _) w = (w', Ret u) ↔
    w' = set_logs (w_logs w ++ [LogInternalMessage {| im_severity := Error; im_message := m |}]) w.
Proof. apply send_log_Ret. Qed.
Lemma rustica_warning_Ret m w w' u :
  (rustica_warning m : st World E _) w = (w', Ret u) ↔
    w' = set_logs (w_logs w ++ [LogInternalMessage {| im_severity := Warning; im_message := m |}]) w.
Proof. apply send_log_Ret. Qed.
Lemma library_call_Ret {A} (f : nat → A) w w' a :
  (library_call f : st World E A) w = (w', Ret a) ↔
    w' = set_calls (S (w_calls w)) w ∧ a = f (w_calls w).
Proof. unfold library_call. naive_solver. Qed.
Lemma add_u64_Ret a b w w' c :
  (add_u64 a b : st World E _) w = (w', Ret c) ↔ w' = w ∧ u64_add (E := E) build a b = Ret c.
Proof. apply of_outcome_Ret. Qed.
Lemma sub_u64_Ret a b w w' c :
  (sub_u64 a b : st World E _) w = (w', Ret c) ↔ w' = w ∧ u64_sub (E := E) build a b = Ret c.
Proof. apply of_outcome_Ret. Qed.
End EffectReturns.

#[export] Hint Rewrite @read_clock_Ret @send_log_Ret @server_println_Ret @rustica_error_Ret
  @rustica_warning_Ret @library_call_Ret @add_u64_Ret @sub_u64_Ret : st_inv.

(** ** What a call leaves alone *)

(** The local database. *)
Definition same_db `{Lru} (w w' : World) : Prop := w_db w' = w_db w.
#[export] Instance same_db_preorder `{Lru} : PreOrder same_db.
Proof. unfold same_db. split; [done|]. intros w1 w2 w3 ? ?. congruence. Qed.
Lemma same_db_library_call `{Lru} {A E} (f : nat → A) :
  preserves same_db (library_call f : st World E A).
Proof. done. Qed.
Lemma same_db_send_log `{Lru} {E} l : preserves same_db (send_log l : st World E ()).
Proof. done. Qed.
Lemma same_db_println `{Lru} {E} l : preserves same_db (server_println l : st World E ()).
Proof. done. Qed.
Lemma same_db_warning `{Lru} {E} m : preserves same_db (rustica_warning m : st World E ()).
Proof. done. Qed.
Lemma same_db_error `{Lru} {E} m : preserves same_db (rustica_error m : st World E ()).
Proof. done. Qed.
Lemma same_db_read_clock `{Lru, Env} {E} : preserves same_db (read_clock : st World E _).
Proof. done. Qed.
#[export] Hint Resolve same_db_library_call same_db_send_log same_db_println same_db_warning same_db_error
  same_db_read_clock : preserves.

Section Frame.
Context `{Lru, Env} {E : Type}.

(** The part of the state that is the server's own. *)
Definition frame (w w' : World) : Prop :=
  w_logs w' = w_logs w ∧ w_limiter w' = w_limiter w ∧ w_cache w' = w_cache w.

#[export] Instance frame_preorder : PreOrder frame.
Proof. unfold frame. split; [done|]. intros w1 w2 w3. intros; destruct_and?; split_and!; congruence. Qed.

Lemma frame_read_clock : preserves frame (read_clock : st World E _).
Proof. done. Qed.
Lemma frame_add_u64 a b : preserves frame (add_u64 a b : st World E _).
Proof. done. Qed.
Lemma frame_sub_u64 a b : preserves frame (sub_u64 a b : st World E _).
Proof. done. Qed.
Lemma frame_library_call {A} (f : nat → A) : preserves frame (library_call f : st World E A).
Proof. done. Qed.
Lemma frame_db_statement {A} (m : st World E A) :
  preserves frame m → preserves frame (db_statement m).
Proof.
  intros Hm w. unfold db_statement. destruct (db_fault _); [done|].
  specialize (Hm (set_db_ops (S (w_db_ops w)) w)). by destruct (m _) as [? []].
Qed.
End Frame.

#[export] Hint Resolve frame_read_clock frame_add_u64 frame_sub_u64 frame_library_call
  frame_db_statement : preserves.

(** The audit trail: what the log channel was told of certificates and keys. *)
Section Audit.
Context `{Lru, Env} {E : Type}.

Definition audit_log (w : World) : list Log := filter is_audit_event (w_logs w).
Definition same_audit (w w' : World) : Prop := audit_log w' = audit_log w.
#[export] Instance same_audit_preorder : PreOrder same_audit.
Proof. unfold same_audit. split; [done|]. intros w1 w2 w3 ? ?. congruence. Qed.

Lemma frame_same_audit {B} (m : st World E B) : preserves frame m → preserves same_audit m.
Proof. intros Hm w. destruct (Hm w) as [Hl _]. unfold same_audit, audit_log. by rewrite Hl. Qed.
Lemma audit_log_send l w :
  filter is_audit_event (w_logs w ++ [l]) =
    audit_log w ++ if is_audit_event l then [l] else [].
Proof. rewrite filter_app. f_equal. cbn. by destruct (is_audit_event l). Qed.
Lemma same_audit_send l : is_audit_event l = false → preserves same_audit (send_log l : st World E _).
Proof.
  intros Hl w. unfold same_audit. unfold audit_log at 1. cbn. by rewrite audit_log_send, Hl, app_nil_r.
Qed.
Lemma same_audit_failure f : preserves same_audit (send_log (LogKeyRegistrationFailure f) : st World E _).
Proof. by apply same_audit_send. Qed.
Lemma same_audit_warning m : preserves same_audit (rustica_warning m : st World E _).
Proof. by apply same_audit_send. Qed.
Lemma same_audit_error m : preserves same_audit (rustica_error m : st World E _).
Proof. by apply same_audit_send. Qed.
Lemma same_audit_println l : preserves same_audit (server_println l : st World E _).
Proof. done. Qed.
Lemma same_audit_read_clock : preserves same_audit (read_clock : st World E _).
Proof. done. Qed.
Lemma same_audit_library_call {A} (f : nat → A) :
  preserves same_audit (library_call f : st World E A).
Proof. done. Qed.
End Audit.

#[export] Hint Resolve same_audit_failure same_audit_warning same_audit_error same_audit_println
  same_audit_read_clock  same_audit_library_call : preserves.

Section EffectRaises.
Context `{Lru, Env} {E : Type} (P : E → Prop).

Lemma raises_read_clock : raises P (read_clock : st World E _).
Proof. by intros w w' e. Qed.
Lemma raises_send_log l : raises P (send_log l : st World E _).
Proof. by intros w w' e. Qed.
Lemma raises_server_println l : raises P (server_println l : st World E _).
Proof. by intros w w' e. Qed.
Lemma raises_warning m : raises P (rustica_warning m : st World E _).
Proof. by intros w w' e. Qed.
Lemma raises_error m : raises P (rustica_error m : st World E _).
Proof. by intros w w' e. Qed.
Lemma raises_library_call {A} (f : nat → A) : raises P (library_call f : st World E _).
Proof. by intros w w' e. Qed.
Lemma raises_add_u64 a b : raises P (add_u64 a b : st World E _).
Proof.
  intros w w' e. unfold add_u64, of_outcome, u64_add, u64_of.
  case_decide; [done|]. by destruct build.
Qed.
Lemma raises_sub_u64 a b : raises P (sub_u64 a b : st World E _).
Proof.
  intros w w' e. unfold sub_u64, of_outcome, u64_sub, u64_of.
  case_decide; [done|]. by destruct build.
Qed.
End EffectRaises.

#[export] Hint Resolve raises_read_clock raises_send_log raises_server_println raises_warning raises_error
  raises_library_call raises_add_u64 raises_sub_u64 : raises.
