(* ===== verification/Database.v ===== *)
(** * The local authorizer

    [rustica/src/auth/database.rs]: the authorizer backed by a SQLite file.
    A connection that cannot be opened and a query that fails panic, as
    [panic!] and [expect] do; a failed insert is an error. *)
From Stdlib Require Import ZArith Lia.
From S2P Require Import Prelude Machine Text Deps Key Auth Logging Schema World.

Record LocalDatabase : Type := { path : string }.

Module Local.
Section Local.
Context `{Lru, Env, Hex}.

#[local] Abbreviation db_st := (st World AuthorizationError).

Definition establish_connection (path : string) : db_st () :=
  if db_opens path then mret () else panic.

(** [filter(...).load(&mut conn)] of a table. *)
Definition load {A} (query : Database → list A) : db_st (result string (list A)) :=
  db_statement (gets (query ∘ w_db)).

Definition principals_of (fp auth : string) (db : Database)
    : list FingerprintPrincipalAuthorization :=
  filter (λ r, fpa_fingerprint r = fp ∧ fpa_authority r = auth)
    (fingerprint_principal_authorizations db).
Definition hosts_of (fp auth : string) (db : Database) : list FingerprintHostAuthorization :=
  filter (λ r, fha_fingerprint r = fp ∧ fha_authority r = auth)
    (fingerprint_host_authorizations db).
Definition extensions_of (fp auth : string) (db : Database) : list FingerprintExtension :=
  filter (λ r, fe_fingerprint r = fp ∧ fe_authority r = auth) (fingerprint_extensions db).
Definition permissions_of (fp auth : string) (db : Database) : list FingerprintPermission :=
  filter (λ r, fp_fingerprint r = fp ∧ fp_authority r = auth) (fingerprint_permissions db).

Definition extension_map (rows : list FingerprintExtension) : gmap string string :=
  collect_map ((λ x, (fe_extension_name x, default "" (fe_extension_value x))) <$> rows).

Definition authorize_ssh_cert (self : LocalDatabase)
    (req : SshAuthorizationRequestProperties) : db_st SshAuthorization :=
  let fp := sp_fingerprint req in
  now ← read_clock;
  let current_timestamp :=
    match now with Some ts => as_secs ts | None => 0xEFFFFFFFFFFFFFFF end in
  establish_connection (path self);;
  results ← load (principals_of fp (sp_authority req)) ≫= expect_ok;
  let principals := fpa_principal <$> results in
  results ← load (hosts_of fp (sp_authority req)) ≫= expect_ok;
  let hosts := Some (fha_hostname <$> results) in
  results ← load (extensions_of fp (sp_authority req)) ≫= expect_ok;
  let extensions := extension_map results in
  results ← load (permissions_of fp (sp_authority req)) ≫= expect_ok;
  match results with
  | r :: _ =>
      match sp_cert_type req with
      | User => if fp_can_create_user_certs r then mret () else throw AE_CertType
      | Host => if fp_can_create_host_certs r then mret () else throw AE_CertType
      end;;
      valid_before ← add_u64 current_timestamp (as_u64 (fp_max_creation_time r));
      mret {| sa_serial := 0;
              sa_valid_before := valid_before;
              sa_valid_after := sp_valid_after req;
              sa_principals :=
                if fp_principal_unrestricted r then sp_principals req else principals;
              sa_hosts := if fp_host_unrestricted r then None else hosts;
              sa_extensions := extensions;
              sa_force_command := None;
              sa_force_source_ip := false;
              sa_authority := sp_authority req |}
  | [] => throw AE_NotAuthorized
  end.

(** The row [register_key] builds. *)
Definition registered_key (req : RegisterKeyRequestProperties) : RegisteredKey :=
  let row firmware hsm_serial touch pin cert intermediate auth_data sig aaguid chal alg app :=
    {| rk_fingerprint := rp_fingerprint req;
       rk_pubkey := rp_pubkey req;
       rk_user := join "," (rp_mtls_identities req);
       rk_pin_policy := pin; rk_touch_policy := touch; rk_hsm_serial := hsm_serial;
       rk_firmware := firmware; rk_attestation_certificate := cert;
       rk_attestation_intermediate := intermediate; rk_auth_data := auth_data;
       rk_auth_data_signature := sig; rk_aaguid := aaguid; rk_challenge := chal;
       rk_alg := alg; rk_application := app |} in
  match rp_attestation req with
  | Some (Piv a) =>
      row (Some (pa_firmware a)) (Some (int_to_string (pa_serial a)))
        (Some (touch_policy_to_string (touch_policy a)))
        (Some (pin_policy_to_string (pin_policy a)))
        (Some (hex_encode (pa_certificate a))) (Some (hex_encode (pa_intermediate a)))
        None None None None None None
  | Some (U2f a) =>
      row (Some (ua_firmware a)) None None None None
        (Some (hex_encode (ua_intermediate a))) (Some (hex_encode (ua_auth_data a)))
        (Some (hex_encode (ua_auth_data_signature a)))
        (Some (hex_encode (as_bytes (ua_aaguid a))))
        (Some (hex_encode (ua_challenge a))) (Some (ua_alg a))
        (Some (hex_encode (ua_application a)))
  | None => row None None None None None None None None None None None None
  end.

(** [insert_into(registered_keys)]: SQLite refuses a second row with the
    same primary key. *)
Definition insert_registered_key (row : RegisteredKey) : db_st (result string ()) :=
  w ← get;
  let db := w_db w in
  if decide (rk_key row ∈ rk_key <$> registered_keys db) then mret (Err unique_violation)
  else
    modify (set_db
      {| fingerprint_principal_authorizations := fingerprint_principal_authorizations db;
         fingerprint_host_authorizations := fingerprint_host_authorizations db;
         fingerprint_extensions := fingerprint_extensions db;
         fingerprint_permissions := fingerprint_permissions db;
         registered_keys := registered_keys db ++ [row];
         x509_authorizations := x509_authorizations db |});;
    mret (Ok ()).

Definition register_key (self : LocalDatabase) (req : RegisterKeyRequestProperties)
    : db_st () :=
  establish_connection (path self);;
  result ← db_statement (insert_registered_key (registered_key req));
  match result with
  | Ok (Ok _) => mret ()
  | Ok (Err e) | Err e => throw (AE_DatabaseError e)
  end.

Definition x509_rows_of (user authority hsm_serial : string) (db : Database)
    : list X509AuthorizationRow :=
  filter (λ r, xr_user r = user ∧ xr_authority r = authority ∧ xr_hsm_serial r = hsm_serial)
    (x509_authorizations db).

Definition authorize_attested_x509_cert (self : LocalDatabase)
    (auth_props : X509AuthorizationRequestProperties) : db_st X509Authorization :=
  establish_connection (path self);;
  '(att_serial, touch) ←
    match k_attestation (xp_key auth_props) with
    | None => throw AE_AuthorizerError
    | Some (U2f _) => throw AE_AuthorizerError
    | Some (Piv att) => mret (pa_serial att, touch_policy att)
    end;
  mtls_user ← of_option AE_AuthorizerError (head (xp_mtls_identities auth_props));
  results ← load (x509_rows_of mtls_user (xp_authority auth_props)
    (int_to_string att_serial)) ≫= expect_ok;
  authorization ← of_option AE_NotAuthorized (head results);
  (if xr_require_touch authorization && bool_decide (touch = TouchNever)
   then throw AE_NotAuthorized else mret ());;
  now ← read_clock;
  current_time ← unwrap (as_secs <$> now);
  valid_before ← add_u64 current_time (3600 * 12);
  mret {| xa_authority := xp_authority auth_props;
          xa_issuer := "Rustica";
          xa_common_name := mtls_user;
          xa_sans := [mtls_user];
          xa_serial := 0xFEFEFEFEFE;
          xa_valid_before := valid_before;
          xa_valid_after := current_time;
          xa_extensions := [] |}.

Definition get_allowed_signers (self : LocalDatabase) : db_st AllowedSigners :=
  establish_connection (path self);;
  result ← load (λ db, (λ r, (rk_user r, rk_pubkey r)) <$> registered_keys db);
  match result with
  | Err e => throw (AE_DatabaseError e)
  | Ok rows =>
      mret {| allowed_signers_list :=
        (λ r, {| as_identity := r.1; as_pubkey := r.2 |}) <$> rows |}
  end.

(** ** What a grant means, in terms of the tables *)

(** Does the permission row allow certificates of this type? *)
Definition may_create (r : FingerprintPermission) (t : CertType) : bool :=
  match t with User => fp_can_create_user_certs r | Host => fp_can_create_host_certs r end.

(** The row [r] of the requested key and authority allows [a]: the type, the
    principals, the hosts, the extensions and the end of the validity. *)
Record grants (db : Database) (now : Z) (req : SshAuthorizationRequestProperties)
    (r : FingerprintPermission) (a : SshAuthorization) : Prop := {
  grants_row : r ∈ fingerprint_permissions db;
  grants_key : fp_key r = (sp_fingerprint req, sp_authority req);
  grants_type : may_create r (sp_cert_type req) = true;
  grants_principals x :
    x ∈ sa_principals a ↔
      if fp_principal_unrestricted r then x ∈ sp_principals req
      else ∃ row, row ∈ fingerprint_principal_authorizations db ∧
        fpa_key row = (sp_fingerprint req, x, sp_authority req);
  grants_hosts :
    match sa_hosts a with
    | None => fp_host_unrestricted r = true
    | Some hs => fp_host_unrestricted r = false ∧ ∀ x,
        x ∈ hs ↔ ∃ row, row ∈ fingerprint_host_authorizations db ∧
          fha_key row = (sp_fingerprint req, x, sp_authority req)
    end;
  grants_authority : sa_authority a = sp_authority req;
  grants_valid_after : sa_valid_after a = sp_valid_after req;
  grants_valid_before : sa_valid_before a = as_u64 (now + as_u64 (fp_max_creation_time r));
  grants_nothing_forced : sa_force_command a = None ∧ sa_force_source_ip a = false;
}.

(** ** Runs *)

Lemma load_run {A} (q : Database → list A) w :
  load q w = (set_db_ops (S (w_db_ops w)) w,
    Ret match db_fault (w_db_ops w) with Some e => Err e | None => Ok (q (w_db w)) end).
Proof. unfold load, db_statement. by destruct (db_fault _). Qed.

Lemma load_expect_run {A} (q : Database → list A) w :
  (load q ≫= expect_ok) w = (set_db_ops (S (w_db_ops w)) w,
    match db_fault (w_db_ops w) with Some _ => Panic | None => Ret (q (w_db w)) end).
Proof. st_unfold. rewrite load_run. cbn. by destruct (db_fault _). Qed.

Lemma load_Ok {A} (q : Database → list A) w w' rows :
  load q w = (w', Ret (Ok rows)) ↔
    w' = set_db_ops (S (w_db_ops w)) w ∧ rows = q (w_db w) ∧ db_fault (w_db_ops w) = None.
Proof. rewrite load_run. destruct (db_fault _); naive_solver. Qed.

Lemma establish_connection_Ret p w w' u :
  establish_connection p w = (w', Ret u) ↔ w' = w ∧ db_opens p = true.
Proof. unfold establish_connection. destruct (db_opens p), u; st_run; naive_solver. Qed.

#[local] Hint Rewrite @load_Ok @establish_connection_Ret : st_inv.

Lemma elem_of_principals fp auth db x :
  x ∈ fpa_principal <$> principals_of fp auth db ↔
  ∃ row, row ∈ fingerprint_principal_authorizations db ∧ fpa_key row = (fp, x, auth).
Proof.
  unfold principals_of, fpa_key. rewrite list_elem_of_fmap.
  setoid_rewrite list_elem_of_filter. naive_solver.
Qed.

Lemma elem_of_hosts fp auth db x :
  x ∈ fha_hostname <$> hosts_of fp auth db ↔
  ∃ row, row ∈ fingerprint_host_authorizations db ∧ fha_key row = (fp, x, auth).
Proof.
  unfold hosts_of, fha_key. rewrite list_elem_of_fmap.
  setoid_rewrite list_elem_of_filter. naive_solver.
Qed.

Lemma permissions_of_cons fp auth db r l :
  permissions_of fp auth db = r :: l →
  r ∈ fingerprint_permissions db ∧ fp_key r = (fp, auth).
Proof.
  unfold permissions_of, fp_key. intros Hl.
  assert (r ∈ r :: l) as Hin by set_solver. rewrite <-Hl in Hin.
  apply list_elem_of_filter in Hin. naive_solver.
Qed.

(** The only row of a key of a well-formed table. *)
Lemma permissions_of_lookup db r :
  db_wf db → r ∈ fingerprint_permissions db →
  permissions_of (fp_fingerprint r) (fp_authority r) db = [r].
Proof.
  intros Hwf Hr. unfold permissions_of. apply (filter_key_lookup fp_key); [apply Hwf| |done].
  intros y. unfold fp_key. split; [by intros [-> ->]|by intros [=]].
Qed.

Lemma permissions_of_nil fp auth db :
  (∀ r, r ∈ fingerprint_permissions db → fp_key r ≠ (fp, auth)) →
  permissions_of fp auth db = [].
Proof.
  intros Hno. destruct (permissions_of fp auth db) as [|r l] eqn:Hf; [done|].
  apply permissions_of_cons in Hf as [Hr Hk]. by destruct (Hno r Hr).
Qed.

(** What the authorizer takes for the time: a clock before 1970 is read as a
    time far in the future. *)
Definition db_now (w : World) : Z :=
  match clock (w_clock w) with Some ts => as_secs ts | None => 0xEFFFFFFFFFFFFFFF end.

(** The file opens and no statement fails. *)
Record db_up (self : LocalDatabase) : Prop := {
  up_opens : db_opens (path self) = true;
  up_fault n : db_fault n = None;
}.

(** ** Soundness of the authorizer *)

(** The authorization the row [r] gives. *)
Definition grant_of (db : Database) (req : SshAuthorizationRequestProperties)
    (r : FingerprintPermission) (valid_before : Z) : SshAuthorization :=
  let fp := sp_fingerprint req in
  let auth := sp_authority req in
  {| sa_serial := 0;
     sa_valid_before := valid_before;
     sa_valid_after := sp_valid_after req;
     sa_principals := if fp_principal_unrestricted r then sp_principals req else
       fpa_principal <$> principals_of fp auth db;
     sa_hosts := if fp_host_unrestricted r then None else
       Some (fha_hostname <$> hosts_of fp auth db);
     sa_extensions := extension_map (extensions_of fp auth db);
     sa_force_command := None;
     sa_force_source_ip := false;
     sa_authority := auth |}.

Lemma grant_of_grants db now req r :
  r ∈ fingerprint_permissions db → fp_key r = (sp_fingerprint req, sp_authority req) →
  may_create r (sp_cert_type req) = true →
  grants db now req r (grant_of db req r (as_u64 (now + as_u64 (fp_max_creation_time r)))).
Proof.
  intros. split; cbn; try done.
  - intros x. destruct (fp_principal_unrestricted r); [done|]. apply elem_of_principals.
  - destruct (fp_host_unrestricted r); [done|]. split; [done|]. intros. apply elem_of_hosts.
Qed.

Lemma authorize_ssh_cert_grants self req w w' a :
  authorize_ssh_cert self req w = (w', Ret a) →
  w_db w' = w_db w ∧ ∃ r, grants (w_db w) (db_now w) req r a.
Proof.
  unfold authorize_ssh_cert. intros Hrun. st_inv_all; cbn in *; (split; [done|]).
  all: match goal with Hp : permissions_of _ _ _ = ?r :: _ |- _ =>
    exists r; apply permissions_of_cons in Hp as [? ?] end.
  all: match goal with Hu : u64_add _ _ _ = Ret _ |- _ =>
    apply u64_of_Ret in Hu as [-> _] end.
  all: apply grant_of_grants; [done..|]; unfold may_create; by case_match.
Qed.

Lemma authorize_ssh_cert_run self req w :
  db_up self →
  (authorize_ssh_cert self req w).2 =
    match permissions_of (sp_fingerprint req) (sp_authority req) (w_db w) with
    | [] => Raise AE_NotAuthorized
    | r :: _ =>
        if may_create r (sp_cert_type req) then
          valid_before ← u64_add build (db_now w) (as_u64 (fp_max_creation_time r));
          Ret (grant_of (w_db w) req r valid_before)
        else Raise AE_CertType
    end.
Proof.
  intros [Ho Hf]. unfold authorize_ssh_cert, establish_connection, read_clock, add_u64, db_now.
  st_unfold. rewrite Ho. cbn. repeat (rewrite load_run, Hf; cbn).
  destruct (permissions_of _ _ _) as [|r l]; [done|]. unfold may_create.
  destruct (sp_cert_type req), (fp_can_create_user_certs r), (fp_can_create_host_certs r);
    cbn; try done; by destruct (u64_add _ _ _).
Qed.

(** ** Registration *)

Lemma register_key_run self req w :
  db_up self →
  register_key self req w =
    let w' := set_db_ops (S (w_db_ops w)) w in
    let db := w_db w in
    if decide (rp_fingerprint req ∈ rk_key <$> registered_keys db) then
      (w', Raise (AE_DatabaseError unique_violation))
    else (set_db
      {| fingerprint_principal_authorizations := fingerprint_principal_authorizations db;
         fingerprint_host_authorizations := fingerprint_host_authorizations db;
         fingerprint_extensions := fingerprint_extensions db;
         fingerprint_permissions := fingerprint_permissions db;
         registered_keys := registered_keys db ++ [registered_key req];
         x509_authorizations := x509_authorizations db |} w', Ret ()).
Proof.
  intros [Ho Hf]. unfold register_key, establish_connection, db_statement.
  st_unfold. rewrite Ho, Hf. unfold insert_registered_key. st_unfold. cbn.
  assert (rk_key (registered_key req) = rp_fingerprint req) as ->.
  { unfold registered_key. by destruct (rp_attestation req) as [[]|]. }
  by case_decide.
Qed.

(** Every run of [register_key], whatever fails, keeps the primary keys. *)
Lemma register_key_wf self req w :
  db_wf (w_db w) → db_wf (w_db (register_key self req w).1).
Proof.
  intros Hwf. unfold register_key, establish_connection, db_statement, insert_registered_key.
  st_unfold. destruct (db_opens _); [|done]. cbn.
  destruct (db_fault _); [done|]. cbn. case_decide as Hin; [done|]. cbn.
  destruct Hwf. split; cbn; try done.
  rewrite fmap_app. apply NoDup_app. split_and!; [done| |apply NoDup_singleton].
  set_solver.
Qed.

Lemma get_allowed_signers_run self w :
  db_up self →
  get_allowed_signers self w = (set_db_ops (S (w_db_ops w)) w,
    Ret {| allowed_signers_list :=
      (λ r, {| as_identity := rk_user r; as_pubkey := rk_pubkey r |})
        <$> registered_keys (w_db w) |}).
Proof.
  intros [Ho Hf]. unfold get_allowed_signers, establish_connection. st_unfold.
  rewrite Ho, load_run, Hf. cbn. by rewrite <-list_fmap_compose.
Qed.

(** ** The X.509 rule *)

(** The rows that let a user's token fetch an mTLS certificate: the token is
    the user's, for the authority, and gives proof of presence if it must. *)
Definition x509_allowed (db : Database) (user authority : string) (att : PIVAttestation) : Prop :=
  ∃ row, row ∈ x509_authorizations db ∧ xr_user row = user ∧ xr_authority row = authority ∧
    xr_hsm_serial row = int_to_string (pa_serial att) ∧
    (xr_require_touch row = true → touch_policy att ≠ TouchNever).

Lemma x509_rows_head user authority serial db r :
  head (x509_rows_of user authority serial db) = Some r →
  r ∈ x509_authorizations db ∧ xr_user r = user ∧ xr_authority r = authority ∧
    xr_hsm_serial r = serial.
Proof.
  unfold x509_rows_of. intros Hh. destruct (filter _ _) as [|r' l] eqn:Hf; [done|].
  simpl in Hh. simplify_eq. assert (r ∈ r :: l) as Hin by set_solver. rewrite <-Hf in Hin.
  apply list_elem_of_filter in Hin. naive_solver.
Qed.

Lemma x509_rows_lookup db r :
  db_wf db → r ∈ x509_authorizations db →
  x509_rows_of (xr_user r) (xr_authority r) (xr_hsm_serial r) db = [r].
Proof.
  intros Hwf Hr. unfold x509_rows_of.
  destruct (filter_key_unique xr_key (xr_key r)
    (λ r', xr_user r' = xr_user r ∧ xr_authority r' = xr_authority r ∧
      xr_hsm_serial r' = xr_hsm_serial r) (x509_authorizations db)) as [He|[y He]].
  - apply Hwf.
  - intros x (? & ? & ?). unfold xr_key. congruence.
  - assert (r ∈ []) as Hin; [|by apply not_elem_of_nil in Hin].
    rewrite <-He. by apply list_elem_of_filter.
  - assert (r ∈ [y]) as Hin; [|by apply list_elem_of_singleton in Hin as ->].
    rewrite <-He. by apply list_elem_of_filter.
Qed.

(** A grant means an allowed token. *)
Lemma authorize_x509_allowed self props w w' a :
  authorize_attested_x509_cert self props w = (w', Ret a) →
  ∃ att user rest, k_attestation (xp_key props) = Some (Piv att) ∧
    xp_mtls_identities props = user :: rest ∧ xa_common_name a = user ∧
    xa_authority a = xp_authority props ∧ x509_allowed (w_db w) user (xp_authority props) att.
Proof.
  unfold authorize_attested_x509_cert. intros Hrun. st_inv_all.
  match goal with Hh : head (x509_rows_of _ _ _ _) = Some _ |- _ =>
    apply x509_rows_head in Hh as (Hr & Hu & Ha & Hs) end.
  match goal with Hh : head _ = Some _, Hb : _ && _ = false |- _ =>
    apply head_Some in Hh as [rest Hids]; rename Hb into Htouch end.
  eexists _, _, rest. split_and!; [done|exact Hids|done|done|].
  eexists; split_and!; [done..|]. intros Hreq Hnever.
  by rewrite Hreq, Hnever in Htouch.
Qed.

(** ** Properties *)

(** An SSH authorization from the local database is backed by a
    permission row of exactly the requested fingerprint and authority that
    allows the certificate type; unless that row lifts the restriction, every
    granted principal and host has a row of its own; nothing is forced, the
    database is not changed. *)
Theorem database_grants_only_what_the_tables_say self req w w' a :
  authorize_ssh_cert self req w = (w', Ret a) →
  w_db w' = w_db w ∧ ∃ r, grants (w_db w) (db_now w) req r a.
Proof. apply authorize_ssh_cert_grants. Qed.

(** C19: with the database up, the answer to an SSH request is decided by the
    one permission row of the fingerprint and authority: no row is
    [NotAuthorized], a row that forbids the type is [CertType], and a row that
    allows it grants - except that a debug build panics when the end of the
    validity overflows, as a negative [max_creation_time] makes it do. *)
Theorem database_decides_by_the_permission_row self req w :
  db_up self → db_wf (w_db w) →
  ((∀ r, r ∈ fingerprint_permissions (w_db w) →
      fp_key r ≠ (sp_fingerprint req, sp_authority req)) →
    (authorize_ssh_cert self req w).2 = Raise AE_NotAuthorized) ∧
  (∀ r, r ∈ fingerprint_permissions (w_db w) →
    fp_key r = (sp_fingerprint req, sp_authority req) →
    if may_create r (sp_cert_type req) then
      (∃ a, (authorize_ssh_cert self req w).2 = Ret a ∧ grants (w_db w) (db_now w) req r a) ∨
      (build = Debug ∧ ¬ in_u64 (db_now w + as_u64 (fp_max_creation_time r)) ∧
        (authorize_ssh_cert self req w).2 = Panic)
    else (authorize_ssh_cert self req w).2 = Raise AE_CertType).
Proof.
  intros Hup Hwf. rewrite authorize_ssh_cert_run by done. split.
  { intros Hno. by rewrite permissions_of_nil. }
  intros r Hr Hk. unfold fp_key in Hk. injection Hk as Hf Ha.
  rewrite <-Hf, <-Ha, permissions_of_lookup by done. destruct (may_create _ _) eqn:Hm; [|done].
  unfold u64_add. destruct (decide (in_u64 (db_now w + as_u64 (fp_max_creation_time r)))).
  - left. rewrite u64_of_ok by done. eexists. split; [done|].
    rewrite <-(as_u64_id (_ + _)) by done. apply grant_of_grants; unfold fp_key; congruence.
  - destruct build eqn:Hb; [right|left].
    + split_and!; [done..|]. unfold u64_of. by rewrite decide_False.
    + rewrite u64_of_release. eexists. split; [done|].
      apply grant_of_grants; unfold fp_key; congruence.
Qed.

(** Registration is unique by fingerprint.  A run of [register_key],
    whatever fails, keeps every table's primary key; with the database up, a
    new fingerprint adds exactly its row and a known one is refused with a
    database error and changes no table. *)
Theorem database_registers_each_fingerprint_once self req w :
  db_wf (w_db w) →
  db_wf (w_db (register_key self req w).1) ∧
  (db_up self → rp_fingerprint req ∉ rk_key <$> registered_keys (w_db w) →
    (register_key self req w).2 = Ret () ∧
    registered_keys (w_db (register_key self req w).1) =
      registered_keys (w_db w) ++ [registered_key req]) ∧
  (db_up self → rp_fingerprint req ∈ rk_key <$> registered_keys (w_db w) →
    (register_key self req w).2 = Raise (AE_DatabaseError unique_violation) ∧
    w_db (register_key self req w).1 = w_db w).
Proof.
  intros Hwf. split; [by apply register_key_wf|].
  split; intros Hup Hin; rewrite register_key_run by done; cbn zeta.
  - by rewrite decide_False.
  - by rewrite decide_True.
Qed.

(** A key that was registered is served: after a registration that
    succeeded, the allowed signers are those of before and the new key under
    its owner's identities joined by commas. *)
Theorem database_serves_what_it_registered self req w w' :
  db_up self →
  register_key self req w = (w', Ret ()) →
  ∃ before, (get_allowed_signers self w).2 = Ret before ∧
  (get_allowed_signers self w').2 = Ret {| allowed_signers_list :=
    allowed_signers_list before ++
    [{| as_identity := join "," (rp_mtls_identities req); as_pubkey := rp_pubkey req |}] |}.
Proof.
  intros Hup. rewrite register_key_run by done. cbn zeta. case_decide; [done|].
  intros [= <-]. rewrite !get_allowed_signers_run by done. eexists. split; [done|]. cbn.
  rewrite fmap_app. repeat f_equal; cbn; unfold registered_key;
    by destruct (rp_attestation req) as [[]|].
Qed.

(** The local database issues an mTLS certificate exactly for a PIV token
    that a row of its table ties to the requester's first identity and to the
    authority, and never without a touch policy where that row requires touch.
    The certificate names that identity and is valid for twelve hours from now;
    any other request is refused. *)
Theorem database_x509_needs_an_allowed_token self props w ts :
  db_up self → db_wf (w_db w) →
  clock (w_clock w) = Some ts → in_u64 (as_secs ts + 43200) →
  match k_attestation (xp_key props), xp_mtls_identities props with
  | Some (Piv att), user :: _ =>
      (x509_allowed (w_db w) user (xp_authority props) att →
        (authorize_attested_x509_cert self props w).2 = Ret
          {| xa_authority := xp_authority props; xa_issuer := "Rustica";
             xa_common_name := user; xa_sans := [user]; xa_serial := 0xFEFEFEFEFE;
             xa_valid_before := as_secs ts + 43200; xa_valid_after := as_secs ts;
             xa_extensions := [] |}) ∧
      (¬ x509_allowed (w_db w) user (xp_authority props) att →
        (authorize_attested_x509_cert self props w).2 = Raise AE_NotAuthorized)
  | _, _ => (authorize_attested_x509_cert self props w).2 = Raise AE_AuthorizerError
  end.
Proof.
  intros [Ho Hf] Hwf Hc Hr64. unfold authorize_attested_x509_cert, establish_connection.
  st_unfold. rewrite Ho. cbn. destruct (k_attestation _) as [[att|]|]; [|done..]. cbn.
  destruct (xp_mtls_identities props) as [|user l]; [done|]. cbn.
  rewrite load_run, Hf. cbn. split.
  - intros (row & Hrow & Hu & Ha & Hs & Htouch).
    pose proof (x509_rows_lookup _ _ Hwf Hrow) as Hl. rewrite Hu, Ha, Hs in Hl.
    rewrite Hl. cbn. destruct (xr_require_touch row); cbn.
    + rewrite bool_decide_eq_false_2 by auto. unfold read_clock, add_u64. st_unfold. cbn.
      rewrite Hc. cbn. unfold u64_add. by rewrite u64_of_ok.
    + unfold read_clock, add_u64. st_unfold. cbn.
      rewrite Hc. cbn. unfold u64_add. by rewrite u64_of_ok.
  - intros Hno. destruct (head (x509_rows_of _ _ _ _)) as [r|] eqn:Hh; [cbn|done].
    apply x509_rows_head in Hh as (Hr & Hu & Ha & Hs).
    destruct (xr_require_touch r && bool_decide (touch_policy att = TouchNever)) eqn:Ht; [done|].
    destruct Hno. exists r. split_and!; try done. intros Hreq Hn. by rewrite Hreq, Hn in Ht.
Qed.
End Local.
End Local.
