(* ===== verification/External.v ===== *)
(** * The external authorizer

    [rustica/src/auth/external.rs]: the authorizer that asks another service
    over mTLS.  Each operation builds the two maps of its request, opens a
    channel, makes one call and interprets the answer.  [HashMap]s indexed with
    a missing key panic. *)
From Stdlib Require Import ZArith Lia.
From S2P Require Import Prelude Machine Text Deps Key Auth Logging Schema World.

Module External.
Section External.
Context `{Lru, Env, SshCerts, Hex, Asn1}.

#[local] Abbreviation auth_st := (st World AuthorizationError).

(** [approval_response[key]]. *)
Definition index (m : gmap string string) (k : string) : auth_st string := unwrap (m !! k).

(** The URI, the TLS configuration and the connection; an invalid URI is the
    error [on_invalid]. *)
Definition connect (self : AuthServer) (on_invalid : AuthorizationError) : auth_st () := λ w,
  (set_connects (S (w_connects w)) w,
   match author_connect (w_connects w) self
     ("https://" +:+ server self +:+ ":" +:+ port self) with
   | InvalidUri => Raise on_invalid
   | TlsConfigError | ConnectError => Raise AE_ConnectionFailure
   | Connected => Ret ()
   end).

(** One call of the author's service. *)
Definition call_author {A} (c : AuthorCall) (answer : list AuthorCall → result Status A)
    : auth_st (result Status A) := λ w,
  (set_author (w_author w ++ [c]) w, Ret (answer (w_author w))).

(** ** authorize_ssh_cert *)

Definition ssh_identities (p : SshAuthorizationRequestProperties) : gmap string string :=
  <["mtls_identities" := join "," (sp_mtls_identities p)]>
  (<["key_fingerprint" := sp_fingerprint p]>
  (<["requester_ip" := sp_requester_ip p]> ∅)).

Definition ssh_request (p : SshAuthorizationRequestProperties) : gmap string string :=
  <["authority" := sp_authority p]>
  (<["cert_type" := cert_type_to_string (sp_cert_type p)]>
  (<["valid_after" := int_to_string (sp_valid_after p)]>
  (<["valid_before" := int_to_string (sp_valid_before p)]>
  (<["servers" := join "," (sp_servers p)]>
  (<["principals" := join "," (sp_principals p)]>
  (<["type" := "ssh"]> ∅)))))).

(** The keys that start with the prefix, without it. *)
Definition extensions_of_response (m : gmap string string) : gmap string string :=
  collect_map ((λ kv : string * string,
      (default "" (strip_prefix "extension." kv.1), default "" (m !! kv.1)))
    <$> filter (λ kv : string * string, starts_with "extension." kv.1 = true) (map_order m)).

Definition authorize_ssh_cert (self : AuthServer) (auth_props : SshAuthorizationRequestProperties)
    : auth_st SshAuthorization :=
  let request := {| ar_identities := ssh_identities auth_props;
                    ar_authorization_request := ssh_request auth_props |} in
  connect self AE_AuthorizerError;;
  response ← call_author (Authorize request) (λ h, author_authorize h request);
  approval_response ←
    match response with
    | Ok r => mret r
    | Err e =>
        if decide (code e = PermissionDenied) then throw AE_NotAuthorized
        else throw AE_AuthorizerError
    end;
  let extensions := extensions_of_response approval_response in
  let force_command := approval_response !! "force_command" in
  let force_source_ip := bool_decide (is_Some (approval_response !! "force_source_ip")) in
  let hosts := split ","%char <$> approval_response !! "authorized_fingerprints" in
  s ← index approval_response "serial";
  serial ← of_option AE_AuthorizerError (parse_u64 s);
  s ← index approval_response "valid_before";
  valid_before ← of_option AE_AuthorizerError (parse_u64 s);
  s ← index approval_response "valid_after";
  valid_after ← of_option AE_AuthorizerError (parse_u64 s);
  principals ← index approval_response "principals";
  authority ← index approval_response "authority";
  mret {| sa_serial := serial;
          sa_valid_before := valid_before;
          sa_valid_after := valid_after;
          sa_principals := split ","%char principals;
          sa_hosts := hosts;
          sa_extensions := extensions;
          sa_force_command := force_command;
          sa_force_source_ip := force_source_ip;
          sa_authority := authority |}.

(** ** register_key *)

Definition register_identities (r : RegisterKeyRequestProperties) : gmap string string :=
  <["mtls_identities" := join "," (rp_mtls_identities r)]>
  (<["key_fingerprint" := rp_fingerprint r]>
  (<["requester_ip" := rp_requester_ip r]> ∅)).

Definition identity_data (r : RegisterKeyRequestProperties) : gmap string string :=
  match rp_attestation r with
  | Some (Piv a) =>
      <["intermediate_certificate" := hex_encode (pa_intermediate a)]>
      (<["certificate" := hex_encode (pa_certificate a)]>
      (<["type" := "ssh_key"]> ∅))
  | Some (U2f a) =>
      <["aaguid" := ua_aaguid a]>
      (<["alg" := int_to_string (ua_alg a)]>
      (<["application" := hex_encode (ua_application a)]>
      (<["challenge" := hex_encode (ua_challenge a)]>
      (<["intermediate_certificate" := hex_encode (ua_intermediate a)]>
      (<["auth_data_signature" := hex_encode (ua_auth_data_signature a)]>
      (<["auth_data" := hex_encode (ua_auth_data a)]>
      (<["type" := "u2f_ssh_key"]> ∅)))))))
  | None => <["type" := "ssh_key"]> ∅
  end.

Definition register_key (self : AuthServer) (req : RegisterKeyRequestProperties) : auth_st () :=
  let request := {| ai_identities := register_identities req;
                    ai_identity_data := identity_data req |} in
  connect self AE_ConnectionFailure;;
  response ← call_author (AddIdentityData request) (λ h, author_add_identity_data h request);
  match response with
  | Ok _ => mret ()
  | Err e => throw (AE_ExternalError (status_to_string e))
  end.

(** ** authorize_attested_x509_cert *)

Definition x509_request (p : X509AuthorizationRequestProperties) : gmap string string :=
  <["authority" := xp_authority p]> (<["type" := "rustica_mtls"]> ∅).

Definition x509_identities (p : X509AuthorizationRequestProperties) : gmap string string :=
  <["intermediate" := hex_encode (xp_attestation_intermediate p)]>
  (<["leaf" := hex_encode (xp_attestation p)]>
  (<["requester_ip" := xp_requester_ip p]>
  (<["mtls_identities" := join "," (xp_mtls_identities p)]> ∅))).

(** An entry whose key is an OID. *)
Definition x509_extension (entry : string * string) : option CustomExtension :=
  match oid_from_str entry.1 with
  | Some (Some oid_ints) =>
      entry_bytes ← write_utf8_string entry.2;
      Some (from_oid_content oid_ints entry_bytes)
  | _ => None
  end.

Definition authorize_attested_x509_cert (self : AuthServer)
    (auth_props : X509AuthorizationRequestProperties) : auth_st X509Authorization :=
  let request := {| ar_identities := x509_identities auth_props;
                    ar_authorization_request := x509_request auth_props |} in
  connect self AE_ConnectionFailure;;
  response ← call_author (Authorize request) (λ h, author_authorize h request);
  response ← match response with Ok r => mret r | Err _ => throw AE_AuthorizerError end;
  let extensions := omap x509_extension (map_order response) in
  mtls_user ← of_option AE_AuthorizerError (head (xp_mtls_identities auth_props));
  '(valid_before, valid_after) ←
    match parse_u64 <$> response !! "valid_before", parse_u64 <$> response !! "valid_after" with
    | Some (Some vb), Some (Some va) => mret (vb, va)
    | None, None =>
        now ← read_clock;
        current_time ← unwrap (as_secs <$> now);
        vb ← add_u64 current_time (3600 * 12);
        mret (vb, current_time)
    | _, _ => throw AE_AuthorizerError
    end;
  serial ←
    match parse_i64 <$> response !! "serial" with
    | Some (Some serial) => mret serial
    | Some None => throw AE_AuthorizerError
    | None => mret 0xFEFEFEFEFE
    end;
  authority ← of_option AE_AuthorizerError (response !! "authority");
  mret {| xa_authority := authority;
          xa_issuer := default "Rustica" (response !! "issuer");
          xa_common_name := mtls_user;
          xa_sans := [mtls_user];
          xa_serial := serial;
          xa_valid_before := valid_before;
          xa_valid_after := valid_after;
          xa_extensions := extensions |}.

(** ** get_allowed_signers *)

Definition get_allowed_signers (self : AuthServer) : auth_st AllowedSigners :=
  connect self AE_ConnectionFailure;;
  response ← call_author GetAllowedSigners author_allowed_signers;
  match response with
  | Err _ => throw AE_AuthorizerError
  | Ok allowed_signers =>
      mret {| allowed_signers_list :=
        (λ s : string * string, {| as_identity := s.1; as_pubkey := s.2 |})
          <$> allowed_signers |}
  end.

(** ** Runs *)

Lemma connect_Ret self e w w' u :
  connect self e w = (w', Ret u) ↔
    w' = set_connects (S (w_connects w)) w ∧
    author_connect (w_connects w) self ("https://" +:+ server self +:+ ":" +:+ port self)
      = Connected.
Proof. unfold connect. destruct u, (author_connect _ _ _); naive_solver. Qed.

Lemma call_author_Ret {A} c (answer : list AuthorCall → result Status A) w w' r :
  call_author c answer w = (w', Ret r) ↔
    w' = set_author (w_author w ++ [c]) w ∧ r = answer (w_author w).
Proof. unfold call_author. naive_solver. Qed.

Lemma index_Ret m k w w' v : index m k w = (w', Ret v) ↔ w' = w ∧ m !! k = Some v.
Proof. apply unwrap_Ret. Qed.

#[local] Hint Rewrite @connect_Ret @call_author_Ret @index_Ret : st_inv.

(** What is left of [authorize_ssh_cert] once the author has answered. *)
Definition field (m : gmap string string) (k : string) : outcome AuthorizationError string :=
  match m !! k with Some v => Ret v | None => Panic end.
Definition number (m : gmap string string) (k : string) : outcome AuthorizationError Z :=
  s ← field m k; match parse_u64 s with Some n => Ret n | None => Raise AE_AuthorizerError end.
Definition ssh_answer (m : gmap string string) : outcome AuthorizationError SshAuthorization :=
  serial ← number m "serial";
  valid_before ← number m "valid_before";
  valid_after ← number m "valid_after";
  principals ← field m "principals";
  authority ← field m "authority";
  Ret {| sa_serial := serial; sa_valid_before := valid_before; sa_valid_after := valid_after;
         sa_principals := split ","%char principals;
         sa_hosts := split ","%char <$> m !! "authorized_fingerprints";
         sa_extensions := extensions_of_response m;
         sa_force_command := m !! "force_command";
         sa_force_source_ip := bool_decide (is_Some (m !! "force_source_ip"));
         sa_authority := authority |}.

Lemma authorize_ssh_cert_answered self p w :
  author_connect (w_connects w) self ("https://" +:+ server self +:+ ":" +:+ port self)
    = Connected →
  let request := {| ar_identities := ssh_identities p;
                    ar_authorization_request := ssh_request p |} in
  authorize_ssh_cert self p w =
    (set_author (w_author w ++ [Authorize request]) (set_connects (S (w_connects w)) w),
     match author_authorize (w_author w) request with
     | Ok m => ssh_answer m
     | Err e => Raise (if decide (code e = PermissionDenied) then AE_NotAuthorized
                       else AE_AuthorizerError)
     end).
Proof.
  intros Hc. cbn zeta. unfold authorize_ssh_cert, connect, call_author. st_unfold. rewrite Hc. cbn.
  destruct (author_authorize _ _) as [m|e]; [|by case_decide].
  unfold index, ssh_answer, number, field. st_unfold. unfold outcome_bind. cbn.
  repeat (case_match; simplify_eq; try done).
Qed.

Lemma connect_cases self e w :
  (∃ c, connect self e w = (set_connects (S (w_connects w)) w, c) ∧
    c ∈ [Ret (); Raise AE_ConnectionFailure; Raise e]).
Proof. unfold connect. eexists. split; [done|]. destruct (author_connect _ _ _); set_solver. Qed.

(** ** The answer of the author *)

Section Answers.
Context `{!EnvLaws}.

Lemma elem_of_map_order (m : gmap string string) k v : (k, v) ∈ map_order m ↔ m !! k = Some v.
Proof. by rewrite map_order_perm, elem_of_map_to_list. Qed.

Lemma NoDup_map_order m : NoDup (map_order m).*1.
Proof. rewrite map_order_perm. apply NoDup_fst_map_to_list. Qed.

(** The stripped prefix leaves the keys distinct. *)
Lemma strip_extension r : strip_prefix "extension." ("extension." +:+ r) = Some r.
Proof. by apply strip_prefix_Some. Qed.

Lemma starts_with_extension k :
  starts_with "extension." k = true ↔ ∃ r, k = "extension." +:+ r.
Proof.
  unfold starts_with. destruct (strip_prefix "extension." k) as [r|] eqn:Hs.
  - apply strip_prefix_Some in Hs. naive_solver.
  - split; [done|]. intros [r ->]. by rewrite strip_extension in Hs.
Qed.

Lemma extensions_NoDup (m : gmap string string) (l : list (string * string)) :
  NoDup l.*1 →
  NoDup ((λ kv : string * string,
      (default "" (strip_prefix "extension." kv.1), default "" (m !! kv.1)))
    <$> filter (λ kv : string * string, starts_with "extension." kv.1 = true) l).*1.
Proof.
  induction l as [|[k v] l IH]; [constructor|]. intros [Hk Hnd]%NoDup_cons.
  specialize (IH Hnd). rewrite filter_cons. case_decide as Hp; [|done].
  apply starts_with_extension in Hp as [r Hr]. cbn [fst] in Hr. subst k.
  rewrite !fmap_cons. cbn [fst]. rewrite strip_extension. apply NoDup_cons. split; [|done].
  intros Hin. apply Hk. apply list_elem_of_fmap in Hin as ([k2 v2] & He & Hin).
  apply list_elem_of_fmap in Hin as ([k3 v3] & He' & Hin).
  apply list_elem_of_filter in Hin as [[r' Hr']%starts_with_extension Hin].
  cbn [fst] in *. subst k3. rewrite strip_extension in He'. cbn in *. simplify_eq.
  apply list_elem_of_fmap. by eexists (_, _).
Qed.

Lemma extensions_lookup (m : gmap string string) k :
  extensions_of_response m !! k = m !! ("extension." +:+ k).
Proof.
  apply option_eq. intros x. unfold extensions_of_response.
  rewrite collect_map_NoDup by apply extensions_NoDup, NoDup_map_order.
  rewrite list_elem_of_fmap. setoid_rewrite list_elem_of_filter. split.
  - intros ([k' v] & Heq & [r Hr]%starts_with_extension & Hin). apply elem_of_map_order in Hin.
    cbn [fst] in *. subst k'. rewrite strip_extension, Hin in Heq. cbn in *. by simplify_eq.
  - intros Hm. exists ("extension." +:+ k, x). cbn [fst]. rewrite strip_extension, Hm.
    split; [done|]. split; [apply starts_with_extension; by eexists|]. by apply elem_of_map_order.
Qed.

(** The extensions of an authorization are the keys of the author's answer
    that start with the prefix, with their values: nothing is lost, renamed or
    overwritten, whatever order the map is iterated in. *)
Theorem external_extensions_are_the_prefixed_keys m k :
  extensions_of_response m !! k = m !! ("extension." +:+ k).
Proof. apply extensions_lookup. Qed.
End Answers.

(** The keys an approval must have, and those that are numbers. *)
Definition numbers_ok (m : gmap string string) : Prop :=
  ∀ k, k ∈ ["serial"; "valid_before"; "valid_after"] →
    ∃ s n, m !! k = Some s ∧ parse_u64 s = Some n.

Lemma number_cases m k :
  (∃ s n, m !! k = Some s ∧ parse_u64 s = Some n ∧ number m k = Ret n) ∨
  (∃ s, m !! k = Some s ∧ parse_u64 s = None ∧ number m k = Raise AE_AuthorizerError) ∨
  (m !! k = None ∧ number m k = Panic).
Proof.
  unfold number, field. destruct (m !! k) as [s|]; [|auto].
  unfold mbind, outcome_bind. destruct (parse_u64 s) eqn:?; naive_solver.
Qed.

(** The keys of an approval that are strings, and the ways an approval ends. *)
Definition strings_ok (m : gmap string string) : Prop :=
  ∀ k, k ∈ ["principals"; "authority"] → is_Some (m !! k).

Lemma ssh_answer_cases m :
  (numbers_ok m ∧ strings_ok m ∧ ∃ a, ssh_answer m = Ret a) ∨
  (ssh_answer m = Raise AE_AuthorizerError ∧ ∃ k s,
    k ∈ ["serial"; "valid_before"; "valid_after"] ∧ m !! k = Some s ∧ parse_u64 s = None) ∨
  (ssh_answer m = Panic ∧ ∃ k,
    k ∈ ["serial"; "valid_before"; "valid_after"; "principals"; "authority"] ∧ m !! k = None).
Proof.
  unfold ssh_answer, field. unfold mbind, outcome_bind.
  destruct (number_cases m "serial") as [(s1&n1&Hs1&?&->)|[(s1&?&?&->)|[? ->]]];
    [|by right; left; split; [done|]; exists "serial", s1; set_solver
     |by right; right; split; [done|]; exists "serial"; set_solver].
  destruct (number_cases m "valid_before") as [(s2&n2&Hs2&?&->)|[(s2&?&?&->)|[? ->]]];
    [|by right; left; split; [done|]; exists "valid_before", s2; set_solver
     |by right; right; split; [done|]; exists "valid_before"; set_solver].
  destruct (number_cases m "valid_after") as [(s3&n3&Hs3&?&->)|[(s3&?&?&->)|[? ->]]];
    [|by right; left; split; [done|]; exists "valid_after", s3; set_solver
     |by right; right; split; [done|]; exists "valid_after"; set_solver].
  destruct (m !! "principals") eqn:Hp;
    [|by right; right; split; [done|]; exists "principals"; set_solver].
  destruct (m !! "authority") eqn:Ha;
    [|by right; right; split; [done|]; exists "authority"; set_solver].
  left. split_and!; [..|by eexists].
  - unfold numbers_ok. intros k. rewrite !elem_of_cons. intros [->|[->|[->|[]%not_elem_of_nil]]]; eauto.
  - unfold strings_ok. intros k. rewrite !elem_of_cons. intros [->|[->|[]%not_elem_of_nil]]; eauto.
Qed.

(** C26: once connected, the answer of [authorize_ssh_cert] is decided by the
    author's: a [PermissionDenied] is [NotAuthorized] and any other error an
    [AuthorizerError]; an approval is granted when the three numbers are there
    and fit in 64 bits and the principals and the authority are there; it is
    an [AuthorizerError] only for a number that does not parse; and when it is
    neither the handler panics, exactly for a missing key. *)
Theorem external_ssh_answer_decides self p w :
  author_connect (w_connects w) self ("https://" +:+ server self +:+ ":" +:+ port self)
    = Connected →
  let request := {| ar_identities := ssh_identities p;
                    ar_authorization_request := ssh_request p |} in
  let r := (authorize_ssh_cert self p w).2 in
  match author_authorize (w_author w) request with
  | Err e => r = Raise (if decide (code e = PermissionDenied) then AE_NotAuthorized
                        else AE_AuthorizerError)
  | Ok m =>
      ((∃ a, r = Ret a) ↔
        numbers_ok m ∧ strings_ok m) ∧
      (∀ e, r = Raise e → e = AE_AuthorizerError ∧ ∃ k s,
        k ∈ ["serial"; "valid_before"; "valid_after"] ∧ m !! k = Some s ∧ parse_u64 s = None) ∧
      (r = Panic → ∃ k, k ∈ ["serial"; "valid_before"; "valid_after"; "principals"; "authority"] ∧
        m !! k = None)
  end.
Proof.
  intros Hc. cbn zeta. rewrite authorize_ssh_cert_answered by done. cbn [snd].
  destruct (author_authorize _ _) as [m|e]; [|done].
  destruct (ssh_answer_cases m) as [(Hn & Hs & a & ->)|[[-> (k & s & Hk & Hm & Hp)]|[-> (k & Hk & Hm)]]].
  - split_and!; [naive_solver|by intros ? [=]|by intros [=]].
  - split_and!; [|intros ? [= <-]; eauto 10|by intros [=]].
    split; [by intros [? [=]]|]. intros [Hn _]. destruct (Hn k Hk) as (?&?&?&?). congruence.
  - split_and!; [|by intros ? [=]|eauto].
    split; [by intros [? [=]]|]. intros [Hn Hs]. rewrite !elem_of_cons in Hk.
    assert (k ∈ ["serial"; "valid_before"; "valid_after"] ∨ k ∈ ["principals"; "authority"])
      as [Hk'|Hk'] by (rewrite !elem_of_cons; tauto).
    + destruct (Hn k Hk') as (?&?&?&?). congruence.
    + destruct (Hs k Hk'). congruence.
Qed.

(** The author is asked at most once per SSH request, and what it is asked
    is the request: the fingerprint and the identities the challenge proved,
    the requested validity as decimal numbers that read back, the principals
    and servers joined by commas, the authority. *)
Theorem external_ssh_asks_for_the_requester self p w w' r :
  in_u64 (sp_valid_before p) → in_u64 (sp_valid_after p) →
  authorize_ssh_cert self p w = (w', r) →
  w_author w' = w_author w ∨ ∃ q, w_author w' = w_author w ++ [Authorize q] ∧
    ar_identities q !! "key_fingerprint" = Some (sp_fingerprint p) ∧
    ar_identities q !! "mtls_identities" = Some (join "," (sp_mtls_identities p)) ∧
    ar_identities q !! "requester_ip" = Some (sp_requester_ip p) ∧
    (ar_authorization_request q !! "valid_before" ≫= parse_u64) = Some (sp_valid_before p) ∧
    (ar_authorization_request q !! "valid_after" ≫= parse_u64) = Some (sp_valid_after p) ∧
    ar_authorization_request q !! "principals" = Some (join "," (sp_principals p)) ∧
    ar_authorization_request q !! "servers" = Some (join "," (sp_servers p)) ∧
    ar_authorization_request q !! "authority" = Some (sp_authority p) ∧
    ar_authorization_request q !! "cert_type" = Some (cert_type_to_string (sp_cert_type p)) ∧
    ar_authorization_request q !! "type" = Some "ssh".
Proof.
  intros Hb Ha Hrun.
  destruct (author_connect (w_connects w) self ("https://" +:+ server self +:+ ":" +:+ port self))
    eqn:Hc.
  1-3: left; revert Hrun; unfold authorize_ssh_cert, connect; st_unfold; rewrite Hc; cbn;
    by intros [= <- <-].
  right. rewrite authorize_ssh_cert_answered in Hrun by done. cbn zeta in Hrun.
  injection Hrun as <- _. eexists. split; [done|]. cbn [ar_identities ar_authorization_request].
  unfold ssh_identities, ssh_request. repeat split; simplify_map_eq; cbn;
    auto using parse_u64_to_string.
Qed.
End External.
End External.
