(* ===== verification/Authorizer.v ===== *)
(** * The authorizer the server is configured with

    [AuthorizationMechanism] of [rustica/src/auth/mod.rs], and the interface
    [Authorizer] under which the server's handlers use it. *)
From Stdlib Require Import ZArith.
From S2P Require Import Prelude Machine Text Deps Key Auth Logging Schema World.
From S2P Require Import Database External.

(** What a handler can ask of an authorizer. *)
Class Authorizer `{Lru} (A : Type) := {
  authorize_ssh_cert : A → SshAuthorizationRequestProperties →
    st World AuthorizationError SshAuthorization;
  authorize_attested_x509_cert : A → X509AuthorizationRequestProperties →
    st World AuthorizationError X509Authorization;
  register_key : A → RegisterKeyRequestProperties → st World AuthorizationError ();
  get_allowed_signers : A → st World AuthorizationError AllowedSigners;
}.

(** What it promises: it does not touch the server's own state; only a
    registration changes the database, and that keeps its primary keys. *)
Definition keeps_keys `{Lru} (w w' : World) : Prop := db_wf (w_db w) → db_wf (w_db w').

Class AuthorizerLaws `{Lru} (A : Type) `{!Authorizer A} : Prop := {
  authorize_ssh_cert_frame self p : preserves frame (authorize_ssh_cert (A := A) self p);
  authorize_attested_x509_cert_frame self p :
    preserves frame (authorize_attested_x509_cert (A := A) self p);
  register_key_frame self p : preserves frame (register_key (A := A) self p);
  get_allowed_signers_frame self : preserves frame (get_allowed_signers (A := A) self);
  authorize_ssh_cert_db self p : preserves same_db (authorize_ssh_cert (A := A) self p);
  authorize_attested_x509_cert_db self p :
    preserves same_db (authorize_attested_x509_cert (A := A) self p);
  get_allowed_signers_db self : preserves same_db (get_allowed_signers (A := A) self);
  register_key_keys self p : preserves keeps_keys (register_key (A := A) self p);
}.

#[export] Hint Resolve authorize_ssh_cert_frame authorize_attested_x509_cert_frame
  register_key_frame get_allowed_signers_frame authorize_ssh_cert_db
  authorize_attested_x509_cert_db get_allowed_signers_db register_key_keys : preserves.

Inductive AuthorizationMechanism : Type :=
| MLocal (local : LocalDatabase)
| MExternal (external : AuthServer).

Record AuthorizationConfiguration : Type := {
  database : option LocalDatabase;
  external : option AuthServer;
}.

(** [TryInto], with the [local-db] feature: exactly one of the two. *)
Definition mechanism_try_into (self : AuthorizationConfiguration)
    : result () AuthorizationMechanism :=
  match database self, external self with
  | Some database, None => Ok (MLocal database)
  | None, Some external => Ok (MExternal external)
  | _, _ => Err ()
  end.

(** [info]. *)
Definition mechanism_info (self : AuthorizationMechanism) : string :=
  match self with
  | MLocal local => "Configured authorizer: Local DB at " +:+ path local
  | MExternal external => "Configured authorizer: Remote Service at " +:+ server external
  end.

Section Mechanism.
Context `{Lru, Env, SshCerts, Hex, Asn1}.

Definition mechanism_authorize_ssh_cert (self : AuthorizationMechanism)
    (p : SshAuthorizationRequestProperties) : st World AuthorizationError SshAuthorization :=
  match self with
  | MLocal local => Local.authorize_ssh_cert local p
  | MExternal external => External.authorize_ssh_cert external p
  end.

Definition mechanism_authorize_attested_x509_cert (self : AuthorizationMechanism)
    (p : X509AuthorizationRequestProperties) : st World AuthorizationError X509Authorization :=
  match self with
  | MLocal local => Local.authorize_attested_x509_cert local p
  | MExternal external => External.authorize_attested_x509_cert external p
  end.

Definition mechanism_register_key (self : AuthorizationMechanism)
    (p : RegisterKeyRequestProperties) : st World AuthorizationError () :=
  match self with
  | MLocal local => Local.register_key local p
  | MExternal external => External.register_key external p
  end.

Definition mechanism_get_allowed_signers (self : AuthorizationMechanism)
    : st World AuthorizationError AllowedSigners :=
  match self with
  | MLocal local => Local.get_allowed_signers local
  | MExternal external => External.get_allowed_signers external
  end.

#[export] Instance mechanism_authorizer : Authorizer AuthorizationMechanism := {
  authorize_ssh_cert := mechanism_authorize_ssh_cert;
  authorize_attested_x509_cert := mechanism_authorize_attested_x509_cert;
  register_key := mechanism_register_key;
  get_allowed_signers := mechanism_get_allowed_signers;
}.

(** ** The mechanism keeps the promise *)

#[export] Instance keeps_keys_preorder : PreOrder keeps_keys.
Proof. split; [by intros w Hw|]. intros w1 w2 w3 H12 H23 Hw. by apply H23, H12. Qed.

(** Both promises follow for a call that changes only counters. *)
Definition quiet (w w' : World) : Prop := frame w w' ∧ w_db w' = w_db w.
#[export] Instance quiet_preorder : PreOrder quiet.
Proof.
  unfold quiet. split; [done|]. intros w1 w2 w3 [? Hd] [? Hd']. split; [by etrans|congruence].
Qed.

Lemma quiet_read_clock {E} : preserves quiet (read_clock : st World E _).
Proof. by repeat split. Qed.
Lemma quiet_add_u64 {E} a b : preserves quiet (add_u64 a b : st World E _).
Proof. by repeat split. Qed.
Lemma quiet_load {A} (q : Database → list A) : preserves quiet (Local.load q).
Proof. intros w. rewrite Local.load_run. by repeat split. Qed.
Lemma quiet_establish p : preserves quiet (Local.establish_connection p).
Proof. intros w. unfold Local.establish_connection. destruct (db_opens p); cbn; reflexivity. Qed.
Lemma quiet_connect self e : preserves quiet (External.connect self e).
Proof. by repeat split. Qed.
Lemma quiet_call {A} c (a : list AuthorCall → result Status A) :
  preserves quiet (External.call_author c a).
Proof. by repeat split. Qed.
Lemma quiet_index m k : preserves quiet (External.index m k).
Proof. by repeat split. Qed.

#[local] Hint Resolve quiet_read_clock quiet_add_u64 quiet_load quiet_establish
  quiet_connect quiet_call quiet_index : preserves.

Lemma quiet_authorize_ssh_cert self p : preserves quiet (mechanism_authorize_ssh_cert self p).
Proof.
  destruct self; unfold mechanism_authorize_ssh_cert.
  - unfold Local.authorize_ssh_cert. preserve.
  - unfold External.authorize_ssh_cert. preserve.
Qed.
Lemma quiet_authorize_x509 self p :
  preserves quiet (mechanism_authorize_attested_x509_cert self p).
Proof.
  destruct self; unfold mechanism_authorize_attested_x509_cert.
  - unfold Local.authorize_attested_x509_cert. preserve.
  - unfold External.authorize_attested_x509_cert. preserve.
Qed.
Lemma quiet_get_allowed_signers self : preserves quiet (mechanism_get_allowed_signers self).
Proof.
  destruct self; unfold mechanism_get_allowed_signers.
  - unfold Local.get_allowed_signers. preserve.
  - unfold External.get_allowed_signers. preserve.
Qed.

Lemma quiet_frame {E A} (m : st World E A) : preserves quiet m → preserves frame m.
Proof. intros Hm w. apply Hm. Qed.
Lemma quiet_db {E A} (m : st World E A) : preserves quiet m → preserves same_db m.
Proof. intros Hm w. apply Hm. Qed.
Lemma quiet_keys {E A} (m : st World E A) : preserves quiet m → preserves keeps_keys m.
Proof. intros Hm w. destruct (Hm w) as [_ Hd]. unfold keeps_keys. by rewrite Hd. Qed.

Lemma mechanism_register_key_frame self p : preserves frame (mechanism_register_key self p).
Proof.
  destruct self; unfold mechanism_register_key.
  - unfold Local.register_key. preserve.
    + apply quiet_frame, quiet_establish.
    + apply frame_db_statement. unfold Local.insert_registered_key. preserve. done.
  - apply quiet_frame. unfold External.register_key. preserve.
Qed.
Lemma mechanism_register_key_keys self p : preserves keeps_keys (mechanism_register_key self p).
Proof.
  destruct self; unfold mechanism_register_key.
  - intros w. unfold keeps_keys. apply Local.register_key_wf.
  - apply quiet_keys. unfold External.register_key. preserve.
Qed.

#[export] Instance mechanism_laws : AuthorizerLaws AuthorizationMechanism.
Proof.
  split; intros; cbn;
    auto using quiet_frame, quiet_db, quiet_authorize_ssh_cert, quiet_authorize_x509,
      quiet_get_allowed_signers, mechanism_register_key_frame, mechanism_register_key_keys.
Qed.
End Mechanism.
