(* ===== verification/Signing.v ===== *)
(** * Signing

    [rustica/src/signing/mod.rs] (the [Signer] trait, the signing mechanism
    and how it is built from the configuration) and
    [rustica/src/signing/file.rs] (the signer whose keys are in the
    configuration). *)
From Stdlib Require Import ZArith.
From S2P Require Import Prelude Machine Text Deps Key Auth Logging Schema World.

Inductive SigningError : Type :=
| AccessError (m : string)
| SigningFailure
| ParsingError
| UnknownAuthority (authority : string)
| DuplicatedKey (a1 a2 : string)
| IdenticalUserAndHostKey (authority : string)
| SignerDoesNotHaveSSHKeys
| SignerDoesNotAllRequiredSSHKeys.

(** [Display]. *)
Definition signing_error_to_string (e : SigningError) : string :=
  match e with
  | AccessError e => "Could not access the private key material: " +:+ e
  | SigningFailure => "The signing operation on the provided certificate failed"
  | ParsingError => "The signature could not be parsed"
  | UnknownAuthority authority =>
      "Unknown authority was requested for a signing operation: " +:+ authority
  | DuplicatedKey a1 a2 => "Authorities " +:+ a1 +:+ " and " +:+ a2 +:+ " share at least one key. This is not allowed as it almost always a misconfiguration leading to access that is not correctly restricted"
  | IdenticalUserAndHostKey authority => "Authority " +:+ authority +:+ " has an identical key for both user and host certificates. This is not allowed as it's much safer to use separate keys for both."
  | SignerDoesNotHaveSSHKeys =>
      "Signer was not configured with SSH keys so it cannot create an SSH certificate"
  | SignerDoesNotAllRequiredSSHKeys => "Signer did not have both user and host keys defined"
  end.

(** The trait [Signer]: a signer is the record of its operations. *)
Record Signer `{Lru, SshCerts, Rcgen} : Type := {
  signer_sign : Certificate PublicKey → st World SigningError (Certificate PublicKey);
  signer_public_key : CertType → option PublicKey;
  signer_attested_x509_certificate_authority : option RcgenCertificate;
  signer_client_certificate_authority : option RcgenCertificate;
}.

(** What the mechanism and the server rely on. *)
Record SignerLaws `{Lru, SshCerts, Rcgen} (s : Signer) : Prop := {
  (** a signature leaves everything signed as it was *)
  signer_sign_tbs c w w' c' : signer_sign s c w = (w', Ret c') → same_tbs c c';
  (** only library calls are made *)
  signer_sign_frame c : preserves frame (signer_sign s c);
  signer_sign_db c w : w_db (signer_sign s c w).1 = w_db w;
  (** user and host keys are configured together *)
  signer_keys_together :
    is_Some (signer_public_key s User) ↔ is_Some (signer_public_key s Host);
  (** a signer without keys does not sign *)
  signer_sign_needs_key c w w' c' :
    signer_sign s c w = (w', Ret c') → is_Some (signer_public_key s (c_cert_type c));
}.

Record SigningMechanism `{Lru, SshCerts, Rcgen} : Type := {
  default_authority : string;
  authorities : gmap string Signer;
}.

Section Mechanism.
Context `{Lru, SshCerts, Rcgen, Env}.

(** ** The mechanism's operations *)

Definition sign (self : SigningMechanism) (authority : string) (cert : Certificate PublicKey)
    : st World SigningError (Certificate PublicKey) :=
  match authorities self !! authority with
  | Some authority => signer_sign authority cert
  | None => throw (UnknownAuthority authority)
  end.

Definition get_signer_public_key (self : SigningMechanism) (authority : string)
    (cert_type : CertType) : result SigningError PublicKey :=
  match authorities self !! authority with
  | Some authority => ok_or SignerDoesNotHaveSSHKeys (signer_public_key authority cert_type)
  | None => Err (UnknownAuthority authority)
  end.

Definition get_attested_x509_certificate_authority (self : SigningMechanism) (authority : string)
    : result SigningError (option RcgenCertificate) :=
  match authorities self !! authority with
  | Some authority => Ok (signer_attested_x509_certificate_authority authority)
  | None => Err (UnknownAuthority authority)
  end.

Definition get_client_certificate_authority (self : SigningMechanism) (authority : string)
    : result SigningError (option RcgenCertificate) :=
  match authorities self !! authority with
  | Some authority => Ok (signer_client_certificate_authority authority)
  | None => Err (UnknownAuthority authority)
  end.

(** [get_authorities], in the map's order (here that of [map_to_list]). *)
Definition get_authorities (self : SigningMechanism) : list string :=
  (map_to_list (authorities self)).*1.

(** ** Building the mechanism *)

(** What the loop of [convert_to_signing_mechanism] has built so far: the
    converted authorities and the fingerprints seen, with their authority. *)
Record Converted : Type := {
  converted_authorities : gmap string Signer;
  public_keys : gmap string string;
}.

(** One fingerprint: refuse it when it is known, else remember it. *)
Definition remember (authority : string) (hash : option string) (seen : gmap string string)
    : result SigningError (gmap string string) :=
  match hash with
  | None => Ok seen
  | Some hash =>
      match seen !! hash with
      | Some existing => Err (DuplicatedKey authority existing)
      | None => Ok (<[hash := authority]> seen)
      end
  end.

(** The body of the loop once the signer exists. *)
Definition convert_authority (acc : Converted) (authority : string) (signer : Signer)
    : result SigningError Converted :=
  let user_hash := pk_hash <$> signer_public_key signer User in
  let host_hash := pk_hash <$> signer_public_key signer Host in
  if (match user_hash, host_hash with
      | Some u, Some h => bool_decide (u = h)
      | _, _ => false
      end)
  then Err (IdenticalUserAndHostKey authority)
  else
    public_keys ← remember authority user_hash (public_keys acc);
    public_keys ← remember authority host_hash public_keys;
    Ok {| converted_authorities := <[authority := signer]> (converted_authorities acc);
          public_keys := public_keys |}.

(** The loop, over the configurations in the order the map is iterated;
    [into_signer] builds a signer from a configuration. *)
Fixpoint convert_authorities {C} (into_signer : C → st World SigningError Signer)
    (l : list (string * C)) (acc : Converted) : st World SigningError Converted :=
  match l with
  | [] => mret acc
  | (authority, config) :: l =>
      signer ← into_signer config;
      acc ← of_result (convert_authority acc authority signer);
      convert_authorities into_signer l acc
  end.

Definition convert_to_signing_mechanism {C} (into_signer : C → st World SigningError Signer)
    (default_auth : string) (authority_configurations : list (string * C))
    : st World SigningError SigningMechanism :=
  acc ← convert_authorities into_signer authority_configurations
    {| converted_authorities := ∅; public_keys := ∅ |};
  mret {| default_authority := default_auth; authorities := converted_authorities acc |}.

(** ** The file signer *)

Record FileConfig : Type := {
  user_key : option PrivateKey;
  host_key : option PrivateKey;
  x509_private_key : option string;
  x509_private_key_algorithm : option string;
  client_certificate_authority_private_key : option string;
  client_certificate_authority_private_key_algorithm : option string;
  client_certificate_authority_common_name : option string;
}.

Record FileSigner : Type := {
  ssh_keys : option (PrivateKey * PrivateKey);
  x509_certificate : option RcgenCertificate;
  client_certificate_authority : option RcgenCertificate;
}.

(** The parameters of a CA certificate for a key. *)
Definition ca_params (common_name : string) (a : SignAlgorithm) (kp : KeyPair)
    : CertificateParams KeyPair :=
  let d := params_new [] in
  {| alg := a; not_before := not_before d; not_after := not_after d;
     serial_number := serial_number d; subject_alt_names := subject_alt_names d;
     distinguished_name := distinguished_name d ++ [(CommonName, common_name)];
     is_ca := true; key_usages := key_usages d; extended_key_usages := extended_key_usages d;
     name_constraints := name_constraints d; custom_extensions := custom_extensions d;
     use_authority_key_identifier_extension := use_authority_key_identifier_extension d;
     key_pair := Some kp |}.

Definition rcgen_certificate_from_private_key (common_name private_key algorithm : string)
    : st World SigningError RcgenCertificate :=
  key_bytes ← of_option ParsingError (base64_decode private_key);
  kp ← of_option ParsingError (keypair_from_der key_bytes);
  a ← (if decide (algorithm = "p256") then mret PKCS_ECDSA_P256_SHA256
       else if decide (algorithm = "p384") then mret PKCS_ECDSA_P384_SHA384
       else throw ParsingError);
  r ← library_call (from_params (ca_params common_name a kp));
  of_option SigningFailure r.

Definition file_signer_sign (self : FileSigner) (cert : Certificate PublicKey)
    : st World SigningError (Certificate PublicKey) :=
  '(user, host) ← of_option SignerDoesNotHaveSSHKeys (ssh_keys self);
  let final_cert :=
    match c_cert_type cert with
    | User => cert_sign cert user
    | Host => cert_sign cert host
    end in
  of_option SigningFailure final_cert.

Definition file_signer_public_key (self : FileSigner) (cert_type : CertType) : option PublicKey :=
  '(user, host) ← ssh_keys self;
  match cert_type with
  | User => Some (pubkey user)
  | Host => Some (pubkey host)
  end.

Definition file_signer (self : FileSigner) : Signer :=
  {| signer_sign := file_signer_sign self;
     signer_public_key := file_signer_public_key self;
     signer_attested_x509_certificate_authority := x509_certificate self;
     signer_client_certificate_authority := client_certificate_authority self |}.

Definition file_into_signer (self : FileConfig) : st World SigningError FileSigner :=
  x509 ←
    match x509_private_key self, x509_private_key_algorithm self with
    | Some pk, Some pka =>
        c ← rcgen_certificate_from_private_key "Rustica" pk pka; mret (Some c)
    | _, _ => mret None
    end;
  client_ca ←
    match client_certificate_authority_private_key self,
          client_certificate_authority_private_key_algorithm self,
          client_certificate_authority_common_name self with
    | Some ccapk, Some ccapka, Some cn =>
        c ← rcgen_certificate_from_private_key cn ccapk ccapka; mret (Some c)
    | _, _, _ => mret None
    end;
  keys ←
    match user_key self, host_key self with
    | Some user, Some host => mret (Some (user, host))
    | None, None => mret None
    | _, _ => throw SignerDoesNotAllRequiredSSHKeys
    end;
  mret {| ssh_keys := keys; x509_certificate := x509; client_certificate_authority := client_ca |}.

(** [option_parse_private_key]: the field is absent, or a string that is a
    key; the error is the one serde reports. *)
Definition option_parse_private_key (field : option string) : result () (option PrivateKey) :=
  match field with
  | None => Ok None
  | Some key => match sk_from_string key with Some key => Ok (Some key) | None => Err () end
  end.

(** ** The file signer keeps the promise *)

Lemma file_signer_laws `{!SshCertsLaws} self : SignerLaws (file_signer self).
Proof.
  split; cbn.
  - intros c w w' c'. unfold file_signer_sign. intros Hs. st_inv.
    destruct (c_cert_type c); by eapply cert_sign_tbs.
  - intros c. unfold file_signer_sign. preserve.
  - intros c w. unfold file_signer_sign. st_unfold. destruct (ssh_keys self) as [[]|]; [|done]. cbn.
    by destruct (c_cert_type c).
  - unfold file_signer_public_key. destruct (ssh_keys self) as [[]|]; cbn; [|done].
    split; eauto.
  - intros c w w' c'. unfold file_signer_sign, file_signer_public_key. intros Hs. st_inv.
    match goal with Hk : ssh_keys self = _ |- _ => rewrite Hk end. cbn.
    destruct (c_cert_type c); eauto.
Qed.

(** ** Distinct keys *)

(** The fingerprints of a signer, and of all signers. *)
Definition signer_hashes (s : Signer) : list string :=
  option_list (pk_hash <$> signer_public_key s User) ++
  option_list (pk_hash <$> signer_public_key s Host).
Definition all_hashes (l : list (string * Signer)) : list string :=
  l ≫= λ a, signer_hashes a.2.

(** The loop without its effects. *)
Fixpoint convert_all (l : list (string * Signer)) (acc : Converted)
    : result SigningError Converted :=
  match l with
  | [] => Ok acc
  | (authority, signer) :: l =>
      acc ← convert_authority acc authority signer; convert_all l acc
  end.

(** A fingerprint list is accepted when it is new and has no repetition. *)
Definition fresh (hs : list string) (seen : gmap string string) : Prop :=
  NoDup hs ∧ ∀ h, h ∈ hs → h ∉ dom seen.

Lemma remember_Ok a h seen :
  (∀ seen', remember a h seen = Ok seen' →
    dom seen' = dom seen ∪ list_to_set (option_list h)) ∧
  ((∃ seen', remember a h seen = Ok seen') ↔ ∀ x, x ∈ option_list h → x ∉ dom seen).
Proof.
  unfold remember. destruct h as [h|]; cbn.
  - destruct (seen !! h) eqn:Hs.
    + split; [done|]. split; [by intros [? [=]]|]. intros Hno. destruct (Hno h); [set_solver|].
      by apply elem_of_dom_2 in Hs.
    + split; [intros ? [= <-]; rewrite dom_insert_L; set_solver|]. split; [|by eauto].
      intros _ x ->%list_elem_of_singleton. by apply not_elem_of_dom.
  - split; [intros ? [= <-]; set_solver|]. split; [|by eauto].
    intros _ x Hx. by apply not_elem_of_nil in Hx.
Qed.

Lemma convert_authority_Ok acc a s :
  (∀ acc', convert_authority acc a s = Ok acc' →
    converted_authorities acc' = <[a := s]> (converted_authorities acc) ∧
    dom (public_keys acc') = dom (public_keys acc) ∪ list_to_set (signer_hashes s)) ∧
  ((∃ acc', convert_authority acc a s = Ok acc') ↔ fresh (signer_hashes s) (public_keys acc)).
Proof.
  unfold convert_authority, signer_hashes, fresh.
  set (u := pk_hash <$> signer_public_key s User).
  set (h := pk_hash <$> signer_public_key s Host). cbn zeta.
  destruct (remember_Ok a u (public_keys acc)) as [Hud Hue].
  assert (NoDup (option_list u ++ option_list h) ↔
    ∀ x, x ∈ option_list u → x ∉ option_list h) as ->.
  { rewrite NoDup_app. split; [by intros (?&?&?)|]. intros Hd. split_and!; [|done|].
    - destruct u; cbn; [apply NoDup_singleton|constructor].
    - destruct h; cbn; [apply NoDup_singleton|constructor]. }
  destruct (match u with Some u => match h with Some h => bool_decide (u = h) | None => false end
            | None => false end) eqn:Heq.
  - split; [done|]. split; [by intros [? [=]]|]. intros [Hno _].
    destruct u as [u'|], h as [h'|]; try done. apply bool_decide_eq_true in Heq as ->.
    destruct (Hno h'); set_solver.
  - assert (∀ x, x ∈ option_list u → x ∉ option_list h) as Hdisj.
    { destruct u as [u'|], h as [h'|]; cbn; try set_solver.
      apply bool_decide_eq_false in Heq. set_solver. }
    destruct (remember a u (public_keys acc)) as [seen1|e] eqn:Hu; cbn.
    + specialize (Hud seen1 eq_refl). assert (∀ x, x ∈ option_list u → x ∉ dom (public_keys acc))
        as Hu' by (apply Hue; eauto).
      destruct (remember_Ok a h seen1) as [Hhd Hhe].
      destruct (remember a h seen1) as [seen2|e] eqn:Hh; cbn.
      * specialize (Hhd seen2 eq_refl). assert (∀ x, x ∈ option_list h → x ∉ dom seen1)
          as Hh' by (apply Hhe; eauto).
        split; [intros ? [= <-]; cbn; split; [done|]; set_solver|]. split; [|by eauto].
        intros _. split; [done|]. set_solver.
      * split; [done|]. split; [by intros [? [=]]|]. intros [_ Hno].
        destruct Hhe as [_ Hhe]. destruct Hhe as [? [=]]. set_solver.
    + split; [done|]. split; [by intros [? [=]]|]. intros [_ Hno].
      destruct Hue as [_ Hue]. destruct Hue as [? [=]]. set_solver.
Qed.

Lemma fresh_app hs hs' seen seen' :
  dom seen' = dom seen ∪ list_to_set hs →
  fresh hs seen → (fresh (hs ++ hs') seen ↔ fresh hs' seen').
Proof.
  unfold fresh. intros Hd [Hnd Hs]. rewrite NoDup_app, Hd. set_solver.
Qed.

Lemma convert_all_Ok l acc :
  (∃ acc', convert_all l acc = Ok acc') ↔ fresh (all_hashes l) (public_keys acc).
Proof.
  revert acc. induction l as [|[a s] l IH]; intros acc; cbn.
  { split; [|by eauto]. intros _. split; [constructor|]. intros ? []%not_elem_of_nil. }
  destruct (convert_authority_Ok acc a s) as [Hd He].
  fold (all_hashes l). destruct (convert_authority acc a s) as [acc1|e]; cbn.
  - specialize (Hd acc1 eq_refl) as [_ Hd]. rewrite IH. symmetry. apply fresh_app; [done|].
    apply He. eauto.
  - split; [by intros [? [=]]|]. intros Hf. destruct He as [_ He]. destruct He as [? [=]].
    destruct Hf as [[Hnd _]%NoDup_app Hf]. split; [done|]. intros h Hh. apply Hf. set_solver.
Qed.

Lemma convert_all_authorities l acc acc' :
  convert_all l acc = Ok acc' →
  converted_authorities acc' =
    foldl (λ m a, <[a.1 := a.2]> m) (converted_authorities acc) l.
Proof.
  revert acc. induction l as [|[a s] l IH]; intros acc; cbn; [by intros [= <-]|].
  destruct (convert_authority_Ok acc a s) as [Hd _].
  destruct (convert_authority acc a s) as [acc1|e]; cbn; [|done].
  intros ->%IH. by destruct (Hd acc1 eq_refl) as [-> _].
Qed.

(** With signers already built the loop has no effects. *)
Lemma convert_authorities_pure l acc w :
  convert_authorities mret l acc w =
    (w, match convert_all l acc with Ok a => Ret a | Err e => Raise e end).
Proof.
  revert acc. induction l as [|[a s] l IH]; intros acc; cbn; [done|].
  st_unfold. cbn. destruct (convert_authority acc a s); cbn; [apply IH|done].
Qed.

(** A loop that built its signers: they are those of a pure loop. *)
Lemma convert_authorities_Ret {C} (into_signer : C → st World SigningError Signer) l acc w w' acc' :
  convert_authorities into_signer l acc w = (w', Ret acc') →
  ∃ signers, Forall2 (λ c s, c.1 = s.1 ∧ ∃ w1 w2, into_signer c.2 w1 = (w2, Ret s.2)) l signers ∧
    convert_all signers acc = Ok acc'.
Proof.
  revert acc w. induction l as [|[a c] l IH]; intros acc w; cbn.
  { intros [= <- <-]. by exists []. }
  intros Hrun. apply st_bind_Ret in Hrun as (w1 & s & Hs & Hrun).
  apply st_bind_Ret in Hrun as (w2 & acc1 & Hc & Hrun). apply of_result_Ret in Hc as [-> Hc].
  apply IH in Hrun as (signers & Hf & Hall). exists ((a, s) :: signers).
  split; [|cbn; by rewrite Hc]. constructor; [|done]. cbn. eauto.
Qed.

Lemma foldl_insert_lookup (l : list (string * Signer)) (m : gmap string Signer) k v :
  foldl (λ m a, <[a.1 := a.2]> m) m l !! k = Some v → (k, v) ∈ l ∨ m !! k = Some v.
Proof.
  revert m. induction l as [|[k' v'] l IH]; intros m; cbn; [by right|].
  intros [Hin|Hm]%IH; [left; by right|].
  destruct (decide (k' = k)) as [->|Hk].
  - rewrite lookup_insert_eq in Hm. simplify_eq. left. by left.
  - rewrite lookup_insert_ne in Hm by done. by right.
Qed.

Lemma foldl_insert_collect (l : list (string * Signer)) (m : gmap string Signer) :
  NoDup l.*1 → foldl (λ m a, <[a.1 := a.2]> m) m l = list_to_map l ∪ m.
Proof.
  revert m. induction l as [|[k v] l IH]; intros m; cbn; [by rewrite (left_id_L ∅ (∪))|].
  intros [Hk Hnd]%NoDup_cons. rewrite IH by done.
  rewrite <-insert_union_l. symmetry. apply insert_union_r.
  by apply not_elem_of_list_to_map_1.
Qed.

Lemma all_hashes_perm l l' : l ≡ₚ l' → all_hashes l ≡ₚ all_hashes l'.
Proof. intros Hp. unfold all_hashes. by rewrite Hp. Qed.

Lemma signer_hashes_elem s t k :
  signer_public_key s t = Some k → pk_hash k ∈ signer_hashes s.
Proof. unfold signer_hashes. intros Hk. destruct t; rewrite Hk; cbn; set_solver. Qed.

Lemma all_hashes_elem l a s h : (a, s) ∈ l → h ∈ signer_hashes s → h ∈ all_hashes l.
Proof.
  intros Ha Hh. unfold all_hashes. apply list_elem_of_bind. by exists (a, s).
Qed.

(** Two signers of a list without repeated fingerprints share none. *)
Lemma all_hashes_distinct l a1 s1 a2 s2 h :
  NoDup (all_hashes l) → (a1, s1) ∈ l → (a2, s2) ∈ l →
  h ∈ signer_hashes s1 → h ∈ signer_hashes s2 → (a1, s1) = (a2, s2).
Proof.
  induction l as [|[a s] l IH]; [by intros _ []%not_elem_of_nil|].
  unfold all_hashes. cbn. fold (all_hashes l).
  intros (_ & Hdisj & Hnd)%NoDup_app Hin1 Hin2 Hh1 Hh2.
  apply elem_of_cons in Hin1 as [[= -> ->]|Hin1]; apply elem_of_cons in Hin2 as [[= -> ->]|Hin2].
  - done.
  - destruct (Hdisj h); [done|]. by eapply all_hashes_elem.
  - destruct (Hdisj h); [done|]. by eapply all_hashes_elem.
  - auto.
Qed.

(** Within one signer the user and the host key differ. *)
Lemma signer_hashes_distinct l a s t1 t2 k1 k2 :
  NoDup (all_hashes l) → (a, s) ∈ l →
  signer_public_key s t1 = Some k1 → signer_public_key s t2 = Some k2 →
  pk_hash k1 = pk_hash k2 → t1 = t2.
Proof.
  intros Hnd Hin H1' H2' Heq.
  assert (NoDup (signer_hashes s)) as Hs.
  { clear -Hnd Hin. induction l as [|[a' s'] l IH]; [by apply not_elem_of_nil in Hin|].
    unfold all_hashes in Hnd. cbn in Hnd. fold (all_hashes l) in Hnd.
    apply NoDup_app in Hnd as (Hs & _ & Hl).
    apply elem_of_cons in Hin as [[= -> ->]|Hin]; auto. }
  unfold signer_hashes in Hs. apply NoDup_app in Hs as (_ & Hs & _).
  destruct t1, t2; try done; rewrite H1', H2' in Hs; cbn in Hs;
    exfalso; [apply (Hs (pk_hash k1))|apply (Hs (pk_hash k2))]; set_solver.
Qed.

(** ** Properties *)

(** C27: in a mechanism that was built no key has two roles: two configured
    CA keys with the same fingerprint are the same key of the same authority
    and certificate type.  So a user certificate can never verify under a
    host CA, nor one authority's under another's. *)
Theorem mechanism_keys_have_one_role {C} (into_signer : C → st World SigningError Signer)
    default_auth configs w w' m a1 a2 s1 s2 t1 t2 k1 k2 :
  convert_to_signing_mechanism into_signer default_auth configs w = (w', Ret m) →
  authorities m !! a1 = Some s1 → authorities m !! a2 = Some s2 →
  signer_public_key s1 t1 = Some k1 → signer_public_key s2 t2 = Some k2 →
  pk_hash k1 = pk_hash k2 → a1 = a2 ∧ t1 = t2.
Proof.
  unfold convert_to_signing_mechanism. intros Hrun Ha1 Ha2 Hk1 Hk2 Heq. st_inv.
  match goal with Hc : convert_authorities _ _ _ _ = _ |- _ =>
    apply convert_authorities_Ret in Hc as (signers & _ & Hall) end.
  destruct (convert_all_Ok signers {| converted_authorities := ∅; public_keys := ∅ |})
    as [[Hnd _] _]; [eauto|].
  cbn in *. rewrite (convert_all_authorities _ _ _ Hall) in Ha1, Ha2. cbn in Ha1, Ha2.
  apply foldl_insert_lookup in Ha1 as [Ha1|Ha1]; [|by rewrite lookup_empty in Ha1].
  apply foldl_insert_lookup in Ha2 as [Ha2|Ha2]; [|by rewrite lookup_empty in Ha2].
  assert ((a1, s1) = (a2, s2)) as [= -> ->].
  { apply (all_hashes_distinct signers _ _ _ _ (pk_hash k1)); try done.
    - by eapply signer_hashes_elem.
    - rewrite Heq. by eapply signer_hashes_elem. }
  split; [done|]. by eapply signer_hashes_distinct.
Qed.

(** The order in which the configured authorities are visited does not
    matter: the mechanism is built exactly when all fingerprints differ, and it
    is then the same, with every configured signer under its name. *)
Theorem mechanism_does_not_depend_on_the_order default_auth (l l' : list (string * Signer)) w :
  l ≡ₚ l' → NoDup l.*1 →
  (NoDup (all_hashes l) ∧
    convert_to_signing_mechanism mret default_auth l' w =
      (w, Ret {| default_authority := default_auth; authorities := list_to_map l |})) ∨
  (¬ NoDup (all_hashes l) ∧
    ∃ e, convert_to_signing_mechanism mret default_auth l' w = (w, Raise e)).
Proof.
  intros Hp Hnd. unfold convert_to_signing_mechanism. st_unfold.
  rewrite convert_authorities_pure.
  set (acc := {| converted_authorities := ∅; public_keys := ∅ |}).
  pose proof (convert_all_Ok l' acc) as Hok. unfold fresh in Hok.
  rewrite <-(all_hashes_perm l l') in Hok by done.
  destruct (convert_all l' acc) as [acc'|e] eqn:Hall; cbn.
  - left. split; [apply Hok; eauto|]. do 3 f_equal.
    rewrite (convert_all_authorities _ _ _ Hall), foldl_insert_collect by (by rewrite <-Hp).
    cbn. rewrite (right_id_L ∅ (∪)). symmetry. by apply list_to_map_proper.
  - right. split; [|eauto]. intros Hno. destruct Hok as [_ Hok]. destruct Hok as [? [=]].
    split; [done|]. intros h _. cbn. set_solver.
Qed.

(** An authority signs as configured: a certificate that comes out of
    [sign] says what went in, its authority is configured and has a key for
    the certificate's type; nothing else of the server's state changes. *)
Theorem mechanism_signs_what_it_was_given m authority c w w' c' :
  (∀ a s, authorities m !! a = Some s → SignerLaws s) →
  sign m authority c w = (w', Ret c') →
  same_tbs c c' ∧ frame w w' ∧ w_db w' = w_db w ∧
  ∃ pk, get_signer_public_key m authority (c_cert_type c) = Ok pk.
Proof.
  intros Hlaws. unfold sign, get_signer_public_key.
  destruct (authorities m !! authority) as [s|] eqn:Ha; [|done]. intros Hs.
  specialize (Hlaws _ _ Ha). split_and!.
  - by eapply signer_sign_tbs.
  - pose proof (signer_sign_frame _ Hlaws c w) as Hf. by rewrite Hs in Hf.
  - pose proof (signer_sign_db _ Hlaws c w) as Hf. by rewrite Hs in Hf.
  - destruct (signer_sign_needs_key _ Hlaws _ _ _ _ Hs) as [pk Hpk]. exists pk. by rewrite Hpk.
Qed.
End Mechanism.
