(* ===== verification/YubikeySigner.v ===== *)
(** * The Yubikey signer

    [rustica/src/signing/yubikey.rs]: the signer whose keys are in the slots
    of a Yubikey, how it is built from its configuration, and how a slot is
    read from the configuration file. *)
From Stdlib Require Import ZArith.
From S2P Require Import Prelude Machine Text Deps Key Auth Logging Schema World Signing.

(** ** Locks *)

(** A [std::sync::Mutex]: which of the world's locks it is, and what it guards. *)
Record Mutex (A : Type) : Type := mkMutex { mutex_id : nat; mutex_data : A }.
Arguments mkMutex {_}.
Arguments mutex_id {_} _.
Arguments mutex_data {_} _.

(** [PoisonError]'s [Display]. *)
Definition poison_error : string := "poisoned lock: another task failed inside".

Section Locks.
Context `{Lru, Env} {E : Type}.

Definition new_mutex {A} (a : A) : st World E (Mutex A) := λ w,
  (set_mutexes (w_mutexes w ++ [false]) w, Ret (mkMutex (length (w_mutexes w)) a)).

Definition poisoned {A} (m : Mutex A) (w : World) : bool :=
  default false (w_mutexes w !! mutex_id m).

(** Run with the lock held: it fails when an earlier holder panicked, and a
    panic of this holder poisons it. *)
Definition with_lock {A B} (m : Mutex A) (busy : string → E) (body : A → st World E B)
    : st World E B := λ w,
  if poisoned m w then (w, Raise (busy poison_error))
  else match body (mutex_data m) w with
       | (w', Panic) => (set_mutexes (<[mutex_id m := true]> (w_mutexes w')) w', Panic)
       | r => r
       end.
End Locks.

(** ** The signer *)

Record YubikeyConfig `{Yubikeys} : Type := {
  yc_user_slot : option SlotId;
  yc_host_slot : option SlotId;
  yc_x509_slot : option SlotId;
  yc_client_certificate_authority_slot : option SlotId;
  yc_client_certificate_authority_common_name : option string;
}.

Record YubikeySshKey `{Yubikeys} : Type := { ysk_slot : SlotId; ysk_public_key : PublicKey }.
Record YubikeySshKeys `{Yubikeys} : Type := { ys_user : YubikeySshKey; ys_host : YubikeySshKey }.

Record YubikeySigner `{Yubikeys, Rcgen} : Type := {
  ys_ssh_keys : option YubikeySshKeys;
  ys_x509_certificate : option RcgenCertificate;
  ys_client_certificate_authority : option RcgenCertificate;
  ys_yubikey : Mutex Yubikey;
}.

Section YubikeySigner.
Context `{Lru, SshCerts, Rcgen, Env, !Yubikeys, Hex}.

#[local] Abbreviation signing_st := (st World SigningError).

Definition rcgen_certificate_from_yubikey (common_name : string) (serial : Z) (slot : SlotId)
    : signing_st RcgenCertificate :=
  yk_x509_signer ← library_call (csr_signer_new serial slot) ≫= unwrap;
  kp ← of_option (AccessError "Could not create remote signer for X509 key")
    (keypair_from_remote yk_x509_signer);
  r ← library_call (from_params (ca_params common_name (remote_algorithm yk_x509_signer) kp));
  of_option (AccessError ("Could not create certificate for slot " +:+ slot_debug slot)) r.

Definition new_yubikey_mutex : signing_st (Mutex Yubikey) :=
  yk ← library_call yk_new ≫= unwrap;
  new_mutex yk.

(** The key of a slot, with the one message for both. *)
Definition slot_key (yk : Yubikey) (slot : SlotId) : signing_st YubikeySshKey :=
  pk ← library_call (yk_fetch_pubkey yk slot);
  pk ← of_option (AccessError "Could fetch public key for user key") pk;
  mret {| ysk_slot := slot; ysk_public_key := pk |}.

Definition lock_error (e : string) : SigningError :=
  AccessError ("Could not lock Yubikey. Error: " +:+ e).

Definition yubikey_into_signer (self : YubikeyConfig) : signing_st YubikeySigner :=
  yubikey ← new_yubikey_mutex;
  let serial := yk_serial (mutex_data yubikey) in
  ssh_keys ←
    match yc_user_slot self, yc_host_slot self with
    | Some user_slot, Some host_slot =>
        with_lock yubikey lock_error (λ yk,
          user ← slot_key yk user_slot;
          host ← slot_key yk host_slot;
          mret (Some {| ys_user := user; ys_host := host |}))
    | None, None => mret None
    | _, _ => throw SignerDoesNotAllRequiredSSHKeys
    end;
  x509 ←
    match yc_x509_slot self with
    | Some x509_slot =>
        c ← rcgen_certificate_from_yubikey "Rustica" serial x509_slot; mret (Some c)
    | None => mret None
    end;
  client_ca ←
    match yc_client_certificate_authority_slot self,
          yc_client_certificate_authority_common_name self with
    | Some slot, Some cn =>
        c ← rcgen_certificate_from_yubikey cn serial slot; mret (Some c)
    | _, _ => mret None
    end;
  mret {| ys_ssh_keys := ssh_keys; ys_x509_certificate := x509;
          ys_client_certificate_authority := client_ca; ys_yubikey := yubikey |}.

(** The slot for a type of certificate. *)
Definition ssh_key_for (keys : YubikeySshKeys) (cert_type : CertType) : YubikeySshKey :=
  match cert_type with User => ys_user keys | Host => ys_host keys end.

(** The lock is taken, but the key is opened anew. *)
Definition yubikey_signer_sign (self : YubikeySigner) (cert : Certificate PublicKey)
    : signing_st (Certificate PublicKey) :=
  ssh_keys ← of_option SignerDoesNotHaveSSHKeys (ys_ssh_keys self);
  let slot := ysk_slot (ssh_key_for ssh_keys (c_cert_type cert)) in
  with_lock (ys_yubikey self) AccessError (λ _,
    yk ← library_call yk_new ≫= unwrap;
    sig ← library_call (yk_sign yk (tbs_certificate cert) slot);
    sig ← of_option SigningFailure sig;
    of_option SigningFailure (add_signature cert sig)).

Definition yubikey_signer_public_key (self : YubikeySigner) (cert_type : CertType)
    : option PublicKey :=
  ssh_keys ← ys_ssh_keys self;
  Some (ysk_public_key (ssh_key_for ssh_keys cert_type)).

Definition yubikey_signer (self : YubikeySigner) : Signer :=
  {| signer_sign := yubikey_signer_sign self;
     signer_public_key := yubikey_signer_public_key self;
     signer_attested_x509_certificate_authority := ys_x509_certificate self;
     signer_client_certificate_authority := ys_client_certificate_authority self |}.

(** ** Slots in the configuration *)

(** [parse_option_slot]: an absent field is no slot; a text is [R1] to [R20] or
    a byte in hex, and what looks like one but is none panics. *)
Definition parse_option_slot (field : option string) : outcome string (option SlotId) :=
  match field with
  | None => Ret None
  | Some slot =>
      if decide ((len slot = 2 ∨ len slot = 3) ∧ starts_with "R" slot = true) then
        match strip_prefix "R" slot ≫= parse_u8 with
        | Some v =>
            if decide (v ≤ 20) then
              match slot_try_from (129 + v) with Some s => Ret (Some s) | None => Panic end
            else Raise "Invalid Slot"
        | None => Raise "Invalid Slot"
        end
      else if decide (len slot = 4 ∧ starts_with "0x" slot = true) then
        match strip_prefix "0x" slot ≫= hex_decode with
        | Some (b :: _) =>
            match slot_try_from (Z_of_byte b) with Some s => Ret (Some s) | None => Panic end
        | _ => Panic
        end
      else Raise "Invalid Slot"
  end.
End YubikeySigner.

Section YubikeySignerLemmas.
Context `{Lru, SshCerts, Rcgen, Env, !Yubikeys, Hex}.

#[local] Abbreviation signing_st := (st World SigningError).

(** ** Locks *)

Lemma with_lock_Ret {A B E} (m : Mutex A) busy (body : A → st World E B) w w' b :
  with_lock m busy body w = (w', Ret b) ↔
    poisoned m w = false ∧ body (mutex_data m) w = (w', Ret b).
Proof.
  unfold with_lock. destruct (poisoned m w); [naive_solver|].
  destruct (body _ w) as [? []]; naive_solver.
Qed.

Lemma with_lock_poisoned {A B E} (m : Mutex A) busy (body : A → st World E B) w :
  poisoned m w = true → with_lock m busy body w = (w, Raise (busy poison_error)).
Proof. unfold with_lock. by intros ->. Qed.

(** A relation that the locks' flags do not matter to. *)
Lemma with_lock_preserves {A B E} (R : relation World) `{!PreOrder R}
    (m : Mutex A) busy (body : A → st World E B) :
  (∀ w l, R w (set_mutexes l w)) → (∀ a, preserves R (body a)) →
  preserves R (with_lock m busy body).
Proof.
  intros Hl Hb w. unfold with_lock. destruct (poisoned m w); [reflexivity|].
  specialize (Hb (mutex_data m) w). destruct (body _ w) as [w' []]; cbn in *; [done..|].
  etrans; [done|apply Hl].
Qed.

#[local] Ltac preserve_lock :=
  repeat first [progress preserve | apply with_lock_preserves; [apply _|done|]].

Lemma yubikey_signer_sign_Ret self cert w w' c' :
  yubikey_signer_sign self cert w = (w', Ret c') →
  ∃ keys yk sig, ys_ssh_keys self = Some keys ∧
    yk_new (w_calls w) = Some yk ∧
    yk_sign yk (tbs_certificate cert) (ysk_slot (ssh_key_for keys (c_cert_type cert)))
      (S (w_calls w)) = Some sig ∧
    add_signature cert sig = Some c'.
Proof.
  unfold yubikey_signer_sign. intros Hs.
  apply st_bind_Ret in Hs as (w1 & keys & [-> Hk]%of_option_Ret & Hs).
  apply with_lock_Ret in Hs as [_ Hs]. st_inv. by eexists _, _, _.
Qed.

Lemma yubikey_signer_laws `{!SshCertsLaws} self : SignerLaws (yubikey_signer self).
Proof.
  split; cbn.
  - intros c w w' c' (keys & yk & sig & _ & _ & _ & Ha)%yubikey_signer_sign_Ret.
    by eapply add_signature_tbs.
  - intros c. unfold yubikey_signer_sign. preserve_lock.
  - intros c. change (preserves same_db (yubikey_signer_sign self c)).
    unfold yubikey_signer_sign. preserve_lock.
  - unfold yubikey_signer_public_key. destruct (ys_ssh_keys self); cbn; [|done]. split; eauto.
  - intros c w w' c' (keys & _ & _ & Hk & _)%yubikey_signer_sign_Ret.
    unfold yubikey_signer_public_key. rewrite Hk. eauto.
Qed.

(** ** The keys a signer was configured with *)

Lemma slot_key_Ret yk slot w w' k :
  slot_key yk slot w = (w', Ret k) →
  ysk_slot k = slot ∧ ∃ n, yk_fetch_pubkey yk slot n = Some (ysk_public_key k).
Proof. unfold slot_key. intros Hs. st_inv. split; [done|by eexists]. Qed.

Lemma new_yubikey_mutex_Ret w w' m :
  new_yubikey_mutex w = (w', Ret m) → yk_new (w_calls w) = Some (mutex_data m).
Proof. unfold new_yubikey_mutex, new_mutex. intros Hs. by st_inv; simplify_eq. Qed.

Lemma yubikey_into_signer_Ret config w w' self :
  yubikey_into_signer config w = (w', Ret self) →
  ∃ yk, yk_new (w_calls w) = Some yk ∧ mutex_data (ys_yubikey self) = yk ∧
    match ys_ssh_keys self with
    | Some keys =>
        yc_user_slot config = Some (ysk_slot (ys_user keys)) ∧
        yc_host_slot config = Some (ysk_slot (ys_host keys)) ∧
        ∀ ty, ∃ n, yk_fetch_pubkey yk (ysk_slot (ssh_key_for keys ty)) n =
          Some (ysk_public_key (ssh_key_for keys ty))
    | None => yc_user_slot config = None ∧ yc_host_slot config = None
    end.
Proof.
  unfold yubikey_into_signer. intros Hs.
  apply st_bind_Ret in Hs as (w1 & m & Hm & Hs).
  apply new_yubikey_mutex_Ret in Hm. exists (mutex_data m). split; [done|].
  apply st_bind_Ret in Hs as (w2 & keys & Hkeys & Hs).
  apply st_bind_Ret in Hs as (w3 & x509 & _ & Hs).
  apply st_bind_Ret in Hs as (w4 & ca & _ & Hs). apply mret_Ret in Hs as [_ ->]. cbn in *.
  split; [done|]. clear Hm.
  destruct (yc_user_slot config), (yc_host_slot config); st_inv; [|done].
  apply with_lock_Ret in Hkeys as [_ Hkeys]. st_inv.
  repeat match goal with Hk : slot_key _ _ _ = _ |- _ => apply slot_key_Ret in Hk as [? ?] end.
  cbn. split_and!; [congruence..|]. intros []; cbn; by simplify_eq.
Qed.
(** ** A panic while the key is held *)

(** The locks that are poisoned stay so. *)
Definition still_poisoned (w w' : World) : Prop :=
  ∀ i, w_mutexes w !! i = Some true → w_mutexes w' !! i = Some true.
#[export] Instance still_poisoned_preorder : PreOrder still_poisoned.
Proof. unfold still_poisoned. split; [by intros w i|]. intros w1 w2 w3. auto. Qed.
Lemma still_poisoned_library_call {A E} (f : nat → A) :
  preserves still_poisoned (library_call f : st World E A).
Proof. intros w i Hi; exact Hi. Qed.
#[local] Hint Resolve still_poisoned_library_call : preserves.

Lemma with_lock_still_poisoned {A B E} (m : Mutex A) busy (body : A → st World E B) :
  (∀ a, preserves still_poisoned (body a)) → preserves still_poisoned (with_lock m busy body).
Proof.
  intros Hb w. unfold with_lock. destruct (poisoned m w); [reflexivity|].
  specialize (Hb (mutex_data m) w). destruct (body _ w) as [w' []]; cbn in *; [done..|].
  intros i Hi. cbn. destruct (decide (i = mutex_id m)) as [->|].
  - apply list_lookup_insert_eq. by eapply lookup_lt_Some, Hb.
  - rewrite list_lookup_insert_ne by congruence. by apply Hb.
Qed.

Lemma yubikey_signer_sign_still_poisoned self cert :
  preserves still_poisoned (yubikey_signer_sign self cert).
Proof.
  unfold yubikey_signer_sign. apply preserves_bind; [apply _|eauto with preserves typeclass_instances|].
  intros keys. apply with_lock_still_poisoned. intros yk. preserve.
Qed.

(** The world after a sequence of signatures, whatever they returned. *)
Fixpoint sign_all (history : list (YubikeySigner * Certificate PublicKey)) (w : World) : World :=
  match history with
  | [] => w
  | (self, cert) :: history => sign_all history (yubikey_signer_sign self cert w).1
  end.
Lemma sign_all_still_poisoned history w : still_poisoned w (sign_all history w).
Proof.
  revert w. induction history as [|[self cert] history IH]; intros w; cbn; [reflexivity|].
  etrans; [apply yubikey_signer_sign_still_poisoned|apply IH].
Qed.

(** C40: a signature asked for while no Yubikey is connected panics with the
    lock held, and from then on the signer answers every request with an access
    error, whatever was signed by it or others in between and whether the
    Yubikey is back or not. *)
Theorem unplugged_yubikey_signer_stays_broken self keys cert cert' history w :
  ys_ssh_keys self = Some keys →
  (mutex_id (ys_yubikey self) < length (w_mutexes w))%nat →
  poisoned (ys_yubikey self) w = false → yk_new (w_calls w) = None →
  ∃ w', yubikey_signer_sign self cert w = (w', Panic) ∧
    let w'' := sign_all history w' in
    yubikey_signer_sign self cert' w'' = (w'', Raise (AccessError poison_error)).
Proof.
  intros Hk Hlt Hp Hno. eexists. split.
  - unfold yubikey_signer_sign. rewrite Hk. unfold mbind at 1, st_bind at 1. cbn -[with_lock].
    unfold with_lock. rewrite Hp. st_unfold. unfold library_call. rewrite Hno. reflexivity.
  - cbv zeta. unfold yubikey_signer_sign at 1. rewrite Hk. apply with_lock_poisoned.
    unfold poisoned. erewrite sign_all_still_poisoned; [done|]. by apply list_lookup_insert_eq.
Qed.
End YubikeySignerLemmas.
