(* ===== verification/KmsSigner.v ===== *)
(** * The Amazon KMS signer

    [rustica/src/signing/amazon_kms.rs]: the signer whose keys never leave
    Amazon's key management service, and how it is built from its
    configuration.  The service is an argument: a signature or a public key is
    what it answers to the n-th call. *)
From Stdlib Require Import ZArith.
From S2P Require Import Prelude Machine Text Deps Key Auth Logging Schema World Signing.

(** ** The SDK *)

(** [SigningAlgorithmSpec]: the two the program names, the others it knows and
    the names it does not know. *)
Variant SigningAlgorithmSpec :=
| EcdsaSha256 | EcdsaSha384 | OtherSpec (name : string) | UnknownSpec (name : string).

(** A client, as its configuration. *)
Record KmsClient : Type := {
  kc_region : string;
  kc_access_key_id : string;
  kc_secret_access_key : string;
  kc_provider_name : string;
  (** in seconds: to connect, per attempt, per operation *)
  kc_timeouts : Z * Z * Z;
}.

Class Kms `{SshCerts} := {
  (** [SigningAlgorithmSpec::from] *)
  signing_algorithm_from : string → SigningAlgorithmSpec;
  (** [get_public_key().key_id(id).send()]: [None] when the call fails, and the
      key of the answer *)
  kms_get_public_key : KmsClient → string → nat → option (option bytes);
  (** [sign().key_id(id).signing_algorithm(a).message(m).send()]: the error's
      text, or the signature of the answer *)
  kms_sign : KmsClient → string → SigningAlgorithmSpec → bytes → nat →
    result string (option bytes);
  (** [sshcerts::x509::der_encoding_to_ssh_public_key] *)
  der_encoding_to_ssh_public_key : bytes → option PublicKey;
  (** [sshcerts::utils::format_signature_for_ssh] *)
  format_signature_for_ssh : PublicKey → bytes → option bytes;
}.

(** ** Data *)

Record KmsKeyDefinition : Type := {
  kd_id : string;
  kd_algorithm : string;
  kd_common_name : option string;
}.

Record KmsConfig : Type := {
  kf_aws_access_key_id : string;
  kf_aws_secret_access_key : string;
  kf_aws_region : string;
  kf_user_key : option KmsKeyDefinition;
  kf_host_key : option KmsKeyDefinition;
  kf_x509_key : option KmsKeyDefinition;
  kf_client_certificate_authority_key : option KmsKeyDefinition;
}.

Record SshKmsKey `{SshCerts} : Type := {
  sk_public_key : PublicKey;
  sk_key_id : string;
  sk_key_signing_algorithm : SigningAlgorithmSpec;
}.
Record SshKmsKeys `{SshCerts} : Type := { ks_user : SshKmsKey; ks_host : SshKmsKey }.

Record AmazonKMSSigner `{SshCerts, Rcgen} : Type := {
  km_ssh_keys : option SshKmsKeys;
  km_x509_certificate : option RcgenCertificate;
  km_client_certificate_authority : option RcgenCertificate;
  km_client : KmsClient;
}.

Section KmsSigner.
Context `{Lru, SshCerts, Rcgen, Env, !Kms}.

#[local] Abbreviation signing_st := (st World SigningError).

(** [KmsRcgenRemoteSigner]: the key of a CA certificate. *)
Definition kms_rcgen_remote_signer (public_key : bytes) (key_id : string)
    (algorithm : SigningAlgorithmSpec) (client : KmsClient) : RemoteKeyPair :=
  {| remote_public_key := public_key;
     remote_sign := λ msg n,
       match kms_sign client key_id algorithm msg n with
       | Ok signature => signature
       | Err _ => None
       end;
     remote_algorithm :=
       match algorithm with
       | EcdsaSha384 => PKCS_ECDSA_P384_SHA384
       | _ => PKCS_ECDSA_P256_SHA256
       end |}.

Definition ssh_key_from_kms (client : KmsClient) (key_id key_alg : string) : signing_st SshKmsKey :=
  answer ← library_call (kms_get_public_key client key_id);
  public_key ← of_option (AccessError ("Could not access key " +:+ key_id)) answer;
  public_key ← of_option (AccessError ("Could not access key_id " +:+ key_id)) public_key;
  public_key ← of_option
    (AccessError ("Key is not of a Rustica compatible type " +:+ key_id))
    (der_encoding_to_ssh_public_key public_key);
  let key_signing_algorithm := signing_algorithm_from key_alg in
  match key_signing_algorithm with
  | UnknownSpec _ => throw (AccessError "Unknown algorithm for user key")
  | _ => mret {| sk_public_key := public_key; sk_key_id := key_id;
                 sk_key_signing_algorithm := key_signing_algorithm |}
  end.

(** [v[n..].to_vec()]: an index past the end panics. *)
Definition slice_from (n : nat) (v : bytes) : signing_st bytes :=
  if decide (n ≤ length v)%nat then mret (drop n v) else panic.

Definition rcgen_certificate_from_kms (client : KmsClient) (common_name key_id key_alg : string)
    : signing_st RcgenCertificate :=
  answer ← library_call (kms_get_public_key client key_id);
  public_key ← of_option (AccessError ("Could not access key " +:+ key_id)) answer;
  public_key ← of_option
    (AccessError "One or more keys were not returned correctly or at all") public_key;
  let signing_algorithm := signing_algorithm_from key_alg in
  '(a, public_key) ←
    match signing_algorithm with
    | EcdsaSha256 => pk ← slice_from 25 public_key; mret (PKCS_ECDSA_P256_SHA256, pk)
    | EcdsaSha384 => pk ← slice_from 23 public_key; mret (PKCS_ECDSA_P384_SHA384, pk)
    | _ => throw (AccessError ("Unsupported algorithm for key " +:+ key_id))
    end;
  kp ← of_option (AccessError ("Could not create remote signer for key " +:+ key_id))
    (keypair_from_remote (kms_rcgen_remote_signer public_key key_id signing_algorithm client));
  r ← library_call (from_params (ca_params common_name a kp));
  of_option (AccessError ("Could not create certificate for key " +:+ key_id)) r.

Definition kms_client (self : KmsConfig) : KmsClient :=
  {| kc_region := kf_aws_region self;
     kc_access_key_id := kf_aws_access_key_id self;
     kc_secret_access_key := kf_aws_secret_access_key self;
     kc_provider_name := "AmazonKMSSigner";
     kc_timeouts := (3, 10, 10) |}.

Definition kms_into_signer (self : KmsConfig) : signing_st AmazonKMSSigner :=
  let client := kms_client self in
  ssh_keys ←
    match kf_user_key self, kf_host_key self with
    | Some user, Some host =>
        user ← ssh_key_from_kms client (kd_id user) (kd_algorithm user);
        host ← ssh_key_from_kms client (kd_id host) (kd_algorithm host);
        mret (Some {| ks_user := user; ks_host := host |})
    | None, None => mret None
    | _, _ => throw SignerDoesNotAllRequiredSSHKeys
    end;
  x509 ←
    match kf_x509_key self with
    | Some x509_key =>
        c ← rcgen_certificate_from_kms client "Rustica" (kd_id x509_key) (kd_algorithm x509_key);
        mret (Some c)
    | None => mret None
    end;
  client_ca ←
    match kf_client_certificate_authority_key self with
    | Some key =>
        c ← rcgen_certificate_from_kms client (default "RusticaAccess" (kd_common_name key))
          (kd_id key) (kd_algorithm key);
        mret (Some c)
    | None => mret None
    end;
  mret {| km_ssh_keys := ssh_keys; km_x509_certificate := x509;
          km_client_certificate_authority := client_ca; km_client := client |}.

(** The key for a type of certificate. *)
Definition kms_key_for (keys : SshKmsKeys) (cert_type : CertType) : SshKmsKey :=
  match cert_type with User => ks_user keys | Host => ks_host keys end.

Definition kms_signer_sign (self : AmazonKMSSigner) (cert : Certificate PublicKey)
    : signing_st (Certificate PublicKey) :=
  ssh_keys ← of_option SignerDoesNotHaveSSHKeys (km_ssh_keys self);
  let data := tbs_certificate cert in
  let key := kms_key_for ssh_keys (c_cert_type cert) in
  result ← library_call
    (kms_sign (km_client self) (sk_key_id key) (sk_key_signing_algorithm key) data);
  signature ← match result with Ok s => mret s | Err e => throw (AccessError e) end;
  signature ← of_option (AccessError "No signature returned") signature;
  signature ← of_option ParsingError (format_signature_for_ssh (sk_public_key key) signature);
  of_option SigningFailure (add_signature cert signature).

Definition kms_signer_public_key (self : AmazonKMSSigner) (cert_type : CertType)
    : option PublicKey :=
  ssh_keys ← km_ssh_keys self;
  Some (sk_public_key (kms_key_for ssh_keys cert_type)).

Definition kms_signer (self : AmazonKMSSigner) : Signer :=
  {| signer_sign := kms_signer_sign self;
     signer_public_key := kms_signer_public_key self;
     signer_attested_x509_certificate_authority := km_x509_certificate self;
     signer_client_certificate_authority := km_client_certificate_authority self |}.
End KmsSigner.

Section KmsSignerLemmas.
Context `{Lru, SshCerts, Rcgen, Env, !Kms}.

Lemma kms_signer_sign_Ret self cert w w' c' :
  kms_signer_sign self cert w = (w', Ret c') →
  ∃ keys raw signature, km_ssh_keys self = Some keys ∧
    let key := kms_key_for keys (c_cert_type cert) in
    kms_sign (km_client self) (sk_key_id key) (sk_key_signing_algorithm key)
      (tbs_certificate cert) (w_calls w) = Ok (Some raw) ∧
    format_signature_for_ssh (sk_public_key key) raw = Some signature ∧
    add_signature cert signature = Some c'.
Proof.
  unfold kms_signer_sign. intros Hs.
  apply st_bind_Ret in Hs as (w1 & keys & [-> Hk]%of_option_Ret & Hs). cbv zeta in Hs.
  apply st_bind_Ret in Hs as (w2 & res & Hres & Hs). apply library_call_Ret in Hres as [-> ->].
  destruct (kms_sign _ _ _ _ _) as [raw|] eqn:Hraw; st_inv.
  by eexists _, _, _.
Qed.

Lemma kms_signer_laws `{!SshCertsLaws} self : SignerLaws (kms_signer self).
Proof.
  split; cbn.
  - intros c w w' c' (keys & raw & sig & _ & _ & _ & Ha)%kms_signer_sign_Ret.
    by eapply add_signature_tbs.
  - intros c. unfold kms_signer_sign. preserve.
  - intros c w. unfold kms_signer_sign. st_unfold. unfold library_call.
    destruct (km_ssh_keys self); [|done]. cbn.
    destruct (kms_sign _ _ _ _ _) as [[]|]; cbn; try done.
    by destruct (format_signature_for_ssh _ _).
  - unfold kms_signer_public_key. destruct (km_ssh_keys self); cbn; [|done]. split; eauto.
  - intros c w w' c' (keys & _ & _ & Hk & _)%kms_signer_sign_Ret.
    unfold kms_signer_public_key. rewrite Hk. eauto.
Qed.
(** ** The keys a signer was configured with *)

(** The key of a definition, as the service told it. *)
Definition kms_key_of (client : KmsClient) (d : KmsKeyDefinition) (key : SshKmsKey) : Prop :=
  sk_key_id key = kd_id d ∧
  sk_key_signing_algorithm key = signing_algorithm_from (kd_algorithm d) ∧
  ∃ n der, kms_get_public_key client (kd_id d) n = Some (Some der) ∧
    der_encoding_to_ssh_public_key der = Some (sk_public_key key).

Lemma ssh_key_from_kms_Ret client d w w' key :
  ssh_key_from_kms client (kd_id d) (kd_algorithm d) w = (w', Ret key) → kms_key_of client d key.
Proof.
  unfold ssh_key_from_kms. intros Hs.
  apply st_bind_Ret in Hs as (w1 & answer & [-> ->]%library_call_Ret & Hs).
  apply st_bind_Ret in Hs as (w2 & answer & [-> Hans]%of_option_Ret & Hs).
  apply st_bind_Ret in Hs as (w3 & der & [-> Hder]%of_option_Ret & Hs).
  apply st_bind_Ret in Hs as (w4 & pk & [-> Hpk]%of_option_Ret & Hs). cbv zeta in Hs.
  assert (key = {| sk_public_key := pk; sk_key_id := kd_id d;
    sk_key_signing_algorithm := signing_algorithm_from (kd_algorithm d) |}) as ->.
  { destruct (signing_algorithm_from (kd_algorithm d)); by st_inv. }
  split_and!; [done..|]. eexists _, _. split; [|done]. by rewrite Hans, Hder.
Qed.

Lemma kms_into_signer_Ret config w w' self keys :
  kms_into_signer config w = (w', Ret self) → km_ssh_keys self = Some keys →
  km_client self = kms_client config ∧
  ∃ user host, kf_user_key config = Some user ∧ kf_host_key config = Some host ∧
    kms_key_of (kms_client config) user (ks_user keys) ∧
    kms_key_of (kms_client config) host (ks_host keys).
Proof.
  unfold kms_into_signer. intros Hs Hk.
  apply st_bind_Ret in Hs as (w1 & keys' & Hkeys & Hs).
  apply st_bind_Ret in Hs as (w2 & x509 & _ & Hs).
  apply st_bind_Ret in Hs as (w3 & ca & _ & Hs). apply mret_Ret in Hs as [_ ->]. cbn in *. subst.
  split; [done|].
  destruct (kf_user_key config) as [user|], (kf_host_key config) as [host|]; st_inv; [|done].
  exists user, host. simplify_eq. cbn. split_and!; [done..| |]; by eapply ssh_key_from_kms_Ret.
Qed.
End KmsSignerLemmas.
