(* ===== verification/Signers.v ===== *)
(** * The configured signers

    [SignerType] of [rustica/src/signing/mod.rs]: the three kinds of signer a
    configuration can name.  Whatever the kind, the signer that is built keeps
    the promise of [Signing.SignerLaws], so the theorems of the server hold for
    every mechanism built from a configuration. *)
From Stdlib Require Import ZArith.
From S2P Require Import Prelude Machine Text Deps Key Auth Logging Schema World Signing.
From S2P Require Import YubikeySigner KmsSigner.

Inductive SignerType `{SshCerts, !Yubikeys} : Type :=
| TFile (c : FileConfig)
| TYubikey (c : YubikeyConfig)
| TAmazonKMS (c : KmsConfig).

Section Signers.
Context `{Lru, SshCerts, Rcgen, Env, !Yubikeys, Hex, !Kms}.

#[local] Abbreviation signing_st := (st World SigningError).

Definition into_signer (self : SignerType) : signing_st Signer :=
  match self with
  | TFile x => s ← file_into_signer x; mret (file_signer s)
  | TYubikey x => s ← yubikey_into_signer x; mret (yubikey_signer s)
  | TAmazonKMS x => s ← kms_into_signer x; mret (kms_signer s)
  end.

(** ** Who signed *)

(** The key of a file configuration for a type of certificate. *)
Definition file_key_for (config : FileConfig) (ty : CertType) : option PrivateKey :=
  match ty with User => user_key config | Host => host_key config end.
Definition yubikey_slot_for (config : YubikeyConfig) (ty : CertType) : option SlotId :=
  match ty with User => yc_user_slot config | Host => yc_host_slot config end.
Definition kms_definition_for (config : KmsConfig) (ty : CertType) : option KmsKeyDefinition :=
  match ty with User => kf_user_key config | Host => kf_host_key config end.

(** The certificate [c'] is [c] with a signature by the key configured for its
    type, and [pk] is that key as it was when the signer was built. *)
Definition signed_as_configured (self : SignerType) (c c' : Certificate PublicKey)
    (pk : PublicKey) : Prop :=
  match self with
  | TFile config =>
      ∃ sk, file_key_for config (c_cert_type c) = Some sk ∧ pubkey sk = pk ∧
        cert_sign c sk = Some c'
  | TYubikey config =>
      ∃ slot yk yk' n n' n'' sig, yubikey_slot_for config (c_cert_type c) = Some slot ∧
        yk_fetch_pubkey yk slot n = Some pk ∧
        (** the key that is connected when it signs *)
        yk_new n' = Some yk' ∧ yk_sign yk' (tbs_certificate c) slot n'' = Some sig ∧
        add_signature c sig = Some c'
  | TAmazonKMS config =>
      ∃ d n n' der raw sig, kms_definition_for config (c_cert_type c) = Some d ∧
        kms_get_public_key (kms_client config) (kd_id d) n = Some (Some der) ∧
        der_encoding_to_ssh_public_key der = Some pk ∧
        kms_sign (kms_client config) (kd_id d) (signing_algorithm_from (kd_algorithm d))
          (tbs_certificate c) n' = Ok (Some raw) ∧
        format_signature_for_ssh pk raw = Some sig ∧ add_signature c sig = Some c'
  end.

Lemma file_into_signer_keys config w w' s :
  file_into_signer config w = (w', Ret s) →
  ssh_keys s = match user_key config, host_key config with
               | Some u, Some h => Some (u, h) | _, _ => None end ∧
  (user_key config = None ↔ host_key config = None).
Proof.
  unfold file_into_signer. intros Hs.
  apply st_bind_Ret in Hs as (w1 & x509 & _ & Hs).
  apply st_bind_Ret in Hs as (w2 & ca & _ & Hs).
  apply st_bind_Ret in Hs as (w3 & keys & Hk & Hs). apply mret_Ret in Hs as [_ ->]. cbn.
  destruct (user_key config), (host_key config); st_inv; done.
Qed.

Lemma into_signer_laws `{!SshCertsLaws} self w w' s :
  into_signer self w = (w', Ret s) → SignerLaws s.
Proof.
  destruct self; cbn; intros Hs; st_inv;
    auto using file_signer_laws, yubikey_signer_laws, kms_signer_laws.
Qed.

(** The signers of a mechanism were built from the configuration. *)
Lemma mechanism_signers {C} (build_signer : C → signing_st Signer) default_auth configs w w' m a s :
  convert_to_signing_mechanism build_signer default_auth configs w = (w', Ret m) →
  authorities m !! a = Some s →
  ∃ c w1 w2, (a, c) ∈ configs ∧ build_signer c w1 = (w2, Ret s).
Proof.
  unfold convert_to_signing_mechanism. intros Hrun Ha. st_inv.
  match goal with Hc : convert_authorities _ _ _ _ = _ |- _ =>
    apply convert_authorities_Ret in Hc as (signers & Hf & Hall) end.
  rewrite (convert_all_authorities _ _ _ Hall) in Ha. cbn in Ha.
  apply foldl_insert_lookup in Ha as [Ha|Ha]; [|by rewrite lookup_empty in Ha].
  apply list_elem_of_lookup in Ha as (i & Hi).
  destruct (Forall2_lookup_r _ _ _ _ _ Hf Hi) as ([a' c] & Hc & Heq & w1 & w2 & Hb).
  cbn in *. subst a'. exists c, w1, w2. split; [by eapply list_elem_of_lookup_2|done].
Qed.

(** So a mechanism built from a configuration keeps the promise. *)
Lemma configured_mechanism_laws `{!SshCertsLaws} default_auth configs w w' m a s :
  convert_to_signing_mechanism into_signer default_auth configs w = (w', Ret m) →
  authorities m !! a = Some s → SignerLaws s.
Proof.
  intros Hrun Ha. destruct (mechanism_signers _ _ _ _ _ _ _ _ Hrun Ha) as (c & w1 & w2 & _ & Hc).
  by eapply into_signer_laws.
Qed.

Lemma into_signer_signs self w0 w0' s c w w' c' :
  into_signer self w0 = (w0', Ret s) → signer_sign s c w = (w', Ret c') →
  ∃ pk, signer_public_key s (c_cert_type c) = Some pk ∧ signed_as_configured self c c' pk.
Proof.
  destruct self as [config|config|config]; cbn; intros Hs Hsign;
    apply st_bind_Ret in Hs as (w1 & self & Hself & Hs); apply mret_Ret in Hs as [_ ->];
    cbn in *.
  - apply file_into_signer_keys in Hself as [Hk _]. unfold file_signer_sign in Hsign.
    unfold file_signer_public_key. st_inv.
    match goal with Hk' : ssh_keys self = Some _ |- _ => rewrite Hk' in Hk |- * end. cbn.
    destruct (user_key config) eqn:?, (host_key config) eqn:?; simplify_eq.
    destruct (c_cert_type c); eexists; (split; [done|]); eexists; cbn; eauto.
  - apply yubikey_into_signer_Ret in Hself as (yk & Hnew & Hyk & Hkeys).
    apply yubikey_signer_sign_Ret in Hsign as (keys & yk' & sig & Hk & Hnew' & Hsig & Hadd).
    rewrite Hk in Hkeys. destruct Hkeys as (Hu & Hh & Hkeys).
    unfold yubikey_signer_public_key. rewrite Hk. cbn. eexists. split; [done|].
    destruct (Hkeys (c_cert_type c)) as [n Hn].
    eexists _, _, _, _, _, _, _. split_and!; [|exact Hn|exact Hnew'|exact Hsig|exact Hadd].
    by destruct (c_cert_type c).
  - apply kms_signer_sign_Ret in Hsign as (keys & raw & sig & Hk & Hraw & Hsig & Hadd).
    destruct (kms_into_signer_Ret _ _ _ _ _ Hself Hk) as (Hcl & user & host & Hu & Hh & Hku & Hkh).
    unfold kms_signer_public_key. rewrite Hk. cbn. eexists. split; [done|]. rewrite Hcl in Hraw.
    destruct (c_cert_type c); [destruct Hku as (Hid & Halg & n & der & Hd & Hpk)
      |destruct Hkh as (Hid & Halg & n & der & Hd & Hpk)]; cbn in *;
      rewrite Hid, Halg in Hraw; eexists _, _, _, _, _, _; split_and!; eauto.
Qed.

(** ** Property *)

(** In a mechanism built from a configuration - its authorities of any
    kind: a file, a Yubikey or Amazon's service - a certificate that comes out
    of [sign] says what went in and carries a signature by the key configured
    for its authority and its type, whose public key is the one the mechanism
    announces for them. *)
Theorem configured_mechanism_signs_with_its_keys `{!SshCertsLaws} default_auth configs w0 w0' m
    authority c w w' c' :
  convert_to_signing_mechanism into_signer default_auth configs w0 = (w0', Ret m) →
  sign m authority c w = (w', Ret c') →
  same_tbs c c' ∧ ∃ config pk, (authority, config) ∈ configs ∧
    get_signer_public_key m authority (c_cert_type c) = Ok pk ∧
    signed_as_configured config c c' pk.
Proof.
  intros Hm. unfold sign, get_signer_public_key.
  destruct (authorities m !! authority) as [s|] eqn:Ha; [|done]. intros Hs. split.
  - eapply signer_sign_tbs; [by eapply configured_mechanism_laws|done].
  - destruct (mechanism_signers _ _ _ _ _ _ _ _ Hm Ha) as (config & w1 & w2 & Hin & Hc).
    destruct (into_signer_signs _ _ _ _ _ _ _ _ Hc Hs) as (pk & Hpk & Hsigned).
    exists config, pk. split_and!; [done| |done]. by rewrite Hpk.
Qed.
End Signers.
