(* ===== verification/Proto.v ===== *)
(** * The messages of the Rustica service

    [proto/rustica.proto]: what an agent and a server exchange. *)
From Stdlib Require Import ZArith.
From S2P Require Import Prelude Machine Text.

Record ChallengeRequest : Type := { cr_pubkey : string }.

Record ChallengeResponse : Type := {
  time : string;
  challenge : string;
  no_signature_required : bool;
}.

Record Challenge : Type := {
  ch_pubkey : string;
  ch_challenge : string;
  ch_challenge_signature : string;
  ch_challenge_time : string;
}.

Record CertificateRequest : Type := {
  cq_cert_type : Z;
  cq_key_id : string;
  cq_principals : list string;
  cq_servers : list string;
  cq_extensions : gmap string string;
  cq_critical_options : gmap string string;
  cq_valid_after : Z;
  cq_valid_before : Z;
  cq_challenge : option Challenge;
}.

Record CertificateResponse : Type := {
  cs_certificate : string;
  cs_error : string;
  cs_error_code : Z;
  cs_new_client_certificate : string;
  cs_new_client_key : string;
}.

Record RegisterKeyRequest : Type := {
  rq_certificate : bytes;
  rq_intermediate : bytes;
  rq_challenge : option Challenge;
}.

Record RegisterU2fKeyRequest : Type := {
  uq_auth_data : bytes;
  uq_auth_data_signature : bytes;
  uq_sk_application : bytes;
  uq_u2f_challenge : bytes;
  uq_intermediate : bytes;
  uq_alg : Z;
  uq_challenge : option Challenge;
  uq_u2f_challenge_hashed : bool;
}.

Record AttestedX509CertificateRequest : Type := {
  xq_key_id : string;
  xq_csr : bytes;
  xq_attestation : bytes;
  xq_attestation_intermediate : bytes;
}.

Record AttestedX509CertificateResponse : Type := {
  xs_certificate : bytes;
  xs_error : string;
  xs_error_code : Z;
}.

Record AllowedSignersResponse : Type := { compressed_signers : bytes }.

(** [std::net::SocketAddr]: its text and the text of its IP. *)
Record SocketAddr : Type := { addr_to_string : string; ip_to_string : string }.

(** [tonic::Request]: the message and what the transport knows of the peer. *)
Record Request (M : Type) : Type := mkRequest {
  remote_addr : option SocketAddr;
  peer_certs : option (list bytes);
  into_inner : M;
}.
Arguments mkRequest {_}.
Arguments remote_addr {_} _.
Arguments peer_certs {_} _.
Arguments into_inner {_} _.
