(* ===== verification/Server.v ===== *)
(** * The server: challenges, their validation and SSH certificates

    [rustica/src/server.rs]: the [RusticaServer], [validate_request] and the
    handlers [challenge] and [certificate].  The macros [debug!], [info!] and
    [error!] write to standard error and are not modelled; the log channel is. *)
From Stdlib Require Import ZArith Lia.
From S2P Require Import Prelude Machine Text Deps Key Auth Logging Schema World.
From S2P Require Import Authorizer Signing Proto.

Record ClientAuthorityConfiguration : Type := {
  authority : string;
  validity_length : Z;
  expiration_renewal_period : Z;
}.

Record AllowedSignersConfiguration : Type := {
  cache_validity_length : Z;
  lru_rate_limiter_size : Z;
  rate_limit_cooldown : Z;
}.

(** [RusticaServer]: the log channel, the rate limiter and the cache are in
    the [World]. *)
Record RusticaServer `{Lru, SshCerts, Rcgen, Hmac} (A : Type) : Type := {
  hmac_key : HmacKey;
  challenge_key : PrivateKey;
  authorizer : A;
  signer : SigningMechanism;
  require_rustica_proof : bool;
  require_attestation_chain : bool;
  client_authority : ClientAuthorityConfiguration;
  allowed_signers : AllowedSignersConfiguration;
}.
Arguments hmac_key {_ _ _ _ _} _.
Arguments challenge_key {_ _ _ _ _} _.
Arguments authorizer {_ _ _ _ _} _.
Arguments signer {_ _ _ _ _} _.
Arguments require_rustica_proof {_ _ _ _ _} _.
Arguments require_attestation_chain {_ _ _ _ _} _.
Arguments client_authority {_ _ _ _ _} _.
Arguments allowed_signers {_ _ _ _ _} _.

Record MtlsCertificateInfo : Type := {
  identities : list string;
  cert_expiry : Z;
}.

Record CertificateRefreshSettings : Type := {
  rs_not_after : Z;
  rs_not_before : Z;
}.

(** [create_response]. *)
Definition create_response (e : RusticaServerError) : CertificateResponse :=
  {| cs_certificate := "";
     cs_error := error_debug e;
     cs_error_code := error_code e;
     cs_new_client_certificate := "";
     cs_new_client_key := "" |}.

Section Server.
Context `{Lru, SshCerts, Rcgen, Hmac, Env, Hex, X509} {A : Type} `{!Authorizer A}.

#[local] Abbreviation server := (RusticaServer A).

(** ** The mTLS certificate of the peer *)

(** The values of the common names, in order; a value that is not a string
    rejects the certificate. *)
Fixpoint common_names (attrs : list (string * option string))
    : result RusticaServerError (list string) :=
  match attrs with
  | [] => Ok []
  | (attr_type, value) :: attrs =>
      if decide (attr_type = OID_COMMON_NAME) then
        match value with
        | Some s => l ← common_names attrs; Ok (s :: l)
        | None => Err NotAuthorized
        end
      else common_names attrs
  end.

Definition extract_certificate_information (peer : bytes)
    : result RusticaServerError MtlsCertificateInfo :=
  match x509_from_der peer with
  | Err _ => Err NotAuthorized
  | Ok cert =>
      ids ← common_names (concat (subject_rdns cert));
      Ok {| identities := ids; cert_expiry := not_after_timestamp cert |}
  end.

(** ** validate_request *)

(** The end of [validate_request]: where proof is required, the challenge
    certificate must be signed by the key it is for; otherwise it must be the
    server's own. *)
Definition proved_request (srv : server) (from : string) (parsed_certificate : Certificate PublicKey)
    (hmac_ssh_pubkey : PublicKey) (ids : list string)
    (certificate_refresh_settings : option CertificateRefreshSettings)
    : st World RusticaServerError (PublicKey * list string * option CertificateRefreshSettings) :=
  if negb (require_rustica_proof srv) then
    (if decide (pk_hash (c_signature_key parsed_certificate) ≠
                pk_hash (pubkey (challenge_key srv))) then
       rustica_warning ("Received an incorrect certificate from " +:+ from);;
       throw BadChallenge
     else mret ());;
    mret (hmac_ssh_pubkey, ids, certificate_refresh_settings)
  else
    (if decide (pk_hash (c_key parsed_certificate) ≠
                pk_hash (c_signature_key parsed_certificate)) then
       rustica_warning ("User key did not equal CA key when talking to: " +:+ from);;
       throw BadChallenge
     else mret ());;
    (if decide (pk_hash (c_key parsed_certificate) ≠ pk_hash hmac_ssh_pubkey) then
       rustica_warning ("User key did not equal HMAC validated public key: " +:+ from);;
       throw BadChallenge
     else mret ());;
    mret (hmac_ssh_pubkey, ids, certificate_refresh_settings).

(** The text the HMAC is taken over. *)
Definition hmac_text (time pubkey : string) (ids : list string) : string :=
  time +:+ "-" +:+ pubkey +:+ "-" +:+ join "," ids.

Definition validate_request (srv : server) (key : HmacKey) (peers : list bytes)
    (chal : Challenge)
    : st World RusticaServerError (PublicKey * list string * option CertificateRefreshSettings) :=
  cert ← of_option BadRequest (head peers);
  cert_info ← of_result (extract_certificate_information cert);
  now ← read_clock;
  '(request_time, now) ←
    match parse_u64 (ch_challenge_time chal), now with
    | Some rt, Some t => mret (rt, as_secs t)
    | _, _ => throw Unknown
    end;
  elapsed ← sub_u64 now request_time;
  let from := join "," (identities cert_info) in
  (if decide (elapsed > 5) then
     rustica_warning ("Expired challenge received from: " +:+ from);; throw TimeExpired
   else mret ());;
  (if decide (len (ch_challenge chal) > 1024) then
     rustica_warning ("Received a certificate that is far too large from from: " +:+ from);;
     throw Unknown
   else mret ());;
  parsed_certificate ←
    match cert_from_string (ch_challenge chal) with
    | Ok c => mret c
    | Err _ =>
        rustica_warning ("Received a bad certificate from: " +:+ from);; throw BadChallenge
    end;
  let hmac_challenge := c_key_id parsed_certificate in
  let hmac_verification :=
    hmac_text (int_to_string request_time) (ch_pubkey chal) (identities cert_info) in
  decoded_challenge ← of_option BadChallenge (hex_decode hmac_challenge);
  (if hmac_verify key (as_bytes hmac_verification) decoded_challenge then mret ()
   else rustica_warning ("Received a bad challenge from: " +:+ from);; throw BadChallenge);;
  hmac_ssh_pubkey ←
    match pk_from_string (ch_pubkey chal) with
    | Some pk => mret pk
    | None =>
        rustica_error ("Public key was invalid when negotiating with [" +:+ from +:+
          "]. Public key: [" +:+ ch_pubkey chal +:+ "]");;
        throw BadChallenge
    end;
  let expiry := as_u64 (cert_expiry cert_info) in
  expires_soon ←
    (if decide (now > expiry) then mret true
     else
       left ← sub_u64 expiry now;
       mret (bool_decide (left < expiration_renewal_period (client_authority srv))));
  certificate_refresh_settings ←
    (if expires_soon : bool then
       not_after ← add_u64 now (validity_length (client_authority srv));
       mret (Some {| rs_not_after := not_after; rs_not_before := now |})
     else mret None);
  proved_request srv from parsed_certificate hmac_ssh_pubkey (identities cert_info)
    certificate_refresh_settings.

(** ** challenge *)

Definition CHALLENGE_SERIAL : Z := 0xFEFEFEFEFEFEFEFE.

Definition challenge_handler (self : server) (request : Request ChallengeRequest)
    : st World Status ChallengeResponse :=
  remote_addr ← of_option (permission_denied "") (remote_addr request);
  certs ← of_option (permission_denied "") (peer_certs request);
  peer ← of_option (permission_denied "") (head certs);
  let request := into_inner request in
  mtls_identities ←
    match extract_certificate_information peer with
    | Ok ci => mret (identities ci)
    | Err _ => throw (permission_denied "")
    end;
  (if decide (len (cr_pubkey request) > 1024) then
     rustica_warning ("The pubkey size is too large (" +:+ int_to_string (len (cr_pubkey request))
       +:+ " chars) for a challenge request from [" +:+ join "," mtls_identities +:+ "]");;
     throw (permission_denied "")
   else mret ());;
  ssh_pubkey ← of_option (permission_denied "") (pk_from_string (cr_pubkey request));
  now ← read_clock;
  secs ← unwrap (as_secs <$> now);
  let timestamp := int_to_string secs in
  let pubkey := cr_pubkey request in
  let chal := hmac_text timestamp pubkey mtls_identities in
  let tag := hmac_sign (hmac_key self) (as_bytes chal) in
  builder ← of_option (permission_denied "")
    (cert_builder ssh_pubkey Host (Deps.pubkey (challenge_key self)));
  let builder :=
    set_valid_before 0 (set_valid_after 0 (set_key_id (hex_encode tag)
      (set_serial CHALLENGE_SERIAL builder))) in
  cert ← of_option (permission_denied "") (cert_sign builder (challenge_key self));
  mret {| time := timestamp;
          challenge := cert_to_string cert;
          no_signature_required := negb (require_rustica_proof self) |}.

(** ** certificate *)

(** The certificate the handler asks the signer for. *)
Definition ssh_certificate (builder : Certificate PublicKey) (fingerprint : string)
    (authorization : SshAuthorization) (critical_options : gmap string string)
    : Certificate PublicKey :=
  set_extensions (sa_extensions authorization)
    (set_critical_options critical_options
      (set_valid_before (sa_valid_before authorization)
        (set_valid_after (sa_valid_after authorization)
          (set_principals (sa_principals authorization)
            (set_key_id ("Rustica-JITC-for-" +:+ fingerprint)
              (set_serial (sa_serial authorization) builder)))))).

Definition critical_options_of (authorization : SshAuthorization) (addr : SocketAddr)
    : gmap string string :=
  let o := match sa_force_command authorization with
           | Some cmd => <["force-command" := cmd]> ∅
           | None => ∅
           end in
  if sa_force_source_ip authorization then <["source-address" := ip_to_string addr]> o else o.

(** A date of a certificate: the addition and the conversion panic out of range. *)
Definition date_of (secs : Z) : st World Status Z :=
  if date_in_range secs then mret secs else panic.

(** The parameters of a fresh client certificate. *)
Definition client_params (ids : list string) (before after : Z) : CertificateParams KeyPair :=
  let d := params_new ids in
  {| alg := alg d; not_before := before; not_after := after;
     serial_number := serial_number d; subject_alt_names := subject_alt_names d;
     distinguished_name := distinguished_name d ++ [(CommonName, default "" (head ids))];
     is_ca := is_ca d; key_usages := key_usages d; extended_key_usages := extended_key_usages d;
     name_constraints := name_constraints d; custom_extensions := custom_extensions d;
     use_authority_key_identifier_extension := use_authority_key_identifier_extension d;
     key_pair := key_pair d |}.

(** What is logged of a certificate. *)
Definition certificate_log (fingerprint : string) (ca_cert : PublicKey) (authority : string)
    (req_cert_type : CertType) (mtls_identities : list string) (authorization : SshAuthorization)
    (critical_options : gmap string string) (mtls_refresh : option CertificateRefreshSettings)
    : CertificateIssued :=
  {| ci_fingerprint := fingerprint;
     ci_signed_by := pk_hash ca_cert;
     ci_authority := authority;
     ci_serial := sa_serial authorization;
     ci_certificate_type := cert_type_to_string req_cert_type;
     ci_mtls_identities := mtls_identities;
     ci_principals := sa_principals authorization;
     ci_extensions := sa_extensions authorization;
     ci_critical_options := critical_options;
     ci_valid_after := sa_valid_after authorization;
     ci_valid_before := sa_valid_before authorization;
     ci_new_access_certificate_issued := bool_decide (is_Some mtls_refresh) |}.

(** The new client key and certificate. *)
Definition refresh_client_certificate (ids : list string) (settings : CertificateRefreshSettings)
    (ca : RcgenCertificate) : st World Status (string * string) :=
  before ← date_of (rs_not_before settings);
  after ← date_of (rs_not_after settings);
  r ← library_call (from_params (client_params ids before after));
  new_certificate ← unwrap r;
  let new_client_key := serialize_private_key_pem new_certificate in
  pem ← library_call (serialize_pem_with_signer new_certificate ca);
  new_client_certificate ← unwrap pem;
  mret (new_client_key, new_client_certificate).

Definition certificate_handler (self : server) (request : Request CertificateRequest)
    : st World Status CertificateResponse :=
  addr ← of_option (permission_denied "") (remote_addr request);
  let peer := peer_certs request in
  let request := into_inner request in
  match cq_challenge request, peer with
  | Some chal, Some peer =>
      validated ← attempt (validate_request self (hmac_key self) peer chal);
      match validated with
      | Err e => mret (create_response e)
      | Ok (ssh_pubkey, mtls_identities, mtls_refresh) =>
          now ← read_clock;
          let current_timestamp :=
            match now with Some ts => as_secs ts | None => 0xFFFFFFFFFFFFFFFF end in
          if decide (cq_valid_before request < cq_valid_after request ∨
                     current_timestamp > cq_valid_before request) then
            mret (create_response BadCertOptions)
          else
          let cert_type :=
            if decide (cq_cert_type request = 1) then Some User
            else if decide (cq_cert_type request = 2) then Some Host
            else None in
          match cert_type with
          | None => mret (create_response BadCertOptions)
          | Some req_cert_type =>
              let auth := if is_empty (cq_key_id request) then default_authority (signer self)
                          else cq_key_id request in
              let fp := pk_hash ssh_pubkey in
              let auth_props :=
                {| sp_fingerprint := fp;
                   sp_mtls_identities := mtls_identities;
                   sp_requester_ip := addr_to_string addr;
                   sp_principals := cq_principals request;
                   sp_servers := cq_servers request;
                   sp_cert_type := req_cert_type;
                   sp_valid_after := cq_valid_after request;
                   sp_valid_before := cq_valid_before request;
                   sp_authority := auth |} in
              match get_signer_public_key (signer self) auth req_cert_type with
              | Err _ => mret (create_response NotAuthorized)
              | Ok ca_cert =>
                  answer ← attempt (authorize_ssh_cert (authorizer self) auth_props);
                  match answer with
                  | Err e => mret (create_response (server_error_of_auth e))
                  | Ok authorization =>
                      let critical_options := critical_options_of authorization addr in
                      builder ← of_option (permission_denied "")
                        (cert_builder ssh_pubkey req_cert_type ca_cert);
                      let cert := ssh_certificate builder fp authorization critical_options in
                      cert ← attempt (sign (signer self) (sa_authority authorization) cert);
                      match cert with
                      | Err e =>
                          rustica_error ("Creating certificate failed: " +:+
                            signing_error_to_string e);;
                          mret (create_response BadChallenge)
                      | Ok cert =>
                          let serialized_cert := cert_to_string cert in
                          match cert_from_string serialized_cert with
                          | Err e =>
                              rustica_error ("Couldn't deserialize certificate: " +:+ e);;
                              mret (create_response BadCertOptions)
                          | Ok _ =>
                              '(new_client_key, new_client_certificate) ←
                                match mtls_refresh,
                                  get_client_certificate_authority (signer self)
                                    (authority (client_authority self)) with
                                | Some settings, Ok (Some ca) =>
                                    refresh_client_certificate mtls_identities settings ca
                                | _, _ => mret ("", "")
                                end;
                              send_log (LogCertificateIssued (certificate_log fp ca_cert auth
                                req_cert_type mtls_identities authorization critical_options
                                mtls_refresh));;
                              mret {| cs_certificate := serialized_cert;
                                      cs_error := "";
                                      cs_error_code := error_code Success;
                                      cs_new_client_certificate := new_client_certificate;
                                      cs_new_client_key := new_client_key |}
                          end
                      end
                  end
              end
          end
      end
  | _, _ => mret (create_response BadRequest)
  end.
End Server.
