(* ===== verification/Validation.v ===== *)
(** * The server: which challenges are accepted

    The theorems on [validate_request] and on the handler [challenge] of
    [rustica/src/server.rs]: [accepted] is what a request must satisfy, and
    [renewal] when the client certificate is renewed. *)
From Stdlib Require Import ZArith Lia.
From S2P Require Import Prelude Machine Text Deps Key Auth Logging Schema World.
From S2P Require Import Authorizer Signing Proto Server.

Section Validation.
Context `{Lru, SshCerts, Rcgen, Hmac, Env, Hex, X509} {A : Type} `{!Authorizer A}.

#[local] Abbreviation server := (RusticaServer A).

(** ** When a challenge is accepted *)

Record accepted (srv : server) (key : HmacKey) (peers : list bytes) (chal : Challenge)
    (now : Z) (pk : PublicKey) (info : MtlsCertificateInfo) : Prop := {
  acc_peer : ∃ peer, head peers = Some peer ∧ extract_certificate_information peer = Ok info;
  acc_size : len (ch_challenge chal) ≤ 1024;
  acc_proof : ∃ rt cert,
    parse_u64 (ch_challenge_time chal) = Some rt ∧ rt ≤ now ≤ rt + 5 ∧
    cert_from_string (ch_challenge chal) = Ok cert ∧
    hex_decode (c_key_id cert) = Some (hmac_sign key (as_bytes
      (hmac_text (int_to_string rt) (ch_pubkey chal) (identities info)))) ∧
    (if require_rustica_proof srv then
       pk_hash (c_key cert) = pk_hash (c_signature_key cert) ∧ pk_hash (c_key cert) = pk_hash pk
     else pk_hash (c_signature_key cert) = pk_hash (pubkey (challenge_key srv)));
  acc_key : pk_from_string (ch_pubkey chal) = Some pk;
}.

(** Does the client certificate expire within the configured period? *)
Definition expires_soon (srv : server) (now expiry : Z) : Prop :=
  as_u64 expiry < now ∨
  as_u64 expiry - now < expiration_renewal_period (client_authority srv).
#[export] Instance expires_soon_dec srv now expiry : Decision (expires_soon srv now expiry).
Proof. unfold expires_soon. apply _. Defined.

Definition renewal (srv : server) (now expiry : Z) : outcome RusticaServerError
    (option CertificateRefreshSettings) :=
  if decide (expires_soon srv now expiry) then
    not_after ← u64_add build now (validity_length (client_authority srv));
    Ret (Some {| rs_not_after := not_after; rs_not_before := now |})
  else Ret None.

(** The window, as the code computes it. *)
Lemma window_sub now rt e :
  in_u64 now → in_u64 rt → 5 ≤ now →
  u64_sub (E := RusticaServerError) build now rt = Ret e → (e ≤ 5 ↔ rt ≤ now ≤ rt + 5).
Proof.
  intros Hn Hr Hge Hs. destruct (decide (rt ≤ now)).
  - rewrite u64_sub_ok in Hs by done. simplify_eq. lia.
  - rewrite u64_sub_under in Hs by (done || lia). destruct build; simplify_eq. machine.
Qed.

Lemma validate_request_run (srv : server) key peers chal w ts pk info :
  EnvLaws → HmacLaws →
  clock (w_clock w) = Some ts → 
  accepted srv key peers chal (as_secs ts) pk info →
  validate_request srv key peers chal w =
    (set_clock (S (w_clock w)) w,
     r ← renewal srv (as_secs ts) (cert_expiry info); Ret (pk, identities info, r)).
Proof.
  intros ?? Hc [(peer & Hp & He) Hs (rt & cert & Hrt & Hw & Hcert & Hhex & Hproof) Hk].
  pose proof (as_secs_range ts (clock_range _ _ Hc)) as Hnow.
  pose proof (parse_u64_range _ _ Hrt) as Hrt'.
  assert (hmac_verify key (as_bytes (hmac_text (int_to_string rt) (ch_pubkey chal)
    (identities info))) (hmac_sign key (as_bytes (hmac_text (int_to_string rt) (ch_pubkey chal)
    (identities info)))) = true) as Hv by by apply hmac_verify_spec.
  unfold validate_request, proved_request, read_clock, sub_u64, add_u64. st_unfold.
  rewrite Hp, He, Hrt, Hc. cbn -[decide]. rewrite u64_sub_ok by (done || lia). cbn -[decide].
  rewrite (decide_False (P := _ > 5)) by lia. cbn -[decide].
  rewrite (decide_False (P := _ > 1024)) by lia. cbn -[decide].
  rewrite Hcert. cbn -[decide]. rewrite Hhex. cbn -[decide]. rewrite Hv. cbn -[decide].
  rewrite Hk. cbn -[decide].
  assert (∀ s : World, (if decide (as_secs ts > as_u64 (cert_expiry info))
       then λ s : World, (s, Ret true)
       else λ s : World,
         match u64_sub build (as_u64 (cert_expiry info)) (as_secs ts) with
         | Ret a => (s, Ret (bool_decide (a < expiration_renewal_period (client_authority srv))))
         | Raise e => (s, Raise e)
         | Panic => (s, Panic)
         end) s = (s, Ret (bool_decide (expires_soon srv (as_secs ts) (cert_expiry info)))
           : outcome RusticaServerError bool)) as Hsoon.
  { intros s. unfold expires_soon. case_decide.
    - rewrite bool_decide_true by lia. done.
    - rewrite u64_sub_ok by (apply as_u64_range || done || lia).
      do 2 f_equal. apply bool_decide_ext. lia. }
  rewrite Hsoon. clear Hsoon. unfold renewal.
  destruct (decide (expires_soon srv (as_secs ts) (cert_expiry info))) as [Hes|Hes];
    [rewrite bool_decide_true by done|rewrite bool_decide_false by done]; cbn -[decide].
  - unfold mbind, outcome_bind. destruct (u64_add _ _ _); cbn -[decide]; [|done..].
    destruct (require_rustica_proof srv); cbn -[decide].
    + destruct Hproof. rewrite !decide_False by auto. done.
    + rewrite decide_False by auto. done.
  - destruct (require_rustica_proof srv); cbn -[decide].
    + destruct Hproof. rewrite !decide_False by auto. done.
    + rewrite decide_False by auto. done.
Qed.


Lemma validate_request_inv (srv : server) key peers chal w w' pk ids r :
  EnvLaws → HmacLaws →
  (∀ ts, clock (w_clock w) = Some ts → 5 ≤ as_secs ts) →
  validate_request srv key peers chal w = (w', Ret (pk, ids, r)) →
  ∃ ts info, clock (w_clock w) = Some ts ∧ ids = identities info ∧
    accepted srv key peers chal (as_secs ts) pk info ∧
    w' = set_clock (S (w_clock w)) w ∧ renewal srv (as_secs ts) (cert_expiry info) = Ret r.
Proof.
  intros ?? Hge Hrun.
  assert (∃ ts info, clock (w_clock w) = Some ts ∧ ids = identities info ∧
    accepted srv key peers chal (as_secs ts) pk info) as (ts & info & Hc & Hids & Hacc).
  { unfold validate_request, proved_request in Hrun. st_inv.
    destruct (parse_u64 _) as [rt|] eqn:Hrt; [|st_inv].
    destruct (clock (w_clock w)) as [ts|] eqn:Hc; [|st_inv].
    specialize (Hge _ eq_refl). pose proof (as_secs_range ts (clock_range _ _ Hc)) as Hnow.
    pose proof (parse_u64_range _ _ Hrt) as Hrt'. st_inv_all.
    all: match goal with Hs : u64_sub _ (as_secs _) _ = Ret _ |- _ =>
      apply (window_sub _ _ _ Hnow Hrt' Hge) in Hs end.
    all: match goal with Hh : hmac_verify _ _ _ = true |- _ => apply hmac_verify_spec in Hh as -> end.
    all: eexists ts, _; split_and!; [done..|]; split; [by eauto|lia| |done].
    all: eexists _, _; split_and!; [done|lia..|done|done|].
    all: destruct (require_rustica_proof srv); [split|]; try done; by apply dec_stable. }
  exists ts, info. pose proof (validate_request_run srv key peers chal w ts pk info _ _ Hc Hacc) as Hr.
  rewrite Hrun in Hr. injection Hr as -> Hr. split_and!; [done..|].
  destruct (renewal _ _ _); cbn in Hr; by simplify_eq.
Qed.

(** A challenge in its window whose certificate is too long is refused before
    it is parsed. *)
Definition refused_as_too_long (info : MtlsCertificateInfo) (w : World) : World :=
  set_logs (w_logs w ++ [LogInternalMessage {| im_severity := Warning; im_message :=
    "Received a certificate that is far too large from from: " +:+ join "," (identities info) |}])
    (set_clock (S (w_clock w)) w).
Lemma validate_request_too_long (srv : server) key peers peer chal w ts info rt :
  EnvLaws → clock (w_clock w) = Some ts →
  head peers = Some peer → extract_certificate_information peer = Ok info →
  parse_u64 (ch_challenge_time chal) = Some rt → rt ≤ as_secs ts ≤ rt + 5 →
  1024 < len (ch_challenge chal) →
  validate_request srv key peers chal w = (refused_as_too_long info w, Raise Unknown).
Proof.
  intros ? Hc Hp He Hrt Hwin Hlen. pose proof (as_secs_range ts (clock_range _ _ Hc)) as Hnow.
  pose proof (parse_u64_range _ _ Hrt) as Hrt'.
  unfold validate_request, proved_request, read_clock, sub_u64. st_unfold.
  rewrite Hp, He, Hrt, Hc. cbn -[decide]. rewrite u64_sub_ok by (done || lia). cbn -[decide].
  rewrite (decide_False (P := _ > 5)) by lia. cbn -[decide].
  rewrite (decide_True (P := _ > 1024)) by lia. done.
Qed.

(** Whatever the time was: whom and what it names. *)
Lemma validate_request_names (srv : server) key peers chal w w' pk ids r :
  validate_request srv key peers chal w = (w', Ret (pk, ids, r)) →
  ∃ peer info, head peers = Some peer ∧ extract_certificate_information peer = Ok info ∧
    ids = identities info ∧ pk_from_string (ch_pubkey chal) = Some pk.
Proof.
  unfold validate_request, proved_request. intros Hrun. st_inv_all.
  all: eexists _, _; split_and!; done.
Qed.

(** ** The text under the HMAC *)

Lemma string_app_cons_inj_l c l r l' r' :
  ¬ has_char c l → ¬ has_char c l' → l +:+ String c r = l' +:+ String c r' → l = l' ∧ r = r'.
Proof.
  intros Hl Hl' Heq.
  assert (split_once c (l +:+ String c r) = split_once c (l' +:+ String c r')) as Hs by by rewrite Heq.
  rewrite !split_once_app in Hs by done. by simplify_eq.
Qed.

(** The same from the right: the separator does not occur in the last part. *)
Lemma string_app_cons_inj_r c l r l' r' :
  ¬ has_char c r → ¬ has_char c r' → l +:+ String c r = l' +:+ String c r' → l = l' ∧ r = r'.
Proof.
  intros Hr Hr'. revert l'. induction l as [|a l IH]; intros [|a' l']; cbn; intros Heq; simplify_eq.
  - done.
  - exfalso. apply Hr. rewrite has_char_app, has_char_cons. auto.
  - exfalso. apply Hr'. rewrite has_char_app, has_char_cons. auto.
  - destruct (IH l') as [-> ->]; done.
Qed.

Lemma hmac_text_inj t t' pk pk' ids ids' :
  0 ≤ t → 0 ≤ t' → ¬ has_char "-"%char (join "," ids) → ¬ has_char "-"%char (join "," ids') →
  hmac_text (int_to_string t) pk ids = hmac_text (int_to_string t') pk' ids' →
  t = t' ∧ pk = pk' ∧ join "," ids = join "," ids'.
Proof.
  intros Ht Ht' Hi Hi'. unfold hmac_text. intros Heq.
  apply (string_app_cons_inj_l "-"%char (int_to_string t) _ (int_to_string t')) in Heq as [Hs Heq];
    [|by apply int_to_string_no_dash..].
  apply (string_app_cons_inj_r "-"%char) in Heq as [-> Hj]; [|done..].
  by apply int_to_string_inj in Hs.
Qed.

(** ** The errors of validation *)

Lemma common_names_error attrs e : common_names attrs = Err e → e = NotAuthorized.
Proof.
  induction attrs as [|[t v] attrs IH]; cbn; [done|]. case_decide; [|done].
  destruct v; [|naive_solver]. unfold mbind, result_bind.
  destruct (common_names attrs); [done|]. intros [= <-]. auto.
Qed.

Lemma extract_error peer e : extract_certificate_information peer = Err e → e = NotAuthorized.
Proof.
  unfold extract_certificate_information. destruct (x509_from_der peer) as [cert|]; [|naive_solver].
  unfold mbind, result_bind. destruct (common_names _) eqn:Hn; [done|].
  intros [= <-]. by eapply common_names_error.
Qed.

Lemma validate_request_raises (srv : server) key peers chal :
  raises (λ e, e ∈ [BadRequest; NotAuthorized; Unknown; TimeExpired; BadChallenge])
    (validate_request srv key peers chal).
Proof.
  unfold validate_request, proved_request. raise; try set_solver.
  match goal with He : extract_certificate_information _ = Err _ |- _ =>
    apply extract_error in He as -> end. set_solver.
Qed.

(** ** What a challenge is *)

(** The certificate of a challenge response, as the other side reads it. *)
Record challenge_for (self : server) (req : Request ChallengeRequest) (ts : Z)
    (resp : ChallengeResponse) (info : MtlsCertificateInfo) (pk : PublicKey)
    (cert : Certificate PublicKey) : Prop := {
  cf_peer : ∃ certs peer, peer_certs req = Some certs ∧ head certs = Some peer ∧
    extract_certificate_information peer = Ok info;
  cf_key : pk_from_string (cr_pubkey (into_inner req)) = Some pk;
  cf_time : time resp = int_to_string (as_secs ts);
  cf_parses : cert_from_string (challenge resp) = Ok cert;
  cf_key_id : c_key_id cert = hex_encode (hmac_sign (hmac_key self) (as_bytes
    (hmac_text (time resp) (cr_pubkey (into_inner req)) (identities info))));
  cf_certified : pk_hash (c_key cert) = pk_hash pk;
  cf_signed : pk_hash (c_signature_key cert) = pk_hash (pubkey (challenge_key self));
  cf_useless : c_cert_type cert = Host ∧ c_valid_after cert = 0 ∧ c_valid_before cert = 0;
  cf_mode : no_signature_required resp = negb (require_rustica_proof self);
}.

Lemma challenge_handler_for `{!SshCertsLaws} (self : server) req w w' resp :
  challenge_handler self req w = (w', Ret resp) →
  ∃ ts info pk cert, clock (w_clock w) = Some ts ∧ w' = set_clock (S (w_clock w)) w ∧
    challenge_for self req ts resp info pk cert.
Proof.
  unfold challenge_handler. intros Hrun. st_inv_all.
  match goal with Ht : as_secs <$> ?c = Some _ |- _ => destruct c as [ts|] eqn:Hc; [|done] end.
  match goal with Hs : cert_sign _ _ = Some ?c |- _ =>
    destruct (cert_sign_parses _ _ _ Hs) as (cert & Hparse & Htbs');
    pose proof (transitivity (cert_sign_tbs _ _ _ Hs) Htbs') as Htbs end.
  match goal with Hb : cert_builder _ _ _ = Some _ |- _ =>
    apply cert_builder_fields in Hb as (Hkey & Hty & Hca) end.
  cbn in *. simplify_eq. destruct Htbs as (Hk & Ht & _ & Hid & _ & Hva & Hvb & _ & _ & Hsig).
  cbn in *. eexists ts, _, _, cert. split_and!; [done..|].
  split; cbn; eauto 10; split_and?; congruence.
Qed.

(** ** Properties *)

(** C2: [validate_request] accepts exactly the requests whose peer presented a
    readable certificate, whose challenge certificate is at most 1024 bytes,
    parses, names the HMAC of the time, the public key and the peer's own
    identities, is at most five seconds old and not from the future, and is
    signed as the proof mode demands - by the key being proved, or by the
    server's challenge key.  It then names that key and those identities,
    decides the renewal of the client certificate, and logs nothing. *)
Theorem validate_request_accepts_exactly (srv : server) key peers chal w w' ts pk ids r :
  EnvLaws → HmacLaws → clock (w_clock w) = Some ts → 5 ≤ as_secs ts →
  validate_request srv key peers chal w = (w', Ret (pk, ids, r)) ↔
  ∃ info, accepted srv key peers chal (as_secs ts) pk info ∧ ids = identities info ∧
    renewal srv (as_secs ts) (cert_expiry info) = Ret r ∧
    w' = set_clock (S (w_clock w)) w.
Proof.
  intros ?? Hc Hge. split.
  - intros Hrun. apply validate_request_inv in Hrun as (ts' & info & Hc' & Hids & Hacc & Hw & Hr);
      [|done..|naive_solver]. simplify_eq. eauto 10.
  - intros (info & Hacc & -> & Hr & ->).
    rewrite (validate_request_run _ _ _ _ _ ts pk info) by done. by rewrite Hr.
Qed.

(** C24: a challenge out of its window is refused before anything of it is
    parsed: one older than five seconds with [TimeExpired] and a warning; one
    from the future the same way in a release build, where the difference
    wraps around, but a debug build panics on it. *)
Theorem validate_request_window (srv : server) key peers peer chal w ts info rt :
  EnvLaws → clock (w_clock w) = Some ts → 5 ≤ as_secs ts →
  head peers = Some peer → extract_certificate_information peer = Ok info →
  parse_u64 (ch_challenge_time chal) = Some rt →
  ¬ rt ≤ as_secs ts ≤ rt + 5 →
  let refused := (set_logs (w_logs w ++ [LogInternalMessage {| im_severity := Warning;
    im_message := "Expired challenge received from: " +:+ join "," (identities info) |}])
    (set_clock (S (w_clock w)) w), Raise TimeExpired) in
  validate_request srv key peers chal w =
    if decide (as_secs ts < rt) then
      match build with
      | Release => refused
      | Debug => (set_clock (S (w_clock w)) w, Panic)
      end
    else refused.
Proof.
  intros ? Hc Hge Hp He Hrt Hout. pose proof (as_secs_range ts (clock_range _ _ Hc)) as Hnow.
  pose proof (parse_u64_range _ _ Hrt) as Hrt'.
  unfold validate_request, proved_request, read_clock, sub_u64. st_unfold.
  rewrite Hp, He, Hrt, Hc. cbn -[decide]. destruct (decide (as_secs ts < rt)) as [Hlt|Hlt].
  - rewrite u64_sub_under by done. destruct build; [done|]. cbn -[decide].
    rewrite decide_True by machine. done.
  - rewrite u64_sub_ok by (done || lia). cbn -[decide]. rewrite decide_True by lia. done.
Qed.

(** When no identity contains a dash, the text under the HMAC determines
    the time, the public key and the identities, so a tag for one request is
    no tag for another. *)
Theorem challenge_text_is_unambiguous t t' pk pk' ids ids' :
  0 ≤ t → 0 ≤ t' → ¬ has_char "-"%char (join "," ids) → ¬ has_char "-"%char (join "," ids') →
  hmac_text (int_to_string t) pk ids = hmac_text (int_to_string t') pk' ids' →
  t = t' ∧ pk = pk' ∧ join "," ids = join "," ids'.
Proof. apply hmac_text_inj. Qed.

(** With dashes it does not: a challenge made for the identity [x-y] and
    a key is, byte for byte, one for the identity [y] and the same key with
    [-x] added to its comment. *)
Theorem challenge_text_is_ambiguous_with_dashes t pk x y :
  hmac_text t pk [x +:+ "-" +:+ y] = hmac_text t (pk +:+ "-" +:+ x) [y].
Proof.
  unfold hmac_text, join. cbn [String.concat]. by rewrite !string_app_assoc.
Qed.

(** The renewal of the client certificate: with a sane clock and expiry,
    a certificate is renewed exactly when it has expired or less than the
    configured period is left, and the new one is valid from now for the
    configured length. *)
Theorem client_certificate_is_renewed_in_its_last_period (srv : server) now expiry :
  in_u64 now → 0 ≤ expiry < 2 ^ 63 → 0 ≤ expiration_renewal_period (client_authority srv) →
  in_u64 (now + validity_length (client_authority srv)) →
  renewal srv now expiry = Ret
    (if decide (expiry < now + expiration_renewal_period (client_authority srv)) then
       Some {| rs_not_after := now + validity_length (client_authority srv); rs_not_before := now |}
     else None).
Proof.
  intros Hn He Hp Hv.
  assert (expires_soon srv now expiry ↔
    expiry < now + expiration_renewal_period (client_authority srv)) as Hs.
  { unfold expires_soon. rewrite (as_u64_id expiry) by machine. lia. }
  unfold renewal, u64_add. rewrite u64_of_ok by done. cbn -[decide].
  repeat case_decide; by tauto || naive_solver.
Qed.

(** A challenge proves itself: in the mode without a client signature, the
    certificate that [challenge] handed out, sent back by the same peer with
    the time it came with, is accepted for five seconds and gives back the key
    it was asked for - provided its text has at most 1024 bytes, the limit of
    [validate_request] but not of [challenge]. *)
Theorem challenge_response_is_accepted (self : server) req certs w1 w1' w2 ts1 ts2 resp sig :
  EnvLaws → HmacLaws → HexLaws → SshCertsLaws →
  require_rustica_proof self = false → peer_certs req = Some certs →
  challenge_handler self req w1 = (w1', Ret resp) →
  clock (w_clock w1) = Some ts1 → clock (w_clock w2) = Some ts2 →
  as_secs ts1 ≤ as_secs ts2 ≤ as_secs ts1 + 5 →
  len (challenge resp) ≤ 1024 →
  in_u64 (as_secs ts2 + validity_length (client_authority self)) →
  ∃ pk ids r, pk_from_string (cr_pubkey (into_inner req)) = Some pk ∧
    validate_request self (hmac_key self) certs
      {| ch_pubkey := cr_pubkey (into_inner req); ch_challenge := challenge resp;
         ch_challenge_signature := sig; ch_challenge_time := time resp |} w2 =
      (set_clock (S (w_clock w2)) w2, Ret (pk, ids, r)).
Proof.
  intros ???? Hproof Hcerts Hch Hc1 Hc2 Hwin Hlen Hval.
  apply challenge_handler_for in Hch as (ts & info & pk & cert & Hc & -> & [Hpeer Hk Ht Hcp Hid Hck Hsig _ _]).
  simplify_eq. destruct Hpeer as (certs' & peer & Hcerts' & Hp & He). simplify_eq.
  exists pk, (identities info).
  assert (∃ r, renewal self (as_secs ts2) (cert_expiry info) = Ret r) as [r Hr].
  { unfold renewal, u64_add. rewrite u64_of_ok by done. case_decide; cbn; eauto. }
  exists r. split; [done|]. rewrite (validate_request_run _ _ _ _ _ ts2 pk info); [by rewrite Hr|done..|].
  split; cbn; [by eauto|done| |done].
  exists (as_secs ts), cert. rewrite Ht, parse_u64_to_string by (by eapply as_secs_range, clock_range).
  split_and!; [done|lia..|done| |by rewrite Hproof].
  by rewrite Hid, hex_decode_encode, Ht.
Qed.
End Validation.
