(* ===== verification/Issuance.v ===== *)
(** * The server: which SSH certificates are issued

    The theorems on the handler [certificate] of [rustica/src/server.rs],
    against the interfaces of the authorizer and of the signers. *)
From Stdlib Require Import ZArith Lia.
From S2P Require Import Prelude Machine Text Deps Key Auth Logging Schema World.
From S2P Require Import Database Authorizer Signing Proto Server Validation.

Section Issuance.
Context `{Lru, SshCerts, Rcgen, Hmac, Env, Hex, X509} {A : Type} `{!Authorizer A, !AuthorizerLaws A}.

#[local] Abbreviation server := (RusticaServer A).

Lemma validate_request_same_audit (srv : server) key peers chal :
  preserves same_audit (validate_request srv key peers chal).
Proof. unfold validate_request, proved_request. preserve. all: done. Qed.

(** What the handler asks the authorizer. *)
Definition asks (self : server) (req : CertificateRequest) (addr : SocketAddr)
    (pk : PublicKey) (ids : list string) (ty : CertType) : SshAuthorizationRequestProperties :=
  {| sp_fingerprint := pk_hash pk;
     sp_mtls_identities := ids;
     sp_requester_ip := addr_to_string addr;
     sp_principals := cq_principals req;
     sp_servers := cq_servers req;
     sp_valid_before := cq_valid_before req;
     sp_valid_after := cq_valid_after req;
     sp_cert_type := ty;
     sp_authority := if is_empty (cq_key_id req) then default_authority (signer self)
                     else cq_key_id req |}.

(** A certificate was issued: the request was validated, what it asked for was
    authorized, and the certificate says what the authorization says. *)
Record issued (self : server) (req : Request CertificateRequest) (w w' : World)
    (resp : CertificateResponse) (addr : SocketAddr) (peers : list bytes) (chal : Challenge)
    (pk : PublicKey) (ids : list string) (refresh : option CertificateRefreshSettings)
    (ty : CertType) (ca : PublicKey) (authz : SshAuthorization) (cert : Certificate PublicKey)
    : Prop := {
  iss_peer : remote_addr req = Some addr ∧ peer_certs req = Some peers ∧
    cq_challenge (into_inner req) = Some chal;
  iss_validated : ∃ w1, validate_request self (hmac_key self) peers chal w
    = (w1, Ret (pk, ids, refresh));
  iss_window : cq_valid_after (into_inner req) ≤ cq_valid_before (into_inner req);
  iss_type : cq_cert_type (into_inner req) = match ty with User => 1 | Host => 2 end;
  iss_unexpired : ∃ n, match clock n with Some ts => as_secs ts | None => U64_MAX end
    ≤ cq_valid_before (into_inner req);
  iss_authorized : ∃ w1 w2, w_db w1 = w_db w ∧
    authorize_ssh_cert (authorizer self) (asks self (into_inner req) addr pk ids ty) w1
      = (w2, Ret authz);
  iss_ca : get_signer_public_key (signer self)
    (sp_authority (asks self (into_inner req) addr pk ids ty)) ty = Ok ca;
  iss_signed : ∃ builder w1 w2, cert_builder pk ty ca = Some builder ∧
    sign (signer self) (sa_authority authz)
      (ssh_certificate builder (pk_hash pk) authz (critical_options_of authz addr)) w1
      = (w2, Ret cert);
  iss_readable : ∃ c, cert_from_string (cert_to_string cert) = Ok c;
  iss_answer : cs_certificate resp = cert_to_string cert ∧ cs_error_code resp = 0 ∧
    cs_error resp = "";
  iss_renewed :
    match refresh, get_client_certificate_authority (signer self)
      (authority (client_authority self)) with
    | Some settings, Ok (Some client_ca) => ∃ w1 w2,
        refresh_client_certificate ids settings client_ca w1 =
          (w2, Ret (cs_new_client_key resp, cs_new_client_certificate resp))
    | _, _ => cs_new_client_certificate resp = "" ∧ cs_new_client_key resp = ""
    end;
  iss_logged : audit_log w' = audit_log w ++ [LogCertificateIssued
    {| ci_fingerprint := pk_hash pk;
       ci_signed_by := pk_hash ca;
       ci_serial := sa_serial authz;
       ci_authority := sp_authority (asks self (into_inner req) addr pk ids ty);
       ci_certificate_type := cert_type_to_string ty;
       ci_mtls_identities := ids;
       ci_principals := sa_principals authz;
       ci_extensions := sa_extensions authz;
       ci_critical_options := critical_options_of authz addr;
       ci_valid_after := sa_valid_after authz;
       ci_valid_before := sa_valid_before authz;
       ci_new_access_certificate_issued := bool_decide (is_Some refresh) |}];
}.

Lemma validate_request_same_db (srv : server) key peers chal :
  preserves same_db (validate_request srv key peers chal).
Proof. unfold validate_request, proved_request. preserve. all: done. Qed.

Lemma sign_same_audit (m : SigningMechanism) a c :
  (∀ a s, authorities m !! a = Some s → SignerLaws s) → preserves same_audit (sign m a c).
Proof.
  intros Hl. unfold sign. destruct (authorities m !! a) eqn:Ha; [|preserve].
  by apply frame_same_audit, signer_sign_frame, (Hl a).
Qed.

Lemma refresh_same_audit ids s ca : preserves same_audit (refresh_client_certificate ids s ca).
Proof. unfold refresh_client_certificate, date_of. preserve; done. Qed.

(** The renewal of the client certificate, if it is due and there is a CA. *)
Lemma renewal_Ret ids (refresh : option CertificateRefreshSettings)
    (ca : result SigningError (option RcgenCertificate)) w w' key pem :
  (match refresh, ca with
   | Some settings, Ok (Some ca) => refresh_client_certificate ids settings ca
   | _, _ => mret ("", "")
   end) w = (w', Ret (key, pem)) →
  same_audit w w' ∧ match refresh, ca with
  | Some settings, Ok (Some ca) => ∃ w1 w2,
      refresh_client_certificate ids settings ca w1 = (w2, Ret (key, pem))
  | _, _ => pem = "" ∧ key = ""
  end.
Proof.
  intros Hnew. destruct refresh as [settings|]; [|by st_inv].
  destruct ca as [[ca|]|]; [|by st_inv..].
  split; [by eapply run_preserves, Hnew; apply refresh_same_audit|eauto].
Qed.

(** The certificate types of a request. *)
Lemma requested_type n ty :
  (if decide (n = 1) then Some User else if decide (n = 2) then Some Host else None) = Some ty →
  n = match ty with User => 1 | Host => 2 end.
Proof. intros Hty. case_decide; simplify_eq; [done|]. case_decide; by simplify_eq. Qed.

(** An error that is logged and answered. *)
Lemma error_same_audit m w0 w w' :
  same_audit w0 w → (rustica_error m : st World Status ()) w = (w', Ret ()) → same_audit w0 w'.
Proof.
  intros Hs Hl. transitivity w; [done|]. eapply run_preserves; [apply same_audit_error|exact Hl].
Qed.

(** The refusals of the handler. *)
Lemma certificate_handler_cases (self : server) req w w' resp :
  (∀ a s, authorities (signer self) !! a = Some s → SignerLaws s) →
  certificate_handler self req w = (w', Ret resp) →
  (∃ e, e ≠ Success ∧ resp = create_response e ∧ same_audit w w') ∨
  (∃ addr peers chal pk ids refresh ty ca authz cert,
    issued self req w w' resp addr peers chal pk ids refresh ty ca authz cert).
Proof.
  intros Hlaws. unfold certificate_handler. intros Hrun.
  apply st_bind_Ret in Hrun as (w0 & addr & Haddr & Hrun). apply of_option_Ret in Haddr as [-> Haddr].
  destruct (cq_challenge (into_inner req)) as [chal|] eqn:Hchal; [|st_inv; left; by exists BadRequest].
  destruct (peer_certs req) as [peers|] eqn:Hpeers; [|st_inv; left; by exists BadRequest].
  apply st_bind_Ret in Hrun as (w1 & v & Hv & Hrun). apply attempt_Ret in Hv.
  pose proof (run_preserves _ _ _ _ _ (validate_request_same_audit self _ peers chal) Hv) as Hs1.
  pose proof (run_preserves _ _ _ _ _ (validate_request_same_db self _ peers chal) Hv) as Hdb.
  destruct v as [[[pk ids] refresh]|e]; [|st_inv; left].
  2: { exists e. split; [|done]. intros ->. apply validate_request_raises in Hv. set_solver. }
  apply st_bind_Ret in Hrun as (w2 & now & Hc & Hrun). apply read_clock_Ret in Hc as [-> ->].
  case_decide as Hwin; [st_inv; left; by exists BadCertOptions|].
  destruct (if decide (cq_cert_type (into_inner req) = 1) then _ else _) as [ty|] eqn:Hty;
    [|st_inv; left; by exists BadCertOptions].
  apply requested_type in Hty. fold (asks self (into_inner req) addr pk ids ty) in Hrun.
  destruct (get_signer_public_key _ _ _) as [ca|] eqn:Hca; [|st_inv; left; by exists NotAuthorized].
  apply st_bind_Ret in Hrun as (w3 & answer & Ha & Hrun). apply attempt_Ret in Ha.
  pose proof (run_preserves _ _ _ _ _
    (frame_same_audit _ (authorize_ssh_cert_frame (authorizer self) _)) Ha) as Hs2.
  destruct answer as [authz|e].
  2: { st_inv. left. exists (server_error_of_auth e). split; [by destruct e|].
       split; [done|]. by transitivity w1. }
  apply st_bind_Ret in Hrun as (w4 & builder & Hb & Hrun). apply of_option_Ret in Hb as [-> Hb].
  apply st_bind_Ret in Hrun as (w5 & cert & Hsign & Hrun). apply attempt_Ret in Hsign.
  pose proof (run_preserves _ _ _ _ _ (sign_same_audit (signer self) _ _ Hlaws) Hsign) as Hs3.
  assert (same_audit w w5) as Hs by (transitivity w1; [done|]; by transitivity w3).
  destruct cert as [cert|e].
  2: { apply st_bind_Ret in Hrun as (w6 & [] & Hl & Hrun). apply mret_Ret in Hrun as [-> ->].
       left. exists BadChallenge. split_and!; [done..|]. by eapply error_same_audit. }
  destruct (cert_from_string _) as [c|e] eqn:Hparse.
  2: { apply st_bind_Ret in Hrun as (w6 & [] & Hl & Hrun). apply mret_Ret in Hrun as [-> ->].
       left. exists BadCertOptions. split_and!; [done..|]. by eapply error_same_audit. }
  apply st_bind_Ret in Hrun as (w6 & [key pem] & Hnew & Hrun).
  apply renewal_Ret in Hnew as [Hs' Hnew'].
  st_inv. right. exists addr, peers, chal, pk, ids, refresh, ty, ca, authz, cert.
  split; cbn; eauto 10;
    [lia|exists (w_clock w1); unfold U64_MAX; destruct (clock (w_clock w1)); lia
    |by exists (set_clock (S (w_clock w1)) w1), w3|].
  by rewrite audit_log_send, Hs', Hs.
Qed.

(** A handler that fails has issued nothing. *)
Lemma certificate_handler_fails (self : server) req :
  (∀ a s, authorities (signer self) !! a = Some s → SignerLaws s) →
  fails_keeping same_audit (certificate_handler self req).
Proof.
  intros Hlaws. pose proof (validate_request_same_audit self) as Hv.
  pose proof (λ q, frame_same_audit _ (authorize_ssh_cert_frame (authorizer self) q)) as Ha.
  pose proof (λ a c, sign_same_audit (signer self) a c Hlaws) as Hs.
  assert (∀ z, preserves same_audit (date_of z)) as Hd by (intros z; unfold date_of; preserve).
  unfold certificate_handler. keep_when_failing.
Qed.

(** An issued certificate is the one the signer was asked for. *)
Lemma issued_tbs (self : server) req w w' resp addr peers chal pk ids refresh ty ca authz cert :
  (∀ a s, authorities (signer self) !! a = Some s → SignerLaws s) →
  issued self req w w' resp addr peers chal pk ids refresh ty ca authz cert →
  ∃ b, cert_builder pk ty ca = Some b ∧
    same_tbs (ssh_certificate b (pk_hash pk) authz (critical_options_of authz addr)) cert.
Proof.
  intros Hl Hi.
  destruct (iss_signed _ _ _ _ _ _ _ _ _ _ _ _ _ _ _ Hi) as (b & w1 & w2 & Hb & Hs).
  exists b. split; [done|]. unfold sign in Hs.
  destruct (authorities (signer self) !! _) eqn:Ha; [|done]. by eapply signer_sign_tbs, Hs; eapply Hl.
Qed.

(** What an issued certificate says. *)
Lemma issued_says (self : server) req w w' resp addr peers chal pk ids refresh ty ca authz cert :
  SshCertsLaws → (∀ a s, authorities (signer self) !! a = Some s → SignerLaws s) →
  issued self req w w' resp addr peers chal pk ids refresh ty ca authz cert →
  pk_hash (c_key cert) = pk_hash pk ∧ c_cert_type cert = ty ∧
  pk_hash (c_signature_key cert) = pk_hash ca ∧
  c_key_id cert = "Rustica-JITC-for-" +:+ pk_hash pk ∧
  c_serial cert = sa_serial authz ∧ c_principals cert = sa_principals authz ∧
  c_valid_after cert = sa_valid_after authz ∧ c_valid_before cert = sa_valid_before authz ∧
  c_extensions cert = sa_extensions authz ∧
  c_critical_options cert !! "force-command" = sa_force_command authz ∧
  c_critical_options cert !! "source-address" =
    (if sa_force_source_ip authz then Some (ip_to_string addr) else None).
Proof.
  intros ? Hl Hi.
  destruct (issued_tbs _ _ _ _ _ _ _ _ _ _ _ _ _ _ _ Hl Hi)
    as (b & Hb & ? & ? & ? & ? & ? & ? & ? & Hopt & ? & ?).
  apply cert_builder_fields in Hb as (Hk & Ht & Hca). cbn in *. split_and!; try congruence.
  all: rewrite <-Hopt; unfold critical_options_of;
    destruct (sa_force_command authz), (sa_force_source_ip authz); by simplify_map_eq.
Qed.

(** What a log says of a certificate. *)
Definition describes (ci : CertificateIssued) (cert : Certificate PublicKey) : Prop :=
  ci_fingerprint ci = pk_hash (c_key cert) ∧
  ci_signed_by ci = pk_hash (c_signature_key cert) ∧
  ci_certificate_type ci = cert_type_to_string (c_cert_type cert) ∧
  ci_serial ci = c_serial cert ∧ ci_principals ci = c_principals cert ∧
  ci_extensions ci = c_extensions cert ∧ ci_critical_options ci = c_critical_options cert ∧
  ci_valid_after ci = c_valid_after cert ∧ ci_valid_before ci = c_valid_before cert.

Lemma issued_described (self : server) req w w' resp addr peers chal pk ids refresh ty ca authz cert :
  SshCertsLaws → (∀ a s, authorities (signer self) !! a = Some s → SignerLaws s) →
  issued self req w w' resp addr peers chal pk ids refresh ty ca authz cert →
  describes (certificate_log (pk_hash pk) ca
    (if is_empty (cq_key_id (into_inner req)) then default_authority (signer self)
     else cq_key_id (into_inner req)) ty ids authz (critical_options_of authz addr) refresh) cert.
Proof.
  intros Hssh Hl Hi. destruct (issued_says _ _ _ _ _ _ _ _ _ _ _ _ _ _ _ Hssh Hl Hi)
    as (Hkey & Hty & Hca & _ & Hser & Hprin & Hva & Hvb & Hext & _).
  destruct (issued_tbs _ _ _ _ _ _ _ _ _ _ _ _ _ _ _ Hl Hi)
    as (b & _ & _ & _ & _ & _ & _ & _ & _ & Hopt & _).
  unfold describes. cbn in *. by rewrite Hkey, Hty, Hca, Hser, Hprin, Hva, Hvb, Hext, Hopt.
Qed.

(** ** Properties *)

(** C3: a certificate is answered - the error code is 0 - only when the
    challenge of the request was validated, the requested validity is not
    empty and not over, the authorizer granted the request for the
    fingerprint and the identities that the validation proved, and the CA key
    of the requested authority exists for the type; any other answer carries
    the error and no certificate or key. *)
Theorem certificate_needs_proof_and_authorization (self : server) req w w' resp :
  (∀ a s, authorities (signer self) !! a = Some s → SignerLaws s) →
  certificate_handler self req w = (w', Ret resp) →
  (cs_error_code resp = 0 ∧ ∃ addr peers chal pk ids refresh ty ca authz cert,
    issued self req w w' resp addr peers chal pk ids refresh ty ca authz cert) ∨
  (∃ e, e ≠ Success ∧ cs_error_code resp = error_code e ∧ error_code e ≠ 0 ∧
    cs_certificate resp = "" ∧ cs_new_client_certificate resp = "" ∧ cs_new_client_key resp = "").
Proof.
  intros Hl Hrun. apply certificate_handler_cases in Hrun as [(e & He & -> & _)|Hi]; [right|left|done].
  - exists e. split_and!; try done. intros Hc. apply He. by apply (inj error_code).
  - destruct Hi as (?&?&?&?&?&?&?&?&?&?&Hi). split; [by apply Hi|eauto 20].
Qed.

(** Every certificate is logged, and nothing else is logged as one: an
    answer with a certificate adds one [CertificateIssued] to the channel,
    with the serial, principals and validity of the authorization and the
    identities that were proved; an answer without one adds none. *)
Theorem every_certificate_is_logged_once (self : server) req w w' resp :
  (∀ a s, authorities (signer self) !! a = Some s → SignerLaws s) →
  certificate_handler self req w = (w', Ret resp) →
  if decide (cs_error_code resp = 0) then
    ∃ ci peers chal pk refresh w1, audit_log w' = audit_log w ++ [LogCertificateIssued ci] ∧
      validate_request self (hmac_key self) peers chal w
        = (w1, Ret (pk, ci_mtls_identities ci, refresh)) ∧
      ci_fingerprint ci = pk_hash pk
  else audit_log w' = audit_log w.
Proof.
  intros Hl Hrun. apply certificate_handler_cases in Hrun as [(e & He & -> & Hs)|Hi]; [| |done].
  - rewrite decide_False; [done|]. cbn. intros Hc. apply He. by apply (inj error_code).
  - destruct Hi as (?&?&?&?&?&?&?&?&?&?&Hi). destruct (iss_validated _ _ _ _ _ _ _ _ _ _ _ _ _ _ _ Hi).
    rewrite decide_True by apply Hi. eexists _, _, _, _, _, _. split; [apply Hi|]. by cbn.
Qed.

(** C4: the certificate says what was authorized: it certifies the key that
    was proved, for the requested type, under the CA key of the requested
    authority, with the principals, validity, serial and extensions of the
    authorization, its key id names the fingerprint, and its critical options
    are the forced command and the requester's address where the
    authorization demands them. *)
Theorem certificate_says_what_was_authorized (self : server) req w w' resp :
  SshCertsLaws → (∀ a s, authorities (signer self) !! a = Some s → SignerLaws s) →
  certificate_handler self req w = (w', Ret resp) → cs_error_code resp = 0 →
  ∃ addr peers chal pk ids refresh ty ca authz cert,
    issued self req w w' resp addr peers chal pk ids refresh ty ca authz cert ∧
    pk_hash (c_key cert) = pk_hash pk ∧ c_cert_type cert = ty ∧
    pk_hash (c_signature_key cert) = pk_hash ca ∧
    c_key_id cert = "Rustica-JITC-for-" +:+ pk_hash pk ∧
    c_serial cert = sa_serial authz ∧ c_principals cert = sa_principals authz ∧
    c_valid_after cert = sa_valid_after authz ∧ c_valid_before cert = sa_valid_before authz ∧
    c_extensions cert = sa_extensions authz ∧
    c_critical_options cert !! "force-command" = sa_force_command authz ∧
    c_critical_options cert !! "source-address" =
      (if sa_force_source_ip authz then Some (ip_to_string addr) else None).
Proof.
  intros ? Hl Hrun Hcode.
  apply certificate_handler_cases in Hrun as [(e & He & -> & _)|Hi]; [| |done].
  { destruct He. by apply (inj error_code). }
  destruct Hi as (addr&peers&chal&pk&ids&refresh&ty&ca&authz&cert&Hi).
  exists addr, peers, chal, pk, ids, refresh, ty, ca, authz, cert. split; [done|].
  by eapply issued_says.
Qed.
End Issuance.

Section WithDatabase.
Context `{Lru, SshCerts, Rcgen, Hmac, Env, Hex, X509, Asn1}.

(** C5: with the local database as authorizer, a certificate lets its holder
    be only those principals that a row of the database ties to the
    fingerprint of the key the requester proved to hold, under the requested
    authority - or, where the permission row lifts the restriction, that they
    asked for; and the row allows the certificate's type. *)
Theorem database_certificates_are_backed_by_rows (self : RusticaServer AuthorizationMechanism)
    local req w w' resp :
  SshCertsLaws → authorizer self = MLocal local →
  (∀ a s, authorities (signer self) !! a = Some s → SignerLaws s) →
  certificate_handler self req w = (w', Ret resp) → cs_error_code resp = 0 →
  ∃ addr peers chal pk ids refresh ty ca authz cert r,
    issued self req w w' resp addr peers chal pk ids refresh ty ca authz cert ∧
    r ∈ fingerprint_permissions (w_db w) ∧
    fp_key r = (pk_hash pk, sa_authority authz) ∧ Local.may_create r ty = true ∧
    ∀ x, x ∈ sa_principals authz ↔
      if fp_principal_unrestricted r then x ∈ cq_principals (into_inner req)
      else ∃ row, row ∈ fingerprint_principal_authorizations (w_db w) ∧
        fpa_key row = (pk_hash pk, x, sa_authority authz).
Proof.
  intros ? Hloc Hl Hrun Hcode.
  apply certificate_handler_cases in Hrun as [(e & He & -> & _)|Hi]; [| |done].
  { destruct He. by apply (inj error_code). }
  destruct Hi as (addr&peers&chal&pk&ids&refresh&ty&ca&authz&cert&Hi).
  destruct (iss_authorized _ _ _ _ _ _ _ _ _ _ _ _ _ _ _ Hi) as (w1 & w2 & Hdb & Ha).
  rewrite Hloc in Ha. cbn in Ha. apply Local.authorize_ssh_cert_grants in Ha as [_ [r Hg]].
  rewrite Hdb in Hg. destruct Hg as [Hr Hk Ht Hp _ Hau _ _ _]. cbn in *.
  exists addr, peers, chal, pk, ids, refresh, ty, ca, authz, cert, r.
  rewrite Hau. by split_and!.
Qed.
End WithDatabase.
