(* ===== verification/Registration.v ===== *)
(** * The server: key registration

    The handlers [register_key] and [register_u2f_key] of
    [rustica/src/server.rs] and their theorems. *)
From Stdlib Require Import ZArith Lia.
From S2P Require Import Prelude Machine Text Deps Key Auth Logging Schema World.
From S2P Require Import Database Authorizer Signing Proto Server Validation Issuance.

Section Registration.
Context `{Lru, SshCerts, Rcgen, Hmac, Env, Hex, X509, !Attestation} {A : Type} `{!Authorizer A}.

#[local] Abbreviation server := (RusticaServer A).

(** [requester_ip]: empty when the transport does not know the peer. *)
Definition requester_ip {M} (request : Request M) : string :=
  match remote_addr request with Some x => addr_to_string x | None => "" end.

(** The message of a fingerprint that does not match. *)
Definition mismatch_message (ip : string) (proved attested : string) : string :=
  "Attestation fingerprint did not match challenge from host [" +:+ ip +:+ "]. Attestation: [" +:+
  proved +:+ "] Challenge: [" +:+ attested +:+ "]".

(** The part the two handlers share once the chain has been looked at: which
    fingerprint and attestation are registered. *)
Definition attested_key (self : server) (ip : string) (ssh_pubkey : PublicKey)
    (mtls_identities : list string) (chain : result RusticaServerError Key)
    : st World Status (string * option KeyAttestation) :=
  match chain with
  | Ok key =>
      if decide (pk_hash ssh_pubkey ≠ k_fingerprint key) then
        rustica_warning (mismatch_message ip (pk_hash ssh_pubkey) (k_fingerprint key));;
        throw (invalid_argument "Attestation did not match challenge")
      else mret (k_fingerprint key, k_attestation key)
  | Err _ =>
      if negb (require_attestation_chain self) then mret (pk_hash ssh_pubkey, None)
      else
        send_log (LogKeyRegistrationFailure
          {| krf_key_info := {| ki_fingerprint := pk_hash ssh_pubkey;
                                ki_mtls_identities := mtls_identities |};
             krf_message := "Attempt to register a key with an invalid attestation chain" |});;
        throw (unavailable "Could not register a key without valid attestation data")
  end.

(** And the registration itself; [register_u2f_key] also prints an error. *)
Definition register_with_authorizer (told : bool) (self : server) (ip : string) (ssh_pubkey : PublicKey)
    (mtls_identities : list string) (fingerprint : string) (attestation : option KeyAttestation)
    : st World Status () :=
  let register_properties :=
    {| rp_fingerprint := fingerprint;
       rp_pubkey := pk_to_string ssh_pubkey;
       rp_mtls_identities := mtls_identities;
       rp_requester_ip := ip;
       rp_attestation := attestation |} in
  let key_info := {| ki_fingerprint := fingerprint; ki_mtls_identities := mtls_identities |} in
  response ← attempt (register_key (authorizer self) register_properties);
  match response with
  | Ok _ => send_log (LogKeyRegistered key_info);; mret ()
  | Err e =>
      (if told then server_println ("Key register error: " +:+ auth_error_to_string e) else mret ());;
      send_log (LogKeyRegistrationFailure
        {| krf_key_info := key_info; krf_message := auth_error_to_string e |});;
      throw (unavailable "Could not register new key")
  end.

Definition register_key_handler (self : server) (request : Request RegisterKeyRequest)
    : st World Status () :=
  let ip := requester_ip request in
  let peer := peer_certs request in
  let request := into_inner request in
  match rq_challenge request, peer with
  | Some chal, Some peer =>
      validated ← attempt (validate_request self (hmac_key self) peer chal);
      '(ssh_pubkey, mtls_identities, _) ←
        match validated with
        | Ok x => mret x
        | Err e =>
            rustica_error ("Could not validate request: " +:+ error_debug e);;
            throw (cancelled "")
        end;
      '(fingerprint, attestation) ← attested_key self ip ssh_pubkey mtls_identities
        (verify_piv_certificate_chain (rq_certificate request) (rq_intermediate request));
      register_with_authorizer false self ip ssh_pubkey mtls_identities fingerprint attestation
  | _, _ => throw (permission_denied "")
  end.

Definition register_u2f_key_handler (self : server) (request : Request RegisterU2fKeyRequest)
    : st World Status () :=
  let ip := requester_ip request in
  let peer := peer_certs request in
  let request := into_inner request in
  match uq_challenge request, peer with
  | Some chal, Some peer =>
      validated ← attempt (validate_request self (hmac_key self) peer chal);
      '(ssh_pubkey, mtls_identities, _) ←
        match validated with
        | Ok x => mret x
        | Err e => throw (cancelled (error_debug e))
        end;
      '(fingerprint, attestation) ← attested_key self ip ssh_pubkey mtls_identities
        (verify_u2f_certificate_chain (uq_auth_data request) (uq_auth_data_signature request)
          (uq_intermediate request) (uq_alg request) (uq_u2f_challenge request)
          (uq_sk_application request) (uq_u2f_challenge_hashed request));
      register_with_authorizer true self ip ssh_pubkey mtls_identities fingerprint attestation
  | _, _ => throw (permission_denied "")
  end.

(** ** The chain verifiers *)

(** What a verified PIV chain says. *)
Lemma verify_piv_Ok client intermediate key :
  verify_piv_certificate_chain client intermediate = Ok key ↔
  vec_len intermediate ≤ CERT_MAX_SIZE ∧ vec_len client ≤ CERT_MAX_SIZE ∧
  ∃ data pin touch, verify_certificate_chain client intermediate = Some data ∧
    pin_policy_try_from (piv_pin_policy data) = Some pin ∧
    touch_policy_try_from (piv_touch_policy data) = Some touch ∧
    key = {| k_fingerprint := pk_hash (piv_public_key data);
             k_attestation := Some (Piv
               {| pin_policy := pin; touch_policy := touch; pa_serial := piv_serial data;
                  pa_firmware := piv_firmware data; pa_certificate := client;
                  pa_intermediate := intermediate |}) |}.
Proof.
  unfold verify_piv_certificate_chain. repeat case_decide; [split; [done|lia]..|].
  rewrite result_bind_Ok. setoid_rewrite ok_or_Ok. split.
  - intros (data & Hd & Hrest). apply result_bind_Ok in Hrest as (pin & Hp & Hrest).
    apply result_bind_Ok in Hrest as (touch & Ht & [= <-]).
    apply ok_or_Ok in Hp, Ht. split_and!; [lia..|]. by exists data, pin, touch.
  - intros (_ & _ & data & pin & touch & Hd & Hp & Ht & ->). exists data. split; [done|].
    rewrite Hp. cbn. by rewrite Ht.
Qed.

(** What a verified U2F attestation says. *)
Lemma verify_u2f_Ok auth_data sig intermediate a chal app hashed key :
  verify_u2f_certificate_chain auth_data sig intermediate a chal app hashed = Ok key →
  is_Some (k_attestation key) ∧
  ∃ data firmware text attested,
    verify_auth_data auth_data sig (if hashed then chal else sha256 chal) a intermediate
      = Some (data, firmware) ∧
    from_utf8 app = Some text ∧ ssh_public_key data text = Some attested ∧
    pk_hash attested = k_fingerprint key.
Proof.
  unfold verify_u2f_certificate_chain. repeat (case_decide; [done|]).
  rewrite result_bind_Ok. intros ([data firmware] & Hd%ok_or_Ok & Hrun).
  apply result_bind_Ok in Hrun as (text & Htext%ok_or_Ok & Hrun).
  apply result_bind_Ok in Hrun as (attested & Hk%ok_or_Ok & [= <-]).
  split; [by eexists|]. by exists data, firmware, text, attested.
Qed.

(** ** Which key is registered *)

Lemma attested_key_Ret (self : server) ip pk ids chain w w' fp att :
  attested_key self ip pk ids chain w = (w', Ret (fp, att)) ↔
  w' = w ∧ fp = pk_hash pk ∧
  ((∃ key, chain = Ok key ∧ k_fingerprint key = pk_hash pk ∧ att = k_attestation key) ∨
   (∃ e, chain = Err e ∧ require_attestation_chain self = false ∧ att = None)).
Proof.
  unfold attested_key. destruct chain as [key|e].
  - case_decide as Hk.
    + rewrite then_throw_Ret. split; [done|]. intros (_ & _ & [(key' & [= <-] & Hf & _)|(e & [=] & _)]).
      congruence.
    + rewrite mret_Ret. split.
      * intros [-> [= -> ->]]. split_and!; [done|done|]. left. eauto.
      * intros (-> & -> & [(key' & [= <-] & Hf & ->)|(e & [=] & _)]). by rewrite Hf.
  - destruct (require_attestation_chain self); cbn.
    + rewrite then_throw_Ret. split; [done|]. intros (_ & _ & [(key' & [=] & _)|(e' & _ & [=] & _)]).
    + rewrite mret_Ret. split.
      * intros [-> [= -> ->]]. eauto 10.
      * intros (-> & -> & [(key' & [=] & _)|(e' & _ & _ & ->)]). done.
Qed.

Lemma attested_key_same_audit (self : server) ip pk ids chain :
  preserves same_audit (attested_key self ip pk ids chain).
Proof. unfold attested_key. preserve. Qed.
#[local] Hint Resolve validate_request_same_audit attested_key_same_audit : preserves.

Lemma register_with_authorizer_run `{!AuthorizerLaws A} told (self : server) ip pk ids fp att w w' r :
  register_with_authorizer told self ip pk ids fp att w = (w', r) →
  match r with
  | Ret _ => audit_log w' = audit_log w ++
      [LogKeyRegistered {| ki_fingerprint := fp; ki_mtls_identities := ids |}] ∧
      ∃ w1, register_key (authorizer self)
        {| rp_fingerprint := fp; rp_pubkey := pk_to_string pk; rp_mtls_identities := ids;
           rp_requester_ip := ip; rp_attestation := att |} w = (w1, Ret ()) ∧ w_db w' = w_db w1
  | Raise e => same_audit w w' ∧ e = unavailable "Could not register new key"
  | Panic => same_audit w w'
  end.
Proof.
  unfold register_with_authorizer.
  set (p := {| rp_fingerprint := fp; rp_pubkey := _ |}).
  pose proof (register_key_frame (authorizer self) p w) as (Hl & _ & _).
  assert (same_audit w (register_key (authorizer self) p w).1) as Hs
    by (unfold same_audit, audit_log; by rewrite Hl).
  st_unfold. destruct (register_key (authorizer self) p w) as [w1 [[]|e|]] eqn:Hr; cbn in Hs |- *.
  - intros [= <- <-]. split; [|by exists w1]. cbn. unfold audit_log at 1. cbn.
    by rewrite audit_log_send, Hs.
  - intros Hrun. enough (same_audit w w' ∧ r = Raise (unavailable "Could not register new key"))
      as [? ->] by done.
    destruct told; injection Hrun as <- <-; (split; [|done]); etrans; [exact Hs| |exact Hs|];
      unfold same_audit, audit_log at 1; cbn; by rewrite audit_log_send, app_nil_r.
  - by intros [= <- <-].
Qed.

(** What a registration that succeeded did, whichever handler it was. *)
Record registered (self : server) (ip : string) (peers : list bytes) (chal : Challenge)
    (chain : result RusticaServerError Key) (w w' : World) (pk : PublicKey) (ids : list string)
    (att : option KeyAttestation) : Prop := {
  rg_validated : ∃ refresh w1, validate_request self (hmac_key self) peers chal w =
    (w1, Ret (pk, ids, refresh));
  rg_attested : match att with
    | Some a => ∃ key, chain = Ok key ∧ k_fingerprint key = pk_hash pk ∧ k_attestation key = Some a
    | None => (∃ e, chain = Err e ∧ require_attestation_chain self = false) ∨
        ∃ key, chain = Ok key ∧ k_fingerprint key = pk_hash pk ∧ k_attestation key = None
    end;
  rg_authorized : ∃ w1 w2, w_db w1 = w_db w ∧ w_db w' = w_db w2 ∧
    register_key (authorizer self)
      {| rp_fingerprint := pk_hash pk; rp_pubkey := pk_to_string pk; rp_mtls_identities := ids;
         rp_requester_ip := ip; rp_attestation := att |} w1 = (w2, Ret ());
  rg_logged : audit_log w' = audit_log w ++
    [LogKeyRegistered {| ki_fingerprint := pk_hash pk; ki_mtls_identities := ids |}];
}.

(** The tail of both handlers. *)
Lemma registration_tail `{!AuthorizerLaws A} told (self : server) ip peers chal chain w w1 w' pk ids refresh :
  validate_request self (hmac_key self) peers chal w = (w1, Ret (pk, ids, refresh)) →
  ('(fingerprint, attestation) ← attested_key self ip pk ids chain;
   register_with_authorizer told self ip pk ids fingerprint attestation) w1 = (w', Ret ()) →
  ∃ att, registered self ip peers chal chain w w' pk ids att.
Proof.
  intros Hv Hrun. apply st_bind_Ret in Hrun as (w2 & [fp att] & Ha & Hrun).
  apply attested_key_Ret in Ha as (-> & -> & Hatt).
  apply register_with_authorizer_run in Hrun as [Hlog (w3 & Hreg & Hdb)].
  pose proof (run_preserves _ _ _ _ _ (validate_request_same_audit self _ peers chal) Hv) as Hs.
  pose proof (run_preserves _ _ _ _ _ (validate_request_same_db self _ peers chal) Hv) as Hd.
  exists att. split; eauto 10.
  - destruct Hatt as [(key & -> & Hf & ->)|(e & -> & Hreq & ->)]; [|eauto].
    destruct (k_attestation key) eqn:Hk; eauto 10.
  - by rewrite Hlog, Hs.
Qed.

(** The runs of [register_key] that succeed. *)
Lemma register_key_handler_Ret `{!AuthorizerLaws A} (self : server) req w w' :
  register_key_handler self req w = (w', Ret ()) →
  ∃ peers chal pk ids att, peer_certs req = Some peers ∧ rq_challenge (into_inner req) = Some chal ∧
    registered self (requester_ip req) peers chal (verify_piv_certificate_chain
      (rq_certificate (into_inner req)) (rq_intermediate (into_inner req))) w w' pk ids att.
Proof.
  unfold register_key_handler. destruct (rq_challenge _) as [chal|]; [|done].
  destruct (peer_certs req) as [peers|]; [|done]. intros Hrun.
  apply st_bind_Ret in Hrun as (w1 & v & Hv & Hrun). apply attempt_Ret in Hv.
  destruct v as [[[pk ids] refresh]|e]; [|st_inv].
  eapply registration_tail in Hrun as [att Hreg]; [|done]. by exists peers, chal, pk, ids, att.
Qed.

(** And those of [register_u2f_key]. *)
Lemma register_u2f_key_handler_Ret `{!AuthorizerLaws A} (self : server) req w w' :
  register_u2f_key_handler self req w = (w', Ret ()) →
  let q := into_inner req in
  ∃ peers chal pk ids att, peer_certs req = Some peers ∧ uq_challenge q = Some chal ∧
    registered self (requester_ip req) peers chal (verify_u2f_certificate_chain (uq_auth_data q)
      (uq_auth_data_signature q) (uq_intermediate q) (uq_alg q) (uq_u2f_challenge q)
      (uq_sk_application q) (uq_u2f_challenge_hashed q)) w w' pk ids att.
Proof.
  cbn zeta. unfold register_u2f_key_handler. destruct (uq_challenge _) as [chal|]; [|done].
  destruct (peer_certs req) as [peers|]; [|done]. intros Hrun.
  apply st_bind_Ret in Hrun as (w1 & v & Hv & Hrun). apply attempt_Ret in Hv.
  destruct v as [[[pk ids] refresh]|e]; [|st_inv].
  eapply registration_tail in Hrun as [att Hreg]; [|done]. by exists peers, chal, pk, ids, att.
Qed.

(** A handler that fails logs no registration. *)
Lemma register_with_authorizer_fails `{!AuthorizerLaws A} told (self : server) ip pk ids fp att :
  fails_keeping same_audit (register_with_authorizer told self ip pk ids fp att).
Proof.
  pose proof (λ p, frame_same_audit _ (register_key_frame (authorizer self) p)) as Hr.
  unfold register_with_authorizer. keep_when_failing.
Qed.
Lemma register_key_handler_fails `{!AuthorizerLaws A} (self : server) req :
  fails_keeping same_audit (register_key_handler self req).
Proof.
  pose proof (λ told, register_with_authorizer_fails told self) as Hr.
  unfold register_key_handler. keep_when_failing. done.
Qed.
Lemma register_u2f_key_handler_fails `{!AuthorizerLaws A} (self : server) req :
  fails_keeping same_audit (register_u2f_key_handler self req).
Proof.
  pose proof (λ told, register_with_authorizer_fails told self) as Hr.
  unfold register_u2f_key_handler. keep_when_failing. done.
Qed.

(** ** Properties *)

(** C15: [register_key] registers only a key its requester holds: a success
    means the challenge was validated for the key, the authorizer accepted
    exactly that key's fingerprint and text with the proved identities, and a
    registered attestation is the one whose chain was verified and whose key
    is the proved one; where attestation is required there is one. *)
Theorem registered_key_is_proved_and_attested `{!AuthorizerLaws A} (self : server) req w w' :
  register_key_handler self req w = (w', Ret ()) →
  ∃ peers chal pk ids att, peer_certs req = Some peers ∧ rq_challenge (into_inner req) = Some chal ∧
    registered self (requester_ip req) peers chal (verify_piv_certificate_chain
      (rq_certificate (into_inner req)) (rq_intermediate (into_inner req))) w w' pk ids att ∧
    match att with
    | Some a => ∃ data pin touch, verify_certificate_chain (rq_certificate (into_inner req))
        (rq_intermediate (into_inner req)) = Some data ∧
        pk_hash (piv_public_key data) = pk_hash pk ∧
        pin_policy_try_from (piv_pin_policy data) = Some pin ∧
        touch_policy_try_from (piv_touch_policy data) = Some touch ∧
        a = Piv {| pin_policy := pin; touch_policy := touch; pa_serial := piv_serial data;
                   pa_firmware := piv_firmware data;
                   pa_certificate := rq_certificate (into_inner req);
                   pa_intermediate := rq_intermediate (into_inner req) |}
    | None => require_attestation_chain self = false
    end.
Proof.
  intros (peers & chal & pk & ids & att & ? & ? & Hreg)%register_key_handler_Ret.
  exists peers, chal, pk, ids, att. split_and!; [done..|].
  destruct Hreg as [_ Hatt _ _]. destruct att as [a|].
  - destruct Hatt as (key & Hkey & Hf & Ha).
    apply verify_piv_Ok in Hkey as (_ & _ & data & pin & touch & Hd & Hp & Ht & ->).
    cbn in Hf, Ha. simplify_eq. eauto 10.
  - destruct Hatt as [(e & _ & Hreq)|(key & Hkey & _ & Hnone)]; [done|].
    apply verify_piv_Ok in Hkey as (_ & _ & data & pin & touch & _ & _ & _ & ->). done.
Qed.

(** [register_u2f_key] registers only a key its requester holds, and where
    attestation is required only one whose signed authenticator data was
    verified against the challenge - hashed by the server for the clients that
    do not hash it - and whose application is text. *)
Theorem registered_u2f_key_is_proved_and_attested `{!AuthorizerLaws A} (self : server) req w w' :
  register_u2f_key_handler self req w = (w', Ret ()) →
  let q := into_inner req in
  let hashed := if uq_u2f_challenge_hashed q then uq_u2f_challenge q
                else sha256 (uq_u2f_challenge q) in
  ∃ peers chal pk ids att, peer_certs req = Some peers ∧ uq_challenge q = Some chal ∧
    registered self (requester_ip req) peers chal (verify_u2f_certificate_chain (uq_auth_data q)
      (uq_auth_data_signature q) (uq_intermediate q) (uq_alg q) (uq_u2f_challenge q)
      (uq_sk_application q) (uq_u2f_challenge_hashed q)) w w' pk ids att ∧
    match att with
    | Some _ => ∃ data firmware app attested,
        verify_auth_data (uq_auth_data q) (uq_auth_data_signature q) hashed (uq_alg q)
          (uq_intermediate q) = Some (data, firmware) ∧
        from_utf8 (uq_sk_application q) = Some app ∧
        ssh_public_key data app = Some attested ∧ pk_hash attested = pk_hash pk
    | None => require_attestation_chain self = false
    end.
Proof.
  cbn zeta. intros Hrun.
  apply register_u2f_key_handler_Ret in Hrun as (peers & chal & pk & ids & att & ? & ? & Hreg).
  exists peers, chal, pk, ids, att. split_and!; [done..|].
  destruct Hreg as [_ Hatt _ _].
  destruct att as [a|].
  - destruct Hatt as (key & Hkey & Hf & _). apply verify_u2f_Ok in Hkey as [_ Hkey].
    by rewrite <-Hf.
  - destruct Hatt as [(e & _ & Hreq)|(key & Hkey & _ & Hnone)]; [done|].
    apply verify_u2f_Ok in Hkey as [[? ?] _]. congruence.
Qed.

(** A registration is logged exactly when it happened: a success adds one
    [KeyRegistered] for the proved key and its owner, an error none, whichever
    check failed. *)
Theorem key_registration_is_logged_once `{!AuthorizerLaws A} (self : server) req w w' r :
  register_key_handler self req w = (w', r) →
  match r with
  | Ret _ => ∃ peers chal pk ids refresh w1,
      validate_request self (hmac_key self) peers chal w = (w1, Ret (pk, ids, refresh)) ∧
      audit_log w' = audit_log w ++
        [LogKeyRegistered {| ki_fingerprint := pk_hash pk; ki_mtls_identities := ids |}]
  | Raise _ | Panic => audit_log w' = audit_log w
  end.
Proof.
  intros Hrun. destruct r as [[]|e|]; [|by apply register_key_handler_fails in Hrun..].
  apply register_key_handler_Ret in Hrun as (peers & chal & pk & ids & att & _ & _ & [(r & w1 & Hv) _ _ Hl]).
  by exists peers, chal, pk, ids, r, w1.
Qed.

(** A server treats a client that sends its U2F challenge unhashed as one
    that sends the hash: both requests verify to the same key. *)
Lemma u2f_challenge_may_be_hashed_by_the_client auth_data sig intermediate a chal app :
  verify_u2f_certificate_chain auth_data sig intermediate a chal app false =
  verify_u2f_certificate_chain auth_data sig intermediate a (sha256 chal) app true.
Proof. reflexivity. Qed.
End Registration.

Section WithDatabase.
Context `{Lru, SshCerts, Rcgen, Hmac, Env, Hex, X509, Asn1, !Attestation}.

(** A registration with the local database adds a row. *)
Lemma registered_row (self : RusticaServer AuthorizationMechanism) local ip peers chal chain w w'
    pk ids att :
  authorizer self = MLocal local → Local.db_up local →
  registered self ip peers chal chain w w' pk ids att →
  ∃ row, registered_keys (w_db w') = registered_keys (w_db w) ++ [row] ∧
    rk_fingerprint row = pk_hash pk ∧ rk_pubkey row = pk_to_string pk ∧
    rk_user row = join "," ids ∧
    pk_hash pk ∉ rk_fingerprint <$> registered_keys (w_db w).
Proof.
  intros Hl Hup [_ _ (w2 & w3 & Hd2 & Hd3 & Hreg) _].
  rewrite Hl in Hreg. cbn in Hreg. rewrite Local.register_key_run in Hreg by done.
  cbn zeta in Hreg. case_decide as Hin; [done|]. injection Hreg as <-. cbn in Hd3.
  eexists. split_and!; [by rewrite Hd3, <-Hd2|..].
  4: { rewrite Hd2 in Hin. exact Hin. }
  all: unfold Local.registered_key; cbn; by destruct att as [[]|].
Qed.

(** A registration that fails leaves the database. *)
Lemma register_with_authorizer_fails_db told (self : RusticaServer AuthorizationMechanism) local ip pk
    ids fp att :
  authorizer self = MLocal local → Local.db_up local →
  fails_keeping same_db (register_with_authorizer told self ip pk ids fp att).
Proof.
  intros Hl Hup w w' r. unfold register_with_authorizer. rewrite Hl.
  set (p := {| rp_fingerprint := fp; rp_pubkey := _ |}).
  change (register_key (MLocal local) p) with (Local.register_key local p).
  st_unfold. rewrite Local.register_key_run by done. cbn zeta.
  case_decide; destruct told; by intros [= <- <-].
Qed.
Lemma attested_key_same_db (self : RusticaServer AuthorizationMechanism) ip pk ids chain :
  preserves same_db (attested_key self ip pk ids chain).
Proof. unfold attested_key. preserve; done. Qed.
Lemma register_key_handler_fails_db (self : RusticaServer AuthorizationMechanism) local req :
  authorizer self = MLocal local → Local.db_up local →
  fails_keeping same_db (register_key_handler self req).
Proof.
  intros Hl Hup.
  pose proof (λ told ip pk ids fp att, register_with_authorizer_fails_db told self local ip pk ids fp att Hl Hup)
    as Hr.
  pose proof (validate_request_same_db self) as Hv. pose proof (attested_key_same_db self) as Ha.
  unfold register_key_handler. keep_when_failing. all: done.
Qed.
Lemma register_u2f_key_handler_fails_db (self : RusticaServer AuthorizationMechanism) local req :
  authorizer self = MLocal local → Local.db_up local →
  fails_keeping same_db (register_u2f_key_handler self req).
Proof.
  intros Hl Hup.
  pose proof (λ told ip pk ids fp att, register_with_authorizer_fails_db told self local ip pk ids fp att Hl Hup)
    as Hr.
  pose proof (validate_request_same_db self) as Hv. pose proof (attested_key_same_db self) as Ha.
  unfold register_u2f_key_handler. keep_when_failing. all: done.
Qed.

(** With the local database, a key that was registered is in the table
    under the fingerprint its requester proved and was not before, the other
    rows are as they were, and [get_allowed_signers] lists it for its owner. *)
Theorem registered_key_is_in_the_database (self : RusticaServer AuthorizationMechanism)
    local req w w' :
  authorizer self = MLocal local → Local.db_up local →
  register_key_handler self req w = (w', Ret ()) →
  ∃ peers chal pk ids refresh w1 row,
    validate_request self (hmac_key self) peers chal w = (w1, Ret (pk, ids, refresh)) ∧
    registered_keys (w_db w') = registered_keys (w_db w) ++ [row] ∧
    rk_fingerprint row = pk_hash pk ∧ rk_pubkey row = pk_to_string pk ∧
    rk_user row = join "," ids ∧
    pk_hash pk ∉ rk_fingerprint <$> registered_keys (w_db w).
Proof.
  intros Hl Hup (peers & chal & pk & ids & att & _ & _ & Hreg)%register_key_handler_Ret.
  destruct (registered_row _ _ _ _ _ _ _ _ _ _ _ Hl Hup Hreg) as (row & Hrow).
  destruct Hreg as [(refresh & w1 & Hv) _ _ _].
  by exists peers, chal, pk, ids, refresh, w1, row.
Qed.
End WithDatabase.
