(* ===== verification/X509Issuance.v ===== *)
(** * The server: attested X.509 certificates

    The handler [attested_x509_certificate] of [rustica/src/server.rs] and its
    theorems. *)
From Stdlib Require Import ZArith Lia.
From S2P Require Import Prelude Machine Text Deps Key Auth Logging Schema World.
From S2P Require Import Database Authorizer Signing Proto Server Validation Issuance Registration.

Section X509Issuance.
Context `{Lru, SshCerts, Rcgen, Hmac, Env, Hex, X509, !Attestation} {A : Type} `{!Authorizer A}.

#[local] Abbreviation server := (RusticaServer A).

(** The parameters of the request, overwritten with what was authorized. *)
Definition csr_params (params : CertificateParams KeyPair) (authorization : X509Authorization)
    (before after : Z) : CertificateParams KeyPair :=
  {| alg := alg params;
     not_before := before;
     not_after := after;
     serial_number := Some (le_bytes 8 (xa_serial authorization));
     subject_alt_names := [Rfc822Name (xa_common_name authorization)];
     distinguished_name := [(OrganizationName, "Rustica-" +:+ xa_authority authorization);
                            (CommonName, xa_common_name authorization)];
     is_ca := false;
     key_usages := [DigitalSignature];
     extended_key_usages := [];
     name_constraints := None;
     custom_extensions := xa_extensions authorization;
     use_authority_key_identifier_extension := false;
     key_pair := key_pair params |}.

(** The extensions as they are logged. *)
Definition logged_extensions (l : list CustomExtension) : gmap string string :=
  collect_map ((λ e, (join "." (int_to_string <$> oid_components e), hex_encode (content e))) <$> l).

(** The new certificate is for the key that was attested. *)
Definition issued_for_attested_key (from : string) (cert attestation : bytes)
    : st World Status () :=
  new_certificate ←
    match x509_from_der cert with
    | Ok c => mret c
    | Err e =>
        rustica_error ("Could not parse new certificate for [" +:+ from +:+ "]. Error: [" +:+
          e +:+ "]");;
        throw (permission_denied "")
    end;
  leaf ←
    match x509_from_der (attestation) with
    | Ok l => mret l
    | Err e =>
        rustica_error ("Could not parse provided attestation for [" +:+ from +:+ "]. Error: [" +:+
          e +:+ "]");;
        throw (permission_denied "")
    end;
  (if decide (subject_pki new_certificate ≠ subject_pki leaf) then
     rustica_error ("A CSR was submitted that didn't match their attestation chain by [" +:+
       from +:+ "]");;
     throw (permission_denied "")
   else mret ()).

(** What is logged of a certificate. *)
Definition x509_certificate_log (authority : string) (mtls_identities : list string)
    (authorization : X509Authorization) : X509CertificateIssued :=
  {| xi_authority := authority;
     xi_mtls_identities := mtls_identities;
     xi_extensions := logged_extensions (xa_extensions authorization);
     xi_valid_after := xa_valid_after authorization;
     xi_valid_before := xa_valid_before authorization;
     xi_serial := xa_serial authorization |}.

Definition attested_x509_handler (self : server)
    (request : Request AttestedX509CertificateRequest)
    : st World Status AttestedX509CertificateResponse :=
  addr ← of_option (permission_denied "") (remote_addr request);
  peers ← of_option (permission_denied "") (peer_certs request);
  peer ←
    match head peers with
    | Some peer =>
        if decide (vec_len peers ≠ 1) then
          rustica_warning ("Received request with multiple peer identities from " +:+
            addr_to_string addr);;
          throw (permission_denied "")
        else mret peer
    | None =>
        rustica_error "No peer certificate was presented. Tonic issue?";;
        throw (permission_denied "")
    end;
  cert_info ←
    match extract_certificate_information peer with
    | Ok ci => mret ci
    | Err _ => throw (permission_denied "")
    end;
  let request := into_inner request in
  let from := join "," (identities cert_info) in
  key ←
    match verify_piv_certificate_chain (xq_attestation request)
      (xq_attestation_intermediate request) with
    | Ok key => mret key
    | Err _ => throw (permission_denied "Invalid attestation chain")
    end;
  let auth := if is_empty (xq_key_id request) then default_authority (signer self)
              else xq_key_id request in
  let auth_props :=
    {| xp_authority := auth;
       xp_mtls_identities := identities cert_info;
       xp_requester_ip := addr_to_string addr;
       xp_attestation := xq_attestation request;
       xp_attestation_intermediate := xq_attestation_intermediate request;
       xp_key := key |} in
  answer ← attempt (authorize_attested_x509_cert (authorizer self) auth_props);
  authorization ←
    match answer with
    | Ok auth => mret auth
    | Err e =>
        rustica_warning ("Authorizer rejected [" +:+ from +:+
          "] from fetching new X509 certificate. Error: [" +:+ auth_error_to_string e +:+ "]");;
        throw (permission_denied "Not authorized")
    end;
  '(params, csr_key) ←
    match csr_from_der (xq_csr request) with
    | Ok csr => mret csr
    | Err e =>
        rustica_warning ("Invalid CSR was provided by [" +:+ from +:+ "]. Error: [" +:+ e +:+ "]");;
        throw (permission_denied "")
    end;
  before ← date_of (xa_valid_after authorization);
  after ← date_of (xa_valid_before authorization);
  let csr := (csr_params params authorization before after, csr_key) in
  ca_cert ←
    match get_attested_x509_certificate_authority (signer self) (xa_authority authorization) with
    | Ok ca => mret ca
    | Err _ => throw (permission_denied "message")
    end;
  cert ←
    match ca_cert with
    | Some ca_cert => library_call (serialize_der_with_signer csr ca_cert)
    | None =>
        rustica_error ("The requested authority " +:+ xa_authority authorization +:+
          " does not exist or is not configured");;
        throw (permission_denied "")
    end;
  cert ←
    match cert with
    | Some cert => mret cert
    | None =>
        rustica_error ("Could not serialize attested x509 certificate for " +:+
          xa_common_name authorization);;
        throw (permission_denied "")
    end;
  issued_for_attested_key from cert (xq_attestation request);;
  send_log (LogX509CertificateIssued
    (x509_certificate_log auth (identities cert_info) authorization));;
  mret {| xs_certificate := cert; xs_error := ""; xs_error_code := 0 |}.

(** ** Lemmas *)

(** A certificate was issued, and why. *)
Record x509_issued (self : server) (req : Request AttestedX509CertificateRequest) (w w' : World)
    (resp : AttestedX509CertificateResponse) (info : MtlsCertificateInfo) (key : Key)
    (authz : X509Authorization) : Prop := {
  xd_peer : ∃ peer, peer_certs req = Some [peer] ∧ extract_certificate_information peer = Ok info;
  xd_attested : verify_piv_certificate_chain (xq_attestation (into_inner req))
    (xq_attestation_intermediate (into_inner req)) = Ok key;
  xd_authorized : ∃ addr w1 w2, remote_addr req = Some addr ∧
    w_db w1 = w_db w ∧
    authorize_attested_x509_cert (authorizer self)
      {| xp_authority := if is_empty (xq_key_id (into_inner req))
           then default_authority (signer self) else xq_key_id (into_inner req);
         xp_mtls_identities := identities info;
         xp_requester_ip := addr_to_string addr;
         xp_attestation := xq_attestation (into_inner req);
         xp_attestation_intermediate := xq_attestation_intermediate (into_inner req);
         xp_key := key |} w1 = (w2, Ret authz);
  xd_same_key : ∃ new leaf, x509_from_der (xs_certificate resp) = Ok new ∧
    x509_from_der (xq_attestation (into_inner req)) = Ok leaf ∧ subject_pki new = subject_pki leaf;
  xd_signed : ∃ params k ca n,
    csr_from_der (xq_csr (into_inner req)) = Ok (params, k) ∧
    get_attested_x509_certificate_authority (signer self) (xa_authority authz) = Ok (Some ca) ∧
    serialize_der_with_signer (csr_params params authz (xa_valid_after authz)
      (xa_valid_before authz), k) ca n = Some (xs_certificate resp);
  xd_answer : xs_error_code resp = 0 ∧ xs_error resp = "";
  xd_logged : audit_log w' = audit_log w ++ [LogX509CertificateIssued (x509_certificate_log
    (if is_empty (xq_key_id (into_inner req)) then default_authority (signer self)
     else xq_key_id (into_inner req)) (identities info) authz)];
}.

Lemma date_of_Ret z w w' d :
  date_of z w = (w', Ret d) ↔ w' = w ∧ d = z ∧ date_in_range z = true.
Proof. unfold date_of. destruct (date_in_range z); st_run; naive_solver. Qed.
#[local] Hint Rewrite @date_of_Ret : st_inv.

Lemma list_singleton {B} (l : list B) x : head l = Some x → ¬ vec_len l ≠ 1 → l = [x].
Proof. unfold vec_len. destruct l as [|y [|]]; cbn; intros; simplify_eq; [done|lia]. Qed.

Lemma attested_x509_handler_Ret `{!AuthorizerLaws A} (self : server) req w w' resp :
  attested_x509_handler self req w = (w', Ret resp) →
  ∃ info key authz, x509_issued self req w w' resp info key authz.
Proof.
  unfold attested_x509_handler, issued_for_attested_key. intros Hrun. st_inv_all.
  match goal with |- ∃ info key authz, x509_issued _ _ _ _ _ _ _ _ => eexists _, _, _ end.
  split; cbn; [|done|eauto 10|eauto|eauto 10|done|].
  - eexists. split; [|done].
    match goal with Hh : head _ = Some _, Hn : ¬ vec_len _ ≠ 1 |- _ =>
      by rewrite <-(list_singleton _ _ Hh Hn) end.
  - eexists _, _. split_and!; [done..|]. by apply dec_stable.
  - unfold audit_log at 1. cbn. rewrite audit_log_send. cbn. f_equal.
    match goal with Ha : authorize_attested_x509_cert _ _ _ = _ |- _ =>
      exact (run_preserves _ _ _ _ _
        (frame_same_audit _ (authorize_attested_x509_cert_frame (authorizer self) _)) Ha) end.
Qed.

(** A handler that fails has issued nothing. *)
Lemma attested_x509_handler_fails `{!AuthorizerLaws A} (self : server) req :
  fails_keeping same_audit (attested_x509_handler self req).
Proof.
  pose proof (λ q, frame_same_audit _ (authorize_attested_x509_cert_frame (authorizer self) q)) as Ha.
  assert (∀ z, preserves same_audit (date_of z)) as Hd by (intros z; unfold date_of; preserve).
  unfold attested_x509_handler, issued_for_attested_key. keep_when_failing.
Qed.

(** ** Properties *)

(** C14: an attested X.509 certificate is answered only to a peer with exactly
    one readable certificate whose attestation chain verifies and whom the
    authorizer allows it, under the authorized authority's CA; it certifies the
    very key of the attestation, whatever key the request names; and it is made
    from the authorization, not from the request: whatever the CSR asked for, it
    is no CA, may only sign, names the authorized common name and authority and
    nothing else, and has the authorized period, serial and extensions. *)
Theorem x509_certificate_is_for_the_attested_key `{!AuthorizerLaws A} (self : server) req w w' resp :
  attested_x509_handler self req w = (w', Ret resp) →
  ∃ info key authz, x509_issued self req w w' resp info key authz ∧
    ∃ p k ca n, serialize_der_with_signer (p, k) ca n = Some (xs_certificate resp) ∧
      is_ca p = false ∧ key_usages p = [DigitalSignature] ∧ extended_key_usages p = [] ∧
      subject_alt_names p = [Rfc822Name (xa_common_name authz)] ∧
      distinguished_name p = [(OrganizationName, "Rustica-" +:+ xa_authority authz);
                              (CommonName, xa_common_name authz)] ∧
      not_before p = xa_valid_after authz ∧ not_after p = xa_valid_before authz ∧
      serial_number p = Some (le_bytes 8 (xa_serial authz)) ∧
      custom_extensions p = xa_extensions authz.
Proof.
  intros (info & key & authz & Hi)%attested_x509_handler_Ret. exists info, key, authz.
  split; [done|]. destruct (xd_signed _ _ _ _ _ _ _ _ Hi) as (params & k & ca & n & _ & _ & Hs).
  eexists _, k, ca, n. split; [exact Hs|]. cbn. by split_and!.
Qed.
End X509Issuance.

Section WithDatabase.
Context `{Lru, SshCerts, Rcgen, Hmac, Env, Hex, X509, Asn1, !Attestation}.

(** With the local database, an attested certificate goes only to the
    owner of the token: a row ties the serial number the attestation proves to
    the first name of the client certificate under the authority, the token
    proves presence where the row requires it, and the certificate's common
    name is that first name. *)
Theorem x509_certificate_needs_the_users_token (self : RusticaServer AuthorizationMechanism)
    local req w w' resp :
  authorizer self = MLocal local → Local.db_up local → db_wf (w_db w) →
  attested_x509_handler self req w = (w', Ret resp) →
  ∃ info key authz att user rest, x509_issued self req w w' resp info key authz ∧
    k_attestation key = Some (Piv att) ∧ identities info = user :: rest ∧
    xa_common_name authz = user ∧
    Local.x509_allowed (w_db w) user (xa_authority authz) att.
Proof.
  intros Hl Hup Hwf (info & key & authz & Hi)%attested_x509_handler_Ret.
  destruct (xd_authorized _ _ _ _ _ _ _ _ Hi) as (addr & w1 & w2 & _ & Hdb & Ha).
  rewrite Hl in Ha. cbn in Ha. rewrite <-Hdb in Hwf |- *.
  apply Local.authorize_x509_allowed in Ha as (att & user & rest & Hk & Hu & Hcn & Hau & Hall);
    [|done..].
  exists info, key, authz, att, user, rest. by rewrite Hau.
Qed.
End WithDatabase.
