(* ===== verification/AllowedSigners.v ===== *)
(** * The server: the list of allowed signers

    [is_rate_limited] and the handler [allowed_signers] of
    [rustica/src/server.rs].  The handler is cut where it takes and releases
    its locks; the whole handler is the composition of the pieces, and the
    pieces of several requests may interleave. *)
From Stdlib Require Import ZArith Lia Sorted.
From stdpp Require Import relations.
From S2P Require Import Prelude Machine Text Deps Key Auth Logging Schema World.
From S2P Require Import Database Authorizer Signing Proto Server Validation.

Section AllowedSigners.
Context `{Lru, SshCerts, Rcgen, Hmac, Env, Hex, X509, !Zstd} {A : Type} `{!Authorizer A}.

#[local] Abbreviation server := (RusticaServer A).

(** The deadline is pushed first, whatever the answer will be. *)
Definition is_rate_limited (srv : server) (identities : string) (current_time : Z)
    : st World Status bool :=
  deadline ← of_outcome (duration_add current_time (rate_limit_cooldown (allowed_signers srv)));
  limiter ← gets w_limiter;
  let '(limiter, removed_entry) := lru_push limiter identities deadline in
  modify (set_limiter limiter);;
  match removed_entry with
  | None => mret false
  | Some removed_entry =>
      if decide (removed_entry.1 ≠ identities) then mret false
      else mret (bool_decide (current_time < removed_entry.2))
  end.

(** ** The pieces of the handler *)

(** Up to the rate limiter: the time the request is answered for. *)
Definition admit_request (self : server) (request : Request ()) : st World Status Z :=
  remote_addr ← of_option (permission_denied "") (remote_addr request);
  peer ← of_option (permission_denied "") (peer_certs request);
  cert ← of_option (permission_denied "") (head peer);
  cert_info ←
    match extract_certificate_information cert with
    | Ok cert_info => mret cert_info
    | Err e =>
        rustica_error ("Could not validate request: " +:+ error_debug e);;
        throw (cancelled "")
    end;
  let mtls_identities := join "," (identities cert_info) in
  now ← read_clock;
  current_time ← of_option (permission_denied "") now;
  limited ← is_rate_limited self mtls_identities current_time;
  (if limited : bool then throw (resource_exhausted "") else mret ());;
  mret current_time.

(** What both looks at the cache do. *)
Definition cached_reply (current_time : Z) (cache : AllowedSignersCache)
    : option AllowedSignersResponse :=
  if decide (current_time <= expiry_timestamp cache)
  then Some {| compressed_signers := compressed_allowed_signers cache |} else None.

(** The content of an allowed-signers file. *)
Definition signers_text (response : AllowedSigners) : string :=
  join newline ((λ s, as_identity s +:+ " " +:+ as_pubkey s) <$> allowed_signers_list response).

Definition compress (text : string) : st World Status bytes :=
  _ ← match zstd_encoder_new with Ok e => mret e | Err _ => throw (permission_denied "") end;
  _ ← match zstd_write_all (as_bytes text) with
      | Ok u => mret u | Err _ => throw (permission_denied "") end;
  match zstd_finish (as_bytes text) with
  | Ok data => mret data | Err _ => throw (permission_denied "") end.

(** The authorizer's list, compressed, and until when it will be served. *)
Definition fetch_signers (self : server) (current_time : Z) : st World Status (bytes * Z) :=
  answer ← attempt (get_allowed_signers (authorizer self));
  response ← match answer with Ok r => mret r | Err _ => throw (permission_denied "") end;
  compressed ← compress (signers_text response);
  expiry ← of_outcome
    (duration_add current_time (cache_validity_length (allowed_signers self)));
  mret (compressed, expiry).

(** It becomes the cache and the reply. *)
Definition refresh_cache (self : server) (current_time : Z)
    : st World Status AllowedSignersResponse :=
  '(compressed, expiry) ← fetch_signers self current_time;
  modify (set_cache {| compressed_allowed_signers := compressed; expiry_timestamp := expiry |});;
  mret {| compressed_signers := compressed |}.

(** ** The handler *)

Definition allowed_signers_handler (self : server) (request : Request ())
    : st World Status AllowedSignersResponse :=
  current_time ← admit_request self request;
  cache ← gets w_cache;
  match cached_reply current_time cache with
  | Some reply => mret reply
  | None =>
      cache ← gets w_cache;
      match cached_reply current_time cache with
      | Some reply => mret reply
      | None => refresh_cache self current_time
      end
  end.

(** ** Interleavings *)

(** How far a request got: what it waits for, or what it was answered.  A
    request that was admitted carries its time. *)
Inductive phase : Type :=
| Arrived (request : Request ())
| Waiting (t : Z)
| Expired (t : Z)
| Locked (t : Z)
| Fetching (t : Z)
| Replied (t : Z) (reply : AllowedSignersResponse)
| Failed (e : option Status).

(** The state of a server with some requests: the holder of the write lock
    and, for the proofs, the refreshes of the cache, the last one first. *)
Record system : Type := mkSystem {
  sy_world : World;
  sy_writer : option nat;
  sy_requests : list phase;
  sy_refreshes : list (Z * bytes);
}.

(** What a run returned, as the next phase. *)
Definition outcome_phase {B} (f : B → phase) (o : outcome Status B) : phase :=
  match o with Ret b => f b | Raise e => Failed (Some e) | Panic => Failed None end.

Definition unlock (i : nat) (writer : option nat) : option nat :=
  if decide (writer = Some i) then None else writer.

(** A step of request [i] of the handler. *)
Inductive handler_step (self : server) (i : nat) : system → system → Prop :=
| step_admit w wr reqs refs request w' o :
    reqs !! i = Some (Arrived request) →
    admit_request self request w = (w', o) →
    handler_step self i (mkSystem w wr reqs refs)
      (mkSystem w' wr (<[i := outcome_phase Waiting o]> reqs) refs)
| step_read w reqs refs t :
    reqs !! i = Some (Waiting t) →
    handler_step self i (mkSystem w None reqs refs)
      (mkSystem w None (<[i := match cached_reply t (w_cache w) with
                               | Some reply => Replied t reply | None => Expired t end]> reqs) refs)
| step_lock w reqs refs t :
    reqs !! i = Some (Expired t) →
    handler_step self i (mkSystem w None reqs refs)
      (mkSystem w (Some i) (<[i := Locked t]> reqs) refs)
| step_cached w wr reqs refs t reply :
    reqs !! i = Some (Locked t) →
    cached_reply t (w_cache w) = Some reply →
    handler_step self i (mkSystem w wr reqs refs)
      (mkSystem w (unlock i wr) (<[i := Replied t reply]> reqs) refs)
| step_expired w wr reqs refs t :
    reqs !! i = Some (Locked t) →
    cached_reply t (w_cache w) = None →
    handler_step self i (mkSystem w wr reqs refs)
      (mkSystem w wr (<[i := Fetching t]> reqs) refs)
| step_refresh w wr reqs refs t w' o :
    reqs !! i = Some (Fetching t) →
    refresh_cache self t w = (w', o) →
    handler_step self i (mkSystem w wr reqs refs)
      (mkSystem w' (unlock i wr) (<[i := outcome_phase (Replied t) o]> reqs)
        (match o with Ret reply => (t, compressed_signers reply) :: refs | _ => refs end)).

(** The other things that happen: a client goes away and its request is
    dropped at a point where it waits, or other handlers run. *)
Inductive other_step : system → system → Prop :=
| step_drop i w wr reqs refs p :
    reqs !! i = Some p →
    (∀ t r, p ≠ Replied t r) →
    other_step (mkSystem w wr reqs refs)
      (mkSystem w (unlock i wr) (<[i := Failed None]> reqs) refs)
| step_other w w' wr reqs refs :
    w_cache w' = w_cache w →
    other_step (mkSystem w wr reqs refs) (mkSystem w' wr reqs refs).

Definition system_step (self : server) (s s' : system) : Prop :=
  (∃ i, handler_step self i s s') ∨ other_step s s'.

(** The steps of the handler, computed. *)
Definition run_step (self : server) (i : nat) (s : system) : option system :=
  let 'mkSystem w wr reqs refs := s in
  match reqs !! i with
  | Some (Arrived request) =>
      let '(w', o) := admit_request self request w in
      Some (mkSystem w' wr (<[i := outcome_phase Waiting o]> reqs) refs)
  | Some (Waiting t) =>
      match wr with
      | None => Some (mkSystem w None (<[i := match cached_reply t (w_cache w) with
          | Some reply => Replied t reply | None => Expired t end]> reqs) refs)
      | Some _ => None
      end
  | Some (Expired t) =>
      match wr with
      | None => Some (mkSystem w (Some i) (<[i := Locked t]> reqs) refs)
      | Some _ => None
      end
  | Some (Locked t) =>
      match cached_reply t (w_cache w) with
      | Some reply => Some (mkSystem w (unlock i wr) (<[i := Replied t reply]> reqs) refs)
      | None => Some (mkSystem w wr (<[i := Fetching t]> reqs) refs)
      end
  | Some (Fetching t) =>
      let '(w', o) := refresh_cache self t w in
      Some (mkSystem w' (unlock i wr) (<[i := outcome_phase (Replied t) o]> reqs)
        (match o with Ret reply => (t, compressed_signers reply) :: refs | _ => refs end))
  | _ => None
  end.

(** The requests take their steps in the order of the list. *)
Fixpoint run_schedule (self : server) (l : list nat) (s : system) : option system :=
  match l with
  | [] => Some s
  | i :: l => s ← run_step self i s; run_schedule self l s
  end.

Lemma run_step_spec (self : server) i s s' :
  run_step self i s = Some s' ↔ handler_step self i s s'.
Proof.
  split.
  - destruct s as [w wr reqs refs]. cbn [run_step]. intros Hrun.
    destruct (reqs !! i) as [[request|t|t|t|t|t reply|e]|] eqn:Hi; [..|done]; try done.
    + destruct (admit_request self request w) as [w' o] eqn:Ha. injection Hrun as <-.
      by eapply step_admit.
    + destruct wr; [done|]. injection Hrun as <-. by apply step_read.
    + destruct wr; [done|]. injection Hrun as <-. by apply step_lock.
    + destruct (cached_reply t (w_cache w)) eqn:Hc; injection Hrun as <-.
      * by eapply step_cached.
      * by eapply step_expired.
    + destruct (refresh_cache self t w) as [w' o] eqn:Hr. injection Hrun as <-.
      by eapply step_refresh.
  - destruct 1 as [? ? ? ? ? ? ? Hi Hr|? ? ? ? Hi|? ? ? ? Hi|? ? ? ? ? ? Hi Hr|? ? ? ? ? Hi Hr
      |? ? ? ? ? ? ? Hi Hr]; cbn [run_step]; rewrite Hi; [|done|done|..]; by rewrite Hr.
Qed.

Lemma run_schedule_reaches (self : server) l s s' :
  run_schedule self l s = Some s' → rtc (system_step self) s s'.
Proof.
  revert s. induction l as [|i l IH]; intros s Hrun; cbn in Hrun.
  - by injection Hrun as ->.
  - apply bind_Some in Hrun as (s1 & Hs%run_step_spec & Hrun). eapply rtc_l; [|by apply IH].
    left. by exists i.
Qed.

(** ** The rate limiter *)

Lemma is_rate_limited_run `{!LruLaws} (srv : server) ids t w :
  let d := t + rate_limit_cooldown (allowed_signers srv) in
  in_duration d →
  ∃ limiter, is_rate_limited srv ids t w = (set_limiter limiter w,
      Ret (match lru_peek (w_limiter w) ids with
           | Some last => bool_decide (t < last) | None => false end)) ∧
    lru_peek limiter ids = Some d.
Proof.
  cbn zeta. intros Hd. unfold is_rate_limited, duration_add. rewrite decide_True by done.
  st_unfold. destruct (lru_push (w_limiter w) ids _) as [limiter removed] eqn:Hpush.
  exists limiter. split; [|by eapply lru_push_same].
  destruct (lru_peek (w_limiter w) ids) as [last|] eqn:Hpeek.
  - pose proof (lru_push_hit _ _ (t + rate_limit_cooldown (allowed_signers srv)) _ Hpeek) as Hr.
    rewrite Hpush in Hr. cbn in Hr. subst removed. cbn. by rewrite decide_False by (intros Hn; by apply Hn).
  - pose proof (lru_push_miss _ _ (t + rate_limit_cooldown (allowed_signers srv)) Hpeek) as Hr.
    rewrite Hpush in Hr. cbn in Hr. destruct removed as [[k v]|]; [|done].
    destruct Hr as [Hne _]. cbn. by rewrite decide_True.
Qed.

(** ** What the pieces do to the cache *)

Definition same_cache (w w' : World) : Prop := w_cache w' = w_cache w.
#[export] Instance same_cache_preorder : PreOrder same_cache.
Proof. unfold same_cache. split; [done|]. intros w1 w2 w3 ? ?. congruence. Qed.

Lemma is_rate_limited_same_cache (srv : server) ids t :
  preserves same_cache (is_rate_limited srv ids t).
Proof.
  intros w. unfold is_rate_limited, duration_add. st_unfold. case_decide; [|done].
  destruct (lru_push _ _ _) as [l [[k v]|]]; cbn; [|done]. by case_decide.
Qed.

Lemma admit_request_same_cache (self : server) request :
  preserves same_cache (admit_request self request).
Proof.
  unfold admit_request. preserve.
  all: first [done | apply is_rate_limited_same_cache].
Qed.

(** The payload [b] is a list the authorizer gave, compressed. *)
Definition served (self : server) (b : bytes) : Prop :=
  ∃ w w' l, get_allowed_signers (authorizer self) w = (w', Ret l) ∧
    zstd_finish (as_bytes (signers_text l)) = Ok b.

Definition validity (self : server) : Z := cache_validity_length (allowed_signers self).

Lemma compress_Ret text w w' b :
  compress text w = (w', Ret b) ↔ w' = w ∧ zstd_encoder_new = Ok () ∧
    zstd_write_all (as_bytes text) = Ok () ∧ zstd_finish (as_bytes text) = Ok b.
Proof.
  unfold compress. destruct zstd_encoder_new as [[]|]; st_run; [|naive_solver].
  destruct (zstd_write_all _) as [[]|]; st_run; [|naive_solver].
  destruct (zstd_finish _); st_run; naive_solver.
Qed.
Lemma compress_same_cache text : preserves same_cache (compress text).
Proof. unfold compress. preserve. Qed.

Lemma get_allowed_signers_same_cache `{!AuthorizerLaws A} a :
  preserves same_cache (get_allowed_signers (A := A) a).
Proof. intros w. apply get_allowed_signers_frame. Qed.
#[local] Hint Resolve compress_same_cache get_allowed_signers_same_cache : preserves.

(** A run that fails before its last statement, which cannot, left the cache. *)
Lemma fails_same_cache {B C} (m : st World Status B) (f : B → st World Status C) w w' o :
  preserves same_cache m → (∀ b w1, ∃ w2 c, f b w1 = (w2, Ret c)) →
  (m ≫= f) w = (w', o) → match o with Ret _ => True | _ => same_cache w w' end.
Proof.
  intros Hm Hf. specialize (Hm w). unfold mbind, st_bind. destruct (m w) as [w1 [b|e|]]; cbn in Hm.
  - destruct (Hf b w1) as (w2 & c & ->). by intros [= <- <-].
  - by intros [= <- <-].
  - by intros [= <- <-].
Qed.

Lemma refresh_cache_run `{!AuthorizerLaws A} (self : server) t w w' o :
  refresh_cache self t w = (w', o) →
  match o with
  | Ret reply => served self (compressed_signers reply) ∧
      w_cache w' = {| compressed_allowed_signers := compressed_signers reply;
                      expiry_timestamp := t + validity self |}
  | _ => same_cache w w'
  end.
Proof.
  intros Hrun. assert (match o with Ret _ => True | _ => same_cache w w' end) as Hsame.
  { unfold refresh_cache in Hrun.
    eapply fails_same_cache in Hrun; [done| |by intros [b z] w1; eexists _, _].
    unfold fetch_signers. preserve. }
  destruct o as [reply|e|]; [|done..]. unfold refresh_cache, fetch_signers in Hrun. st_inv_all.
  match goal with Hc : compress _ _ = _ |- _ => apply compress_Ret in Hc as (-> & _ & _ & Hf) end.
  match goal with Hd : duration_add _ _ = Ret _ |- _ => apply duration_add_Ret in Hd as [-> _] end.
  split; [|done]. unfold served. eauto 10.
Qed.

(** ** The invariant of the interleavings *)

Definition initial (w : World) (requests : list (Request ())) : system :=
  mkSystem w None (Arrived <$> requests) [].

Definition holds_lock (p : phase) : Prop :=
  match p with Locked _ | Fetching _ => True | _ => False end.

Record consistent (self : server) (w0 : World) (s : system) : Prop := {
  co_lock i p : sy_requests s !! i = Some p → (holds_lock p ↔ sy_writer s = Some i);
  co_writer i : sy_writer s = Some i → is_Some (sy_requests s !! i);
  co_cache : w_cache (sy_world s) =
    match sy_refreshes s with
    | [] => w_cache w0
    | (t, b) :: _ => {| compressed_allowed_signers := b; expiry_timestamp := t + validity self |}
    end;
  co_fetching i t : sy_requests s !! i = Some (Fetching t) →
    expiry_timestamp (w_cache (sy_world s)) < t;
  co_spaced : StronglySorted (λ r2 r1, r1.1 + validity self < r2.1) (sy_refreshes s);
  co_initial : Forall (λ r, expiry_timestamp (w_cache w0) < r.1) (sy_refreshes s);
  co_served : Forall (λ r, served self r.2) (sy_refreshes s);
  co_replied i t r : sy_requests s !! i = Some (Replied t r) →
    (t ≤ expiry_timestamp (w_cache w0) ∧ r = {| compressed_signers := compressed_allowed_signers (w_cache w0) |}) ∨
    ∃ t0, (t0, compressed_signers r) ∈ sy_refreshes s ∧ t ≤ t0 + validity self;
}.

Lemma initial_consistent (self : server) w requests : consistent self w (initial w requests).
Proof.
  assert (∀ i p, (Arrived <$> requests) !! i = Some p → ∃ q, p = Arrived q) as Har.
  { intros i p Hp. rewrite list_lookup_fmap in Hp. apply fmap_Some in Hp as (q & _ & ->). by exists q. }
  split; cbn; [|done|done| |constructor|constructor|constructor|].
  - intros i p Hp. apply Har in Hp as [q ->]. done.
  - intros i t Hp. by apply Har in Hp as [q ?].
  - intros i t r Hp. by apply Har in Hp as [q ?].
Qed.

Lemma cached_reply_Some t c r :
  cached_reply t c = Some r ↔
    t ≤ expiry_timestamp c ∧ r = {| compressed_signers := compressed_allowed_signers c |}.
Proof. unfold cached_reply. case_decide; naive_solver. Qed.
Lemma cached_reply_None t c : cached_reply t c = None ↔ expiry_timestamp c < t.
Proof. unfold cached_reply. case_decide; naive_solver lia. Qed.

(** A look at the cache that hits is a reply the invariant allows. *)
Lemma cached_reply_fresh (self : server) w0 s t r :
  consistent self w0 s → cached_reply t (w_cache (sy_world s)) = Some r →
  (t ≤ expiry_timestamp (w_cache w0) ∧ r = {| compressed_signers := compressed_allowed_signers (w_cache w0) |}) ∨
  ∃ t0, (t0, compressed_signers r) ∈ sy_refreshes s ∧ t ≤ t0 + validity self.
Proof.
  intros Hc Hr. apply cached_reply_Some in Hr as [Ht ->]. rewrite (co_cache _ _ _ Hc) in Ht |- *.
  destruct (sy_refreshes s) as [|[t0 b] refs]; [by left|right].
  exists t0. cbn in *. split; [set_solver|done].
Qed.

(** A change of one request's phase, the world's cache and the refreshes
    staying as they were. *)
Lemma consistent_phase (self : server) w0 w w' wr wr' reqs refs i p :
  consistent self w0 (mkSystem w wr reqs refs) → same_cache w w' → is_Some (reqs !! i) →
  (∀ j, j ≠ i → wr' = Some j ↔ wr = Some j) →
  (holds_lock p ↔ wr' = Some i) →
  (∀ t, p = Fetching t → cached_reply t (w_cache w) = None) →
  (∀ t r, p = Replied t r → cached_reply t (w_cache w) = Some r) →
  consistent self w0 (mkSystem w' wr' (<[i := p]> reqs) refs).
Proof.
  intros Hc Hs Hi Hother Hlock Hfetch Hreply. unfold same_cache in Hs.
  pose proof Hc as [Hl Hwr Hca Hf Hsp Hin Hse Hre]. cbn in *. split; cbn; rewrite ?Hs; try done.
  - intros j q [(-> & <- & _)|[Hne Hq]]%list_lookup_insert_Some; [done|].
    rewrite Hother by done. by apply Hl.
  - intros j Hj. destruct (decide (j = i)) as [->|Hne].
    + rewrite list_lookup_insert_eq; [by eexists|by apply lookup_lt_is_Some].
    + rewrite list_lookup_insert_ne by done. by apply Hwr, Hother.
  - intros j t [(-> & -> & _)|[Hne Hq]]%list_lookup_insert_Some; [|eauto].
    by apply cached_reply_None, Hfetch.
  - intros j t r [(-> & -> & _)|[Hne Hq]]%list_lookup_insert_Some; [|eauto].
    eapply (cached_reply_fresh self w0 _ t r Hc), Hreply; done.
Qed.

(** Only the holder of the write lock can release it. *)
Lemma unlock_other i j wr : j ≠ i → unlock i wr = Some j ↔ wr = Some j.
Proof. intros Hne. unfold unlock. case_decide; naive_solver congruence. Qed.
Lemma unlock_self i wr : unlock i wr ≠ Some i.
Proof. unfold unlock. by case_decide. Qed.
#[local] Hint Resolve unlock_other : core.

(** The refresh by the holder of the lock. *)
Lemma consistent_refresh (self : server) w0 w w' wr reqs refs i t reply :
  0 ≤ validity self →
  consistent self w0 (mkSystem w wr reqs refs) → reqs !! i = Some (Fetching t) →
  expiry_timestamp (w_cache w) < t → served self (compressed_signers reply) →
  w_cache w' = {| compressed_allowed_signers := compressed_signers reply;
                  expiry_timestamp := t + validity self |} →
  consistent self w0 (mkSystem w' (unlock i wr) (<[i := Replied t reply]> reqs)
    ((t, compressed_signers reply) :: refs)).
Proof.
  intros HV Hc Hi Ht Hserved Hw'. destruct Hc as [Hl Hwr Hca Hf Hsp Hin Hse Hre]. cbn in *.
  pose proof (proj1 (Hl i _ Hi) I) as ->. split; cbn; rewrite ?Hw'.
  - intros j q [(-> & <- & _)|[Hne Hq]]%list_lookup_insert_Some.
    + split; [done|]. by intros ?%unlock_self.
    + rewrite unlock_other by done. by apply Hl.
  - intros j Hj. unfold unlock in Hj. by rewrite decide_True in Hj.
  - done.
  - intros j u [(-> & [=] & _)|[Hne Hq]]%list_lookup_insert_Some.
    exfalso. apply Hne. by injection (proj1 (Hl j _ Hq) I) as ->.
  - constructor; [done|]. rewrite Hca in Ht. destruct refs as [|[t1 b1] refs]; [constructor|].
    cbn in Ht. apply StronglySorted_inv in Hsp as [_ Hsp]. constructor; [done|].
    eapply Forall_impl; [exact Hsp|]. intros [t2 b2]. cbn. lia.
  - constructor; [|done]. cbn. rewrite Hca in Ht. destruct refs as [|[t1 b1] refs]; [done|].
    apply Forall_inv in Hin. cbn in *. lia.
  - by constructor.
  - intros j u r [(-> & [= <- <-] & _)|[Hne Hq]]%list_lookup_insert_Some.
    + right. exists t. split; [set_solver|lia].
    + destruct (Hre j u r Hq) as [?|(t0 & Hin0 & ?)]; [by left|right].
      exists t0. split; [set_solver|done].
Qed.

Lemma handler_step_consistent `{!AuthorizerLaws A} (self : server) w0 i s s' :
  0 ≤ validity self →
  consistent self w0 s → handler_step self i s s' → consistent self w0 s'.
Proof.
  intros HV Hc Hstep. destruct Hstep as
    [w wr reqs refs request w' o Hi Hrun|w reqs refs t Hi|w reqs refs t Hi
    |w wr reqs refs t reply Hi Hr|w wr reqs refs t Hi Hr|w wr reqs refs t w' o Hi Hrun].
  - pose proof (admit_request_same_cache self request w) as Hs. rewrite Hrun in Hs.
    eapply consistent_phase; [done|done|by eexists|done| |by destruct o..].
    rewrite <-(co_lock _ _ _ Hc i _ Hi). by destruct o.
  - eapply consistent_phase; [done|done|by eexists|done| |destruct (cached_reply _ _) eqn:Hr; naive_solver..].
    by destruct (cached_reply _ _).
  - eapply consistent_phase; [done|done|by eexists| |done..]. intros j Hne. split; congruence.
  - eapply consistent_phase; [done|done|by eexists|eauto| |done|by intros ? ? [= <- <-]].
    split; [done|]. by intros ?%unlock_self.
  - eapply consistent_phase; [done|done|by eexists|done| |by intros ? [= <-]|done].
    exact (co_lock _ _ _ Hc i _ Hi).
  - pose proof (co_fetching _ _ _ Hc i t Hi) as Ht. cbn in Ht.
    apply refresh_cache_run in Hrun. destruct o as [reply|e|]; cbn in *.
    2,3: eapply consistent_phase; [done|done|by eexists|eauto| |done..];
      split; [done|]; by intros ?%unlock_self.
    destruct Hrun as [Hserved Hw]. exact (consistent_refresh _ _ _ _ _ _ _ _ _ _ HV Hc Hi Ht Hserved Hw).
Qed.

Lemma other_step_consistent (self : server) w0 s s' :
  consistent self w0 s → other_step s s' → consistent self w0 s'.
Proof.
  intros Hc Hstep. destruct Hstep as [i w wr reqs refs p Hi Hp|w w' wr reqs refs Hw].
  - eapply consistent_phase; [done|done|by eexists|eauto| |done..].
    split; [done|]. by intros ?%unlock_self.
  - destruct Hc as [Hl Hwr Hca Hf Hsp Hin Hse Hre]. cbn in *. by split; cbn; rewrite ?Hw.
Qed.

Lemma reachable_consistent `{!AuthorizerLaws A} (self : server) w0 requests s :
  0 ≤ validity self → rtc (system_step self) (initial w0 requests) s → consistent self w0 s.
Proof.
  intros HV. apply (rtc_ind_r (λ s, consistent self w0 s)); [apply initial_consistent|].
  intros s1 s2 _ [[i Hstep]|Hstep] Hc.
  - by eapply handler_step_consistent.
  - by eapply other_step_consistent.
Qed.

(** ** Progress *)

(** How many steps of the handler a request has left at most. *)
Definition steps_left (p : phase) : nat :=
  match p with
  | Arrived _ => 5 | Waiting _ => 4 | Expired _ => 3 | Locked _ => 2 | Fetching _ => 1
  | Replied _ _ | Failed _ => 0
  end.
Definition all_steps_left (s : system) : nat := sum_list (steps_left <$> sy_requests s).

Lemma sum_list_insert (l : list nat) i x y :
  l !! i = Some x → (sum_list (<[i := y]> l) + x = sum_list l + y)%nat.
Proof.
  revert i. induction l as [|z l IH]; intros [|i] Hi; [done..| |]; simpl in *.
  - injection Hi as ->. lia.
  - specialize (IH _ Hi). lia.
Qed.

Lemma fewer_steps_left w w' wr wr' reqs refs refs' i p q :
  reqs !! i = Some p → (steps_left q < steps_left p)%nat →
  (all_steps_left (mkSystem w' wr' (<[i := q]> reqs) refs')
    < all_steps_left (mkSystem w wr reqs refs))%nat.
Proof.
  intros Hi Hlt. unfold all_steps_left. cbn. rewrite list_fmap_insert.
  pose proof (sum_list_insert (steps_left <$> reqs) i (steps_left p) (steps_left q)) as Hs.
  rewrite list_lookup_fmap, Hi in Hs. specialize (Hs eq_refl). lia.
Qed.

Lemma handler_step_decreases (self : server) i s s' :
  handler_step self i s s' → (all_steps_left s' < all_steps_left s)%nat.
Proof.
  destruct 1; (eapply fewer_steps_left; [done|]).
  - destruct o; cbn; lia.
  - destruct (cached_reply _ _); cbn; lia.
  - cbn. lia.
  - cbn. lia.
  - cbn. lia.
  - destruct o; cbn; lia.
Qed.

(** The holder of the lock can always go on. *)
Lemma holder_steps (self : server) i w wr reqs refs p :
  reqs !! i = Some p → holds_lock p → ∃ s', handler_step self i (mkSystem w wr reqs refs) s'.
Proof.
  intros Hi Hp. destruct p as [| | |t|t| |]; try done.
  - destruct (cached_reply t (w_cache w)) eqn:Hr; eexists.
    + by eapply step_cached.
    + by eapply step_expired.
  - destruct (refresh_cache self t w) as [w' o] eqn:Hr. eexists. by eapply step_refresh.
Qed.

Lemma consistent_steps (self : server) w0 s i p :
  consistent self w0 s → sy_requests s !! i = Some p → steps_left p ≠ 0%nat →
  ∃ j s', handler_step self j s s'.
Proof.
  intros Hc Hi Hp. destruct s as [w [j|] reqs refs]; cbn in *.
  { destruct (co_writer _ _ _ Hc j eq_refl) as [q Hq]. cbn in Hq.
    exists j. eapply holder_steps; [exact Hq|]. by apply (co_lock _ _ _ Hc j q Hq). }
  destruct p as [request|t|t|t|t|t reply|e]; try done; exists i.
  - destruct (admit_request self request w) as [w' o] eqn:Hr. eexists. by eapply step_admit.
  - eexists. by eapply step_read.
  - eexists. by eapply step_lock.
  - by eapply holder_steps.
  - by eapply holder_steps.
Qed.

(** ** Properties *)

(** C29: in every interleaving of requests, of requests that are dropped and
    of the other handlers, a reply for the time [t] is a list that the
    authorizer gave and that was fetched for a time [t0] with [t] at most one
    validity period after it - or [t] lies before the start value of the
    cache. *)
Theorem allowed_signers_are_fresh `{!AuthorizerLaws A} (self : server) w requests s i t reply :
  0 ≤ cache_validity_length (allowed_signers self) →
  expiry_timestamp (w_cache w) = 0 →
  rtc (system_step self) (initial w requests) s →
  sy_requests s !! i = Some (Replied t reply) → 0 < t →
  served self (compressed_signers reply) ∧
  ∃ t0, (t0, compressed_signers reply) ∈ sy_refreshes s ∧
    t ≤ t0 + cache_validity_length (allowed_signers self).
Proof.
  intros HV Hw Hreach Hi Ht. apply reachable_consistent in Hreach as Hc; [|done].
  destruct (co_replied _ _ _ Hc _ _ _ Hi) as [[Hle _]|(t0 & Hin & Hle)]; [lia|].
  split; [|by exists t0].
  apply (proj1 (Forall_forall _ _) (co_served _ _ _ Hc) _ Hin).
Qed.

(** C28: however many requests find the cache expired at the same time, the
    list is fetched once for all of them: in every interleaving two fetches
    that filled the cache are for times more than a validity period apart. *)
Theorem allowed_signers_are_fetched_once_per_period `{!AuthorizerLaws A} (self : server)
    w requests s i j t1 t2 b1 b2 :
  0 ≤ cache_validity_length (allowed_signers self) →
  rtc (system_step self) (initial w requests) s →
  sy_refreshes s !! i = Some (t2, b2) → sy_refreshes s !! j = Some (t1, b1) → (i < j)%nat →
  t1 + cache_validity_length (allowed_signers self) < t2.
Proof.
  intros HV Hreach Hi Hj Hij. apply reachable_consistent in Hreach as Hc; [|done].
  pose proof (co_spaced _ _ _ Hc) as Hs. revert i j Hi Hj Hij.
  induction Hs as [|r l Hs IH Hall]; [done|]. intros [|i] [|j] Hi Hj Hij; cbn in *; simplify_eq.
  - lia.
  - apply (proj1 (Forall_forall _ _) Hall (t1, b1)). by apply list_elem_of_lookup_2 in Hj.
  - lia.
  - apply (IH i j); [done..|lia].
Qed.

(** C30: requests cannot block each other: in every reachable state in which a
    request is unanswered the handler can take a step, and each of its steps
    brings the requests closer to their answers, five at most for each. *)
Theorem allowed_signers_requests_are_answered `{!AuthorizerLaws A} (self : server) w requests s :
  0 ≤ cache_validity_length (allowed_signers self) →
  rtc (system_step self) (initial w requests) s →
  (all_steps_left (initial w requests) = 5 * length requests)%nat ∧
  (all_steps_left s ≠ 0%nat → ∃ i s', handler_step self i s s') ∧
  (∀ i s', handler_step self i s s' → (all_steps_left s' < all_steps_left s)%nat) ∧
  (all_steps_left s = 0%nat → ∀ i p, sy_requests s !! i = Some p →
    (∃ t reply, p = Replied t reply) ∨ ∃ e, p = Failed e).
Proof.
  intros HV Hreach. apply reachable_consistent in Hreach as Hc; [|done]. split_and!.
  - unfold all_steps_left. cbn. clear. induction requests; cbn in *; lia.
  - intros Hne. assert (∃ i p, sy_requests s !! i = Some p ∧ steps_left p ≠ 0%nat) as (i & p & Hi & Hp).
    { clear -Hne. unfold all_steps_left in Hne. induction (sy_requests s) as [|p l IH]; [done|].
      destruct (decide (steps_left p = 0%nat)) as [Hz|Hz]; [|by exists 0%nat, p].
      cbn in Hne. rewrite Hz in Hne. destruct (IH Hne) as (i & q & Hi & Hq). by exists (S i), q. }
    by eapply consistent_steps.
  - intros i s' Hs. exact (handler_step_decreases self i s s' Hs).
  - intros Hz i p Hi. unfold all_steps_left in Hz.
    assert (steps_left p = 0%nat) as Hp; [|destruct p; eauto; done].
    revert i Hi Hz. induction (sy_requests s) as [|q l IH]; [done|].
    intros [|i] Hi Hz; cbn in *; simplify_eq; [lia|]. apply (IH i Hi). lia.
Qed.

(** The handler run in one go is one of the interleavings: a request
    alone on the server is answered by the same steps, with the same effects. *)
Theorem allowed_signers_handler_is_a_schedule (self : server) request w w' o :
  allowed_signers_handler self request w = (w', o) →
  ∃ t refs, rtc (handler_step self 0) (initial w [request])
    (mkSystem w' None [outcome_phase (Replied t) o] refs).
Proof.
  unfold allowed_signers_handler. intros Hrun. unfold mbind at 1, st_bind at 1 in Hrun.
  destruct (admit_request self request w) as [w1 o1] eqn:Ha.
  pose proof (step_admit self 0 w None [Arrived request] [] request w1 o1 eq_refl Ha) as Hstep.
  destruct o1 as [t|e|].
  2,3: injection Hrun as <- <-; exists 0, []; by apply rtc_once.
  exists t. unfold mbind at 1, st_bind at 1 in Hrun. cbn [gets] in Hrun.
  pose proof (step_read self 0 w1 [Waiting t] [] t eq_refl) as Hread.
  destruct (cached_reply t (w_cache w1)) as [reply|] eqn:Hc.
  { injection Hrun as <- <-. exists []. eapply rtc_l; [exact Hstep|]. by apply rtc_once. }
  unfold mbind at 1, st_bind at 1 in Hrun. cbn [gets] in Hrun. rewrite Hc in Hrun.
  eexists. eapply rtc_l; [exact Hstep|]. eapply rtc_l; [exact Hread|].
  eapply rtc_l; [by apply (step_lock self 0 w1 [Expired t] [] t)|].
  eapply rtc_l; [by apply (step_expired self 0 w1 (Some 0%nat) [Locked t] [] t)|].
  apply rtc_once, (step_refresh self 0 w1 (Some 0%nat) [Fetching t] [] t w' o eq_refl Hrun).
Qed.

(** Every request of an identity, answered or refused, starts its
    cool-down anew: as long as its entry is in the limiter, the next one is
    refused exactly when it comes earlier than the cool-down after the last;
    an identity the limiter does not know is let through. *)
Theorem rate_limit_restarts_with_every_request `{!LruLaws} (self : server) ids t1 t2 w1 w2 w3 b1 :
  let cooldown := rate_limit_cooldown (allowed_signers self) in
  in_duration (t1 + cooldown) → in_duration (t2 + cooldown) →
  is_rate_limited self ids t1 w1 = (w2, Ret b1) →
  (lru_peek (w_limiter w1) ids = None → b1 = false) ∧
  (lru_peek (w_limiter w3) ids = lru_peek (w_limiter w2) ids →
    (is_rate_limited self ids t2 w3).2 = Ret (bool_decide (t2 < t1 + cooldown))).
Proof.
  cbn zeta. intros Hd1 Hd2 Hrun1.
  destruct (is_rate_limited_run self ids t1 w1 Hd1) as (l1 & Hrun1' & Hp1).
  rewrite Hrun1' in Hrun1. injection Hrun1 as <- Hb. split.
  - intros Hnone. by rewrite Hnone in Hb.
  - cbn. intros Hp3. destruct (is_rate_limited_run self ids t2 w3 Hd2) as (l2 & -> & _).
    cbn. by rewrite Hp3, Hp1.
Qed.

(** A request that is refused costs nothing else. *)
Lemma limited_request_is_refused (self : server) request w w' e :
  admit_request self request w = (w', Raise e) →
  allowed_signers_handler self request w = (w', Raise e).
Proof. intros Ha. unfold allowed_signers_handler, mbind, st_bind. by rewrite Ha. Qed.
End AllowedSigners.
