(* ===== verification/Service.v ===== *)
(** * The server over time

    The handlers of [rustica/src/server.rs] as one service: a history is the
    list of the requests it was asked with the outcomes it gave, one after the
    other, in the state they leave for each other.  What holds of every
    history: who was challenged before, what the log accounts for, what the
    table of registered keys has become. *)
From Stdlib Require Import ZArith Lia.
From S2P Require Import Prelude Machine Text Deps Key Auth Logging Schema World.
From S2P Require Import Database Authorizer Signing Proto Server Validation Issuance.
From S2P Require Import Registration X509Issuance AllowedSigners.

Section Service.
Context `{Lru, SshCerts, Rcgen, Hmac, Env, Hex, X509, !Attestation, !Zstd} {A : Type}
  `{!Authorizer A, !AuthorizerLaws A}.
Context (srv : RusticaServer A).

(** ** Histories *)

(** A request and how its handler ended; a handler that panics ends its task
    only. *)
Inductive exchange : Type :=
| XChallenge (req : Request ChallengeRequest) (r : outcome Status ChallengeResponse)
| XCertificate (req : Request CertificateRequest) (r : outcome Status CertificateResponse)
| XRegisterKey (req : Request RegisterKeyRequest) (r : outcome Status ())
| XRegisterU2fKey (req : Request RegisterU2fKeyRequest) (r : outcome Status ())
| XAttestedX509 (req : Request AttestedX509CertificateRequest)
    (r : outcome Status AttestedX509CertificateResponse)
| XAllowedSigners (req : Request ()) (r : outcome Status AllowedSignersResponse).

Definition serves (w : World) (x : exchange) (w' : World) : Prop :=
  match x with
  | XChallenge req r => challenge_handler srv req w = (w', r)
  | XCertificate req r => certificate_handler srv req w = (w', r)
  | XRegisterKey req r => register_key_handler srv req w = (w', r)
  | XRegisterU2fKey req r => register_u2f_key_handler srv req w = (w', r)
  | XAttestedX509 req r => attested_x509_handler srv req w = (w', r)
  | XAllowedSigners req r => allowed_signers_handler srv req w = (w', r)
  end.

Inductive history : World → list exchange → World → Prop :=
| history_start w : history w [] w
| history_serve w h w1 x w2 : history w h w1 → serves w1 x w2 → history w (h ++ [x]) w2.

(** The same by computation. *)
Inductive Call : Type :=
| CChallenge (req : Request ChallengeRequest)
| CCertificate (req : Request CertificateRequest)
| CRegisterKey (req : Request RegisterKeyRequest)
| CRegisterU2fKey (req : Request RegisterU2fKeyRequest)
| CAttestedX509 (req : Request AttestedX509CertificateRequest)
| CAllowedSigners (req : Request ()).

Definition serve (c : Call) (w : World) : World * exchange :=
  match c with
  | CChallenge req => let '(w', r) := challenge_handler srv req w in (w', XChallenge req r)
  | CCertificate req => let '(w', r) := certificate_handler srv req w in (w', XCertificate req r)
  | CRegisterKey req => let '(w', r) := register_key_handler srv req w in (w', XRegisterKey req r)
  | CRegisterU2fKey req =>
      let '(w', r) := register_u2f_key_handler srv req w in (w', XRegisterU2fKey req r)
  | CAttestedX509 req => let '(w', r) := attested_x509_handler srv req w in (w', XAttestedX509 req r)
  | CAllowedSigners req =>
      let '(w', r) := allowed_signers_handler srv req w in (w', XAllowedSigners req r)
  end.

Fixpoint serve_all (calls : list Call) (w : World) : World * list exchange :=
  match calls with
  | [] => (w, [])
  | c :: calls =>
      let '(w1, x) := serve c w in let '(w2, h) := serve_all calls w1 in (w2, x :: h)
  end.

Lemma serve_serves c w w' x : serve c w = (w', x) → serves w x w'.
Proof.
  destruct c; cbn; match goal with |- (let '(_, _) := ?m in _) = _ → _ => destruct m eqn:Hm end;
    by intros [= <- <-].
Qed.
Lemma history_cons w x w1 h w2 : serves w x w1 → history w1 h w2 → history w (x :: h) w2.
Proof.
  intros Hx Hh. induction Hh as [w1|w1 h w2 y w3 _ IH Hy].
  - apply (history_serve w [] w); [constructor|done].
  - rewrite app_comm_cons. by eapply history_serve; [apply IH|].
Qed.
Lemma serve_all_history calls w w' h : serve_all calls w = (w', h) → history w h w'.
Proof.
  revert w h. induction calls as [|c calls IH]; cbn; intros w h.
  - intros [= <- <-]. constructor.
  - destruct (serve c w) as [w1 x] eqn:Hc. destruct (serve_all calls w1) as [w2 h2] eqn:Hh.
    intros [= <- <-]. eapply history_cons; [by eapply serve_serves|auto].
Qed.

Lemma history_app w h1 h2 w' :
  history w (h1 ++ h2) w' ↔ ∃ w1, history w h1 w1 ∧ history w1 h2 w'.
Proof.
  split.
  - intros Hh. remember (h1 ++ h2) as h eqn:Heq. revert h2 Heq.
    induction Hh as [w|w h w1 x w2 Hh IH Hx]; intros h2 Heq.
    + symmetry in Heq. apply app_eq_nil in Heq as [-> ->]. exists w. split; constructor.
    + destruct h2 as [|y h2 _] using rev_ind.
      * rewrite app_nil_r in Heq. subst h1. exists w2. split; [by econstructor|constructor].
      * rewrite app_assoc in Heq. apply app_inj_tail in Heq as [-> ->].
        destruct (IH h2 eq_refl) as (w3 & Ha & Hb). exists w3. split; [done|by econstructor].
  - intros (w1 & Ha & Hb). induction Hb as [w1|w1 h w2 x w3 _ IH Hx].
    + by rewrite app_nil_r.
    + rewrite app_assoc. by eapply history_serve; [apply IH|].
Qed.

Lemma history_snoc w h x w' :
  history w (h ++ [x]) w' → ∃ w1, history w h w1 ∧ serves w1 x w'.
Proof.
  intros Hh. inversion Hh as [? Heq|? h' w1 ? ? Ha Hx Heq]; subst.
  - by destruct h.
  - match goal with Heq : _ ++ [_] = _ ++ [_] |- _ => apply app_inj_tail in Heq as [-> ->] end.
    by exists w1.
Qed.

(** A request in the middle of a history. *)
Lemma history_middle w h1 x h2 w' :
  history w (h1 ++ x :: h2) w' → ∃ w1 w2, history w h1 w1 ∧ serves w1 x w2 ∧ history w2 h2 w'.
Proof.
  rewrite cons_middle, app_assoc.
  intros (w2 & (w1 & Ha & Hx)%history_snoc & Hb)%history_app. by exists w1, w2.
Qed.

(** ** The log *)

Lemma challenge_handler_same_audit req : preserves same_audit (challenge_handler srv req).
Proof. unfold challenge_handler. preserve. Qed.

Lemma allowed_signers_handler_same_audit req : preserves same_audit (allowed_signers_handler srv req).
Proof.
  pose proof (frame_same_audit _ (get_allowed_signers_frame (authorizer srv))) as Hg.
  unfold allowed_signers_handler, admit_request, is_rate_limited, refresh_cache, fetch_signers, compress.
  preserve. all: done.
Qed.

(** The requests that were granted something, and what the log says of each. *)
Definition grants (x : exchange) : bool :=
  match x with
  | XCertificate _ (Ret resp) => bool_decide (cs_error_code resp = 0)
  | XRegisterKey _ (Ret _) | XRegisterU2fKey _ (Ret _) | XAttestedX509 _ (Ret _) => true
  | _ => false
  end.

Definition peer_info {M} (req : Request M) (info : MtlsCertificateInfo) : Prop :=
  ∃ peers peer, peer_certs req = Some peers ∧ head peers = Some peer ∧
    extract_certificate_information peer = Ok info.

(** The authority a request asks for. *)
Definition asked_authority (key_id : string) : string :=
  if is_empty key_id then default_authority (signer srv) else key_id.

(** The log entry [l] is of the exchange [x]. *)
Definition accounts_for (l : Log) (x : exchange) : Prop :=
  match l, x with
  | LogCertificateIssued ci, XCertificate req (Ret resp) => ∃ cert info,
      cs_certificate resp = cert_to_string cert ∧ describes ci cert ∧
      peer_info req info ∧ ci_mtls_identities ci = identities info ∧
      ci_authority ci = asked_authority (cq_key_id (into_inner req))
  | LogKeyRegistered ki, XRegisterKey req (Ret _) => ∃ info chal pk,
      peer_info req info ∧ rq_challenge (into_inner req) = Some chal ∧
      pk_from_string (ch_pubkey chal) = Some pk ∧
      ki = {| ki_fingerprint := pk_hash pk; ki_mtls_identities := identities info |}
  | LogKeyRegistered ki, XRegisterU2fKey req (Ret _) => ∃ info chal pk,
      peer_info req info ∧ uq_challenge (into_inner req) = Some chal ∧
      pk_from_string (ch_pubkey chal) = Some pk ∧
      ki = {| ki_fingerprint := pk_hash pk; ki_mtls_identities := identities info |}
  | LogX509CertificateIssued xi, XAttestedX509 req (Ret resp) => ∃ info params k ca n,
      peer_info req info ∧ xi_mtls_identities xi = identities info ∧
      xi_authority xi = asked_authority (xq_key_id (into_inner req)) ∧
      serialize_der_with_signer (params, k) ca n = Some (xs_certificate resp) ∧
      not_before params = xi_valid_after xi ∧ not_after params = xi_valid_before xi ∧
      serial_number params = Some (le_bytes 8 (xi_serial xi)) ∧
      xi_extensions xi = logged_extensions (custom_extensions params)
  | _, _ => False
  end.

#[local] Hint Resolve challenge_handler_same_audit allowed_signers_handler_same_audit : core.

Lemma registered_accounts_for ip {M} (req : Request M) peers chal chain w w' pk ids att :
  peer_certs req = Some peers → registered srv ip peers chal chain w w' pk ids att →
  ∃ info, peer_info req info ∧ pk_from_string (ch_pubkey chal) = Some pk ∧
    audit_log w' = audit_log w ++
      [LogKeyRegistered {| ki_fingerprint := pk_hash pk; ki_mtls_identities := identities info |}].
Proof.
  intros Hp [(r & w1 & Hv) _ _ Hl].
  apply validate_request_names in Hv as (peer & info & Hh & He & -> & Hpk).
  exists info. split; [by exists peers, peer|done].
Qed.

Lemma serves_audit w x w' :
  SshCertsLaws → (∀ a s, authorities (signer srv) !! a = Some s → SignerLaws s) →
  serves w x w' →
  if grants x then ∃ l, audit_log w' = audit_log w ++ [l] ∧ accounts_for l x else same_audit w w'.
Proof.
  intros Hssh Hlaws. destruct x as [req r|req r|req r|req r|req r|req r]; cbn; intros Hx.
  - by apply (run_preserves same_audit _ _ _ _ (challenge_handler_same_audit req)) in Hx.
  - destruct r as [resp|e|]; [|by apply certificate_handler_fails in Hx..].
    apply certificate_handler_cases in Hx as [(e & He & -> & Hs)|Hi]; [| |done].
    { rewrite bool_decide_false; [done|]. cbn. intros Hc. apply He. by apply (inj error_code). }
    destruct Hi as (addr & peers & chal & pk & ids & refresh & ty & ca & authz & cert & Hi).
    rewrite bool_decide_true by apply Hi. eexists. split; [apply Hi|].
    destruct (iss_validated _ _ _ _ _ _ _ _ _ _ _ _ _ _ _ Hi) as [w1 Hv].
    apply validate_request_names in Hv as (peer & info & Hh & He & -> & _).
    exists cert, info. split; [apply Hi|].
    split; [exact (issued_described _ _ _ _ _ _ _ _ _ _ _ _ _ _ _ Hssh Hlaws Hi)|].
    split; [|done]. exists peers, peer. split; [apply Hi|done].
  - destruct r as [[]|e|]; [|by apply register_key_handler_fails in Hx..].
    apply register_key_handler_Ret in Hx as (peers & chal & pk & ids & att & Hp & Hc & Hreg).
    apply (registered_accounts_for _ req) in Hreg as (info & Hi & Hpk & Hl); [|done].
    eexists. split; [exact Hl|]. by exists info, chal, pk.
  - destruct r as [[]|e|]; [|by apply register_u2f_key_handler_fails in Hx..].
    apply register_u2f_key_handler_Ret in Hx as (peers & chal & pk & ids & att & Hp & Hc & Hreg).
    apply (registered_accounts_for _ req) in Hreg as (info & Hi & Hpk & Hl); [|done].
    eexists. split; [exact Hl|]. by exists info, chal, pk.
  - destruct r as [resp|e|]; [|by apply attested_x509_handler_fails in Hx..].
    apply attested_x509_handler_Ret in Hx as (info & key & authz & Hi).
    eexists. split; [apply Hi|].
    destruct (xd_peer _ _ _ _ _ _ _ _ Hi) as (peer & Hp & He).
    destruct (xd_signed _ _ _ _ _ _ _ _ Hi) as (params & k & ca & n & _ & _ & Hs).
    eexists info, _, k, ca, n. split; [by exists [peer], peer|]. by split; [|split].
  - by apply (run_preserves same_audit _ _ _ _ (allowed_signers_handler_same_audit req)) in Hx.
Qed.

(** Over a history. *)
Lemma history_audit w h w' :
  SshCertsLaws → (∀ a s, authorities (signer srv) !! a = Some s → SignerLaws s) →
  history w h w' →
  ∃ entries, audit_log w' = audit_log w ++ entries ∧
    Forall2 accounts_for entries (filter grants h).
Proof.
  intros Hssh Hlaws Hh. induction Hh as [w|w h w1 x w2 _ (entries & Hl & Hf) Hx].
  { exists []. by rewrite app_nil_r. }
  apply serves_audit in Hx; [|done..]. rewrite filter_app.
  assert (filter grants [x] = if grants x then [x] else []) as -> by (cbn; by destruct (grants x)).
  destruct (grants x).
  - destruct Hx as (l & Hx & Ha). exists (entries ++ [l]).
    rewrite Hx, Hl, app_assoc. split; [done|]. apply Forall2_app; [done|]. by repeat constructor.
  - exists entries. rewrite app_nil_r. split; [|done].
    unfold same_audit in Hx. by rewrite Hx.
Qed.

(** ** Challenges *)

(** The challenge a request presents, and whom its client certificate names. *)
Definition presented (x : exchange) : option Challenge :=
  match x with
  | XCertificate req _ => cq_challenge (into_inner req)
  | XRegisterKey req _ => rq_challenge (into_inner req)
  | XRegisterU2fKey req _ => uq_challenge (into_inner req)
  | _ => None
  end.
Definition names (x : exchange) (info : MtlsCertificateInfo) : Prop :=
  match x with
  | XChallenge req _ => peer_info req info
  | XCertificate req _ => peer_info req info
  | XRegisterKey req _ => peer_info req info
  | XRegisterU2fKey req _ => peer_info req info
  | XAttestedX509 req _ => peer_info req info
  | XAllowedSigners req _ => peer_info req info
  end.

(** The key [pk] got what [x] asked for. *)
Definition granted_to (x : exchange) (pk : PublicKey) (ids : list string) : Prop :=
  match x with
  | XCertificate _ (Ret resp) => ∃ cert,
      cs_certificate resp = cert_to_string cert ∧ pk_hash (c_key cert) = pk_hash pk
  | XRegisterKey _ (Ret _) | XRegisterU2fKey _ (Ret _) => ∃ p w1 w2,
      register_key (authorizer srv) p w1 = (w2, Ret ()) ∧ rp_fingerprint p = pk_hash pk ∧
      rp_pubkey p = pk_to_string pk ∧ rp_mtls_identities p = ids
  | _ => False
  end.

(** In [h] the server has put the tag of [text] into a challenge. *)
Definition tagged (h : list exchange) (text : string) : Prop :=
  ∃ req resp info, XChallenge req (Ret resp) ∈ h ∧ peer_info req info ∧
    text = hmac_text (time resp) (cr_pubkey (into_inner req)) (identities info).

(** Nobody but the server makes tags: a tag that is right for the text the
    server compares it with is one the server has made for that text. *)
Definition unforgeable (h : list exchange) : Prop :=
  ∀ h1 x h2 chal info rt cert, h = h1 ++ x :: h2 →
    presented x = Some chal → names x info → parse_u64 (ch_challenge_time chal) = Some rt →
    cert_from_string (ch_challenge chal) = Ok cert →
    let text := hmac_text (int_to_string rt) (ch_pubkey chal) (identities info) in
    hex_decode (c_key_id cert) = Some (hmac_sign (hmac_key srv) (as_bytes text)) → tagged h1 text.

(** No client certificate has a name with a dash. *)
Definition dashless (h : list exchange) : Prop :=
  ∀ x info, x ∈ h → names x info → ¬ has_char "-"%char (join "," (identities info)).

(** What a grant that needs a challenge rests on. *)
Lemma granted_validated w x w' chal :
  SshCertsLaws → (∀ a s, authorities (signer srv) !! a = Some s → SignerLaws s) →
  serves w x w' → grants x = true → presented x = Some chal →
  ∃ peers pk ids r w1, validate_request srv (hmac_key srv) peers chal w = (w1, Ret (pk, ids, r)) ∧
    granted_to x pk ids ∧
    ∀ info peer, head peers = Some peer → extract_certificate_information peer = Ok info → names x info.
Proof.
  intros Hssh Hlaws. destruct x as [|req r|req r|req r|req r|req r]; cbn; try done; intros Hx Hg Hpre.
  - destruct r as [resp| |]; [|done..]. apply bool_decide_eq_true in Hg.
    apply certificate_handler_cases in Hx as [(e & He & -> & _)|Hi]; [by destruct e| |done].
    destruct Hi as (addr & peers & chal' & pk & ids & refresh & ty & ca & authz & cert & Hi).
    destruct (iss_peer _ _ _ _ _ _ _ _ _ _ _ _ _ _ _ Hi) as (_ & Hp & Hc). simplify_eq.
    destruct (iss_validated _ _ _ _ _ _ _ _ _ _ _ _ _ _ _ Hi) as [w1 Hv].
    exists peers, pk, ids, refresh, w1. split; [done|]. split.
    + exists cert. split; [apply Hi|]. by apply issued_says in Hi as [? _].
    + intros info peer Hh He. by exists peers, peer.
  - destruct r as [[]| |]; [|done..].
    apply register_key_handler_Ret in Hx as (peers & chal' & pk & ids & att & Hp & Hc & Hreg).
    simplify_eq. destruct Hreg as [(r & w1 & Hv) _ (w2 & w3 & _ & _ & Hr) _].
    exists peers, pk, ids, r, w1. split; [done|]. split; [by eexists _, w2, w3|].
    intros info peer Hh He. by exists peers, peer.
  - destruct r as [[]| |]; [|done..].
    apply register_u2f_key_handler_Ret in Hx as (peers & chal' & pk & ids & att & Hp & Hc & Hreg).
    simplify_eq. destruct Hreg as [(r & w1 & Hv) _ (w2 & w3 & _ & _ & Hr) _].
    exists peers, pk, ids, r, w1. split; [done|]. split; [by eexists _, w2, w3|].
    intros info peer Hh He. by exists peers, peer.
Qed.

(** When a challenge of a history was made. *)
Lemma challenge_made w h w' req resp :
  SshCertsLaws → history w h w' → XChallenge req (Ret resp) ∈ h →
  ∃ n ts, clock n = Some ts ∧ time resp = int_to_string (as_secs ts).
Proof.
  intros Hssh Hh (h1 & h2 & ->)%list_elem_of_split.
  apply history_middle in Hh as (w1 & w2 & _ & Hx & _). cbn in Hx.
  apply challenge_handler_for in Hx as (ts & info & pk & cert & Hc & _ & Hf).
  exists (w_clock w1), ts. split; [done|apply Hf].
Qed.

(** ** Properties *)

(** C1: client and server agree on the challenge, over any history: if tags are
    not forged and no client has a name with a dash, whatever the server grants
    on a challenge - a certificate, a registration - goes to a key for which
    the same names had asked for a challenge before, and got it, at most five
    seconds before on the server's own clock; and where the server asks for a
    proof, the request carried a certificate signed by that key. *)
Theorem grants_answer_recent_challenges w h w' h1 x h2 chal :
  EnvLaws → HmacLaws → SshCertsLaws →
  (∀ a s, authorities (signer srv) !! a = Some s → SignerLaws s) →
  (∀ n d, clock n = Some d → 5 ≤ as_secs d) →
  history w h w' → unforgeable h → dashless h →
  h = h1 ++ x :: h2 → grants x = true → presented x = Some chal →
  ∃ pk info n ts, granted_to x pk (identities info) ∧ names x info ∧ clock n = Some ts ∧
    (∃ req0 resp0 info0 n0 ts0,
      XChallenge req0 (Ret resp0) ∈ h1 ∧ peer_info req0 info0 ∧
      pk_from_string (cr_pubkey (into_inner req0)) = Some pk ∧
      join "," (identities info0) = join "," (identities info) ∧
      clock n0 = Some ts0 ∧ time resp0 = int_to_string (as_secs ts0) ∧
      as_secs ts0 ≤ as_secs ts ≤ as_secs ts0 + 5) ∧
    (require_rustica_proof srv = true → ∃ c, cert_from_string (ch_challenge chal) = Ok c ∧
      pk_hash (c_signature_key c) = pk_hash pk).
Proof.
  intros Henv Hhmac Hssh Hlaws Hclock Hh Hforge Hdash -> Hg Hpre.
  pose proof Hh as (w1 & w2 & Hbefore & Hx & _)%history_middle.
  apply (granted_validated _ _ _ chal) in Hx as (peers & pk & ids & r & w3 & Hv & Hto & Hnames); [|done..].
  apply validate_request_inv in Hv
    as (ts & info & Hts & -> & [(peer & Hp & He) _ (rt & cert & Hrt & Hwin & Hcert & Htag & Hproof) Hpk] & _);
    [|done|done|by intros ? ?%Hclock].
  pose proof (Hnames info peer Hp He) as Hn.
  destruct (Hforge h1 x h2 chal info rt cert eq_refl Hpre Hn Hrt Hcert Htag)
    as (req0 & resp0 & info0 & Hin & Hinfo0 & Htext).
  destruct (challenge_made _ _ _ _ _ Hssh Hbefore Hin) as (n0 & ts0 & Hts0 & Htime).
  rewrite Htime in Htext.
  apply hmac_text_inj in Htext as (-> & Hkey & Hids).
  - exists pk, info, (w_clock w1), ts. split_and!; [done..| |].
    + exists req0, resp0, info0, n0, ts0. rewrite <-Hkey. split_and!; done || lia.
    + intros Hmode. rewrite Hmode in Hproof. destruct Hproof as [Hs Hk]. exists cert.
      split; [done|congruence].
  - by apply parse_u64_range in Hrt as [? _].
  - by pose proof (as_secs_range ts0 (clock_range _ _ Hts0)) as [? _].
  - eapply (Hdash x); [set_solver|done].
  - eapply (Hdash (XChallenge req0 (Ret resp0))); [set_solver|done].
Qed.

(** C22: the server accounts for everything it grants: whatever it was asked and
    however its handlers ended, what the log channel was told of certificates
    and keys over a history is one entry for each request that was granted
    something, in the order of the requests - with the fingerprint, the CA, the
    principals, the extensions and the period of the certificate that was
    answered, the key that was registered, the names of the client - and
    nothing else. *)
Theorem every_grant_is_accounted_for w h w' :
  SshCertsLaws → (∀ a s, authorities (signer srv) !! a = Some s → SignerLaws s) →
  history w h w' →
  ∃ entries, audit_log w' = audit_log w ++ entries ∧
    Forall2 accounts_for entries (filter grants h).
Proof.
  exact (history_audit w h w').
Qed.
End Service.

Section WithDatabase.
Context `{Lru, SshCerts, Rcgen, Hmac, Env, Hex, X509, Asn1, !Attestation, !Zstd}.
Context (srv : RusticaServer AuthorizationMechanism) (local : LocalDatabase).
Context (Hlocal : authorizer srv = MLocal local) (Hup : Local.db_up local).

(** ** The table of registered keys *)

Lemma challenge_same_db req : preserves same_db (challenge_handler srv req).
Proof. unfold challenge_handler. preserve. Qed.
Lemma certificate_same_db req :
  (∀ a s, authorities (signer srv) !! a = Some s → SignerLaws s) →
  preserves same_db (certificate_handler srv req).
Proof.
  intros Hlaws. pose proof (validate_request_same_db srv) as Hv.
  assert (∀ a c, preserves same_db (sign (signer srv) a c)) as Hs.
  { intros a c. unfold sign. destruct (authorities (signer srv) !! a) eqn:Ha; [|preserve].
    intros w. by apply (signer_sign_db _ (Hlaws a _ Ha)). }
  assert (∀ z, preserves same_db (date_of z)) as Hd by (intros z; unfold date_of; preserve).
  unfold certificate_handler. preserve.
Qed.
Lemma attested_x509_same_db req : preserves same_db (attested_x509_handler srv req).
Proof.
  assert (∀ z, preserves same_db (date_of z)) as Hd by (intros z; unfold date_of; preserve).
  unfold attested_x509_handler, issued_for_attested_key. preserve.
Qed.
Lemma allowed_signers_same_db req : preserves same_db (allowed_signers_handler srv req).
Proof.
  unfold allowed_signers_handler, admit_request, is_rate_limited, refresh_cache, fetch_signers, compress.
  preserve. all: done.
Qed.

(** The registrations that succeeded. *)
Definition registers (x : exchange) : bool :=
  match x with XRegisterKey _ (Ret _) | XRegisterU2fKey _ (Ret _) => true | _ => false end.

(** The row of a registration: the key that was proved, for the names of the
    client certificate. *)
Definition row_of (row : RegisteredKey) (x : exchange) : Prop :=
  ∃ chal info pk, presented x = Some chal ∧ names x info ∧
    pk_from_string (ch_pubkey chal) = Some pk ∧ rk_fingerprint row = pk_hash pk ∧
    rk_pubkey row = pk_to_string pk ∧ rk_user row = join "," (identities info).

(** What a registration adds. *)
Definition only_row_added (row : RegisteredKey) (db db' : Database) : Prop :=
  registered_keys db' = registered_keys db ++ [row] ∧
  rk_fingerprint row ∉ rk_fingerprint <$> registered_keys db.

Lemma registered_adds_row {M} (req : Request M) x ip peers chal chain w w' pk ids att :
  registered srv ip peers chal chain w w' pk ids att → presented x = Some chal →
  (∀ info peer, head peers = Some peer → extract_certificate_information peer = Ok info →
    names x info) →
  ∃ row, row_of row x ∧ only_row_added row (w_db w) (w_db w').
Proof.
  intros Hreg Hpre Hn.
  pose proof (registered_row _ _ _ _ _ _ _ _ _ _ _ Hlocal Hup Hreg) as (row & Hrow & Hf & Hk & Hu & Hnew).
  destruct Hreg as [(r & w1 & Hv) _ _ _].
  apply validate_request_names in Hv as (peer & info & Hh & He & -> & Hpk).
  exists row. split; [exists chal, info, pk; by split_and!; eauto|]. split; [done|by rewrite Hf].
Qed.

Lemma serves_registered_keys w x w' :
  (∀ a s, authorities (signer srv) !! a = Some s → SignerLaws s) →
  serves srv w x w' →
  if registers x then ∃ row, row_of row x ∧ only_row_added row (w_db w) (w_db w') else same_db w w'.
Proof.
  intros Hlaws. destruct x as [req r|req r|req r|req r|req r|req r]; cbn [registers serves]; intros Hx.
  - by apply (run_preserves same_db _ _ _ _ (challenge_same_db req)) in Hx.
  - by apply (run_preserves same_db _ _ _ _ (certificate_same_db req Hlaws)) in Hx.
  - destruct r as [[]|e|]; [|by apply (register_key_handler_fails_db srv local) in Hx..].
    apply register_key_handler_Ret in Hx as (peers & chal & pk & ids & att & Hp & Hc & Hreg).
    eapply (registered_adds_row req); [done|done|]. intros info peer Hh He. by exists peers, peer.
  - destruct r as [[]|e|]; [|by apply (register_u2f_key_handler_fails_db srv local) in Hx..].
    apply register_u2f_key_handler_Ret in Hx as (peers & chal & pk & ids & att & Hp & Hc & Hreg).
    eapply (registered_adds_row req); [done|done|]. intros info peer Hh He. by exists peers, peer.
  - by apply (run_preserves same_db _ _ _ _ (attested_x509_same_db req)) in Hx.
  - by apply (run_preserves same_db _ _ _ _ (allowed_signers_same_db req)) in Hx.
Qed.

(** C25: the table of registered keys is the history of the registrations: with
    the local database, whatever the server is asked, the table grows by one
    row for each registration that succeeded, in their order - with the
    fingerprint and the text of the key that was proved and the names of the
    client - no row is ever changed or lost, and no key is registered twice. *)
Theorem table_is_the_history_of_registrations w h w' :
  (∀ a s, authorities (signer srv) !! a = Some s → SignerLaws s) →
  NoDup (rk_fingerprint <$> registered_keys (w_db w)) → history srv w h w' →
  ∃ rows, registered_keys (w_db w') = registered_keys (w_db w) ++ rows ∧
    Forall2 row_of rows (filter registers h) ∧
    NoDup (rk_fingerprint <$> registered_keys (w_db w')).
Proof.
  intros Hlaws Hnd Hh. induction Hh as [w|w h w1 x w2 _ IH Hx].
  { exists []. by rewrite app_nil_r. }
  destruct (IH Hnd) as (rows & Hrows & Hf & Hnd1). apply serves_registered_keys in Hx; [|done].
  rewrite filter_app.
  assert (filter registers [x] = if registers x then [x] else []) as -> by (cbn; by destruct (registers x)).
  destruct (registers x).
  - destruct Hx as (row & Hrow & Hadd & Hnew). exists (rows ++ [row]). rewrite Hadd.
    split; [by rewrite Hrows, app_assoc|]. split; [apply Forall2_app; [done|by repeat constructor]|].
    rewrite fmap_app. apply NoDup_app. split; [done|]. split; [|apply NoDup_singleton].
    intros f Hin. cbn. rewrite list_elem_of_singleton. by intros ->.
  - exists rows. unfold same_db in Hx. rewrite Hx, app_nil_r. by split_and!.
Qed.
End WithDatabase.
