(* ===== verification/LoggingThread.v ===== *)
(** * The logging thread

    [start_logging_thread] of [rustica/src/logging/mod.rs] and the backends
    ([stdout.rs], [influx.rs], [splunk.rs], [webhook.rs]).  A backend hands its
    request to a runtime and does not wait, so what the thread does is the list
    of [Output]s it started; whether a request arrives is not modelled, nor the
    filter of env_logger: a line that is handed to its macros is [Printed]. *)
From Stdlib Require Import ZArith Lia.
From S2P Require Import Prelude Machine Text Deps Key Auth Logging Schema World.

Record InfluxConfig : Type := {
  in_address : string; in_database : string; in_dataset : string;
  in_user : string; in_password : string;
}.
Record SplunkConfig : Type := { sk_token : string; sk_url : string; sk_timeout : Z }.
Record WebhookConfig : Type := { wh_auth_header : option string; wh_url : string; wh_timeout : Z }.

Record LoggingConfiguration : Type := {
  lc_identifier : option string;
  heartbeat_interval : option Z;
  lc_stdout : option ();
  lc_influx : option InfluxConfig;
  lc_splunk : option SplunkConfig;
  lc_webhook : option WebhookConfig;
}.

Record WrappedLog : Type := { wl_log : Log; wl_identifier : string }.

Inductive LoggingError : Type :=
| SerializationError (m : string)
| CommunicationError (m : string).

(** serde: the JSON of a log, alone and in Splunk's [event] field; [{:?}] of a
    map. *)
Class Serde := {
  to_json : WrappedLog → result string string;
  to_json_event : WrappedLog → result string string;
  debug_map : gmap string string → string;
}.

(** A point of a time series: its time, tags and fields. *)
Record InfluxPoint : Type := {
  ip_timestamp : Z;
  ip_dataset : string;
  ip_tags : list (string * string);
  ip_fields : list (string * string);
}.

(** The tokio runtime, and reqwest's client for a timeout in seconds, which may
    have to accept any certificate. *)
Class LogClients := {
  log_runtime_starts : bool;
  http_client_builds : bool → Z → bool;
}.

(** What the thread started: a line on the terminal, a line of the stdout
    logger, a complaint about a backend, a request. *)
Inductive Output : Type :=
| Told (line : string)
| Printed (s : Severity) (line : string)
| Complained (line : string)
| Influx (p : InfluxPoint)
| Post (url : string) (headers : list (string * string)) (body : string).

Record LogState : Type := mkLogState { ls_clock : nat; ls_output : list Output }.

(** What [recv_timeout] returns. *)
Inductive Received : Type :=
| Message (l : Log)
| TimedOut
| Disconnected.

Section LoggingThread.
Context `{Env, Serde, !LogClients}.

#[local] Abbreviation log_st := (st LogState LoggingError).

Definition emit (o : Output) : log_st () :=
  modify (λ s, mkLogState (ls_clock s) (ls_output s ++ [o])).
Definition log_clock : log_st (option Z) := λ s,
  (mkLogState (S (ls_clock s)) (ls_output s), Ret (clock (ls_clock s))).

(** ** The backends *)

(** The line of a log, and at which level. *)
Definition stdout_line (l : Log) : option (Severity * string) :=
  match l with
  | LogCertificateIssued ci => Some (Info,
      "[" +:+ ci_certificate_type ci +:+ "] Certificate issued for: [" +:+ ci_fingerprint ci
      +:+ "] Authority: [" +:+ ci_authority ci
      +:+ "] Identified by: [" +:+ join ", " (ci_mtls_identities ci)
      +:+ "] Principals granted: [" +:+ join ", " (ci_principals ci)
      +:+ "] Extensions: [" +:+ debug_map (ci_extensions ci)
      +:+ "] CriticalOptions: [" +:+ debug_map (ci_critical_options ci)
      +:+ "] Valid After: [" +:+ int_to_string (ci_valid_after ci)
      +:+ "] Valid Before: [" +:+ int_to_string (ci_valid_before ci)
      +:+ "] Serial Number: [" +:+ int_to_string (ci_serial ci) +:+ "]")
  | LogKeyRegistered kr => Some (Info,
      "Key registered: [" +:+ ki_fingerprint kr +:+ "] Identified by: ["
      +:+ join ", " (ki_mtls_identities kr) +:+ "]")
  | LogKeyRegistrationFailure krf => Some (Info,
      "Failed to register key: [" +:+ ki_fingerprint (krf_key_info krf) +:+ "] Identified by: ["
      +:+ join ", " (ki_mtls_identities (krf_key_info krf)) +:+ "]")
  | LogInternalMessage im => Some (im_severity im, im_message im)
  | LogHeartbeat => None
  | LogX509CertificateIssued x509 => Some (Info,
      "X509 Certificate issued. Authority: [" +:+ xi_authority x509
      +:+ "] Identified by: [" +:+ join ", " (xi_mtls_identities x509)
      +:+ "] Extensions: [" +:+ debug_map (xi_extensions x509)
      +:+ "] Valid After: [" +:+ int_to_string (xi_valid_after x509)
      +:+ "] Valid Before: [" +:+ int_to_string (xi_valid_before x509)
      +:+ "] Serial: [" +:+ int_to_string (xi_serial x509) +:+ "]")
  end.

Definition stdout_send_log (log : WrappedLog) : log_st () :=
  match stdout_line (wl_log log) with
  | Some (s, line) => emit (Printed s line)
  | None => mret ()
  end.

Definition influx_send_log (self : InfluxConfig) (log : WrappedLog) : log_st () :=
  match wl_log log with
  | LogCertificateIssued ci =>
      now ← log_clock;
      timestamp ← unwrap now;
      emit (Influx
        {| ip_timestamp := as_secs timestamp; ip_dataset := in_dataset self;
           ip_tags := [("fingerprint", ci_fingerprint ci);
                       ("mtls_identities", join "," (ci_mtls_identities ci));
                       ("serial", int_to_string (ci_serial ci))];
           ip_fields := [("principals", join "," (ci_principals ci))] |})
  | _ => mret ()
  end.

Definition splunk_send_log (self : SplunkConfig) (log : WrappedLog) : log_st () :=
  data ← match to_json_event log with
         | Ok json => mret json | Err e => throw (SerializationError e) end;
  emit (Post (sk_url self)
    [("Authorization", "Splunk " +:+ sk_token self);
     ("Content-Type", "application/x-www-form-urlencoded");
     ("Content-Length", int_to_string (len data))] data).

Definition webhook_send_log (self : WebhookConfig) (log : WrappedLog) : log_st () :=
  data ← match to_json log with
         | Ok json => mret json | Err e => throw (SerializationError e) end;
  emit (Post (wh_url self)
    ([("Content-Type", "application/x-www-form-urlencoded");
      ("Content-Length", int_to_string (len data))] ++
     match wh_auth_header self with Some auth => [("Authorization", auth)] | None => [] end) data).

(** ** The thread *)

(** A backend that is configured; its error is only complained about. *)
Definition send_to {C} (backend : option C) (send_log : C → WrappedLog → log_st ())
    (complaint : string) (log : WrappedLog) : log_st () :=
  match backend with
  | Some logger =>
      r ← attempt (send_log logger log);
      match r with Ok _ => mret () | Err _ => emit (Complained complaint) end
  | None => mret ()
  end.

(** One turn of the loop: [unwrap] for stdout, all features compiled in. *)
Definition deliver (config : LoggingConfiguration) (log : Log) : log_st () :=
  let log := {| wl_log := log; wl_identifier := default "" (lc_identifier config) |} in
  match lc_stdout config with
  | Some _ => r ← attempt (stdout_send_log log); expect_ok (r : result LoggingError ())
  | None => mret ()
  end;;
  send_to (lc_influx config) influx_send_log "Could not send logs to InfluxDB" log;;
  send_to (lc_splunk config) splunk_send_log "Could not send logs to Splunk" log;;
  send_to (lc_webhook config) webhook_send_log "Could not send logs to webhook" log.

(** The loop, over what the channel gives: it ends when the server is gone. *)
Fixpoint logging_loop (config : LoggingConfiguration) (events : list Received) : log_st () :=
  match events with
  | [] => mret ()
  | Message l :: events => deliver config l;; logging_loop config events
  | TimedOut :: events => deliver config LogHeartbeat;; logging_loop config events
  | Disconnected :: _ => emit (Complained "Logging thread has gone away.")
  end.

(** [SplunkLogger::new] and [WebhookLogger::new]: the client is unwrapped. *)
Definition http_client (accept_invalid_certs : bool) (timeout : Z) : log_st () :=
  unwrap (if http_client_builds accept_invalid_certs timeout then Some () else None).
Definition splunk_new (config : SplunkConfig) : log_st () := http_client true (sk_timeout config).
Definition webhook_new (config : WebhookConfig) : log_st () := http_client false (wh_timeout config).

(** A backend of the configuration is announced and built. *)
Definition set_up {C} (backend : option C) (announcement : string) (build : C → log_st ())
    : log_st () :=
  match backend with
  | Some config => emit (Told announcement);; build config
  | None => mret ()
  end.

(** The seconds after which nothing received is a [TimedOut]. *)
Definition heartbeat_seconds (config : LoggingConfiguration) : Z :=
  default 300 (heartbeat_interval config).

Definition start_logging_thread (config : LoggingConfiguration) (events : list Received)
    : log_st () :=
  unwrap (if log_runtime_starts then Some () else None);;
  emit (Told (match lc_stdout config with
              | Some _ => "Configured logger: stdout"
              | None => "stdout logger is not enabled. This is not recommended!"
              end));;
  set_up (lc_influx config) "Configured logger: influx" (λ _, mret ());;
  set_up (lc_splunk config) "Configured logger: splunk" splunk_new;;
  set_up (lc_webhook config) "Configured logger: webhook" webhook_new;;
  logging_loop config events.

(** ** What one turn starts *)

Definition wrap (config : LoggingConfiguration) (l : Log) : WrappedLog :=
  {| wl_log := l; wl_identifier := default "" (lc_identifier config) |}.

Definition splunk_outputs (config : LoggingConfiguration) (l : Log) : list Output :=
  match lc_splunk config with
  | None => []
  | Some c =>
      match to_json_event (wrap config l) with
      | Ok data => [Post (sk_url c)
          [("Authorization", "Splunk " +:+ sk_token c);
           ("Content-Type", "application/x-www-form-urlencoded");
           ("Content-Length", int_to_string (len data))] data]
      | Err _ => [Complained "Could not send logs to Splunk"]
      end
  end.
Definition webhook_outputs (config : LoggingConfiguration) (l : Log) : list Output :=
  match lc_webhook config with
  | None => []
  | Some c =>
      match to_json (wrap config l) with
      | Ok data => [Post (wh_url c)
          ([("Content-Type", "application/x-www-form-urlencoded");
            ("Content-Length", int_to_string (len data))] ++
           match wh_auth_header c with Some auth => [("Authorization", auth)] | None => [] end) data]
      | Err _ => [Complained "Could not send logs to webhook"]
      end
  end.
Definition stdout_outputs (config : LoggingConfiguration) (l : Log) : list Output :=
  match lc_stdout config, stdout_line l with
  | Some _, Some (s, line) => [Printed s line]
  | _, _ => []
  end.
(** The points written at the reading [n] of the clock. *)
Definition influx_outputs (config : LoggingConfiguration) (n : nat) (l : Log) : list Output :=
  match lc_influx config, l with
  | Some c, LogCertificateIssued ci =>
      match clock n with
      | Some d => [Influx
          {| ip_timestamp := as_secs d; ip_dataset := in_dataset c;
             ip_tags := [("fingerprint", ci_fingerprint ci);
                         ("mtls_identities", join "," (ci_mtls_identities ci));
                         ("serial", int_to_string (ci_serial ci))];
             ip_fields := [("principals", join "," (ci_principals ci))] |}]
      | None => []
      end
  | _, _ => []
  end.
(** The readings a log costs. *)
Definition readings (config : LoggingConfiguration) (l : Log) : nat :=
  match lc_influx config, l with Some _, LogCertificateIssued _ => 1 | _, _ => 0 end.
Definition turn_outputs (config : LoggingConfiguration) (n : nat) (l : Log) : list Output :=
  stdout_outputs config l ++ influx_outputs config n l ++ splunk_outputs config l ++
  webhook_outputs config l.

Definition clock_works : Prop := ∀ n, is_Some (clock n).

Lemma deliver_run config l n out :
  clock_works →
  deliver config l (mkLogState n out) =
    (mkLogState (n + readings config l) (out ++ turn_outputs config n l), Ret ()).
Proof.
  intros Hclock. destruct (Hclock n) as [d Hd].
  unfold deliver, send_to, turn_outputs, stdout_outputs, influx_outputs, splunk_outputs,
    webhook_outputs, readings, stdout_send_log, influx_send_log, splunk_send_log,
    webhook_send_log, emit, log_clock, wrap.
  st_unfold. cbn [wl_log].
  destruct (lc_stdout config), (stdout_line l) as [[? ?]|], (lc_influx config); cbn.
  all: destruct l; cbn [wl_log ls_clock ls_output]; rewrite ?Hd; cbn.
  all: destruct (lc_splunk config) as [c|]; [destruct (to_json_event _)|]; cbn.
  all: destruct (lc_webhook config) as [c'|]; [destruct (to_json _)|]; cbn.
  all: rewrite ?Nat.add_0_r, ?Nat.add_1_r, <-?app_assoc, ?app_nil_r; done.
Qed.

(** ** The logs a list of events stands for *)

Fixpoint logs_of (events : list Received) : list Log :=
  match events with
  | [] => []
  | Message l :: events => l :: logs_of events
  | TimedOut :: events => LogHeartbeat :: logs_of events
  | Disconnected :: _ => []
  end.

Fixpoint all_outputs (config : LoggingConfiguration) (n : nat) (l : list Log) : list Output :=
  match l with
  | [] => []
  | x :: l => turn_outputs config n x ++ all_outputs config (n + readings config x) l
  end.

Fixpoint ends (events : list Received) : bool :=
  match events with
  | [] => false
  | Disconnected :: _ => true
  | _ :: events => ends events
  end.
Definition bye (events : list Received) : list Output :=
  if ends events then [Complained "Logging thread has gone away."] else [].

Definition total_readings (config : LoggingConfiguration) (l : list Log) : nat :=
  sum_list (readings config <$> l).

Lemma logging_loop_run config events n out :
  clock_works →
  logging_loop config events (mkLogState n out) =
    (mkLogState (n + total_readings config (logs_of events))
       (out ++ all_outputs config n (logs_of events) ++ bye events), Ret ()).
Proof.
  intros Hclock. revert n out. unfold bye, total_readings.
  induction events as [|[l| |] events IH]; intros n out; cbn [logging_loop logs_of all_outputs ends].
  - by rewrite !app_nil_r, Nat.add_0_r.
  - unfold mbind at 1, st_bind at 1. rewrite deliver_run by done. rewrite IH.
    f_equal. f_equal; [cbn; lia|]. by rewrite <-!app_assoc.
  - unfold mbind at 1, st_bind at 1. rewrite deliver_run by done. rewrite IH.
    f_equal. f_equal; [cbn; lia|]. by rewrite <-!app_assoc.
  - cbn. by rewrite Nat.add_0_r.
Qed.

(** What the stdout logger printed, and the requests to a URL. *)
Definition printed (out : list Output) : list (Severity * string) :=
  omap (λ o, match o with Printed s line => Some (s, line) | _ => None end) out.
Definition posts (url : string) (out : list Output) : list string :=
  omap (λ o, match o with
             | Post u _ body => if decide (u = url) then Some body else None | _ => None end) out.

Lemma printed_turn config n l :
  printed (turn_outputs config n l) =
    match lc_stdout config with Some _ => option_list (stdout_line l) | None => [] end.
Proof.
  unfold printed, turn_outputs. rewrite !omap_app.
  unfold stdout_outputs, influx_outputs, splunk_outputs, webhook_outputs.
  destruct (lc_stdout config), (stdout_line l) as [[]|], (lc_influx config), (lc_splunk config),
    (lc_webhook config), l; repeat case_match; simplify_eq; done.
Qed.

Lemma posts_turn config n l :
  (∀ c c', lc_splunk config = Some c → lc_webhook config = Some c' → sk_url c ≠ wh_url c') →
  ∀ c, lc_webhook config = Some c →
  posts (wh_url c) (turn_outputs config n l) =
    match to_json (wrap config l) with Ok data => [data] | Err _ => [] end.
Proof.
  intros Hne c Hc. unfold posts, turn_outputs. rewrite !omap_app.
  unfold stdout_outputs, influx_outputs, splunk_outputs, webhook_outputs. rewrite Hc.
  destruct (lc_splunk config) as [sc|].
  1: specialize (Hne _ _ eq_refl Hc); destruct (to_json_event _); cbn;
       rewrite ?decide_False by done.
  all: destruct (to_json _); cbn; rewrite ?decide_True by done.
  all: destruct (lc_stdout config), (stdout_line l) as [[]|], (lc_influx config), l; cbn;
    repeat case_match; done.
Qed.

(** What the loop printed and posted. *)
Lemma bye_is_silent events : printed (bye events) = [] ∧ ∀ u, posts u (bye events) = [].
Proof. unfold bye. by destruct (ends events). Qed.
Lemma loop_prints config n l events :
  lc_stdout config = Some () →
  printed (all_outputs config n l ++ bye events) = omap stdout_line l.
Proof.
  intros Hs. pose proof (bye_is_silent events) as [Hp _].
  unfold printed in *. rewrite omap_app, Hp, app_nil_r. revert n.
  induction l as [|x l IH]; intros n; [done|]. cbn [all_outputs]. rewrite omap_app, IH.
  pose proof (printed_turn config n x) as Ht. unfold printed in Ht. rewrite Ht, Hs. cbn.
  by destruct (stdout_line x).
Qed.
Lemma loop_posts config n l events c :
  (∀ c c', lc_splunk config = Some c → lc_webhook config = Some c' → sk_url c ≠ wh_url c') →
  lc_webhook config = Some c →
  posts (wh_url c) (all_outputs config n l ++ bye events) =
    omap (λ l, match to_json (wrap config l) with Ok data => Some data | Err _ => None end) l.
Proof.
  intros Hurl Hc. pose proof (bye_is_silent events) as [_ Hb]. specialize (Hb (wh_url c)).
  unfold posts in *. rewrite omap_app, Hb, app_nil_r. revert n.
  induction l as [|x l IH]; intros n; [done|]. cbn [all_outputs]. rewrite omap_app, IH.
  pose proof (posts_turn config n x Hurl c Hc) as Ht. unfold posts in Ht. rewrite Ht. cbn.
  by destruct (to_json (wrap config x)).
Qed.

(** What the thread says before it waits for logs. *)
Definition announcements (config : LoggingConfiguration) : list string :=
  (match lc_stdout config with
   | Some _ => "Configured logger: stdout"
   | None => "stdout logger is not enabled. This is not recommended!"
   end) ::
  (if lc_influx config is Some _ then ["Configured logger: influx"] else []) ++
  (if lc_splunk config is Some _ then ["Configured logger: splunk"] else []) ++
  (if lc_webhook config is Some _ then ["Configured logger: webhook"] else []).

(** The runtime and the clients of the configured backends can be had. *)
Definition can_log (config : LoggingConfiguration) : Prop :=
  log_runtime_starts = true ∧
  (∀ c, lc_splunk config = Some c → http_client_builds true (sk_timeout c) = true) ∧
  (∀ c, lc_webhook config = Some c → http_client_builds false (wh_timeout c) = true).

Lemma start_logging_thread_run config events n out :
  can_log config →
  start_logging_thread config events (mkLogState n out) =
    logging_loop config events (mkLogState n (out ++ (Told <$> announcements config))).
Proof.
  intros (Hrt & Hsplunk & Hhook).
  unfold start_logging_thread, announcements, set_up, splunk_new, webhook_new, http_client, emit.
  st_unfold. rewrite Hrt. cbn.
  destruct (lc_influx config), (lc_splunk config) as [c|], (lc_webhook config) as [c'|]; cbn.
  all: rewrite ?(Hsplunk _ eq_refl), ?(Hhook _ eq_refl); cbn; by rewrite <-?app_assoc.
Qed.

Lemma told_is_silent (lines : list string) out :
  printed ((Told <$> lines) ++ out) = printed out ∧
  ∀ u, posts u ((Told <$> lines) ++ out) = posts u out.
Proof.
  unfold printed, posts. split; intros; by induction lines.
Qed.

(** The whole thread. *)
Lemma logging_thread_run config events n :
  clock_works → can_log config →
  ∃ s out, start_logging_thread config events (mkLogState n []) = (s, Ret ()) ∧
    ls_output s = (Told <$> announcements config) ++ out ∧
    out = all_outputs config n (logs_of events) ++ bye events.
Proof.
  intros Hclock Hcan. rewrite start_logging_thread_run, logging_loop_run by done.
  by eexists _, _.
Qed.

(** ** Properties *)

(** C32: the logging thread serves its backends independently and completely:
    when their clients can be had and the clock is past 1970 it runs until the
    server is gone, prints the line of every log and posts the JSON of every
    log to the webhook, in the order they were sent, a heartbeat for every
    timeout - whatever the other backends do and even when a log cannot be
    serialized. *)
Theorem every_log_reaches_every_backend config events n :
  clock_works → can_log config →
  (∀ c c', lc_splunk config = Some c → lc_webhook config = Some c' → sk_url c ≠ wh_url c') →
  ∃ s, start_logging_thread config events (mkLogState n []) = (s, Ret ()) ∧
    (lc_stdout config = Some () → printed (ls_output s) = omap stdout_line (logs_of events)) ∧
    (∀ c, lc_webhook config = Some c → posts (wh_url c) (ls_output s) =
      omap (λ l, match to_json (wrap config l) with Ok data => Some data | Err _ => None end)
        (logs_of events)).
Proof.
  intros Hclock Hcan Hurl.
  destruct (logging_thread_run config events n Hclock Hcan) as (s & out & Hrun & Hout & ->).
  destruct (told_is_silent (announcements config)
    (all_outputs config n (logs_of events) ++ bye events)) as [Hsp Hsw].
  exists s. split; [exact Hrun|]. rewrite Hout, Hsp. split; [by apply loop_prints|].
  intros c Hc. rewrite Hsw. by apply loop_posts.
Qed.

(** With the clock before 1970, InfluxDB's backend takes the thread down at
    the first certificate: what follows is lost. *)
Lemma influx_needs_a_clock config c ci events n out :
  lc_influx config = Some c → clock n = None → lc_stdout config = None →
  (logging_loop config (Message (LogCertificateIssued ci) :: events) (mkLogState n out)).2 = Panic.
Proof.
  intros Hc Hn Hs. cbn [logging_loop].
  unfold deliver, send_to, influx_send_log, log_clock. rewrite Hc, Hs. st_unfold.
  cbn [wl_log ls_clock]. by rewrite Hn.
Qed.
End LoggingThread.
