(* ===== verification/ServerConfig.v ===== *)
(** * The server's configuration

    [configure] of [rustica/src/config/mod.rs] and what the server prints of
    its signers at start-up ([Display] of [SigningMechanism]).  The TOML parser
    and the construction of a signer from its configuration are arguments. *)
From Stdlib Require Import ZArith Lia.
From S2P Require Import Prelude Machine Text Deps Key Auth Logging Schema World.
From S2P Require Import Database External Authorizer Signing YubikeySigner KmsSigner Signers.
From S2P Require Import Proto Server Validation Issuance LoggingThread.

Record SigningConfiguration (C : Type) : Type := {
  sc_default_authority : string;
  sc_authority_configurations : gmap string C;
}.
Arguments sc_default_authority {_} _.
Arguments sc_authority_configurations {_} _.

Record Configuration (C : Type) : Type := {
  cf_server_cert : string;
  cf_server_key : string;
  cf_client_authority : ClientAuthorityConfiguration;
  cf_listen_address : string;
  cf_authorization : AuthorizationConfiguration;
  cf_signing : SigningConfiguration C;
  cf_require_rustica_proof : bool;
  cf_require_attestation_chain : bool;
  cf_logging : LoggingConfiguration;
  cf_allowed_signers : AllowedSignersConfiguration;
}.
Arguments cf_server_cert {_} _.
Arguments cf_server_key {_} _.
Arguments cf_client_authority {_} _.
Arguments cf_listen_address {_} _.
Arguments cf_authorization {_} _.
Arguments cf_signing {_} _.
Arguments cf_require_rustica_proof {_} _.
Arguments cf_require_attestation_chain {_} _.
Arguments cf_logging {_} _.
Arguments cf_allowed_signers {_} _.

Inductive ConfigurationError : Type :=
| FileError
| ConfigParsingError
| SSHKeyError
| InvalidListenAddress
| AuthorizerError
| SigningMechanismError (e : SigningError)
| ValidateOnly
| DefaultAuthorityDoesNotHaveSSHKeys
| NoSuchSigningMechanismForClientCa (chosen : string) (options : list string).

(** [Display]. *)
Definition configuration_error_to_string (e : ConfigurationError) : string :=
  match e with
  | FileError => "Could not read configuration file"
  | ConfigParsingError => "Could not parse the configuration file"
  | SSHKeyError => "Could not parse the provided SSH keys file"
  | InvalidListenAddress => "Invalid address and/or port to listen on"
  | AuthorizerError => "Configuration for authorization was invalid"
  | SigningMechanismError e => signing_error_to_string e
  | ValidateOnly => "Configuration was validated"
  | DefaultAuthorityDoesNotHaveSSHKeys => "The default authority must provide SSH keys"
  | NoSuchSigningMechanismForClientCa chosen options =>
      "The requested signing mechanism to issue client certificates (" +:+ chosen +:+
      ") is not configured. Options are: " +:+ join ", " options
  end.

Record RusticaSettings `{Lru, SshCerts, Rcgen, Hmac} : Type := {
  set_server : RusticaServer AuthorizationMechanism;
  set_client_ca_cert : string;
  set_server_cert : string;
  set_server_key : string;
  set_address : SocketAddr;
  set_logging_configuration : LoggingConfiguration;
}.

(** The disk, the parsers and the sources of fresh keys. *)
Class ConfigInputs `{SshCerts, Hmac} (C : Type) := {
  read_file : string → option bytes;
  toml_from_slice : bytes → result string (Configuration C);
  parse_socket_addr : string → option SocketAddr;
  (** the order in which the configured authorities are iterated *)
  config_order : gmap string C → list (string * C);
  (** [hmac::Key::generate] and [PrivateKey::new] *)
  generate_hmac_key : nat → option HmacKey;
  new_private_key : string → nat → option PrivateKey;
}.

Section ServerConfig.
Context `{Lru, SshCerts, Rcgen, Hmac, Env} {C : Type} `{!ConfigInputs C}
  (into_signer : C → st World SigningError Signer).

(** [configure], for the path and the number of [-v] on the command line. *)
Definition configure (config_path : string) (validate : Z)
    : st World ConfigurationError RusticaSettings :=
  config ← of_option FileError (read_file config_path);
  config ← match toml_from_slice config with
           | Ok config => mret config | Err _ => throw ConfigParsingError end;
  (if decide (validate = 1) then throw ValidateOnly else mret ());;
  address ← of_option InvalidListenAddress (parse_socket_addr (cf_listen_address config));
  authorizer ← match mechanism_try_into (cf_authorization config) with
               | Ok authorizer => mret authorizer | Err _ => throw AuthorizerError end;
  signer ← map_err SigningMechanismError
    (convert_to_signing_mechanism into_signer (sc_default_authority (cf_signing config))
      (config_order (sc_authority_configurations (cf_signing config))));
  match get_signer_public_key signer (default_authority signer) User with
  | Ok _ => mret ()
  | Err _ => throw DefaultAuthorityDoesNotHaveSSHKeys
  end;;
  hmac_key ← library_call generate_hmac_key ≫= unwrap;
  challenge_key ← library_call (new_private_key "RusticaChallengeKey") ≫= unwrap;
  let client_auth := authority (cf_client_authority config) in
  client_ca ← map_err SigningMechanismError
    (of_result (get_client_certificate_authority signer client_auth));
  client_ca ← of_option (NoSuchSigningMechanismForClientCa client_auth (get_authorities signer))
    client_ca;
  pem ← library_call (serialize_pem client_ca);
  client_ca_cert ←
    match pem with
    | Ok pem => mret pem
    | Err e => throw (SigningMechanismError (AccessError
        ("Could not create a PEM from the requested signing system: " +:+ e)))
    end;
  modify (set_limiter (lru_new (lru_rate_limiter_size (cf_allowed_signers config))));;
  modify (set_cache {| compressed_allowed_signers := []; expiry_timestamp := 0 |});;
  (if decide (validate > 1) then throw ValidateOnly else mret ());;
  mret
    {| set_server :=
         {| hmac_key := hmac_key; challenge_key := challenge_key; authorizer := authorizer;
            signer := signer;
            require_rustica_proof := cf_require_rustica_proof config;
            require_attestation_chain := cf_require_attestation_chain config;
            client_authority := cf_client_authority config;
            allowed_signers := cf_allowed_signers config |};
       set_client_ca_cert := client_ca_cert;
       set_server_cert := cf_server_cert config;
       set_server_key := cf_server_key config;
       set_address := address;
       set_logging_configuration := cf_logging config |}.

(** ** What is printed of the signers *)

Definition tab : string := String "009" "".

(** One signer: a CA that cannot be serialized panics. *)
Definition signer_to_string {E} (name : string) (s : Signer) : st World E string :=
  let keys := (match pk_hash <$> signer_public_key s User with
      | Some fp => tab +:+ "User CA Fingerprint (SHA256): " +:+ fp +:+ newline | None => "" end) +:+
    (match pk_hash <$> signer_public_key s Host with
      | Some fp => tab +:+ "Host CA Fingerprint (SHA256): " +:+ fp +:+ newline | None => "" end) in
  x509 ←
    match signer_attested_x509_certificate_authority s with
    | Some ca =>
        pem ← library_call (serialize_pem ca) ≫= expect_ok;
        mret (tab +:+ "Attested X509 Certificate Authority:" +:+ newline +:+ pem +:+ newline)
    | None => mret ""
    end;
  client ←
    match signer_client_certificate_authority s with
    | Some ca =>
        pem ← library_call (serialize_pem ca) ≫= expect_ok;
        mret (tab +:+ "Client Certificate Authority:" +:+ newline +:+ pem +:+ newline)
    | None => mret ""
    end;
  mret ("Authority: " +:+ name +:+ newline +:+ keys +:+ x509 +:+ client).

Fixpoint signers_to_string {E} (l : list (string * Signer)) : st World E string :=
  match l with
  | [] => mret ""
  | (name, s) :: l => x ← signer_to_string name s; y ← signers_to_string l; mret (x +:+ y)
  end.

Definition mechanism_to_string {E} (self : SigningMechanism) : st World E string :=
  signers_to_string (map_to_list (authorities self)).

(** ** Lemmas *)

(** The run up to the question whether to serve. *)
Record configured (config_path : string) (w w' : World) (s : RusticaSettings) : Prop := {
  cg_config : ∃ text config, read_file config_path = Some text ∧ toml_from_slice text = Ok config ∧
    mechanism_try_into (cf_authorization config) = Ok (authorizer (set_server s)) ∧
    client_authority (set_server s) = cf_client_authority config ∧
    allowed_signers (set_server s) = cf_allowed_signers config ∧
    default_authority (signer (set_server s)) = sc_default_authority (cf_signing config);
  cg_default_key : ∃ pk, get_signer_public_key (signer (set_server s))
    (default_authority (signer (set_server s))) User = Ok pk;
  cg_client_ca : ∃ ca n, get_client_certificate_authority (signer (set_server s))
      (authority (client_authority (set_server s))) = Ok (Some ca) ∧
    serialize_pem ca n = Ok (set_client_ca_cert s);
  cg_limiter : w_limiter w' = lru_new (lru_rate_limiter_size (allowed_signers (set_server s)));
  cg_cache : w_cache w' = {| compressed_allowed_signers := []; expiry_timestamp := 0 |};
}.

Lemma convert_default {C'} f d (l : list (string * C')) w w' m :
  convert_to_signing_mechanism f d l w = (w', Ret m) → default_authority m = d.
Proof. unfold convert_to_signing_mechanism. intros Hrun. by st_inv. Qed.

Lemma configure_Ret path v w w' s :
  configure path v w = (w', Ret s) → v ≠ 1 ∧ v ≤ 1 ∧ configured path w w' s.
Proof.
  unfold configure. intros Hrun. st_inv_all. split; [done|]. split; [lia|].
  match goal with Hc : convert_to_signing_mechanism _ _ _ _ = _ |- _ =>
    apply convert_default in Hc as Hd end.
  split; cbn; eauto 10.
Qed.

(** [-v] more than once runs [configure] to its end and then does not serve. *)
Lemma configure_dry path w v :
  v > 1 →
  configure path v w =
    match configure path 0 w with
    | (w', Ret _) => (w', Raise ValidateOnly)
    | (w', Raise e) => (w', Raise e)
    | (w', Panic) => (w', Panic)
    end.
Proof.
  intros Hv. unfold configure. rewrite !(decide_False (P := v = 1)) by lia.
  rewrite (decide_True (P := v > 1)) by lia. st_unfold. cbn -[decide].
  rewrite !(decide_False (P := 0 = 1)), !(decide_False (P := 0 > 1)) by lia.
  repeat (case_match; simplify_eq; try done).
Qed.

(** Without [-v] the server is not told to stop. *)
Lemma configure_serves path : raises (λ e, e ≠ ValidateOnly) (configure path 0).
Proof.
  unfold configure. raise; done.
Qed.

(** ** Properties *)

(** A configuration that is accepted is one the server can work with: one
    authorizer, an SSH key for the default authority, and a CA for client
    certificates, whose own certificate is the root that the TLS layer is
    given; the rate limiter and the cache start empty. *)
Theorem a_configured_server_has_its_keys path v w w' s :
  configure path v w = (w', Ret s) → v ≠ 1 ∧ v ≤ 1 ∧ configured path w w' s.
Proof. apply configure_Ret. Qed.

(** [-v] given once accepts exactly the files that parse, and touches no
    key; given more often it is a dry run of the whole start: it accepts
    exactly when the server would have started, with the same effects, and
    reports the same errors. *)
Theorem validation_is_a_dry_run path w :
  (∀ text config, read_file path = Some text → toml_from_slice text = Ok config →
    configure path 1 w = (w, Raise ValidateOnly)) ∧
  (∀ v, v > 1 →
    (∀ w', (∃ s, configure path 0 w = (w', Ret s)) ↔
      configure path v w = (w', Raise ValidateOnly)) ∧
    (∀ w' e, e ≠ ValidateOnly →
      configure path v w = (w', Raise e) ↔ configure path 0 w = (w', Raise e))).
Proof.
  split.
  - intros text config Ht Hc. unfold configure. st_unfold. rewrite Ht. cbn.
    by rewrite Hc.
  - intros v Hv. rewrite (configure_dry path w v Hv).
    assert (∀ w', configure path 0 w ≠ (w', Raise ValidateOnly)) as Hno.
    { intros w' Hr. by apply configure_serves in Hr. }
    destruct (configure path 0 w) as [w1 [s|e|]]; split; intros; split; intros; naive_solver.
Qed.
End ServerConfig.

Section Renewal.
Context `{Lru, SshCerts, Rcgen, Hmac, Env, Hex, X509, Asn1} {C : Type} `{!ConfigInputs C}
  (into_signer : C → st World SigningError Signer).

(** C31: the client certificates a configured server renews are good for its
    own TLS layer: with an issued certificate that is due for renewal comes a
    new client certificate, signed by the very CA whose certificate [configure]
    returned as the root of the clients - and the log does not say so
    otherwise. *)
Theorem renewed_client_certificates_are_trusted path v w0 w1 settings req w w' resp :
  configure into_signer path v w0 = (w1, Ret settings) →
  (∀ a s, authorities (signer (set_server settings)) !! a = Some s → SignerLaws s) →
  certificate_handler (set_server settings) req w = (w', Ret resp) →
  cs_error_code resp = 0 →
  ∃ ca n ids refresh ci peers chal pk w2,
    serialize_pem ca n = Ok (set_client_ca_cert settings) ∧
    validate_request (set_server settings) (hmac_key (set_server settings)) peers chal w
      = (w2, Ret (pk, ids, refresh)) ∧
    audit_log w' = audit_log w ++ [LogCertificateIssued ci] ∧
    match refresh with
    | Some r => ci_new_access_certificate_issued ci = true ∧
        ∃ cert n1 n2, from_params (client_params ids (rs_not_before r) (rs_not_after r)) n1 = Some cert ∧
          serialize_pem_with_signer cert ca n2 = Some (cs_new_client_certificate resp) ∧
          cs_new_client_key resp = serialize_private_key_pem cert
    | None => ci_new_access_certificate_issued ci = false ∧
        cs_new_client_certificate resp = "" ∧ cs_new_client_key resp = ""
    end.
Proof.
  intros Hconf Hlaws Hrun Hcode. apply configure_Ret in Hconf as (_ & _ & Hc).
  destruct (cg_client_ca _ _ _ _ Hc) as (ca & n & Hca & Hpem).
  apply certificate_handler_cases in Hrun as [(e & He & -> & _)|Hi]; [..|done].
  { by destruct e. }
  destruct Hi as (addr & peers & chal & pk & ids & refresh & ty & caks & authz & cert & Hi).
  destruct (iss_validated _ _ _ _ _ _ _ _ _ _ _ _ _ _ _ Hi) as [w2 Hv].
  pose proof (iss_renewed _ _ _ _ _ _ _ _ _ _ _ _ _ _ _ Hi) as Hr. rewrite Hca in Hr.
  eexists ca, n, ids, refresh, _, peers, chal, pk, w2. split; [done|]. split; [done|].
  split; [by apply Hi|]. destruct refresh as [r|]; cbn; [|done]. split; [done|].
  destruct Hr as (w3 & w4 & Hr). unfold refresh_client_certificate in Hr. st_inv.
  repeat match goal with Hd : date_of _ _ = _ |- _ => unfold date_of in Hd; destruct (date_in_range _) end.
  all: st_inv.
  eexists _, _, _. split_and!; [by symmetry|by symmetry|done].
Qed.
End Renewal.

Section ConfiguredServer.
Context `{Lru, SshCerts, Rcgen, Hmac, Env, Hex, X509, Asn1, !Yubikeys, !Kms}
  `{!ConfigInputs SignerType}.

(** The signers of a configured server are those of its configuration. *)
Lemma configure_signers path v w0 w1 settings :
  configure into_signer path v w0 = (w1, Ret settings) →
  ∃ text config w2 w3, read_file path = Some text ∧ toml_from_slice text = Ok config ∧
    convert_to_signing_mechanism into_signer (sc_default_authority (cf_signing config))
      (config_order (sc_authority_configurations (cf_signing config))) w2 =
      (w3, Ret (signer (set_server settings))).
Proof. unfold configure. intros Hrun. st_inv_all. eauto 10. Qed.

(** C9: from the configuration file to the certificate: a server that was
    started from a file answers with a certificate only if the authorizer of
    that file granted the request of the key that was proved, and the
    certificate says what was granted and is signed by the key that the file
    names for the granted authority and type - in a file, a Yubikey's slot or
    Amazon's service. *)
Theorem configured_server_signs_as_configured path v w0 w1 settings req w w' resp :
  SshCertsLaws → configure into_signer path v w0 = (w1, Ret settings) →
  certificate_handler (set_server settings) req w = (w', Ret resp) → cs_error_code resp = 0 →
  ∃ text config addr peers chal pk ids refresh ty ca authz cert kind tbs capk,
    read_file path = Some text ∧ toml_from_slice text = Ok config ∧
    mechanism_try_into (cf_authorization config) = Ok (authorizer (set_server settings)) ∧
    issued (set_server settings) req w w' resp addr peers chal pk ids refresh ty ca authz cert ∧
    (sa_authority authz, kind) ∈ config_order (sc_authority_configurations (cf_signing config)) ∧
    signed_as_configured kind tbs cert capk ∧ same_tbs tbs cert ∧
    pk_hash (c_key cert) = pk_hash pk ∧ c_cert_type cert = ty ∧
    c_principals cert = sa_principals authz ∧
    c_valid_after cert = sa_valid_after authz ∧ c_valid_before cert = sa_valid_before authz.
Proof.
  intros ? Hconf Hrun Hcode.
  destruct (configure_signers _ _ _ _ _ Hconf) as (text & config & w2 & w3 & Ht & Hc & Hm).
  pose proof (λ a s, configured_mechanism_laws _ _ _ _ _ a s Hm) as Hlaws.
  apply configure_Ret in Hconf as (_ & _ & [(text' & config' & Ht' & Hc' & Ha & _) _ _ _ _]).
  simplify_eq.
  apply certificate_handler_cases in Hrun as [(e & He & -> & _)|Hi]; [by destruct e| |done].
  destruct Hi as (addr & peers & chal & pk & ids & refresh & ty & ca & authz & cert & Hi).
  destruct (iss_signed _ _ _ _ _ _ _ _ _ _ _ _ _ _ _ Hi) as (b & w4 & w5 & _ & Hs).
  destruct (issued_says _ _ _ _ _ _ _ _ _ _ _ _ _ _ _ _ Hlaws Hi)
    as (Hkey & Hty & _ & _ & _ & Hprin & Hva & Hvb & _).
  unfold sign in Hs. destruct (authorities _ !! sa_authority authz) as [s|] eqn:Hauth; [|done].
  destruct (mechanism_signers _ _ _ _ _ _ _ _ Hm Hauth) as (kind & w6 & w7 & Hin & Hk).
  destruct (into_signer_signs _ _ _ _ _ _ _ _ Hk Hs) as (capk & _ & Hsigned).
  assert (config' = config) as -> by congruence.
  assert (same_tbs _ cert) as Htbs by (by eapply signer_sign_tbs, Hs; eapply Hlaws).
  eexists text', config, addr, peers, chal, pk, ids, refresh, ty, ca, authz, cert, kind, _, capk.
  repeat (split; [done|]). done.
Qed.
End ConfiguredServer.
