(* ===== verification/ServerMain.v ===== *)
(** * The server's program

    [main] of [rustica/src/main.rs]: it configures the server, tells what it
    starts, hands the receiver of the logs to the logging thread and serves
    over TLS.  What tonic and the socket answer is a parameter. *)
From Stdlib Require Import ZArith Lia.
From S2P Require Import Prelude Machine Text Deps Key Auth Logging Schema World.
From S2P Require Import Database External Authorizer Signing YubikeySigner KmsSigner Signers.
From S2P Require Import Proto Server Validation Issuance Registration X509Issuance AllowedSigners.
From S2P Require Import Service LoggingThread ServerConfig.

(** [tls_config] with an identity (certificate and key) and the root of the
    clients, and the socket: the error of the n-th call, if it fails. *)
Class Listener := {
  tls_fault : string * string → string → nat → option string;
  listen_fault : SocketAddr → nat → option string;
}.

(** The process: the state of the server, what was printed, and what the
    logging thread was started with. *)
Record Process `{Lru} : Type := mkProcess {
  ps_world : World;
  ps_out : list string;
  ps_logging : option LoggingConfiguration;
}.

(** What is being served, to whom. *)
Record Serving `{Lru, SshCerts, Rcgen, Hmac} : Type := {
  sv_server : RusticaServer AuthorizationMechanism;
  sv_identity : string * string;
  sv_client_ca_root : string;
  sv_max_frame_size : Z;
  sv_address : SocketAddr;
}.

Inductive ServerError : Type :=
| StartConfiguration (e : ConfigurationError)
| StartTransport (e : string).

Section ServerMain.
Context `{Lru, SshCerts, Rcgen, Hmac, Env, !Listener} {C : Type} `{!ConfigInputs C}
  (into_signer : C → st World SigningError Signer).

#[local] Abbreviation process_st := (st Process ServerError).

Definition in_world {A} (m : st World ServerError A) : process_st A := λ p,
  let '(w, r) := m (ps_world p) in (mkProcess _ w (ps_out p) (ps_logging p), r).
Definition say (l : string) : process_st () :=
  modify (λ p, mkProcess _ (ps_world p) (ps_out p ++ [l]) (ps_logging p)).
Definition spawn_logging (config : LoggingConfiguration) : process_st () :=
  modify (λ p, mkProcess _ (ps_world p) (ps_out p) (Some config)).
(** A call of the TLS layer or the socket. *)
Definition transport (fault : nat → option string) : process_st () :=
  e ← in_world (library_call fault);
  match e with Some e => throw (StartTransport e) | None => mret () end.

(** The settings, or [None] when the configuration was only to be validated. *)
Definition settings_of (config_path : string) (validate : Z) : process_st (option RusticaSettings) :=
  settings ← in_world (attempt (configure into_signer config_path validate));
  match settings with
  | Ok settings => mret (Some settings)
  | Err ValidateOnly => say "Configuration successfully validated";; mret None
  | Err e => throw (StartConfiguration e)
  end.

Definition serve (settings : RusticaSettings) : process_st Serving :=
  let identity := (set_server_cert settings, set_server_key settings) in
  let client_ca_cert := set_client_ca_cert settings in
  say ("Starting Rustica on: " +:+ addr_to_string (set_address settings));;
  signers ← in_world (mechanism_to_string (signer (set_server settings)));
  say signers;;
  say (mechanism_info (authorizer (set_server settings)));;
  spawn_logging (set_logging_configuration settings);;
  transport (tls_fault identity client_ca_cert);;
  transport (listen_fault (set_address settings));;
  mret {| sv_server := set_server settings; sv_identity := identity;
          sv_client_ca_root := client_ca_cert; sv_max_frame_size := 1024 * 1024 * 4;
          sv_address := set_address settings |}.

(** [main], up to the moment the server waits for requests. *)
Definition main (config_path : string) (validate : Z) : process_st (option Serving) :=
  settings ← settings_of config_path validate;
  match settings with
  | Some settings => serving ← serve settings; mret (Some serving)
  | None => mret None
  end.

(** ** Lemmas *)

Lemma in_world_Ret {A} (m : st World ServerError A) p p' a :
  in_world m p = (p', Ret a) ↔
    ∃ w, m (ps_world p) = (w, Ret a) ∧ p' = mkProcess _ w (ps_out p) (ps_logging p).
Proof. unfold in_world. destruct (m (ps_world p)) as [w r]. naive_solver. Qed.

Lemma transport_Ret fault p p' u :
  transport fault p = (p', Ret u) →
  ps_out p' = ps_out p ∧ ps_logging p' = ps_logging p ∧ fault (w_calls (ps_world p)) = None.
Proof.
  unfold transport. intros Hrun.
  apply st_bind_Ret in Hrun as (p1 & e & Hc & Hrun). apply in_world_Ret in Hc as (w & Hc & ->).
  apply library_call_Ret in Hc as [-> ->]. destruct (fault _) eqn:Hf; [done|].
  apply mret_Ret in Hrun as [-> _]. done.
Qed.

(** The logging of the settings is that of the file. *)
Lemma configure_logging path v w w' s :
  configure into_signer path v w = (w', Ret s) →
  ∃ text conf, read_file path = Some text ∧ toml_from_slice text = Ok conf ∧
    set_logging_configuration s = cf_logging conf.
Proof. unfold configure. intros Hrun. st_inv_all. eauto 10. Qed.

(** What a server that serves has done. *)
Lemma serve_Ret s p p' sv :
  serve s p = (p', Ret sv) →
  ps_logging p' = Some (set_logging_configuration s) ∧
  sv_server sv = set_server s ∧ sv_client_ca_root sv = set_client_ca_cert s ∧
  sv_identity sv = (set_server_cert s, set_server_key s) ∧ sv_address sv = set_address s ∧
  ∃ w1 w2 signers,
    mechanism_to_string (E := ServerError) (signer (set_server s)) w1 = (w2, Ret signers) ∧
    ps_out p' = ps_out p ++ ["Starting Rustica on: " +:+ addr_to_string (set_address s); signers;
      mechanism_info (authorizer (set_server s))].
Proof.
  unfold serve, say, spawn_logging. intros Hrun. st_inv.
  repeat match goal with
    | Hw : in_world _ _ = _ |- _ => apply in_world_Ret in Hw as (? & Hw & ?); subst; cbn in Hw
    | Ht : transport _ _ = _ |- _ => apply transport_Ret in Ht as (? & ? & ?)
    end.
  cbn in *. repeat (split; [congruence|]). eexists _, _, _. split; [done|].
  repeat match goal with Ho : ps_out _ = _ |- _ => rewrite Ho; clear Ho end.
  cbn. by rewrite <-!app_assoc.
Qed.

Lemma main_serves path v p p' sv :
  main path v p = (p', Ret (Some sv)) →
  ∃ w s p1, configure into_signer path v (ps_world p) = (w, Ret s) ∧
    ps_out p1 = ps_out p ∧ serve s p1 = (p', Ret sv).
Proof.
  unfold main, settings_of. intros Hrun.
  apply st_bind_Ret in Hrun as (p1 & o & Hs & Hrun).
  apply st_bind_Ret in Hs as (p2 & r & Hc & Hs).
  apply in_world_Ret in Hc as (w & Hc & ->). apply attempt_Ret in Hc.
  destruct r as [s|e].
  - apply mret_Ret in Hs as [-> ->]. apply st_bind_Ret in Hrun as (p3 & sv' & Hserve & Hr).
    apply mret_Ret in Hr as [-> [= <-]].
    eexists w, s, _. split; [done|]. split; [|done]. done.
  - exfalso. destruct e; try (by apply throw_Ret in Hs). unfold say in Hs. st_inv. done.
Qed.

(** With [-v] nothing is started: the program says that the configuration is
    good, or fails as [configure] does. *)
Lemma validation_starts_nothing path v p p' r :
  1 ≤ v → main path v p = (p', r) →
  ps_logging p' = ps_logging p ∧ match r with
    | Ret None => ps_out p' = ps_out p ++ ["Configuration successfully validated"]
    | Ret (Some _) => False
    | _ => ps_out p' = ps_out p
    end.
Proof.
  intros Hv. unfold main, settings_of. intros Hrun.
  destruct (configure into_signer path v (ps_world p)) as [w o] eqn:Hc.
  assert (∀ s, o ≠ Ret s) as Hno.
  { intros s ->. apply configure_Ret in Hc as (? & ? & _). lia. }
  revert Hrun. st_unfold. unfold in_world, attempt, say, throw. rewrite Hc.
  destruct o as [s|e|]; [by destruct (Hno s)| |]; cbn.
  - by destruct e; intros [= <- <-].
  - by intros [= <- <-].
Qed.
End ServerMain.

(** ** What a printed line says *)

(** A value in brackets after its label. *)
Definition says (line label value : string) : Prop :=
  ∃ before after, line = before +:+ label +:+ ": [" +:+ value +:+ "]" +:+ after.

Lemma says_here before line label value after :
  line = (before +:+ label +:+ ": [") +:+ value +:+ String "]" after → says line label value.
Proof. intros ->. exists before, after. by rewrite !string_app_assoc. Qed.
Lemma says_later text line label value : says line label value → says (text +:+ line) label value.
Proof. intros (b & a & ->). exists (text +:+ b), a. by rewrite !string_app_assoc. Qed.
#[local] Ltac says :=
  first [eapply (says_here ""); reflexivity | eapply (says_here "] "); reflexivity
        |apply says_later; says].

(** The messages among what the thread receives. *)
Fixpoint messages (events : list Received) : list Log :=
  match events with
  | [] | Disconnected :: _ => []
  | Message l :: events => l :: messages events
  | TimedOut :: events => messages events
  end.

Lemma messages_logs events : messages events `sublist_of` logs_of events.
Proof. induction events as [|[l| |] events IH]; cbn; by constructor. Qed.

Lemma sublist_omap {B C} (f : B → option C) l k :
  l `sublist_of` k → omap f l `sublist_of` omap f k.
Proof.
  induction 1 as [|x l k _ IH|x l k _ IH]; cbn; [done|..]; destruct (f x); try done; by constructor.
Qed.

Section Lines.
Context `{Lru, SshCerts, Rcgen, Hmac, Env, Hex, X509, !Attestation, !Zstd, Serde} {A : Type}
  `{!Authorizer A}.
Context (srv : RusticaServer A).

(** The line is about what the request [x] was granted. *)
Definition key_line (line : string) {M} (req : Request M) (chal : option Challenge) : Prop :=
  ∃ info c pk, peer_info req info ∧ chal = Some c ∧ pk_from_string (ch_pubkey c) = Some pk ∧
    says line "Key registered" (pk_hash pk) ∧
    says line "Identified by" (join ", " (identities info)).
Definition line_of (line : string) (x : exchange) : Prop :=
  match x with
  | XCertificate req (Ret resp) => ∃ cert info,
      cs_certificate resp = cert_to_string cert ∧ peer_info req info ∧
      says line "Certificate issued for" (pk_hash (c_key cert)) ∧
      (∃ after, line = "[" +:+ cert_type_to_string (c_cert_type cert) +:+ "]" +:+ after) ∧
      says line "Authority" (asked_authority srv (cq_key_id (into_inner req))) ∧
      says line "Identified by" (join ", " (identities info)) ∧
      says line "Principals granted" (join ", " (c_principals cert)) ∧
      says line "Extensions" (debug_map (c_extensions cert)) ∧
      says line "CriticalOptions" (debug_map (c_critical_options cert)) ∧
      says line "Valid After" (int_to_string (c_valid_after cert)) ∧
      says line "Valid Before" (int_to_string (c_valid_before cert)) ∧
      says line "Serial Number" (int_to_string (c_serial cert))
  | XAttestedX509 req (Ret resp) => ∃ info params k ca n serial,
      peer_info req info ∧
      serialize_der_with_signer (params, k) ca n = Some (xs_certificate resp) ∧
      serial_number params = Some (le_bytes 8 serial) ∧
      says line "X509 Certificate issued. Authority"
        (asked_authority srv (xq_key_id (into_inner req))) ∧
      says line "Identified by" (join ", " (identities info)) ∧
      says line "Extensions" (debug_map (logged_extensions (custom_extensions params))) ∧
      says line "Valid After" (int_to_string (not_before params)) ∧
      says line "Valid Before" (int_to_string (not_after params)) ∧
      says line "Serial" (int_to_string serial)
  | XRegisterKey req (Ret _) => key_line line req (rq_challenge (into_inner req))
  | XRegisterU2fKey req (Ret _) => key_line line req (uq_challenge (into_inner req))
  | _ => False
  end.

Lemma accounted_line l x :
  accounts_for srv l x → ∃ line, stdout_line l = Some (Info, line) ∧ line_of line x.
Proof.
  destruct l as [ci|xi|ki|f|m|], x as [req r|req r|req r|req r|req r|req r]; cbn [accounts_for]; try done;
    destruct r as [resp| |]; try done.
  - intros (cert & info & Hc & (E1 & _ & E2 & E3 & E4 & E5 & E6 & E7 & E8) & Hi & E9 & E10).
    eexists. split; [reflexivity|]. exists cert, info.
    rewrite <-E1, <-E2, <-E3, <-E4, <-E5, <-E6, <-E7, <-E8, <-E9, <-E10.
    split; [exact Hc|]. split; [exact Hi|]. split_and!; [says|by eexists|says..].
  - intros (info & params & k & ca & n & Hi & E1 & E2 & E3 & E4 & E5 & E6 & E7).
    eexists. split; [reflexivity|]. exists info, params, k, ca, n, (xi_serial xi).
    rewrite <-E1, <-E2, E4, E5, <-E7. split_and!; [done..|says|says|says|says|says|says].
  - intros (info & chal & pk & Hi & Hc & Hpk & ->). eexists. split; [reflexivity|].
    exists info, chal, pk. split_and!; [done..|says|says].
  - intros (info & chal & pk & Hi & Hc & Hpk & ->). eexists. split; [reflexivity|].
    exists info, chal, pk. split_and!; [done..|says|says].
Qed.

(** So the lines of a history are printed among the others, in its order. *)
Lemma accounted_lines entries h :
  Forall2 (accounts_for srv) entries h →
  ∃ lines, omap stdout_line entries = (pair Info) <$> lines ∧ Forall2 line_of lines h.
Proof.
  induction 1 as [|l x entries h Ha _ (lines & Hl & Hf)]; [by exists []|].
  apply accounted_line in Ha as (line & Hline & Hx). exists (line :: lines). cbn.
  rewrite Hline, Hl. split; [done|by constructor].
Qed.
End Lines.

(** ** Properties *)

Section Reported.
Context `{Lru, SshCerts, Rcgen, Hmac, Env, Hex, X509, Asn1, !Attestation, !Zstd, !Yubikeys, !Kms,
  !Listener, Serde, !LogClients} `{!ConfigInputs SignerType}.

(** C11: whatever the server grants is printed: the program that serves has
    started the logging thread as its file says; if the file configures stdout,
    the clients of the other backends can be had and no reading of the clock is
    before 1970, then the thread, once it received what the handlers sent in a
    history of requests, has printed a line for each request that was granted
    something, in their order.  The line names the key, the type, the authority,
    the names of the client, the principals, the extensions and options, the
    period and the serial number of the SSH certificate that was answered; all
    of this but the key, the type, the principals and the options for an X.509
    certificate; the key and the names for a registration. *)
Theorem issued_certificates_are_reported path v p p' sv text conf w h w' events n :
  let config := cf_logging conf in
  SshCertsLaws → read_file path = Some text → toml_from_slice text = Ok conf →
  main into_signer path v p = (p', Ret (Some sv)) →
  history (sv_server sv) w h w' → messages events = w_logs w' →
  clock_works → can_log config → lc_stdout config = Some () →
  ps_logging p' = Some config ∧
  ∃ s lines, start_logging_thread config events (mkLogState n []) = (s, Ret ()) ∧
    (pair Info) <$> lines `sublist_of` printed (ls_output s) ∧
    Forall2 (line_of (sv_server sv)) lines (filter grants h).
Proof.
  intros config ? Htext Hconf0 Hmain Hh Hevents Hclock Hcan Hstd.
  apply main_serves in Hmain as (w1 & s & p1 & Hconf & _ & Hserve).
  apply serve_Ret in Hserve as (Hl & Hsv & _). rewrite Hsv in Hh |- *.
  destruct (configure_logging _ _ _ _ _ _ Hconf) as (text' & conf' & Ht' & Hc' & Hlc).
  destruct (configure_signers _ _ _ _ _ Hconf) as (? & ? & w2 & w3 & _ & _ & Hm).
  split; [rewrite Hl, Hlc; unfold config; congruence|].
  pose proof (λ a s, configured_mechanism_laws _ _ _ _ _ a s Hm) as Hlaws.
  destruct (history_audit _ _ _ _ _ Hlaws Hh) as (entries & Haudit & Hf).
  destruct (accounted_lines _ _ _ Hf) as (lines & Hlines & Hof).
  destruct (logging_thread_run config events n Hclock Hcan) as (ls & out & Hthread & Hout & ->).
  exists ls, lines. split; [exact Hthread|]. split; [|exact Hof].
  rewrite Hout, (proj1 (told_is_silent _ _)), loop_prints by done. rewrite <-Hlines.
  apply sublist_omap. transitivity (messages events); [|apply messages_logs].
  rewrite Hevents. transitivity (audit_log w'); [|apply sublist_filter].
  rewrite Haudit. by apply sublist_inserts_l.
Qed.
End Reported.
