(* ===== verification/AgentProtocol.v ===== *)
(** * The agent: the SSH agent protocol

    [rustica-agent/src/sshagent]: the wire format of [protocol.rs], the
    dispatch of [handler.rs] and the loop over one connection of [agent.rs].
    A connection is the list of all bytes the peer sends before it closes its
    side, so a read that waits is a read that succeeds or meets the end. *)
From Stdlib Require Import ZArith Lia Strings.Byte.
From S2P Require Import Prelude Machine Text Deps.

(** [error.rs]. *)
Record AgentError : Type := { details : string }.
Definition error_of_str (s : string) : AgentError := {| details := s |}.
(** [From<io::Error>] for the error of a read past the end. *)
Definition early_eof : AgentError := {| details := "IOError: early eof" |}.
Definition broken_pipe : AgentError := {| details := "IOError: Broken pipe (os error 32)" |}.

Inductive MessageRequest : Type :=
| MIdentities | MSign | MAddIdentity | MRemoveIdentity | MRemoveAllIdentities
| MAddIdConstrained | MAddSmartcardKey | MRemoveSmartcardKey | MLock | MUnlock
| MAddSmartcardKeyConstrained | MExtension | MUnknown.

Definition from_u8 (value : Z) : MessageRequest :=
  if decide (value = 11) then MIdentities
  else if decide (value = 13) then MSign
  else if decide (value = 17) then MAddIdentity
  else if decide (value = 18) then MRemoveIdentity
  else if decide (value = 19) then MRemoveAllIdentities
  else if decide (value = 25) then MAddIdConstrained
  else if decide (value = 20) then MAddSmartcardKey
  else if decide (value = 21) then MRemoveSmartcardKey
  else if decide (value = 22) then MLock
  else if decide (value = 23) then MUnlock
  else if decide (value = 26) then MAddSmartcardKeyConstrained
  else if decide (value = 27) then MExtension
  else MUnknown.

Record Identity : Type := { key_blob : bytes; key_comment : string }.

Inductive Response : Type :=
| RSuccess
| RFailure
| RIdentities (identities : list Identity)
| RSignResponse (signature : bytes).

Section Protocol.
Context `{SshCerts}.

Inductive AgentRequest : Type :=
| QIdentities
| QSign (pubkey_blob data : bytes) (flags : Z)
| QAddIdentity (private_key : PrivateKey)
| QUnknown.

(** ** Reading *)

#[local] Abbreviation reader := (st bytes AgentError).

Definition read_exact (n : Z) : reader bytes := λ s,
  if decide (n ≤ vec_len s) then (drop (Z.to_nat n) s, Ret (take (Z.to_nat n) s))
  else ([], Raise early_eof).
Definition read_u8 : reader Z := bs ← read_exact 1; mret (be_decode bs).
Definition read_u32 : reader Z := bs ← read_exact 4; mret (be_decode bs).

Definition read_message : reader bytes :=
  len ← read_u32;
  read_exact len.

(** The parser of one message's bytes. *)
Definition parse_request : reader AgentRequest :=
  msg ← read_u8;
  match from_u8 msg with
  | MIdentities => mret QIdentities
  | MSign =>
      pubkey_blob ← read_message;
      data ← read_message;
      flags ← read_u32;
      mret (QSign pubkey_blob data flags)
  | MAddIdentity =>
      buf ← get;
      match sk_from_bytes buf with
      | Some private_key => mret (QAddIdentity private_key)
      | None => mret QUnknown
      end
  | _ => mret QUnknown
  end.

Definition request_read : reader AgentRequest :=
  raw_msg ← read_message;
  of_outcome (parse_request raw_msg).2.

(** ** Writing *)

Definition write_message (w string : bytes) : bytes :=
  w ++ be_bytes 4 (as_u32 (vec_len string)) ++ string.

Definition write_identity (w : bytes) (identity : Identity) : bytes :=
  write_message (write_message w (key_blob identity)) (as_bytes (key_comment identity)).

Definition response_payload (r : Response) : bytes :=
  match r with
  | RSuccess => [byte_of_Z 6]
  | RFailure => [byte_of_Z 5]
  | RIdentities identities =>
      foldl write_identity
        ([byte_of_Z 12] ++ be_bytes 4 (as_u32 (vec_len identities))) identities
  | RSignResponse signature => write_message [byte_of_Z 14] signature
  end.

Definition response_write (r : Response) : bytes :=
  let buf := response_payload r in
  be_bytes 4 (as_u32 (vec_len buf)) ++ buf.

(** ** The handler and the connection *)

(** The trait [SshAgentHandler], over the state [S] of the handler. *)
Record SshAgentHandler (S : Type) : Type := {
  h_add_identity : PrivateKey → st S AgentError Response;
  h_identities : st S AgentError Response;
  h_sign_request : bytes → bytes → Z → st S AgentError Response;
}.

Context {S : Type}.

Definition handle_request (self : SshAgentHandler S) (request : AgentRequest)
    : st S AgentError Response :=
  match request with
  | QIdentities => h_identities S self
  | QSign pubkey_blob data flags => h_sign_request S self pubkey_blob data flags
  | QAddIdentity private_key => h_add_identity S self private_key
  | QUnknown => mret RFailure
  end.

(** A connection: what is still to be read, what was written, the handler's
    state. *)
Record Connected : Type := mkConnected {
  cn_input : bytes;
  cn_output : bytes;
  cn_handler : S;
}.

(** How the loop ended: it has no other exit, but its task may be dropped. *)
Variant Ended := EndedBy (e : AgentError) | EndedByPanic | Dropped.

(** One turn of the loop of [handle_client]; [writable] tells whether the peer
    still takes an answer after [n] bytes. *)
Definition serve_one (handler : SshAgentHandler S) (writable : nat → bool) (c : Connected)
    : Connected * option Ended :=
  match request_read (cn_input c) with
  | (input, Ret req) =>
      match handle_request handler req (cn_handler c) with
      | (h, Ret response) =>
          if writable (length (cn_output c)) then
            (mkConnected input (cn_output c ++ response_write response) h, None)
          else (mkConnected input (cn_output c) h, Some (EndedBy broken_pipe))
      | (h, Raise e) => (mkConnected input (cn_output c) h, Some (EndedBy e))
      | (h, Panic) => (mkConnected input (cn_output c) h, Some EndedByPanic)
      end
  | (input, Raise e) => (mkConnected input (cn_output c) (cn_handler c), Some (EndedBy e))
  | (input, Panic) => (mkConnected input (cn_output c) (cn_handler c), Some EndedByPanic)
  end.

(** The loop; [None] when the fuel ran out. *)
Fixpoint handle_client (fuel : nat) (handler : SshAgentHandler S) (writable : nat → bool)
    (c : Connected) : option (Connected * Ended) :=
  match fuel with
  | O => None
  | Datatypes.S fuel =>
      match serve_one handler writable c with
      | (c, Some e) => Some (c, e)
      | (c, None) => handle_client fuel handler writable c
      end
  end.
End Protocol.
Arguments SshAgentHandler {_} _.
Arguments h_add_identity {_ _} _ _.
Arguments h_identities {_ _} _.
Arguments h_sign_request {_ _} _ _ _ _.
Arguments mkConnected {_} _ _ _.
Arguments Connected : clear implicits.

(** ** The grammar of the requests *)

Definition frame_of (payload : bytes) : bytes := be_bytes 4 (vec_len payload) ++ payload.
Definition u32_length (bs : bytes) : Prop := vec_len bs < 2 ^ 32.

Section Grammar.
Context `{SshCerts}.

(** The payloads of a request; what follows the fields is ignored. *)
Inductive encodes : AgentRequest → bytes → Prop :=
| encodes_identities rest : encodes QIdentities (byte_of_Z 11 :: rest)
| encodes_sign pubkey_blob data flags rest :
    u32_length pubkey_blob → u32_length data → in_u32 flags →
    encodes (QSign pubkey_blob data flags)
      (byte_of_Z 13 :: frame_of pubkey_blob ++ frame_of data ++ be_bytes 4 flags ++ rest)
| encodes_add key rest :
    sk_from_bytes rest = Some key → encodes (QAddIdentity key) (byte_of_Z 17 :: rest)
| encodes_bad_key rest : sk_from_bytes rest = None → encodes QUnknown (byte_of_Z 17 :: rest)
| encodes_unknown b rest :
    Z_of_byte b ∉ [11; 13; 17] → encodes QUnknown (b :: rest).

(** ** Lemmas *)

Lemma be_bytes_decode bs n : length bs = n → be_bytes n (be_decode bs) = bs.
Proof.
  revert n. induction bs as [|b bs IH] using rev_ind; intros n Hn; subst n; [done|].
  rewrite length_app, be_decode_app. cbn [length]. rewrite Nat.add_1_r.
  unfold be_bytes. cbn [le_bytes]. rewrite reverse_cons.
  pose proof (Z_of_byte_range b) as Hb.
  assert ((be_decode bs * 256 + Z_of_byte b) / 256 = be_decode bs) as ->.
  { symmetry. apply Z.div_unique with (r := Z_of_byte b); lia. }
  specialize (IH _ eq_refl). unfold be_bytes in IH. rewrite IH. f_equal. f_equal.
  unfold byte_of_Z.
  assert ((be_decode bs * 256 + Z_of_byte b) mod 256 = Z_of_byte b) as ->.
  { symmetry. apply Z.mod_unique with (q := be_decode bs); lia. }
  unfold Z_of_byte. rewrite N2Z.id, Byte.of_to_N. done.
Qed.

Lemma be_decode_u32 z : in_u32 z → be_decode (be_bytes 4 z) = z.
Proof. intros Hz. apply be_decode_bytes. unfold in_u32 in Hz. exact Hz. Qed.

Lemma be_decode_one b : be_decode [b] = Z_of_byte b.
Proof. unfold be_decode. cbn. lia. Qed.

Lemma read_exact_app (n : Z) bs rest :
  vec_len bs = n → read_exact n (bs ++ rest) = (rest, Ret bs).
Proof.
  intros <-. unfold read_exact, vec_len. rewrite decide_True by (rewrite length_app; lia).
  rewrite Nat2Z.id. by rewrite drop_app_length, take_app_length.
Qed.

Lemma read_exact_Ret n s s' bs :
  0 ≤ n → read_exact n s = (s', Ret bs) → s = bs ++ s' ∧ vec_len bs = n.
Proof.
  intros Hn. unfold read_exact, vec_len. case_decide as Hle; [|done]. intros [= <- <-].
  rewrite take_drop. split; [done|]. rewrite length_take. lia.
Qed.

Lemma read_u32_app z rest : in_u32 z → read_u32 (be_bytes 4 z ++ rest) = (rest, Ret z).
Proof.
  intros Hz. unfold read_u32, mbind, st_bind. rewrite (read_exact_app 4 (be_bytes 4 z)).
  - unfold mret, st_ret. by rewrite be_decode_u32.
  - unfold vec_len. by rewrite length_be_bytes.
Qed.

Lemma read_u32_Ret s s' z : read_u32 s = (s', Ret z) → s = be_bytes 4 z ++ s' ∧ in_u32 z.
Proof.
  unfold read_u32. intros Hr. st_inv.
  match goal with He : read_exact _ _ = _ |- _ => apply read_exact_Ret in He as [-> Hl]; [|lia] end.
  unfold vec_len in Hl. rewrite be_bytes_decode by lia. split; [done|].
  match goal with |- in_u32 (be_decode ?bs) => pose proof (be_decode_range bs) as Hrange end.
  unfold vec_len in Hrange. rewrite Hl in Hrange. exact Hrange.
Qed.

Lemma read_u8_cons b rest : read_u8 (b :: rest) = (rest, Ret (Z_of_byte b)).
Proof.
  unfold read_u8, mbind, st_bind. change (b :: rest) with ([b] ++ rest).
  rewrite (read_exact_app 1) by done. unfold mret, st_ret. by rewrite be_decode_one.
Qed.

Lemma read_u8_Ret s s' z : read_u8 s = (s', Ret z) → ∃ b, s = b :: s' ∧ z = Z_of_byte b.
Proof.
  unfold read_u8. intros Hr. st_inv.
  match goal with He : read_exact _ _ = (_, Ret ?bs) |- _ =>
    apply read_exact_Ret in He as [-> Hl]; [|lia];
    unfold vec_len in Hl; destruct bs as [|b [|]]; cbn in Hl; try lia end.
  exists b. by rewrite be_decode_one.
Qed.

Lemma read_message_frame p rest : u32_length p → read_message (frame_of p ++ rest) = (rest, Ret p).
Proof.
  intros Hp. unfold read_message, frame_of, mbind, st_bind.
  rewrite <-(assoc_L app), read_u32_app by (unfold in_u32, u32_length, vec_len in *; lia).
  by apply read_exact_app.
Qed.

Lemma read_message_Ret s s' p :
  read_message s = (s', Ret p) → s = frame_of p ++ s' ∧ u32_length p.
Proof.
  unfold read_message. intros Hr. st_inv.
  match goal with Hu : read_u32 _ = _ |- _ => apply read_u32_Ret in Hu as [-> Hz] end.
  match goal with He : read_exact _ _ = _ |- _ =>
    apply read_exact_Ret in He as [-> Hl]; [|apply Hz] end.
  unfold frame_of, u32_length. rewrite Hl. split; [by rewrite (assoc_L app)|apply Hz].
Qed.

Lemma byte_of_Z_of_byte b : byte_of_Z (Z_of_byte b) = b.
Proof.
  unfold byte_of_Z. rewrite Z.mod_small by apply Z_of_byte_range.
  unfold Z_of_byte. by rewrite N2Z.id, Byte.of_to_N.
Qed.

Lemma from_u8_known v :
  (v = 11 ∧ from_u8 v = MIdentities) ∨ (v = 13 ∧ from_u8 v = MSign) ∨
  (v = 17 ∧ from_u8 v = MAddIdentity) ∨
  (v ∉ [11; 13; 17] ∧ ∀ B (a b c d : B), match from_u8 v with
    | MIdentities => a | MSign => b | MAddIdentity => c | _ => d end = d).
Proof.
  unfold from_u8. repeat case_decide; subst; eauto 10.
  all: right; right; right; split; [|done].
  all: rewrite !elem_of_cons, elem_of_nil; lia.
Qed.

Lemma parse_request_encodes r p : encodes r p → (parse_request p).2 = Ret r.
Proof.
  destruct 1 as [rest|pk data flags rest Hpk Hdata Hflags|key rest Hk|rest Hk|b rest Hb];
    unfold parse_request, mbind at 1, st_bind at 1; rewrite read_u8_cons.
  - reflexivity.
  - change (from_u8 _) with MSign. unfold mbind, st_bind.
    rewrite read_message_frame by done. rewrite read_message_frame by done.
    by rewrite read_u32_app.
  - change (from_u8 _) with MAddIdentity. st_unfold. by rewrite Hk.
  - change (from_u8 _) with MAddIdentity. st_unfold. by rewrite Hk.
  - destruct (from_u8_known (Z_of_byte b)) as [[Hv _]|[[Hv _]|[[Hv _]|[_ Hv]]]];
      [by destruct Hb; rewrite Hv; set_solver..|].
    specialize (Hv _ (1%nat) (2%nat) (3%nat) (4%nat)). by destruct (from_u8 (Z_of_byte b)).
Qed.

Lemma parse_request_Ret r p p' : parse_request p = (p', Ret r) → encodes r p.
Proof.
  unfold parse_request. intros Hrun. apply st_bind_Ret in Hrun as (p1 & msg & Hmsg & Hrun).
  apply read_u8_Ret in Hmsg as (b & -> & ->).
  destruct (from_u8_known (Z_of_byte b)) as [[Hv Hm]|[[Hv Hm]|[[Hv Hm]|[Hb Hm]]]].
  - rewrite Hm in Hrun. st_inv. rewrite <-(byte_of_Z_of_byte b), Hv. constructor.
  - rewrite Hm in Hrun.
    apply st_bind_Ret in Hrun as (p2 & pk & [-> Hpk]%read_message_Ret & Hrun).
    apply st_bind_Ret in Hrun as (p3 & data & [-> Hdata]%read_message_Ret & Hrun).
    apply st_bind_Ret in Hrun as (p4 & flags & [-> Hflags]%read_u32_Ret & Hrun).
    st_inv. rewrite <-(byte_of_Z_of_byte b), Hv. by constructor.
  - rewrite Hm in Hrun. rewrite <-(byte_of_Z_of_byte b), Hv. st_inv.
    destruct (sk_from_bytes _) eqn:Hk; st_inv; by constructor.
  - assert (r = QUnknown) as ->; [|by constructor].
    specialize (Hm _ (1%nat) (2%nat) (3%nat) (4%nat)).
    destruct (from_u8 (Z_of_byte b)); try done; by st_inv.
Qed.

Lemma request_read_spec s s' r :
  request_read s = (s', Ret r) ↔ ∃ p, s = frame_of p ++ s' ∧ u32_length p ∧ encodes r p.
Proof.
  unfold request_read. split.
  - intros Hrun. apply st_bind_Ret in Hrun as (s1 & p & [-> Hp]%read_message_Ret & Hrun).
    apply of_outcome_Ret in Hrun as [-> Hr]. exists p. split_and!; [done|done|].
    destruct (parse_request p) as [p' o] eqn:Hparse. cbn in Hr. subst o.
    by eapply parse_request_Ret.
  - intros (p & -> & Hp & He). unfold mbind, st_bind. rewrite read_message_frame by done.
    unfold of_outcome. by rewrite (parse_request_encodes r p He).
Qed.
End Grammar.

(** ** The answers, as a client reads them *)

Section Answers.

#[local] Abbreviation reader := (st bytes AgentError).

(** The client's side of the wire format: draft-miller-ssh-agent. *)
Fixpoint read_identities (n : nat) : reader (list Identity) :=
  match n with
  | O => mret []
  | S n =>
      blob ← read_message;
      comment ← read_message;
      l ← read_identities n;
      mret ({| key_blob := blob; key_comment := of_bytes comment |} :: l)
  end.

Definition parse_response : reader Response :=
  tag ← read_u8;
  if decide (tag = 6) then mret RSuccess
  else if decide (tag = 5) then mret RFailure
  else if decide (tag = 12) then
    n ← read_u32; l ← read_identities (Z.to_nat n); mret (RIdentities l)
  else if decide (tag = 14) then signature ← read_message; mret (RSignResponse signature)
  else throw (error_of_str "unknown answer").

Definition response_read : reader Response :=
  raw ← read_message; of_outcome (parse_response raw).2.

Definition identity_bytes (i : Identity) : bytes := write_identity [] i.

Lemma write_message_app w x s : write_message (w ++ x) s = w ++ write_message x s.
Proof. unfold write_message. by rewrite <-(assoc_L app). Qed.
Lemma write_identity_app w i : write_identity w i = w ++ identity_bytes i.
Proof.
  unfold identity_bytes, write_identity. rewrite <-(app_nil_r w) at 1.
  by rewrite !write_message_app.
Qed.
Lemma identities_cons i l :
  mjoin (identity_bytes <$> i :: l) = identity_bytes i ++ mjoin (identity_bytes <$> l).
Proof. reflexivity. Qed.
Lemma write_identities w l : foldl write_identity w l = w ++ mjoin (identity_bytes <$> l).
Proof.
  revert w. induction l as [|i l IH]; intros w; [by rewrite app_nil_r|].
  rewrite identities_cons. cbn [foldl]. by rewrite IH, write_identity_app, app_assoc.
Qed.

Lemma as_u32_length {B} (l : list B) : vec_len l < 2 ^ 32 → as_u32 (vec_len l) = vec_len l.
Proof. intros Hl. apply as_u32_id. unfold in_u32, vec_len in *. lia. Qed.

Lemma write_message_frame s : u32_length s → write_message [] s = frame_of s.
Proof. intros Hs. unfold write_message, frame_of. by rewrite as_u32_length. Qed.

Lemma identity_bytes_frames i :
  u32_length (identity_bytes i) →
  identity_bytes i = frame_of (key_blob i) ++ frame_of (as_bytes (key_comment i)) ∧
  u32_length (key_blob i) ∧ u32_length (as_bytes (key_comment i)).
Proof.
  intros Hl. unfold identity_bytes, write_identity, u32_length, vec_len in *.
  unfold write_message in Hl. rewrite !length_app, !length_be_bytes in Hl.
  rewrite <-(app_nil_r (write_message [] _)), write_message_app.
  rewrite !write_message_frame by (unfold u32_length, vec_len; lia).
  split_and!; [done|lia|lia].
Qed.

Lemma read_identities_bytes l rest :
  Forall (λ i, u32_length (identity_bytes i)) l →
  read_identities (length l) (mjoin (identity_bytes <$> l) ++ rest) = (rest, Ret l).
Proof.
  induction 1 as [|i l Hi Hl IH]; [done|]. cbn [length read_identities].
  rewrite identities_cons.
  apply identity_bytes_frames in Hi as (-> & Hb & Hc). rewrite <-!app_assoc.
  unfold mbind at 1, st_bind at 1. rewrite read_message_frame by done.
  unfold mbind at 1, st_bind at 1. rewrite read_message_frame by done.
  unfold mbind at 1, st_bind at 1. rewrite IH. unfold mret, st_ret.
  rewrite of_bytes_as_bytes. by destruct i.
Qed.

(** The parts of a list of byte strings are no longer than the whole. *)
Lemma join_parts_fit (l : list bytes) n :
  Z.of_nat (length (mjoin l)) < n → Forall (λ b, vec_len b < n) l.
Proof.
  unfold vec_len. induction l as [|b l IH]; [constructor|].
  change (mjoin (b :: l)) with (b ++ mjoin l). rewrite length_app, Nat2Z.inj_add.
  intros Hl. constructor; [lia|]. apply IH. lia.
Qed.
Lemma identities_fewer (l : list Identity) :
  (length l ≤ length (mjoin (identity_bytes <$> l)))%nat.
Proof.
  induction l as [|i l IH]; [done|]. rewrite identities_cons, length_app. cbn [length].
  assert (1 ≤ length (identity_bytes i))%nat; [|lia].
  unfold identity_bytes, write_identity, write_message.
  rewrite !length_app, length_be_bytes. lia.
Qed.

Lemma parse_response_payload r :
  u32_length (response_payload r) → (parse_response (response_payload r)).2 = Ret r.
Proof.
  unfold u32_length, vec_len. destruct r as [| |l|sig]; cbn [response_payload]; intros Hl.
  - reflexivity.
  - reflexivity.
  - rewrite write_identities in Hl |- *. rewrite !length_app, length_be_bytes in Hl. cbn in Hl.
    pose proof (identities_fewer l) as Hn.
    rewrite as_u32_length by (unfold vec_len; lia).
    rewrite <-!app_assoc. unfold parse_response, mbind at 1, st_bind at 1.
    cbn [app]. rewrite read_u8_cons. change (Z_of_byte (byte_of_Z 12)) with 12. cbv beta iota.
    rewrite !decide_False, decide_True by lia.
    unfold mbind at 1, st_bind at 1. rewrite read_u32_app by (unfold in_u32, vec_len; lia).
    unfold mbind at 1, st_bind at 1. unfold vec_len. rewrite Nat2Z.id.
    rewrite <-(app_nil_r (mjoin _)), read_identities_bytes; [done|].
    assert (Forall (λ b, vec_len b < 2 ^ 32) (identity_bytes <$> l)) as Hf
      by (apply join_parts_fit; lia).
    by rewrite Forall_fmap in Hf.
  - rewrite <-(app_nil_r [_]), write_message_app in Hl |- *.
    rewrite length_app in Hl. unfold write_message in Hl.
    rewrite !length_app, length_be_bytes in Hl. cbn in Hl.
    rewrite write_message_frame by (unfold u32_length, vec_len; lia).
    unfold parse_response, mbind at 1, st_bind at 1. cbn [app]. rewrite read_u8_cons.
    change (Z_of_byte (byte_of_Z 14)) with 14. cbv beta iota.
    rewrite !decide_False, decide_True by lia. unfold mbind, st_bind.
    rewrite <-(app_nil_r (frame_of sig)), read_message_frame; [done|].
    unfold u32_length, vec_len. lia.
Qed.
End Answers.

(** ** The loop *)

Section Loop.
Context `{SshCerts} {S : Type}.
Implicit Types handler : SshAgentHandler S.

(** The requests one after the other. *)
Fixpoint handle_requests handler (rs : list AgentRequest) : st S AgentError (list Response) :=
  match rs with
  | [] => mret []
  | r :: rs => x ← handle_request handler r; l ← handle_requests handler rs; mret (x :: l)
  end.

Lemma read_exact_shrinks n s : (length (read_exact n s).1 ≤ length s)%nat.
Proof. unfold read_exact. case_decide; cbn; [rewrite length_drop; lia|lia]. Qed.

(** A request that was read took its length field off the stream. *)
Lemma request_read_consumes s s' r :
  request_read s = (s', Ret r) → (length s' < length s)%nat.
Proof.
  intros (p & -> & _ & _)%request_read_spec. unfold frame_of.
  rewrite !length_app, length_be_bytes. lia.
Qed.

Lemma serve_one_consumes handler writable c c' :
  serve_one handler writable c = (c', None) → (length (cn_input c') < length (cn_input c))%nat.
Proof.
  unfold serve_one. destruct (request_read (cn_input c)) as [input [req|e|]] eqn:Hr; [|done..].
  destruct (handle_request handler req (cn_handler c)) as [h [resp|e|]]; [|done..].
  destruct (writable _); [|done]. intros [= <-]. by eapply request_read_consumes.
Qed.

(** A turn only adds to what was written. *)
Lemma serve_one_extends handler writable c c' ended :
  serve_one handler writable c = (c', ended) → ∃ more, cn_output c' = cn_output c ++ more.
Proof.
  unfold serve_one. destruct (request_read (cn_input c)) as [input [req|e|]];
    [destruct (handle_request handler req (cn_handler c)) as [h [resp|e|]]; [destruct (writable _)|..]|..].
  all: intros [= <- <-]; cbn; try (exists []; by rewrite app_nil_r).
  by eexists.
Qed.

Lemma read_at_end : request_read [] = ([], Raise early_eof).
Proof. reflexivity. Qed.

(** ** Properties *)

(** C33: a request is read from the stream exactly when the stream starts with
    the frame of one of its payloads: nothing of the next message is consumed
    or missed, whatever the message holds, known or not. *)
Theorem requests_are_read_exactly s s' r :
  request_read s = (s', Ret r) ↔ ∃ p, s = frame_of p ++ s' ∧ u32_length p ∧ encodes r p.
Proof. apply request_read_spec. Qed.

(** C34: an answer reads back as itself on the client's side, and the stream
    is left at the next message, as long as the answer fits its length field. *)
Theorem answers_read_back r rest :
  u32_length (response_payload r) → response_read (response_write r ++ rest) = (rest, Ret r).
Proof.
  intros Hl. unfold response_read, response_write. rewrite as_u32_length by done.
  change (be_bytes 4 (vec_len (response_payload r)) ++ response_payload r)
    with (frame_of (response_payload r)).
  unfold mbind, st_bind. rewrite read_message_frame by done.
  unfold of_outcome. by rewrite parse_response_payload.
Qed.

(** A connection serves its requests one after the other: the answers are
    those of the handler, in the order of the requests, each in its own frame,
    and the connection ends when the client closes it. *)
Theorem connection_serves_requests_in_order handler rs ps h h' resps out :
  Forall2 encodes rs ps → Forall u32_length ps →
  handle_requests handler rs h = (h', Ret resps) →
  handle_client (Datatypes.S (length rs)) handler (λ _, true)
    (mkConnected (mjoin (frame_of <$> ps)) out h) =
  Some (mkConnected [] (out ++ mjoin (response_write <$> resps)) h', EndedBy early_eof).
Proof.
  intros Henc. revert h h' resps out.
  induction Henc as [|r p rs ps Hrp Henc IH]; intros h h' resps out Hfit Hrun.
  - cbn in Hrun. injection Hrun as <- <-. cbn. by rewrite app_nil_r.
  - apply Forall_cons in Hfit as [Hp Hfit]. cbn [handle_requests] in Hrun.
    apply st_bind_Ret in Hrun as (h1 & x & Hx & Hrun).
    apply st_bind_Ret in Hrun as (h2 & l & Hl & Hrun). apply mret_Ret in Hrun as [-> ->].
    change (mjoin (frame_of <$> p :: ps)) with (frame_of p ++ mjoin (frame_of <$> ps)).
    change (length (r :: rs)) with (Datatypes.S (length rs)).
    assert (request_read (frame_of p ++ mjoin (frame_of <$> ps)) =
      (mjoin (frame_of <$> ps), Ret r)) as Hread by (apply request_read_spec; eauto).
    cbn [handle_client]. unfold serve_one at 1. cbn [cn_input cn_output cn_handler].
    rewrite Hread, Hx. cbv beta iota. specialize (IH h1 h2 l (out ++ response_write x) Hfit Hl).
    cbn [handle_client] in IH. rewrite IH. by rewrite <-app_assoc.
Qed.

(** The loop over a connection comes to its end: each turn takes at least
    the length field of a message off the stream, so as many turns as there are
    bytes are enough, and more make no difference. *)
Theorem connection_ends handler writable c :
  ∃ c' e, ∀ fuel, (length (cn_input c) < fuel)%nat →
    handle_client fuel handler writable c = Some (c', e).
Proof.
  remember (length (cn_input c)) as n eqn:Hn. revert c Hn.
  induction (lt_wf n) as [n _ IH]; intros c ->.
  destruct (serve_one handler writable c) as [c1 [e|]] eqn:Hs.
  - exists c1, e. intros [|fuel] Hf; [lia|]. cbn. by rewrite Hs.
  - pose proof (serve_one_consumes _ _ _ _ Hs) as Hlt.
    destruct (IH _ Hlt c1 eq_refl) as (c' & e & Hc). exists c', e.
    intros [|fuel] Hf; [lia|]. cbn. rewrite Hs. apply Hc. lia.
Qed.
End Loop.
