(* ===== verification/AgentConfig.v ===== *)
(** * The agent: its types, its world and its configuration

    The data of [rustica-agent/src/lib.rs], the errors of [rustica/error.rs],
    the configuration of [config/mod.rs], and the world the agent's library
    runs in: the servers it can reach, its devices and its disk. *)
From Stdlib Require Import ZArith Lia.
From S2P Require Import Prelude Machine Text Deps Proto.

(** ** Types *)

Record CertificateConfig : Type := {
  cc_principals : list string;
  cc_hosts : list string;
  cc_cert_type : CertType;
  cc_duration : Z;
  cc_authority : string;
}.

(** [RusticaServer] of the agent: how a server is reached. *)
Record RusticaRemote : Type := {
  rr_address : string;
  rr_ca_pem : string;
  rr_mtls_cert : string;
  rr_mtls_key : string;
}.

Record MtlsCredentials : Type := { mc_certificate : string; mc_key : string }.
Record RusticaCert : Type := { rc_cert : string; rc_comment : string }.

Record Options : Type := {
  op_principals : option (list string);
  op_hosts : option (list string);
  op_kind : option string;
  op_duration : option Z;
  op_authority : option string;
}.

Record Config : Type := {
  cfg_version : Z;
  cfg_servers : list RusticaRemote;
  cfg_slot : option string;
  cfg_key : option string;
  cfg_options : option Options;
  cfg_socket : option string;
}.

Record UpdatableConfiguration : Type := { uc_path : string; uc_configuration : Config }.

(** [From<Option<Options>>]. *)
Definition certificate_config_from `{SshCerts} (co : option Options) : CertificateConfig :=
  match co with
  | None =>
      {| cc_cert_type := User; cc_duration := 10; cc_hosts := []; cc_principals := [];
         cc_authority := "" |}
  | Some co =>
      {| cc_cert_type := default User (cert_type_try_from (default "user" (op_kind co)));
         cc_duration := default 10 (op_duration co);
         cc_hosts := default [] (op_hosts co);
         cc_principals := default [] (op_principals co);
         cc_authority := default "" (op_authority co) |}
  end.

(** ** Errors *)

Record ServerError : Type := { se_code : Z; se_message : string }.

Inductive RefreshError : Type :=
| TransportError
| RSigningError
| ServerChallengeNotForClientKey
| UnsupportedMode
| RInvalidUri
| RConfigurationError (e : string)
| TransportBadStatus (s : Status)
| BadEncodedData (e : string)
| RusticaServerError (e : ServerError)
| BadAllowedSigners
| UnknownError.

Inductive RusticaAgentLibraryError : Type :=
| CouldNotOpenYubikey (serial : Z)
| CouldNotEnumerateYubikeys (e : string)
| NoServersReturnedCertificate
| ServerReturnedInvalidCertificate (e : string)
| NoServersCouldRegisterKey
| CouldNotReadConfigurationFile (e : string)
| BadConfiguration (e : string)
| UnknownConfigurationVersion (v : Z)
| NoServersReturnedAllowedSigners.

(** [Display]. *)
Definition library_error_to_string (e : RusticaAgentLibraryError) : string :=
  match e with
  | CouldNotOpenYubikey sn => "Could not open Yubikey with serial: " +:+ int_to_string sn
  | CouldNotEnumerateYubikeys e => "Could not enumerate Yubikeys: " +:+ e
  | NoServersReturnedCertificate => "All servers failed to return a certificate when requested"
  | ServerReturnedInvalidCertificate e =>
      "The requested server returned an invalid SSH certificate: " +:+ e
  | NoServersCouldRegisterKey => "All servers failed to register the requested key"
  | CouldNotReadConfigurationFile e => "Could not read configuration file: " +:+ e
  | BadConfiguration e => "The configuration could not be parsed: " +:+ e
  | UnknownConfigurationVersion e => "Cannot use configuration version: " +:+ int_to_string e
  | NoServersReturnedAllowedSigners =>
      "All servers failed to return allowed signers when requested"
  end.
Definition refresh_error_to_string (status_text : Status → string) (e : RefreshError) : string :=
  match e with
  | RConfigurationError err => "Configuration is invalid: " +:+ err
  | TransportError => "Transport Error. Generally a TLS issue"
  | ServerChallengeNotForClientKey => "Server challenge is not for your key"
  | RSigningError => "Signing or verification failed"
  | UnsupportedMode => "Attempted to use a curve or cipher not supported by rustica-agent"
  | RInvalidUri => "Provided address of remote service was invalid"
  | TransportBadStatus err => "Bad status from server: " +:+ status_text err
  | BadEncodedData err => "Bad hex encoding: " +:+ err
  | RusticaServerError err => "Error from server: " +:+ se_message err
  | BadAllowedSigners => "Bad allowed signers data"
  | UnknownError => "Unknown error occured"
  end.

(** ** The configuration file *)

(** [ConfigV1]: one server, no version. *)
Record ConfigV1 : Type := {
  v1_server : string;
  v1_ca_pem : string;
  v1_mtls_cert : string;
  v1_mtls_key : string;
  v1_slot : option string;
  v1_key : option string;
  v1_options : option Options;
  v1_socket : option string;
}.

(** TOML: what the text says under each of the three types; a version is
    there when the field is. *)
Class AgentToml := {
  toml_version : string → option Z;
  toml_v1 : string → result string ConfigV1;
  toml_v2 : string → result string Config;
  toml_to_string : Config → option string;
}.

Section ConfigFile.
Context `{AgentToml}.

Definition parse_v1_config (config : string) : result RusticaAgentLibraryError Config :=
  match toml_v1 config with
  | Ok c => Ok
      {| cfg_version := 2;
         cfg_servers := [{| rr_address := v1_server c; rr_ca_pem := v1_ca_pem c;
                            rr_mtls_cert := v1_mtls_cert c; rr_mtls_key := v1_mtls_key c |}];
         cfg_slot := v1_slot c; cfg_key := v1_key c; cfg_options := v1_options c;
         cfg_socket := v1_socket c |}
  | Err e => Err (BadConfiguration e)
  end.

Definition parse_v2_config (config : string) : result RusticaAgentLibraryError Config :=
  match toml_v2 config with
  | Ok t => Ok t
  | Err e => Err (BadConfiguration e)
  end.

Definition parse_config (config : string) : result RusticaAgentLibraryError Config :=
  match toml_version config with
  | None => parse_v1_config config
  | Some v => if decide (v = 2) then parse_v2_config config
              else Err (UnknownConfigurationVersion v)
  end.
End ConfigFile.

(** ** Devices *)

Inductive Signatory `{Yubikeys} : Type :=
| SYubikey (slot : SlotId) (yk : Yubikey)
| SDirect (privkey : PrivateKey).

(** ** The service, as a client sees it *)

(** How far connecting got. *)
Variant Dialed := BadUri | BadTls | Unreachable | Online.

(** [N] is the state of what is on the other side. *)
Class Rpc (N : Type) := {
  rpc_connect : RusticaRemote → N → N * Dialed;
  rpc_challenge : RusticaRemote → ChallengeRequest → st N Status ChallengeResponse;
  rpc_certificate : RusticaRemote → CertificateRequest → st N Status CertificateResponse;
  rpc_register_key : RusticaRemote → RegisterKeyRequest → st N Status ();
  rpc_register_u2f_key : RusticaRemote → RegisterU2fKeyRequest → st N Status ();
  rpc_attested_x509_certificate : RusticaRemote → AttestedX509CertificateRequest →
    st N Status AttestedX509CertificateResponse;
  rpc_allowed_signers : RusticaRemote → st N Status AllowedSignersResponse;
}.

(** ** The agent's world *)

(** A write of the configuration file, which is emptied before it is written:
    done, not begun, or broken off with the contents that are there. *)
Variant FileWrite := Written | NotOpened | CutShort (contents : string).

Class AgentEnv := {
  agent_build : profile;
  (** the n-th reading of the clock, in nanoseconds since 1970 *)
  agent_clock : nat → option Z;
  (** the n-th write of the configuration file *)
  agent_write : nat → FileWrite;
  agent_read : string → result string string;
  env_var : string → option string;
}.

Record AgentWorld (N : Type) : Type := mkAgentWorld {
  ag_net : N;
  ag_clock : nat;
  ag_device : nat;
  ag_notified : nat;
  ag_writes : nat;
  (** the contents of the configuration file, the last first *)
  ag_disk : list (string * string);
  (** the lines of standard output *)
  ag_out : list string;
}.
Arguments mkAgentWorld {_}.
Arguments ag_net {_} _.
Arguments ag_clock {_} _.
Arguments ag_device {_} _.
Arguments ag_notified {_} _.
Arguments ag_writes {_} _.
Arguments ag_disk {_} _.
Arguments ag_out {_} _.

(** The state after these lines were printed. *)
Definition printing {N} (lines : list string) (a : AgentWorld N) : AgentWorld N :=
  mkAgentWorld (ag_net a) (ag_clock a) (ag_device a) (ag_notified a) (ag_writes a) (ag_disk a)
    (ag_out a ++ lines).

Section AgentEffects.
Context {N E : Type} `{AgentEnv}.

#[local] Abbreviation agent_st := (st (AgentWorld N) E).

Definition agent_now : agent_st (option Z) := λ a,
  (mkAgentWorld (ag_net a) (S (ag_clock a)) (ag_device a) (ag_notified a) (ag_writes a) (ag_disk a)
     (ag_out a),
   Ret (agent_clock (ag_clock a))).

(** One operation of a device. *)
Definition device {A} (f : nat → A) : agent_st A := λ a,
  (mkAgentWorld (ag_net a) (ag_clock a) (S (ag_device a)) (ag_notified a) (ag_writes a) (ag_disk a)
     (ag_out a),
   Ret (f (ag_device a))).

(** [println!]. *)
Definition agent_println (line : string) : agent_st () := modify (printing [line]).

(** One operation of a device; where it fails, the text of its error is put
    into a message and printed. *)
Definition reported `{Yubikeys} {A} (f : nat → option A) (message : string → string)
    : agent_st (option A) :=
  a ← get;
  x ← device f;
  match x with
  | Some x => mret (Some x)
  | None => agent_println (message (device_error_text (ag_device a)));; mret None
  end.

(** Call the notification function, if there is one: the calls are counted,
    what the caller's function does is its own. *)
Definition notify (notification_function : bool) : agent_st () :=
  if notification_function then modify (λ a,
    mkAgentWorld (ag_net a) (ag_clock a) (ag_device a) (S (ag_notified a)) (ag_writes a) (ag_disk a)
      (ag_out a))
  else mret ().

(** A call of the service. *)
Definition call {E' A} (m : st N E' A) : st (AgentWorld N) E' A := λ a,
  let '(n, r) := m (ag_net a) in
  (mkAgentWorld n (ag_clock a) (ag_device a) (ag_notified a) (ag_writes a) (ag_disk a) (ag_out a), r).

Definition agent_add_u64 (x y : Z) : agent_st Z := of_outcome (u64_add agent_build x y).

(** [UpdatableConfiguration::write]: was the file written? *)
Definition configuration_write `{AgentToml} (self : UpdatableConfiguration) : agent_st bool :=
  contents ← unwrap (toml_to_string (uc_configuration self));
  a ← get;
  let written disk := modify (λ a, mkAgentWorld (ag_net a) (ag_clock a) (ag_device a)
    (ag_notified a) (S (ag_writes a)) disk (ag_out a)) in
  match agent_write (ag_writes a) with
  | Written => written ((uc_path self, contents) :: ag_disk a);; mret true
  | NotOpened => written (ag_disk a);; mret false
  | CutShort contents => written ((uc_path self, contents) :: ag_disk a);; mret false
  end.
End AgentEffects.

(** ** Standard output *)

Section Printing.
Context {N : Type}.
Implicit Types a : AgentWorld N.

(** [a'] differs from [a] by lines that were printed. *)
Definition prints a a' : Prop := ∃ lines, a' = printing lines a.
#[export] Instance prints_preorder : PreOrder prints.
Proof.
  split.
  - intros []. exists []. unfold printing. cbn. by rewrite app_nil_r.
  - intros a1 a2 a3 [l ->] [l' ->]. exists (l ++ l'). unfold printing. cbn. by rewrite app_assoc.
Qed.

(** Nothing is printed. *)
Definition silent a a' : Prop := ag_out a' = ag_out a.
#[export] Instance silent_preorder : PreOrder silent.
Proof. unfold silent. split; [done|]. intros a1 a2 a3. congruence. Qed.
Lemma silent_call {E B} (m : st N E B) : preserves silent (call m : st (AgentWorld N) E B).
Proof. intros a. unfold call. by destruct (m (ag_net a)). Qed.
Lemma silent_device {E B} (f : nat → B) : preserves silent (device f : st (AgentWorld N) E B).
Proof. done. Qed.
Lemma silent_notify {E} b : preserves silent (notify b : st (AgentWorld N) E ()).
Proof. by destruct b. Qed.
End Printing.

(** [update_servers]. *)
Definition with_servers (servers : list RusticaRemote) (c : UpdatableConfiguration)
    : UpdatableConfiguration :=
  {| uc_path := uc_path c;
     uc_configuration :=
       {| cfg_version := cfg_version (uc_configuration c); cfg_servers := servers;
          cfg_slot := cfg_slot (uc_configuration c); cfg_key := cfg_key (uc_configuration c);
          cfg_options := cfg_options (uc_configuration c);
          cfg_socket := cfg_socket (uc_configuration c) |} |}.
Definition update_servers {N E} `{AgentEnv, AgentToml} (self : UpdatableConfiguration)
    (servers : list RusticaRemote) : st (AgentWorld N) E (UpdatableConfiguration * bool) :=
  let self := with_servers servers self in
  ok ← configuration_write self;
  mret (self, ok).

(** [parse_config_path] and [UpdatableConfiguration::new]. *)
Definition parse_config_path `{AgentEnv, AgentToml} (path : string)
    : result RusticaAgentLibraryError Config :=
  match agent_read path with
  | Ok config => parse_config config
  | Err e => Err (CouldNotReadConfigurationFile e)
  end.
Definition updatable_new `{AgentEnv, AgentToml} (path : string)
    : result RusticaAgentLibraryError UpdatableConfiguration :=
  configuration ← parse_config_path path;
  Ok {| uc_path := path; uc_configuration := configuration |}.
