(* ===== verification/AgentClient.v ===== *)
(** * The agent: talking to a server

    [rustica-agent/src/rustica]: the challenge ([mod.rs]), certificates
    ([cert.rs]), keys ([key.rs]), attested certificates ([x509.rs]) and the
    list of allowed signers ([allowed_signer.rs]); and the functions of
    [lib.rs] that try one server after the other. *)
From Stdlib Require Import ZArith Lia.
From S2P Require Import Prelude Machine Text Deps Proto AgentConfig.

Section Client.
Context `{SshCerts, !Yubikeys, Zstd, AgentEnv, AgentToml} {N : Type} `{!Rpc N}.

#[local] Abbreviation agent_st := (st (AgentWorld N)).

(** [get_rustica_client]: a client is the server it is connected to. *)
Definition get_rustica_client (server : RusticaRemote) : agent_st RefreshError RusticaRemote :=
  dialed ← call (λ n, let '(n, d) := rpc_connect server n in (n, Ret d));
  match dialed with
  | BadUri => throw RInvalidUri
  | BadTls | Unreachable => throw TransportError
  | Online => mret server
  end.

(** A call whose error [Status] becomes a [RefreshError]. *)
Definition rpc {A} (m : st N Status A) : agent_st RefreshError A :=
  map_err TransportBadStatus (call m).

(** The public key of the signatory. *)
Definition signatory_pubkey (signatory : Signatory) : agent_st RefreshError PublicKey :=
  match signatory with
  | SYubikey slot yk =>
      ok ← device (yk_reconnect yk);
      (if ok : bool then mret () else throw RSigningError);;
      pkey ← device (yk_fetch_pubkey yk slot);
      of_option RSigningError pkey
  | SDirect privkey => mret (pubkey privkey)
  end.

(** The challenge certificate, signed again by the client. *)
Definition resign (signatory : Signatory) (challenge_certificate : Certificate PublicKey)
    : agent_st RefreshError (Certificate PublicKey) :=
  match signatory with
  | SYubikey slot yk =>
      signature ← device (yk_sign yk (tbs_certificate challenge_certificate) slot);
      signature ← of_option RSigningError signature;
      of_option RSigningError (add_signature challenge_certificate signature)
  | SDirect privkey => of_option RSigningError (cert_sign challenge_certificate privkey)
  end.

Definition complete_rustica_challenge (server : RusticaRemote) (signatory : Signatory)
    (notification_function : bool) : agent_st RefreshError (RusticaRemote * Challenge) :=
  ssh_pubkey ← signatory_pubkey signatory;
  let encoded_key := pk_to_string ssh_pubkey in
  client ← get_rustica_client server;
  response ← rpc (rpc_challenge client {| cr_pubkey := encoded_key |});
  if no_signature_required response then
    mret (client, {| ch_pubkey := encoded_key; ch_challenge := challenge response;
                     ch_challenge_signature := ""; ch_challenge_time := time response |})
  else
    parsed ← match cert_from_string (challenge response) with
             | Ok c => mret c | Err _ => throw RSigningError end;
    let challenge_certificate := set_signature_key (c_key parsed) parsed in
    (if decide (pk_hash (c_key challenge_certificate) ≠ pk_hash ssh_pubkey)
     then throw ServerChallengeNotForClientKey else mret ());;
    notify notification_function;;
    resigned_certificate ← resign signatory challenge_certificate;
    mret (client, {| ch_pubkey := encoded_key; ch_challenge := cert_to_string resigned_certificate;
                     ch_challenge_signature := ""; ch_challenge_time := time response |}).

(** ** The calls *)

Definition refresh_certificate_async (self : RusticaRemote) (signatory : Signatory)
    (options : CertificateConfig) (notification_function : bool)
    : agent_st RefreshError (RusticaCert * option MtlsCredentials) :=
  '(client, challenge) ← complete_rustica_challenge self signatory notification_function;
  now ← agent_now;
  let current_timestamp := match now with Some ts => as_secs ts | None => 0xFFFFFFFFFFFFFFFF end in
  valid_before ← agent_add_u64 current_timestamp (cc_duration options);
  response ← rpc (rpc_certificate client
    {| cq_cert_type := cert_type_as_u32 (cc_cert_type options);
       cq_key_id := cc_authority options;
       cq_principals := cc_principals options;
       cq_servers := cc_hosts options;
       cq_extensions := standard_extensions;
       cq_critical_options := ∅;
       cq_valid_after := current_timestamp;
       cq_valid_before := valid_before;
       cq_challenge := Some challenge |});
  (if decide (cs_error_code response ≠ 0) then
     throw (RusticaServerError
       {| se_code := cs_error_code response; se_message := cs_error response |})
   else mret ());;
  let mtls_credentials :=
    if is_empty (cs_new_client_certificate response) then None
    else Some {| mc_certificate := cs_new_client_certificate response;
                 mc_key := cs_new_client_key response |} in
  mret ({| rc_cert := cs_certificate response; rc_comment := "JITC" |}, mtls_credentials).

(** The attestations of [key.rs]. *)
Record AgentPIVAttestation : Type := { ap_certificate : bytes; ap_intermediate : bytes }.
Record AgentU2FAttestation : Type := {
  au_auth_data : bytes;
  au_auth_data_sig : bytes;
  au_intermediate : bytes;
  au_challenge : bytes;
  au_alg : Z;
}.

Definition register_key_async (self : RusticaRemote) (signatory : Signatory)
    (attestation : AgentPIVAttestation) : agent_st RefreshError () :=
  '(client, challenge) ← complete_rustica_challenge self signatory false;
  rpc (rpc_register_key client
    {| rq_certificate := ap_certificate attestation;
       rq_intermediate := ap_intermediate attestation;
       rq_challenge := Some challenge |}).

Definition register_u2f_key_async (self : RusticaRemote) (signatory : Signatory)
    (application : string) (attestation : AgentU2FAttestation) : agent_st RefreshError () :=
  '(client, challenge) ← complete_rustica_challenge self signatory false;
  rpc (rpc_register_u2f_key client
    {| uq_auth_data := au_auth_data attestation;
       uq_auth_data_signature := au_auth_data_sig attestation;
       uq_sk_application := as_bytes application;
       uq_u2f_challenge := au_challenge attestation;
       uq_intermediate := au_intermediate attestation;
       uq_alg := au_alg attestation;
       uq_challenge := Some challenge;
       uq_u2f_challenge_hashed := true |}).

Definition refresh_attested_x509_certificate_async (self : RusticaRemote) (signatory : Signatory)
    : agent_st RefreshError bytes :=
  match signatory with
  | SYubikey slot yk =>
      csr ← device (yk_generate_csr yk slot);
      csr ← of_option (RConfigurationError ("Could not generate CSR for slot " +:+
        slot_to_string slot +:+ ". Is it provisioned?")) csr;
      ok ← device (yk_reconnect yk);
      (if ok : bool then mret () else panic);;
      attestation ← device (yk_fetch_attestation yk slot);
      attestation ←
        match attestation with
        | Ok a => mret a
        | Err e => throw (RConfigurationError ("Could not generate attestation for slot " +:+
            slot_to_string slot +:+ ". Is it attestable (not imported)? Error " +:+ e))
        end;
      ok ← device (yk_reconnect yk);
      (if ok : bool then mret () else panic);;
      attestation_intermediate ← device (yk_fetch_certificate yk slot_attestation);
      attestation_intermediate ← of_option (RConfigurationError
        "Could not fetch attestation intermediate. Have you manually removed it?")
        attestation_intermediate;
      client ← get_rustica_client self;
      response ← rpc (rpc_attested_x509_certificate client
        {| xq_key_id := ""; xq_csr := csr; xq_attestation := attestation;
           xq_attestation_intermediate := attestation_intermediate |});
      if decide (xs_error_code response = 0) then mret (xs_certificate response)
      else throw (RusticaServerError
        {| se_code := xs_error_code response; se_message := xs_error response |})
  | SDirect _ => throw UnsupportedMode
  end.

Definition get_allowed_signers_async (self : RusticaRemote) : agent_st RefreshError string :=
  client ← get_rustica_client self;
  response ← rpc (rpc_allowed_signers client);
  match zstd_decoder_new (compressed_signers response) with
  | Err _ => throw UnknownError
  | Ok _ =>
      match zstd_read_to_string (compressed_signers response) with
      | Err _ => throw BadAllowedSigners
      | Ok allowed_signers => mret allowed_signers
      end
  end.

(** ** One server after the other *)

(** The new credentials of a server, without carriage returns. *)
Definition update_credentials (server : RusticaRemote) (c : MtlsCredentials) : RusticaRemote :=
  {| rr_address := rr_address server;
     rr_ca_pem := rr_ca_pem server;
     rr_mtls_cert := if is_empty (mc_certificate c) then rr_mtls_cert server
                     else remove_char "013"%char (mc_certificate c);
     rr_mtls_key := if is_empty (mc_key c) then rr_mtls_key server
                    else remove_char "013"%char (mc_key c) |}.

Definition credentials_updated : string :=
  "Your access credentials to the server have been updated".

(** The loop of [fetch_new_certificate]: [tried] are the servers before, in
    order. *)
Fixpoint fetch_from (configuration : UpdatableConfiguration) (signatory : Signatory)
    (options : CertificateConfig) (notification_function : bool)
    (tried servers : list RusticaRemote)
    : agent_st RusticaAgentLibraryError (Certificate PublicKey * UpdatableConfiguration) :=
  match servers with
  | [] => throw NoServersReturnedCertificate
  | server :: servers =>
      answer ← attempt (refresh_certificate_async server signatory options notification_function);
      match answer with
      | Ok (cert, mtls_credentials) =>
          parsed_cert ← match cert_from_string (rc_cert cert) with
            | Ok c => mret c | Err e => throw (ServerReturnedInvalidCertificate e) end;
          match mtls_credentials with
          | Some mtls_credentials =>
              let configuration := with_servers
                (tried ++ update_credentials server mtls_credentials :: servers) configuration in
              written ← configuration_write configuration;
              (if written : bool then
                 agent_println credentials_updated
               else mret ());;
              mret (parsed_cert, configuration)
          | None => mret (parsed_cert, configuration)
          end
      | Err _ =>
          fetch_from configuration signatory options notification_function (tried ++ [server]) servers
      end
  end.
Definition fetch_new_certificate (configuration : UpdatableConfiguration) (signatory : Signatory)
    (options : CertificateConfig) (notification_function : bool)
    : agent_st RusticaAgentLibraryError (Certificate PublicKey * UpdatableConfiguration) :=
  fetch_from configuration signatory options notification_function []
    (cfg_servers (uc_configuration configuration)).

(** The other loops: the first server that does not fail answers. *)
Fixpoint first_server {A} (e : RusticaAgentLibraryError)
    (f : RusticaRemote → agent_st RefreshError A) (servers : list RusticaRemote)
    : agent_st RusticaAgentLibraryError A :=
  match servers with
  | [] => throw e
  | server :: servers =>
      answer ← attempt (f server);
      match answer with
      | Ok a => mret a
      | Err _ => first_server e f servers
      end
  end.

Definition fetch_new_attested_x509_certificate (servers : list RusticaRemote)
    (signatory : Signatory) : agent_st RusticaAgentLibraryError bytes :=
  first_server NoServersReturnedCertificate
    (λ server, refresh_attested_x509_certificate_async server signatory) servers.
Definition register_u2f_key (servers : list RusticaRemote) (signatory : Signatory)
    (app_name : string) (attestation : AgentU2FAttestation)
    : agent_st RusticaAgentLibraryError () :=
  first_server NoServersCouldRegisterKey
    (λ server, register_u2f_key_async server signatory app_name attestation) servers.
Definition register_key (servers : list RusticaRemote) (signatory : Signatory)
    (attestation : AgentPIVAttestation) : agent_st RusticaAgentLibraryError () :=
  first_server NoServersCouldRegisterKey
    (λ server, register_key_async server signatory attestation) servers.
Definition get_allowed_signers (servers : list RusticaRemote)
    : agent_st RusticaAgentLibraryError string :=
  first_server NoServersReturnedAllowedSigners get_allowed_signers_async servers.
End Client.

(** ** Lemmas *)

Section ClientLemmas.
Context `{SshCerts, !Yubikeys, Zstd, AgentEnv, AgentToml} {N : Type} `{!Rpc N}.

#[local] Abbreviation agent_st := (st (AgentWorld N)).
#[local] Hint Resolve silent_call silent_device silent_notify : preserves.
Implicit Types a : AgentWorld N.

Lemma call_Ret {E A} (m : st N E A) a a' x :
  call m a = (a', Ret x) ↔ ∃ n, m (ag_net a) = (n, Ret x) ∧
    a' = mkAgentWorld n (ag_clock a) (ag_device a) (ag_notified a) (ag_writes a) (ag_disk a) (ag_out a).
Proof. unfold call. destruct (m (ag_net a)) as [n r]. naive_solver. Qed.
Lemma device_Ret {E A} (f : nat → A) a a' x :
  (device f : agent_st E A) a = (a', Ret x) ↔ x = f (ag_device a) ∧
    a' = mkAgentWorld (ag_net a) (ag_clock a) (S (ag_device a)) (ag_notified a) (ag_writes a)
      (ag_disk a) (ag_out a).
Proof. unfold device. naive_solver. Qed.
Lemma notify_Ret {E} b a a' u :
  (notify b : agent_st E ()) a = (a', Ret u) ↔
    a' = mkAgentWorld (ag_net a) (ag_clock a) (ag_device a)
      (if b then S (ag_notified a) else ag_notified a) (ag_writes a) (ag_disk a) (ag_out a).
Proof. unfold notify, modify, mret, st_ret. destruct b, u, a; cbn; naive_solver. Qed.
Lemma agent_println_Ret {E} l a a' u :
  (agent_println l : agent_st E ()) a = (a', Ret u) ↔ a' = printing [l] a.
Proof. unfold agent_println, modify. destruct u. naive_solver. Qed.

(** The state after a device was asked and its failure was reported. *)
Definition asked_device {A} (x : option A) (message : string → string) a : AgentWorld N :=
  let a' := mkAgentWorld (ag_net a) (ag_clock a) (S (ag_device a)) (ag_notified a) (ag_writes a)
    (ag_disk a) (ag_out a) in
  match x with
  | Some _ => a'
  | None => printing [message (device_error_text (ag_device a))] a'
  end.
Lemma reported_run {E A} (f : nat → option A) message a :
  (reported f message : agent_st E _) a =
    (asked_device (f (ag_device a)) message a, Ret (f (ag_device a))).
Proof. unfold reported, device, agent_println. st_unfold. cbn. by destruct (f _). Qed.
Lemma reported_Ret {E A} (f : nat → option A) message a a' x :
  (reported f message : agent_st E _) a = (a', Ret x) ↔
    x = f (ag_device a) ∧ a' = asked_device x message a.
Proof. rewrite reported_run. naive_solver. Qed.

Lemma agent_now_Ret {E} a a' x :
  (agent_now : agent_st E _) a = (a', Ret x) ↔ x = agent_clock (ag_clock a) ∧
    a' = mkAgentWorld (ag_net a) (S (ag_clock a)) (ag_device a) (ag_notified a) (ag_writes a)
      (ag_disk a) (ag_out a).
Proof. unfold agent_now. naive_solver. Qed.
Lemma agent_add_u64_Ret {E} x y a a' z :
  (agent_add_u64 x y : agent_st E Z) a = (a', Ret z) ↔ a' = a ∧ u64_add (E := E) agent_build x y = Ret z.
Proof. apply of_outcome_Ret. Qed.

(** ** What a completed challenge is *)

(** The server's challenge, forwarded or signed again by the client's key. *)
Record completed (signatory : Signatory) (pk : PublicKey) (resp : ChallengeResponse)
    (chal : Challenge) : Prop := {
  cm_key : ch_pubkey chal = pk_to_string pk;
  cm_time : ch_challenge_time chal = time resp;
  cm_challenge :
    if no_signature_required resp then ch_challenge chal = challenge resp
    else ∃ c c' a a', cert_from_string (challenge resp) = Ok c ∧ pk_hash (c_key c) = pk_hash pk ∧
      resign signatory (set_signature_key (c_key c) c) a = (a' : AgentWorld N, Ret c') ∧
      ch_challenge chal = cert_to_string c';
}.

Lemma complete_rustica_challenge_Ret server signatory notification a a' client chal :
  complete_rustica_challenge server signatory notification a = (a', Ret (client, chal)) →
  client = server ∧ ∃ a1 n0 n pk resp,
    signatory_pubkey signatory a = (a1, Ret pk) ∧
    rpc_connect server (ag_net a1) = (n0, Online) ∧
    rpc_challenge server {| cr_pubkey := pk_to_string pk |} n0 = (n, Ret resp) ∧
    completed signatory pk resp chal ∧
    (no_signature_required resp = true → ag_net a' = n) ∧
    (∀ sk, signatory = SDirect sk → ag_net a' = n ∧ ag_clock a' = ag_clock a).
Proof.
  unfold complete_rustica_challenge. intros Hrun.
  apply st_bind_Ret in Hrun as (a1 & pk & Hpk & Hrun).
  apply st_bind_Ret in Hrun as (a2 & client' & Hcl & Hrun).
  unfold get_rustica_client in Hcl. apply st_bind_Ret in Hcl as (a3 & d & Hd & Hcl).
  apply call_Ret in Hd as (n1 & Hd & ->).
  destruct (rpc_connect server (ag_net a1)) as [n2 d'] eqn:Hconn. injection Hd as -> ->.
  destruct d; [by apply throw_Ret in Hcl..|]. apply mret_Ret in Hcl as [-> ->].
  apply st_bind_Ret in Hrun as (a4 & resp & Hr & Hrun). unfold rpc in Hr.
  apply map_err_Ret, call_Ret in Hr as (n3 & Hr & ->). cbn in Hr.
  assert (∀ sk, signatory = SDirect sk → a1 = a) as Hdirect.
  { intros sk ->. unfold signatory_pubkey in Hpk. by st_inv. }
  destruct (no_signature_required resp) eqn:Hno.
  { st_inv. split; [done|]. exists a1, n1, n3, pk, resp. cbn.
    split_and!; [done|done|done| |done|].
    - split; cbn; [done|done|]. by rewrite Hno.
    - intros sk Hs. by rewrite (Hdirect sk Hs). }
  apply st_bind_Ret in Hrun as (a5 & c & Hc & Hrun).
  destruct (cert_from_string (challenge resp)) as [c'|] eqn:Hparse; [|by apply throw_Ret in Hc].
  apply mret_Ret in Hc as [-> ->].
  apply st_bind_Ret in Hrun as (a6 & u & Hu & Hrun). case_decide as Hkey; [by apply throw_Ret in Hu|].
  apply mret_Ret in Hu as [-> _].
  apply st_bind_Ret in Hrun as (a7 & u' & Hn & Hrun). apply notify_Ret in Hn as ->.
  apply st_bind_Ret in Hrun as (a8 & c2 & Hsign & Hrun). apply mret_Ret in Hrun as [-> Hpair].
  injection Hpair as -> ->. split; [done|].
  exists a1, n1, n3, pk, resp. cbn. split_and!; [done|done|done| |congruence|].
  - split; cbn; [done|done|]. rewrite Hno. eexists c', c2, _, _. split_and!; [done| |done|done].
    exact Hkey.
  - intros sk Hs. rewrite <-(Hdirect sk Hs). rewrite Hs in Hsign. unfold resign in Hsign. by st_inv.
Qed.

Lemma get_rustica_client_same server a a' r :
  get_rustica_client server a = (a', r) →
  ag_device a' = ag_device a ∧ ag_notified a' = ag_notified a.
Proof.
  unfold get_rustica_client, call. st_unfold.
  destruct (rpc_connect server (ag_net a)) as [n []]; by intros [= <- <-].
Qed.

(** ** What says nothing *)

Lemma silent_first_server {A} e (f : RusticaRemote → agent_st RefreshError A) l :
  (∀ server, preserves silent (f server)) → preserves silent (first_server e f l).
Proof. intros Hf. induction l as [|s l IH]; cbn [first_server]; preserve; done. Qed.
Lemma silent_register_u2f_key servers signatory application attestation :
  preserves silent (register_u2f_key (N := N) servers signatory application attestation).
Proof.
  apply silent_first_server. intros server.
  unfold register_u2f_key_async, complete_rustica_challenge, signatory_pubkey, get_rustica_client,
    resign, rpc.
  preserve.
Qed.
Lemma silent_fetch_x509 servers signatory :
  preserves silent (fetch_new_attested_x509_certificate (N := N) servers signatory).
Proof.
  apply silent_first_server. intros server.
  unfold refresh_attested_x509_certificate_async, get_rustica_client, rpc. preserve.
Qed.

(** ** One server after the other *)

(** The servers [l] were tried in order and each failed. *)
Inductive all_failed {A} (f : RusticaRemote → agent_st RefreshError A)
    : list RusticaRemote → AgentWorld N → AgentWorld N → Prop :=
| all_failed_nil a : all_failed f [] a a
| all_failed_cons s l a a1 a2 e :
    f s a = (a1, Raise e) → all_failed f l a1 a2 → all_failed f (s :: l) a a2.

Lemma first_server_run {A} e (f : RusticaRemote → agent_st RefreshError A) l a a' r :
  first_server e f l a = (a', r) →
  (r = Raise e ∧ all_failed f l a a') ∨
  (∃ tried s rest a1 o, l = tried ++ s :: rest ∧ all_failed f tried a a1 ∧ f s a1 = (a', o) ∧
    match o with Ret x => r = Ret x | Raise _ => False | Panic => r = Panic end).
Proof.
  revert a. induction l as [|s l IH]; intros a; cbn [first_server].
  - intros [= <- <-]. left. split; [done|constructor].
  - unfold mbind at 1, st_bind at 1, attempt at 1. destruct (f s a) as [a1 [x|e'|]] eqn:Hf.
    + intros [= <- <-]. right. exists [], s, l, a, (Ret x). split_and!; [done|constructor|done|done].
    + intros Hrun. apply IH in Hrun as [[-> Hall]|(tried & s' & rest & a2 & o & -> & Hall & Hs & Ho)].
      * left. split; [done|]. by econstructor.
      * right. exists (s :: tried), s', rest, a2, o. split_and!; [done| |done|done].
        by econstructor.
    + intros [= <- <-]. right. exists [], s, l, a, Panic. split_and!; [done|constructor|done|done].
Qed.

(** What the agent asks each server for. *)
#[local] Abbreviation asks signatory options notification := (λ server,
  refresh_certificate_async server signatory options notification).

(** What [fetch_new_certificate] makes of the server that answered. *)
Definition used (configuration : UpdatableConfiguration) (tried rest : list RusticaRemote)
    (server : RusticaRemote) (credentials : option MtlsCredentials) : UpdatableConfiguration :=
  match credentials with
  | Some c => with_servers (tried ++ update_credentials server c :: rest) configuration
  | None => configuration
  end.

(** The configuration is written when there are new credentials. *)
Definition saved (configuration : UpdatableConfiguration) (credentials : option MtlsCredentials)
    (a a' : AgentWorld N) : Prop :=
  match credentials with
  | Some _ => ∃ a1 ok, (configuration_write configuration : agent_st RusticaAgentLibraryError _) a
      = (a1, Ret ok) ∧ a' = if ok then printing [credentials_updated] a1 else a1
  | None => a' = a
  end.

Lemma fetch_from_run conf signatory options notification tried l a a' r :
  fetch_from conf signatory options notification tried l a = (a', r) →
  match r with
  | Ret (cert, conf') => ∃ l1 server rest a1 a2 rc credentials,
      l = l1 ++ server :: rest ∧ all_failed (asks signatory options notification) l1 a a1 ∧
      asks signatory options notification server a1 = (a2, Ret (rc, credentials)) ∧
      cert_from_string (rc_cert rc) = Ok cert ∧
      conf' = used conf (tried ++ l1) rest server credentials ∧ saved conf' credentials a2 a'
  | Raise NoServersReturnedCertificate => all_failed (asks signatory options notification) l a a'
  | Raise e => ∃ l1 server rest a1 rc credentials text,
      l = l1 ++ server :: rest ∧ all_failed (asks signatory options notification) l1 a a1 ∧
      asks signatory options notification server a1 = (a', Ret (rc, credentials)) ∧
      cert_from_string (rc_cert rc) = Err text ∧ e = ServerReturnedInvalidCertificate text
  | Panic => True
  end.
Proof.
  revert tried a. induction l as [|s l IH]; intros tried a; cbn [fetch_from].
  { intros [= <- <-]. constructor. }
  unfold mbind at 1, st_bind at 1, attempt at 1.
  destruct (refresh_certificate_async s signatory options notification a)
    as [a1 [[rc credentials]|e|]] eqn:Hf.
  - destruct (cert_from_string (rc_cert rc)) as [cert|text] eqn:Hc.
    + rewrite st_ret_bind. destruct credentials as [c|]; intros Hrun.
      * destruct r as [[cert' conf']|e|]; [|exfalso|done].
        -- apply st_bind_Ret in Hrun as (a2 & ok & Hw & Hrun).
           apply st_bind_Ret in Hrun as (a3 & u & Hsay & Hrun). apply mret_Ret in Hrun as [-> Hp].
           assert (a3 = if ok then printing [credentials_updated] a2 else a2) as ->
             by (by destruct ok; injection Hsay as <- _).
           injection Hp as -> ->. exists [], s, l, a, a1, rc, (Some c). rewrite app_nil_r.
           split_and!; [done|constructor|done..|by exists a2, ok].
        -- revert Hrun. unfold configuration_write. st_unfold. cbn.
           destruct (toml_to_string _); cbn; [|done]. by destruct (agent_write _); cbn.
      * injection Hrun as <- <-. exists [], s, l, a, a1, rc, None.
        split_and!; [done|constructor|done..].
    + intros [= <- <-]. exists [], s, l, a, rc, credentials, text.
      split_and!; [done|constructor|done..].
  - intros Hrun. apply IH in Hrun. destruct r as [[cert conf']|e'|]; [| |done].
    + destruct Hrun as (l1 & server & rest & a2 & a3 & rc & cr & -> & Hall & Hs & Hc & -> & Hsaved).
      exists (s :: l1), server, rest, a2, a3, rc, cr. rewrite <-app_assoc in Hsaved |- *.
      split_and!; [done|by econstructor|done..].
    + destruct e'; try (destruct Hrun as (l1 & server & rest & a2 & rc & cr & text & -> & Hall & Hs & Hc & He);
        exists (s :: l1), server, rest, a2, rc, cr, text; split_and!; [done|by econstructor|done..]).
      by econstructor.
  - by intros [= <- <-].
Qed.

(** ** Properties *)

(** C16: the agent signs a challenge only for its own key: when completing a
    challenge used the device or disturbed the user after the public key was
    read, or answered a server that demands a signature, the server's
    certificate was for the agent's own public key - a malicious server cannot
    have any other certificate signed. *)
Theorem client_signs_only_for_its_own_key server signatory notification a a1 a' pk r :
  signatory_pubkey signatory a = (a1, Ret pk) →
  complete_rustica_challenge server signatory notification a = (a', r) →
  ag_device a' ≠ ag_device a1 ∨ ag_notified a' ≠ ag_notified a1 →
  ∃ n0 n resp c, rpc_connect server (ag_net a1) = (n0, Online) ∧
    rpc_challenge server {| cr_pubkey := pk_to_string pk |} n0 = (n, Ret resp) ∧
    no_signature_required resp = false ∧
    cert_from_string (challenge resp) = Ok c ∧ pk_hash (c_key c) = pk_hash pk.
Proof.
  intros Hpk Hrun Hused. unfold complete_rustica_challenge in Hrun.
  unfold mbind at 1, st_bind at 1 in Hrun. rewrite Hpk in Hrun.
  unfold mbind at 1, st_bind at 1 in Hrun.
  destruct (get_rustica_client server a1) as [a2 cl] eqn:Hcl.
  pose proof (get_rustica_client_same _ _ _ _ Hcl) as [Hd Hn].
  destruct cl as [client|e|]; [|injection Hrun as <- <-; lia..].
  unfold get_rustica_client in Hcl. apply st_bind_Ret in Hcl as (a3 & d & Hdial & Hcl).
  apply call_Ret in Hdial as (n1 & Hdial & ->).
  destruct (rpc_connect server (ag_net a1)) as [n2 d'] eqn:Hconn. injection Hdial as -> ->.
  destruct d; [by apply throw_Ret in Hcl..|]. apply mret_Ret in Hcl as [-> ->].
  unfold mbind at 1, st_bind at 1, rpc at 1, map_err at 1, call at 1 in Hrun. cbn [ag_net] in Hrun.
  destruct (rpc_challenge server _ n1) as [n3 [resp|e|]] eqn:Hr;
    [|injection Hrun as <- <-; cbn in *; lia..].
  destruct (no_signature_required resp) eqn:Hno; [injection Hrun as <- <-; cbn in *; lia|].
  destruct (cert_from_string (challenge resp)) as [c|] eqn:Hc;
    [|injection Hrun as <- <-; cbn in *; lia].
  rewrite st_ret_bind in Hrun. case_decide as Hkey; [injection Hrun as <- <-; cbn in *; lia|].
  exists n1, n3, resp, c. split_and!; [done..|]. cbn in Hkey. destruct (decide (pk_hash (c_key c) = pk_hash pk)) as [?|Hne]; [done|by destruct Hkey].
Qed.

(** C18: [fetch_new_certificate] fails over in the configured order: it answers
    with the certificate of the first server that gives one, asks no server
    after it, and replaces the credentials of that server only; it gives up
    when every server failed, and at the first one whose certificate cannot be
    read. *)
Theorem certificate_comes_from_the_first_server_that_answers conf signatory options notification a a' r :
  let servers := cfg_servers (uc_configuration conf) in
  fetch_new_certificate conf signatory options notification a = (a', r) →
  match r with
  | Ret (cert, conf') => ∃ tried server rest a1 a2 rc credentials,
      servers = tried ++ server :: rest ∧
      all_failed (asks signatory options notification) tried a a1 ∧
      asks signatory options notification server a1 = (a2, Ret (rc, credentials)) ∧
      cert_from_string (rc_cert rc) = Ok cert ∧
      conf' = used conf tried rest server credentials ∧ saved conf' credentials a2 a'
  | Raise NoServersReturnedCertificate =>
      all_failed (asks signatory options notification) servers a a'
  | Raise e => ∃ tried server rest a1 rc credentials text,
      servers = tried ++ server :: rest ∧
      all_failed (asks signatory options notification) tried a a1 ∧
      asks signatory options notification server a1 = (a', Ret (rc, credentials)) ∧
      cert_from_string (rc_cert rc) = Err text ∧ e = ServerReturnedInvalidCertificate text
  | Panic => True
  end.
Proof. intros servers Hrun. by apply fetch_from_run in Hrun. Qed.
End ClientLemmas.
