(* ===== verification/Restart.v ===== *)
(** * The agent: its configuration across a restart

    What a process finds that reads the configuration file after another one
    has renewed its credentials: [UpdatableConfiguration::write] and [new] of
    [rustica-agent/src/config/mod.rs] together. *)
From Stdlib Require Import ZArith Lia.
From S2P Require Import Prelude Machine Text Deps Proto AgentConfig AgentClient.

(** The texts serde makes of a configuration are read back, and the two readings
    of a text see the same version. *)
Class AgentTomlLaws `{AgentToml} : Prop := {
  toml_reads_back c text : toml_to_string c = Some text → toml_v2 text = Ok c;
  toml_version_read text c : toml_v2 text = Ok c → toml_version text = Some (cfg_version c);
}.

Section Restart.
Context `{SshCerts, !Yubikeys, Zstd, AgentEnv, AgentToml} {N : Type} `{!Rpc N}.
Implicit Types a : AgentWorld N.

(** ** The file *)

(** The last text of the file: one that was written since, or the one that was
    there. *)
Definition file_text (path : string) (disk : list (string * string)) : result string string :=
  match snd <$> list_find (λ e, e.1 = path) disk with
  | Some (_, text) => Ok text
  | None => agent_read path
  end.

(** [UpdatableConfiguration::new] now. *)
Definition read_configuration (path : string) (text : result string string)
    : result RusticaAgentLibraryError UpdatableConfiguration :=
  configuration ← match text with
    | Ok text => parse_config text
    | Err e => Err (CouldNotReadConfigurationFile e)
    end;
  Ok {| uc_path := path; uc_configuration := configuration |}.
Definition reload (path : string) a : result RusticaAgentLibraryError UpdatableConfiguration :=
  read_configuration path (file_text path (ag_disk a)).

(** With nothing written it is [updatable_new]. *)
Lemma reload_untouched path a : ag_disk a = [] → reload path a = updatable_new path.
Proof.
  intros Hd. unfold reload, file_text, updatable_new, parse_config_path, read_configuration.
  rewrite Hd. cbn. by destruct (agent_read path).
Qed.

Lemma file_text_written path text disk : file_text path ((path, text) :: disk) = Ok text.
Proof. unfold file_text. cbn. by rewrite decide_True. Qed.

(** Whatever format a configuration was read from, it is version 2. *)
Lemma parse_config_version `{!AgentTomlLaws} text c : parse_config text = Ok c → cfg_version c = 2.
Proof.
  unfold parse_config, parse_v1_config, parse_v2_config.
  destruct (toml_version text) as [v|] eqn:Hv.
  - case_decide as Hv2; [|done]. destruct (toml_v2 text) as [c'|] eqn:Hc; [|done]. intros [= <-].
    apply toml_version_read in Hc. congruence.
  - destruct (toml_v1 text); [|done]. by intros [= <-].
Qed.

(** What is written of it is read as itself: a configuration of the first
    format comes back in the second. *)
Lemma written_configuration_is_read `{!AgentTomlLaws} c text :
  cfg_version c = 2 → toml_to_string c = Some text → parse_config text = Ok c.
Proof.
  intros Hv Ht. apply toml_reads_back in Ht. unfold parse_config, parse_v2_config.
  rewrite (toml_version_read _ _ Ht), decide_True, Ht by done. done.
Qed.

(** ** What leaves the file alone *)

Definition keeps_file a a' : Prop := ag_disk a' = ag_disk a ∧ ag_writes a' = ag_writes a.
#[local] Instance keeps_file_preorder : PreOrder keeps_file.
Proof.
  unfold keeps_file. split; [done|]. intros a1 a2 a3 [] []. split; congruence.
Qed.
Lemma keeps_file_call {E B} (m : st N E B) : preserves keeps_file (call m : st (AgentWorld N) E B).
Proof. intros a. unfold call. by destruct (m (ag_net a)). Qed.
Lemma keeps_file_device {E B} (f : nat → B) : preserves keeps_file (device f : st (AgentWorld N) E B).
Proof. done. Qed.
Lemma keeps_file_notify {E} b : preserves keeps_file (notify b : st (AgentWorld N) E ()).
Proof. by destruct b. Qed.
Lemma keeps_file_now {E} : preserves keeps_file (agent_now : st (AgentWorld N) E _).
Proof. done. Qed.
Lemma keeps_file_add {E} x y : preserves keeps_file (agent_add_u64 x y : st (AgentWorld N) E _).
Proof. done. Qed.
#[local] Hint Resolve keeps_file_call keeps_file_device keeps_file_notify keeps_file_now
  keeps_file_add : preserves.

Lemma refresh_keeps_file server signatory options notification :
  preserves keeps_file (refresh_certificate_async server signatory options notification).
Proof.
  unfold refresh_certificate_async, complete_rustica_challenge, signatory_pubkey,
    get_rustica_client, resign, rpc. preserve.
Qed.

Lemma failed_servers_keep_file signatory options notification l a a' :
  all_failed (λ server, refresh_certificate_async server signatory options notification) l a a' →
  keeps_file a a'.
Proof.
  induction 1 as [|s l a a1 a2 e Hs _ IH]; [done|]. etrans; [|exact IH].
  by apply (run_preserves _ _ _ _ _ (refresh_keeps_file s signatory options notification)) in Hs.
Qed.

(** ** Properties *)

(** C21: renewed credentials survive a restart: after the agent has fetched a
    certificate, the configuration that a new process reads from the file is
    the one the agent goes on with - the credentials a server renewed, all else
    as it was, whichever format the file had - provided the write succeeds; a
    write that is not begun leaves the old configuration, one that is broken
    off leaves what was written. *)
Theorem renewed_credentials_survive_a_restart `{!AgentTomlLaws} path conf signatory options
    notification a a' cert conf' :
  reload path a = Ok conf →
  fetch_new_certificate conf signatory options notification a = (a', Ret (cert, conf')) →
  match agent_write (ag_writes a) with
  | Written => reload path a' = Ok conf'
  | NotOpened => reload path a' = Ok conf
  | CutShort text => reload path a' = Ok conf' ∨ reload path a' = read_configuration path (Ok text)
  end.
Proof.
  intros Hread Hrun. unfold fetch_new_certificate in Hrun.
  apply fetch_from_run in Hrun as (l1 & server & rest & a1 & a2 & rc & cr & _ & Hall & Hs & _ & Hu & Hsaved).
  apply failed_servers_keep_file in Hall.
  pose proof (run_preserves _ _ _ _ _ (refresh_keeps_file server signatory options notification) Hs) as Hs2.
  destruct (transitivity Hall Hs2) as [Hdisk Hwrites]. clear Hall Hs Hs2.
  assert (uc_path conf = path ∧ cfg_version (uc_configuration conf) = 2) as [Hpath Hv].
  { unfold reload, read_configuration in Hread. apply result_bind_Ok in Hread as (c & Hc & [= <-]).
    destruct (file_text path (ag_disk a)); [|done]. split; [done|by eapply parse_config_version]. }
  destruct cr as [cr|]; cbn in Hsaved, Hu.
  2: { subst a2 conf'. unfold reload in *. rewrite Hdisk. destruct (agent_write _); auto. }
  destruct Hsaved as (a2' & ok & Hw & ->). unfold configuration_write in Hw. rewrite <-Hwrites.
  apply st_bind_Ret in Hw as (a3 & text & [-> Ht]%unwrap_Ret & Hw).
  assert (uc_path conf' = path ∧ cfg_version (uc_configuration conf') = 2) as [Hpath' Hv']
    by by rewrite Hu.
  apply written_configuration_is_read in Ht; [|done].
  revert Hw. st_unfold. cbn. destruct (agent_write (ag_writes a2)) as [| |cut]; cbn.
  - intros [= <- <-]. unfold reload. cbn. rewrite Hpath', file_text_written. cbn. rewrite Ht. cbn.
    rewrite <-Hpath'. by destruct conf'.
  - intros [= <- <-]. unfold reload in *. cbn. by rewrite Hdisk.
  - intros [= <- <-]. right. unfold reload. cbn. by rewrite Hpath', file_text_written.
Qed.
End Restart.
