(* ===== verification/AgentHandler.v ===== *)
(** * The agent: the handler behind the socket

    [Handler] of [rustica-agent/src/lib.rs]: the cached certificate, the
    identities the agent offers and the signatures it gives; and the helpers
    of the same file for slots and Yubikeys. *)
From Stdlib Require Import ZArith Lia.
From S2P Require Import Prelude Machine Text Deps Proto AgentProtocol AgentConfig AgentClient.

(** The order in which a [HashMap] is iterated. *)
Class MapOrder := {
  iterate : ∀ {A}, gmap bytes A → list (bytes * A);
  iterate_perm {A} (m : gmap bytes A) : iterate m ≡ₚ map_to_list m;
}.

Record YubikeyPIVKeyDescriptor `{Yubikeys} : Type := {
  pd_serial : Z;
  pd_slot : SlotId;
  pd_public_key : PublicKey;
  pd_pin : option string;
  pd_subject : string;
}.

(** The part of [Handler] that does not change. *)
Record Handler `{Yubikeys} : Type := {
  ha_pubkey : PublicKey;
  ha_signatory : Signatory;
  ha_certificate_options : CertificateConfig;
  ha_piv_identities : gmap bytes YubikeyPIVKeyDescriptor;
  ha_notification_function : bool;
  ha_certificate_priority : bool;
}.

(** The parts behind its locks, and the world. *)
Record HandlerState `{SshCerts} (N : Type) : Type := mkHandlerState {
  hs_configuration : UpdatableConfiguration;
  hs_cert : option (Certificate PublicKey);
  hs_stale_at : Z;
  hs_identities : gmap bytes PrivateKey;
  hs_agent : AgentWorld N;
}.
Arguments mkHandlerState {_ _}.
Arguments hs_configuration {_ _} _.
Arguments hs_cert {_ _} _.
Arguments hs_stale_at {_ _} _.
Arguments hs_identities {_ _} _.
Arguments hs_agent {_ _} _.

Section Handler.
Context `{SshCerts, !Yubikeys, Zstd, Hex, AgentEnv, AgentToml, MapOrder} {N : Type} `{!Rpc N}.

#[local] Abbreviation handler_st := (st (HandlerState N)).

Definition on_agent {E A} (m : st (AgentWorld N) E A) : handler_st E A := λ s,
  let '(a, r) := m (hs_agent s) in
  (mkHandlerState (hs_configuration s) (hs_cert s) (hs_stale_at s) (hs_identities s) a, r).

(** ** The certificate *)

(** Is the cached certificate still good for a few seconds? *)
Definition cached (s : HandlerState N) (soon : Z) : option (Certificate PublicKey) :=
  match hs_cert s, bool_decide (soon < hs_stale_at s) with
  | Some cert, true => Some cert
  | _, _ => None
  end.

Definition get_certificate_async (self : Handler) (fetch_new_cert_if_needed : bool)
    : handler_st RusticaAgentLibraryError (option (Certificate PublicKey)) :=
  now ← on_agent agent_now;
  timestamp ← unwrap (as_secs <$> now);
  soon ← on_agent (agent_add_u64 timestamp 5);
  s ← get;
  if fetch_new_cert_if_needed then
    match cached s soon with
    | Some cert => mret (Some cert)
    | None =>
        '(cert, configuration) ← on_agent (fetch_new_certificate (hs_configuration s)
          (ha_signatory self) (ha_certificate_options self) (ha_notification_function self));
        modify (λ s, mkHandlerState configuration (Some cert) (c_valid_before cert)
          (hs_identities s) (hs_agent s));;
        mret (Some cert)
    end
  else mret (cached s soon).

(** ** SshAgentHandler *)

Definition add_identity (private_key : PrivateKey) : handler_st AgentError Response :=
  let public_key := pk_encode (pubkey private_key) in
  modify (λ s, mkHandlerState (hs_configuration s) (hs_cert s) (hs_stale_at s)
    (<[public_key := private_key]> (hs_identities s)) (hs_agent s));;
  mret RSuccess.

Definition loaded_identities (m : gmap bytes PrivateKey) : list Identity :=
  (λ x, {| key_blob := pk_encode (pubkey x.2); key_comment := sk_comment x.2 |}) <$> iterate m.
Definition piv_identities (m : gmap bytes YubikeyPIVKeyDescriptor) : list Identity :=
  (λ x, {| key_blob := pk_encode (pd_public_key x.2);
           key_comment := "Yubikey Serial: " +:+ int_to_string (pd_serial x.2) +:+ " Slot: " +:+
             slot_debug (pd_slot x.2) |}) <$> iterate m.

Definition no_certificate_comment : string :=
  "No server returned valid certificate. Only your key is available".

Definition identities (self : Handler) : handler_st AgentError Response :=
  s ← get;
  let ids := loaded_identities (hs_identities s) ++ piv_identities (ha_piv_identities self) in
  answer ← attempt (get_certificate_async self true);
  let certificate :=
    match answer with
    | Ok (Some v) => Some {| key_blob := c_serialized v; key_comment := default "" (c_comment v) |}
    | _ => None
    end in
  let key := {| key_blob := pk_encode (ha_pubkey self); key_comment := "" |} in
  mret (RIdentities (ids ++
    match certificate, ha_certificate_priority self with
    | None, _ => [{| key_blob := pk_encode (ha_pubkey self);
                     key_comment := no_certificate_comment |}]
    | Some cert, false => [key; cert]
    | Some cert, true => [cert; key]
    end)).

Definition MANAGEMENT_KEY : string := "010203040506070801020304050607080102030405060708".

(** A signature by another slot of a connected Yubikey. *)
Definition sign_with_piv (self : Handler) (descriptor : YubikeyPIVKeyDescriptor) (data : bytes)
    : handler_st AgentError Response :=
  yk ← on_agent (reported (yk_open (pd_serial descriptor)) (λ e, "Unable to open Yubikey: " +:+ e));
  yk ← of_option (error_of_str "Unable to open Yubikey") yk;
  on_agent (agent_println (if ha_notification_function self
    then "Trying to send a notification" else "No notification function set"));;
  on_agent (notify (ha_notification_function self));;
  match pd_pin descriptor with
  | Some pin =>
      management_key ← unwrap (hex_decode MANAGEMENT_KEY);
      unlocked ← on_agent (reported
        (λ n, if yk_unlock yk (as_bytes pin) management_key n then Some () else None)
        (λ e, "Unlock Error: " +:+ e));
      match unlocked with
      | Some _ => mret ()
      | None =>
          tries ← on_agent (reported (yk_pin_retries yk) (λ e, "Could not fetch pin retries [" +:+ e
            +:+ "] for Yubikey: " +:+ int_to_string (pd_serial descriptor)));
          tries_remaining ← of_option (error_of_str "Could not fetch pin retries") tries;
          on_agent (agent_println ("Could not unlock Yubikey: " +:+ int_to_string tries_remaining
            +:+ " tries remaining"));;
          throw (error_of_str "Yubikey unlocking error")
      end
  | None => mret ()
  end;;
  signature ← on_agent (reported (yk_sign yk data (pd_slot descriptor))
    (λ e, "Signing Error: " +:+ e));
  signature ← of_option (error_of_str "Yubikey signing error") signature;
  mret (RSignResponse signature).

(** A signature by the signatory itself, if it is the key asked for. *)
Definition sign_with_signatory (self : Handler) (fp : Fingerprint) (data : bytes)
    : handler_st AgentError Response :=
  match ha_signatory self with
  | SDirect privkey =>
      (if decide (fingerprint (pubkey privkey) ≠ fp) then throw (error_of_str "No such key")
       else mret ());;
      (if sk_is_sk privkey then on_agent (notify (ha_notification_function self)) else mret ());;
      signature ← of_option (error_of_str "Signing Error") (sk_sign privkey data);
      mret (RSignResponse signature)
  | SYubikey slot yk =>
      pk ← on_agent (reported (yk_fetch_pubkey yk slot)
        (λ e, "Yubikey Fetch Certificate Error: " +:+ e));
      pk ← of_option (error_of_str "Yubikey fetch certificate error") pk;
      (if decide (fingerprint pk ≠ fp) then throw (error_of_str "No such key") else mret ());;
      on_agent (notify (ha_notification_function self));;
      signature ← on_agent (reported (yk_sign yk data slot) (λ e, "Signing Error: " +:+ e));
      signature ← of_option (error_of_str "Yubikey signing error") signature;
      mret (RSignResponse signature)
  end.

(** The fingerprint of the key a blob asks for: a certificate's or a key's. *)
Definition asked_fingerprint (blob : bytes) : option Fingerprint :=
  match cert_from_bytes blob, pk_from_bytes blob with
  | Some cert, _ => Some (fingerprint (c_key cert))
  | None, Some pk => Some (fingerprint pk)
  | None, None => None
  end.

Definition sign_request (self : Handler) (blob data : bytes) (_flags : Z)
    : handler_st AgentError Response :=
  fp ← of_option (error_of_str "Invalid key blob") (asked_fingerprint blob);
  s ← get;
  match hs_identities s !! blob with
  | Some private_key =>
      signature ← of_option (error_of_str "Signing Error") (sk_sign private_key data);
      mret (RSignResponse signature)
  | None =>
      match ha_piv_identities self !! blob with
      | Some descriptor => sign_with_piv self descriptor data
      | None => sign_with_signatory self fp data
      end
  end.

Definition handler (self : Handler) : SshAgentHandler (HandlerState N) :=
  {| h_add_identity := add_identity;
     h_identities := identities self;
     h_sign_request := sign_request self |}.

(** ** Slots *)

(** The slot of a description: [R1] to [R20] or a byte in hex; what is written
    like one but is none panics. *)
Definition slot_parser {E} (slot : string) : outcome E (option SlotId) :=
  if decide ((len slot = 2 ∨ len slot = 3) ∧ starts_with "R" slot = true) then
    match strip_prefix "R" slot ≫= parse_u8 with
    | Some v =>
        if decide (v ≤ 20) then
          match slot_try_from (129 + v) with Some s => Ret (Some s) | None => Panic end
        else Ret None
    | None => Ret None
    end
  else if decide (len slot = 4 ∧ starts_with "0x" slot = true) then
    match strip_prefix "0x" slot ≫= hex_decode with
    | Some (b :: _) =>
        match slot_try_from (Z_of_byte b) with Some s => Ret (Some s) | None => Panic end
    | _ => Panic
    end
  else Ret None.

Definition slot_validator (slot : string) : outcome string () :=
  s ← slot_parser slot;
  match s with
  | Some _ => Ret ()
  | None => Raise "Provided slot was not valid. Should be R1 - R20 or a raw hex identifier"
  end.

(** ** Yubikeys *)

#[local] Abbreviation agent_st := (st (AgentWorld N)).

Definition provision_new_key {E} (slot : SlotId) (yk : Yubikey) (pin subj : string)
    (mgm_key : bytes) (require_touch : bool) (pin_policy : YkPinPolicy)
    : agent_st E (option AgentPIVAttestation) :=
  agent_println ("Provisioning new NISTP384 key in slot: " +:+ slot_debug slot);;
  policy ←
    if require_touch then
      agent_println "You're creating a key that will require touch to use.";;
      mret TouchPolicyAlways
    else mret TouchPolicyCached;
  unlocked ← device (yk_unlock yk (as_bytes pin) mgm_key);
  if negb unlocked then agent_println "Could not unlock key";; mret None
  else
    ok ← device (yk_provision yk slot subj policy pin_policy);
    if ok : bool then
      certificate ← device (yk_fetch_attestation yk slot);
      intermediate ← device (yk_fetch_certificate yk slot_attestation);
      mret (match certificate, intermediate with
            | Ok certificate, Some intermediate =>
                Some {| ap_certificate := certificate; ap_intermediate := intermediate |}
            | _, _ => None
            end)
    else panic.

Definition list_yubikey_serials : agent_st RusticaAgentLibraryError (list Z) :=
  context ← device yk_context;
  match context with
  | Ok _ => readers ← device yk_readers ≫= unwrap; mret (omap id readers)
  | Err e => throw (CouldNotEnumerateYubikeys e)
  end.

(** The retired slots [0x82..0x96] of one Yubikey. *)
Fixpoint piv_keys_of_slots (yk : Yubikey) (serial : Z) (pin : option string) (slots : list Z)
    (all_keys : gmap bytes YubikeyPIVKeyDescriptor)
    : agent_st RusticaAgentLibraryError (gmap bytes YubikeyPIVKeyDescriptor) :=
  match slots with
  | [] => mret all_keys
  | n :: slots =>
      slot ← unwrap (retired_slot_try_from n);
      pubkey ← device (yk_fetch_pubkey yk slot);
      match pubkey with
      | Some pubkey =>
          subject ← device (yk_fetch_subject yk slot);
          piv_keys_of_slots yk serial pin slots (<[pk_encode pubkey :=
            {| pd_serial := serial; pd_slot := slot; pd_public_key := pubkey; pd_pin := pin;
               pd_subject := default "" subject |}]> all_keys)
      | None => piv_keys_of_slots yk serial pin slots all_keys
      end
  end.

Fixpoint piv_keys_of (global_pin : option string) (serials : list Z)
    (all_keys : gmap bytes YubikeyPIVKeyDescriptor)
    : agent_st RusticaAgentLibraryError (gmap bytes YubikeyPIVKeyDescriptor) :=
  match serials with
  | [] => mret all_keys
  | serial :: serials =>
      let pin := env_var ("YK_PIN_" +:+ int_to_string serial) in
      let pin := match pin with Some pin => Some pin | None => global_pin end in
      let serial := as_u32 serial in
      yk ← device (yk_open serial);
      match yk with
      | Some yk =>
          all_keys ← piv_keys_of_slots yk serial pin (seqZ 130 20) all_keys;
          piv_keys_of global_pin serials all_keys
      | None => throw (CouldNotOpenYubikey serial)
      end
  end.

Definition get_all_piv_keys
    : agent_st RusticaAgentLibraryError (gmap bytes YubikeyPIVKeyDescriptor) :=
  serials ← list_yubikey_serials;
  piv_keys_of (env_var "YK_PIN") serials ∅.

Definition git_config_from_public_key (public_key : PublicKey) : string :=
  let base := "git config --local" in
  base +:+ " gpg.format ssh && " +:+ base +:+ " commit.gpgsign true && " +:+ base +:+
  " user.signingKey " +:+ String "034" "" +:+ "key::" +:+ pk_to_string public_key +:+
  String "034" "".
End Handler.

Section HandlerLemmas.
Context `{SshCerts, !Yubikeys, Zstd, Hex, AgentEnv, AgentToml, MapOrder} {N : Type} `{!Rpc N}.

#[local] Abbreviation handler_st := (st (HandlerState N)).
Implicit Types s : HandlerState N.

(** ** What the handler keeps true *)

(** The cached certificate goes with its expiry, and a loaded key is filed
    under its own public key. *)
Record handler_wf s : Prop := {
  hw_stale c : hs_cert s = Some c → hs_stale_at s = c_valid_before c;
  hw_keyed blob k : hs_identities s !! blob = Some k → blob = pk_encode (pubkey k);
}.

Definition keeps_wf s s' : Prop := handler_wf s → handler_wf s'.
#[export] Instance keeps_wf_preorder : PreOrder keeps_wf.
Proof. unfold keeps_wf. split; [by intros s|]. intros s1 s2 s3. auto. Qed.

Lemma on_agent_keeps {E A} (m : st (AgentWorld N) E A) : preserves keeps_wf (on_agent m).
Proof.
  intros s [Hc Hk]. unfold on_agent. destruct (m (hs_agent s)) as [a r]. by split.
Qed.
#[local] Hint Resolve on_agent_keeps : preserves.

Lemma get_certificate_keeps self b : preserves keeps_wf (get_certificate_async self b).
Proof.
  unfold get_certificate_async. preserve.
  intros s [Hc Hk]. split; [by intros ? [= <-]|exact Hk].
Qed.

Lemma add_identity_keeps k : preserves keeps_wf (add_identity k).
Proof.
  intros s [Hc Hk]. split; [exact Hc|].
  intros blob k' Hb. change (<[pk_encode (pubkey k) := k]> (hs_identities s) !! blob = Some k') in Hb.
  apply lookup_insert_Some in Hb as [[<- <-]|[_ Hb]]; [done|by apply Hk].
Qed.

Lemma identities_keeps self : preserves keeps_wf (identities self).
Proof.
  unfold identities. preserve. apply preserves_attempt, get_certificate_keeps.
Qed.

Lemma sign_request_keeps self blob data flags :
  preserves keeps_wf (sign_request self blob data flags).
Proof. unfold sign_request, sign_with_piv, sign_with_signatory. preserve. Qed.

Lemma handle_request_keeps self q : preserves keeps_wf (handle_request (handler self) q).
Proof.
  destruct q; cbn.
  - apply identities_keeps.
  - apply sign_request_keeps.
  - apply add_identity_keeps.
  - preserve.
Qed.

Lemma on_agent_Ret {E A} (m : st (AgentWorld N) E A) s s' x :
  on_agent m s = (s', Ret x) ↔ ∃ a, m (hs_agent s) = (a, Ret x) ∧
    s' = mkHandlerState (hs_configuration s) (hs_cert s) (hs_stale_at s) (hs_identities s) a.
Proof. unfold on_agent. destruct (m (hs_agent s)) as [a r]. naive_solver. Qed.
#[local] Hint Rewrite @on_agent_Ret @device_Ret @reported_Ret @agent_println_Ret @notify_Ret @agent_now_Ret @agent_add_u64_Ret
  : st_inv.

(** ** Signatures *)

(** [sig] is a signature of [data] by the key that the blob asks for. *)
Inductive signed_by (self : Handler) s (blob data sig : bytes) : Prop :=
| by_identity k :
    hs_identities s !! blob = Some k → blob = pk_encode (pubkey k) → sk_sign k data = Some sig →
    signed_by self s blob data sig
| by_piv d yk n m :
    hs_identities s !! blob = None → ha_piv_identities self !! blob = Some d →
    yk_open (pd_serial d) n = Some yk → yk_sign yk data (pd_slot d) m = Some sig →
    signed_by self s blob data sig
| by_key k fp :
    hs_identities s !! blob = None → ha_piv_identities self !! blob = None →
    ha_signatory self = SDirect k → asked_fingerprint blob = Some fp →
    fingerprint (pubkey k) = fp → sk_sign k data = Some sig →
    signed_by self s blob data sig
| by_yubikey slot yk pk n m fp :
    hs_identities s !! blob = None → ha_piv_identities self !! blob = None →
    ha_signatory self = SYubikey slot yk → asked_fingerprint blob = Some fp →
    yk_fetch_pubkey yk slot n = Some pk → fingerprint pk = fp →
    yk_sign yk data slot m = Some sig →
    signed_by self s blob data sig.

Lemma sign_with_piv_Ret self d data s s' r :
  sign_with_piv self d data s = (s', Ret r) →
  ∃ yk n m sig, r = RSignResponse sig ∧ yk_open (pd_serial d) n = Some yk ∧
    yk_sign yk data (pd_slot d) m = Some sig.
Proof.
  unfold sign_with_piv. intros Hrun. st_inv_all.
  all: repeat match goal with Hx : Some _ = _ |- _ => symmetry in Hx end; eauto 10.
Qed.

Lemma sign_with_signatory_Ret self fp data s s' r :
  sign_with_signatory self fp data s = (s', Ret r) →
  ∃ sig, r = RSignResponse sig ∧
    ((∃ k, ha_signatory self = SDirect k ∧ fingerprint (pubkey k) = fp ∧ sk_sign k data = Some sig) ∨
     (∃ slot yk pk n m, ha_signatory self = SYubikey slot yk ∧ yk_fetch_pubkey yk slot n = Some pk ∧
        fingerprint pk = fp ∧ yk_sign yk data slot m = Some sig)).
Proof.
  unfold sign_with_signatory. intros Hrun. destruct (ha_signatory self) as [slot yk|k] eqn:Hsig.
  - st_inv. case_decide; st_inv.
    eexists. split; [done|]. right. eexists _, _, _, _, _. split_and!; [done| |done|]; by symmetry.
  - st_inv. case_decide; st_inv.
    eexists. split; [done|]. left. eexists. by split_and!.
Qed.

(** ** The cached certificate *)

Lemma cached_Some s soon c :
  cached s soon = Some c ↔ hs_cert s = Some c ∧ soon < hs_stale_at s.
Proof.
  unfold cached. destruct (hs_cert s) as [c'|]; [|naive_solver].
  destruct (bool_decide_reflect (soon < hs_stale_at s)); naive_solver.
Qed.
Lemma cached_None s soon :
  handler_wf s → cached s soon = None → ∀ c, hs_cert s = Some c → c_valid_before c ≤ soon.
Proof.
  intros Hwf Hn c Hc. pose proof (hw_stale _ Hwf c Hc) as Hs. unfold cached in Hn. rewrite Hc in Hn.
  destruct (bool_decide_reflect (soon < hs_stale_at s)); [done|lia].
Qed.

(** ** Properties *)

(** Whatever requests a client sends, the handler keeps its state in
    order: the expiry it remembers is that of the certificate it caches, and
    every loaded key is filed under its own public key. *)
Theorem agent_state_stays_well_formed self rs s s' r :
  handler_wf s → handle_requests (handler self) rs s = (s', r) → handler_wf s'.
Proof.
  intros Hwf Hrun. assert (preserves keeps_wf (handle_requests (handler self) rs)) as Hp.
  { clear. induction rs as [|q rs IH]; cbn [handle_requests]; preserve.
    all: first [done | apply handle_request_keeps]. }
  specialize (Hp s). rewrite Hrun in Hp. by apply Hp.
Qed.

(** C17: the agent uses a cached certificate exactly while it is valid for more
    than five seconds, and then asks no server; otherwise a certificate it
    returns was fetched for this call, and is cached with its own expiry. *)
Theorem cached_certificate_is_used_while_valid self fetch s s' o d :
  handler_wf s → agent_clock (ag_clock (hs_agent s)) = Some d → in_u64 (as_secs d + 5) →
  get_certificate_async self fetch s = (s', Ret o) →
  match o with
  | Some c =>
      (hs_cert s = Some c ∧ as_secs d + 5 < c_valid_before c ∧
       ag_net (hs_agent s') = ag_net (hs_agent s)) ∨
      (fetch = true ∧ (∀ c0, hs_cert s = Some c0 → c_valid_before c0 ≤ as_secs d + 5) ∧
       hs_cert s' = Some c ∧ hs_stale_at s' = c_valid_before c ∧
       ∃ a a' conf, fetch_new_certificate (hs_configuration s) (ha_signatory self)
         (ha_certificate_options self) (ha_notification_function self) a = (a', Ret (c, conf)) ∧
         ag_net a = ag_net (hs_agent s) ∧ hs_configuration s' = conf)
  | None => fetch = false ∧ ∀ c0, hs_cert s = Some c0 → c_valid_before c0 ≤ as_secs d + 5
  end.
Proof.
  intros Hwf Hd Hsoon Hrun. unfold get_certificate_async in Hrun. st_inv.
  match goal with Ht : as_secs <$> ?x = Some _, Hx : ?x = _ |- _ => rewrite Hx in Ht end.
  all: rewrite ?Hd in *; cbn in *; simplify_eq.
  match goal with Hu : u64_add _ _ _ = Ret _ |- _ =>
    unfold u64_add in Hu; rewrite u64_of_ok in Hu by done; injection Hu as <- end.
  match goal with Hr : (if fetch then _ else _) ?s1 = _ |- _ =>
    set (w := s1) in Hr; assert (handler_wf w) as Hwf' by (by destruct Hwf; split) end.
  destruct fetch.
  - destruct (cached w (as_secs d + 5)) as [c|] eqn:Hc; st_inv.
    + apply cached_Some in Hc as [Hcert Hlt]. left. split_and!; [done| |done].
      by rewrite <-(hw_stale _ Hwf' c Hcert).
    + right. split; [done|]. split; [exact (cached_None w _ Hwf' Hc)|]. cbn.
      split_and!; [done|done|]. eexists _, _, _. split_and!; [done|done|done].
  - st_inv. destruct (cached w (as_secs d + 5)) as [c|] eqn:Hc.
    + apply cached_Some in Hc as [Hcert Hlt]. left. split_and!; [done| |done].
      by rewrite <-(hw_stale _ Hwf' c Hcert).
    + split; [done|]. exact (cached_None w _ Hwf' Hc).
Qed.

(** A signature the agent answers with was made over the data by the key
    the request asked for: a loaded key whose public key is the blob, the
    Yubikey slot listed under the blob, or the agent's own key if the key or
    certificate in the blob has its fingerprint. *)
Theorem signatures_are_by_the_key_asked_for self blob data flags s s' r :
  handler_wf s → sign_request self blob data flags s = (s', Ret r) →
  ∃ sig, r = RSignResponse sig ∧ signed_by self s blob data sig.
Proof.
  intros Hwf Hrun. unfold sign_request in Hrun.
  apply st_bind_Ret in Hrun as (s1 & fp & Hfp & Hrun). apply of_option_Ret in Hfp as [-> Hfp].
  apply st_bind_Ret in Hrun as (s2 & s3 & Hg & Hrun). apply get_Ret in Hg as [-> ->].
  destruct (hs_identities s !! blob) as [k|] eqn:Hid.
  { st_inv. eexists. split; [done|]. eapply by_identity; [done|by eapply hw_keyed|done]. }
  destruct (ha_piv_identities self !! blob) as [d|] eqn:Hpiv.
  { apply sign_with_piv_Ret in Hrun as (yk & n & m & sig & -> & Ho & Hs).
    exists sig. split; [done|]. by eapply by_piv. }
  apply sign_with_signatory_Ret in Hrun as (sig & -> & [(k & Hk & Hf & Hs)
    |(slot & yk & pk & n & m & Hk & Hp & Hf & Hs)]); exists sig; (split; [done|]).
  - by eapply by_key.
  - by eapply by_yubikey.
Qed.

(** The list of identities is never refused and never incomplete: it holds
    every loaded key, every Yubikey slot and the agent's own key, and the
    certificate when there is one, next to the key in the configured order. *)
Theorem every_identity_is_listed self s :
  (identities self s).2 = Panic ∨ ∃ l tail, (identities self s).2 = Ret (RIdentities (l ++ tail)) ∧
    (∀ i, i ∈ l ↔
      (∃ blob k, hs_identities s !! blob = Some k ∧
        i = {| key_blob := pk_encode (pubkey k); key_comment := sk_comment k |}) ∨
      (∃ blob d, ha_piv_identities self !! blob = Some d ∧
        i = {| key_blob := pk_encode (pd_public_key d);
               key_comment := "Yubikey Serial: " +:+ int_to_string (pd_serial d) +:+ " Slot: " +:+
                 slot_debug (pd_slot d) |})) ∧
    match (get_certificate_async self true s).2 with
    | Ret (Some c) =>
        let key := {| key_blob := pk_encode (ha_pubkey self); key_comment := "" |} in
        let cert := {| key_blob := c_serialized c; key_comment := default "" (c_comment c) |} in
        tail = if ha_certificate_priority self then [cert; key] else [key; cert]
    | _ => tail = [{| key_blob := pk_encode (ha_pubkey self);
                      key_comment := no_certificate_comment |}]
    end.
Proof.
  unfold identities, attempt. st_unfold.
  destruct (get_certificate_async self true s) as [s' r]. cbn.
  destruct r as [o|e|]; [right|right|by left].
  all: exists (loaded_identities (hs_identities s) ++ piv_identities (ha_piv_identities self)).
  all: eexists; split; [done|]; split.
  2: { destruct o; [|done]. by destruct (ha_certificate_priority self). }
  3: done.
  all: intros i; rewrite elem_of_app; unfold loaded_identities, piv_identities;
    rewrite !list_elem_of_fmap; setoid_rewrite iterate_perm.
  all: split; [intros [([b x] & -> & Hx)|([b x] & -> & Hx)]; apply elem_of_map_to_list in Hx;
    [left|right]; eauto|].
  all: intros [(b & x & Hx & ->)|(b & x & Hx & ->)]; [left|right]; exists (b, x);
    (split; [done|]); by apply elem_of_map_to_list.
Qed.
End HandlerLemmas.
