(* ===== verification/Slots.v ===== *)
(** * The names of slots

    [parse_option_slot] of [rustica/src/signing/yubikey.rs] and [slot_parser] of
    [rustica-agent/src/lib.rs], side by side. *)
From Stdlib Require Import ZArith Lia.
From S2P Require Import Prelude Machine Text Deps Key Auth Logging Schema World Signing.
From S2P Require Import YubikeySigner Proto AgentProtocol AgentConfig AgentClient AgentHandler.

Section Slots.
Context `{SshCerts, !Yubikeys, Hex}.

(** The server's configuration and the agent's command line read the names of
    slots alike: what one accepts the other does, as the same slot, and both
    panic on the same texts. *)
Lemma slots_are_read_alike slot :
  parse_option_slot (Some slot) =
    match slot_parser slot with
    | Ret (Some s) => Ret (Some s)
    | Ret None => Raise "Invalid Slot"
    | Raise e => Raise e
    | Panic => Panic
    end.
Proof.
  unfold parse_option_slot, slot_parser.
  repeat (case_decide; try done); repeat (case_match; try done).
Qed.

(** What a retired slot is called. *)
Lemma retired_slots_are_read {E} v s :
  1 ≤ v ≤ 20 → slot_try_from (129 + v) = Some s →
  slot_parser (E := E) ("R" +:+ int_to_string v) = Ret (Some s).
Proof.
  intros Hv Hs.
  assert (∃ n, (n < 21)%nat ∧ v = Z.of_nat n) as (n & Hn & ->) by (exists (Z.to_nat v); lia).
  unfold slot_parser.
  do 21 (destruct n as [|n]; [try (exfalso; lia); vm_compute in Hs; vm_compute; by rewrite Hs|]). lia.
Qed.
(** The message names R1 to R20, but R0 passes: it is whatever the slot 0x81 is,
    and a panic if there is none. *)
Lemma slot_zero_passes {E} :
  slot_parser (E := E) "R0" = match slot_try_from 129 with Some s => Ret (Some s) | None => Panic end.
Proof. vm_compute. reflexivity. Qed.

(** A text that looks like a slot in hex panics when it is none. *)
Lemma slots_that_panic {E} digits :
  (len digits = 2)%Z → hex_decode digits = None → slot_parser (E := E) ("0x" +:+ digits) = Panic.
Proof.
  intros Hl Hd. destruct digits as [|a [|b [|c r]]]; [discriminate..| |exfalso; unfold len in Hl; cbn in Hl; lia].
  unfold slot_parser. rewrite decide_False by (intros [[|] _]; discriminate).
  rewrite decide_True by done.
  assert (strip_prefix "0x" ("0x" +:+ String a (String b "")) = Some (String a (String b ""))) as ->
    by reflexivity.
  cbn [mbind option_bind]. by rewrite Hd.
Qed.
End Slots.
