(* ===== verification/AgentSocket.v ===== *)
(** * The agent: the socket and its connections

    [Agent] of [rustica-agent/src/sshagent/agent.rs]: a loop that takes
    connections until it is told to stop, and a task for each of them.  The
    tasks share the handler; a step of the system is the listener's or one turn
    of one connection.  (A turn is one step because what a request changes of
    the handler is behind locks that it holds while it changes it.) *)
From Stdlib Require Import ZArith Lia.
From S2P Require Import Prelude Machine Text Deps Proto AgentProtocol AgentConfig AgentClient.
From S2P Require Import AgentHandler.

Section Socket.
Context `{SshCerts} {S : Type} (handler : SshAgentHandler S).

(** ** The system *)

(** The task of a connection: what the client sends, what of it is still to be
    read, what was written, and whether [handle_client] has returned. *)
Record Client : Type := mkClient {
  cl_sent : bytes;
  cl_input : bytes;
  cl_output : bytes;
  cl_ended : option Ended;
}.

Record Listening : Type := mkListening {
  ls_handler : S;
  ls_accepting : bool;
  ls_clients : list Client;
  ls_printed : list string;
}.

(** What happens next: a client connects, [accept] fails, the termination
    channel delivers, the task of a client takes a turn - and the client takes
    the answer or is gone - or another holder of the handler calls it. *)
Inductive Event : Type :=
| Accepted (sent : bytes)
| AcceptFailed (e : string)
| Terminated
| Turn (i : nat) (writable : bool)
| Called (f : S → S).

(** [run_with_termination_channel], up to its loop: a path that cannot be bound
    panics. *)
Definition listen (bound : bool) (h : S) : outcome () Listening :=
  if bound then Ret (mkListening h true [] []) else Panic.

(** One step; [None] when it cannot happen. *)
Definition listen_step (termination_channel : bool) (e : Event) (s : Listening)
    : option Listening :=
  match e with
  | Accepted sent =>
      if ls_accepting s then
        Some (mkListening (ls_handler s) true (ls_clients s ++ [mkClient sent sent [] None])
          (ls_printed s))
      else None
  | AcceptFailed e =>
      if ls_accepting s then
        Some (mkListening (ls_handler s) false (ls_clients s)
          (ls_printed s ++ ["Encountered an error: " +:+ e +:+ ". Exiting..."]))
      else None
  | Terminated =>
      if ls_accepting s && termination_channel then
        Some (mkListening (ls_handler s) false (ls_clients s)
          (ls_printed s ++ ["Received termination request. Exiting..."]))
      else None
  | Turn i writable =>
      match ls_clients s !! i with
      | Some (mkClient sent input output None) =>
          let '(c, ended) := serve_one handler (λ _, writable)
            (mkConnected input output (ls_handler s)) in
          Some (mkListening (cn_handler c) (ls_accepting s)
            (<[i := mkClient sent (cn_input c) (cn_output c) ended]> (ls_clients s))
            (ls_printed s))
      | _ => None
      end
  | Called f =>
      Some (mkListening (f (ls_handler s)) (ls_accepting s) (ls_clients s) (ls_printed s))
  end.

Fixpoint listen_steps (termination_channel : bool) (es : list Event) (s : Listening)
    : option Listening :=
  match es with
  | [] => Some s
  | e :: es => listen_step termination_channel e s ≫= listen_steps termination_channel es
  end.

(** ** Its end *)

(** When the runtime is dropped, a task runs until it next waits, and is gone:
    task [i] may have got through its request and have written [n] bytes of the
    answer. *)
Definition drop_task (i n : nat) (s : Listening) : Listening :=
  match ls_clients s !! i with
  | Some (mkClient sent input output None) =>
      let '(c, _) := serve_one handler (λ _, true) (mkConnected input output (ls_handler s)) in
      mkListening (cn_handler c) (ls_accepting s)
        (<[i := mkClient sent (cn_input c) (take (length output + n) (cn_output c)) (Some Dropped)]>
          (ls_clients s))
        (ls_printed s)
  | _ => s
  end.

Definition close (c : Client) : Client :=
  mkClient (cl_sent c) (cl_input c) (cl_output c) (Some (default Dropped (cl_ended c))).

(** The tasks of [cuts] in the order they are reached, then all that are left. *)
Definition drop_runtime (cuts : list (nat * nat)) (s : Listening) : Listening :=
  let s := foldl (λ s '(i, n), drop_task i n s) s cuts in
  mkListening (ls_handler s) false (close <$> ls_clients s) (ls_printed s).

(** ** What a connection has come to *)

(** A state in which a request could have been answered so. *)
Definition answered (I : S → Prop) (q : AgentRequest) (r : Response) : Prop :=
  ∃ h h', I h ∧ handle_request handler q h = (h', Ret r).

(** The client's bytes are the frames of requests, answered one by one, and
    then what is still to be read. *)
Definition conversation (I : S → Prop) (c : Client) : Prop :=
  ∃ qs ps rs rest, Forall2 encodes qs ps ∧ Forall2 (answered I) qs rs ∧
    cl_sent c = mjoin (frame_of <$> ps) ++ rest ∧
    cl_output c = mjoin (response_write <$> rs) ∧
    (cl_ended c = None → rest = cl_input c).

Lemma conversation_new I sent : conversation I (mkClient sent sent [] None).
Proof. exists [], [], [], sent. split_and!; try done; constructor. Qed.

Lemma conversation_turn (I : S → Prop) sent input output writable h c ended :
  I h → (∀ q h, I h → I (handle_request handler q h).1) →
  conversation I (mkClient sent input output None) →
  serve_one handler (λ _, writable) (mkConnected input output h) = (c, ended) →
  I (cn_handler c) ∧ conversation I (mkClient sent (cn_input c) (cn_output c) ended).
Proof.
  intros Hh HI (qs & ps & rs & rest & Hq & Hr & Hsent & Hout & Hrest).
  specialize (Hrest eq_refl). cbn in *. subst rest.
  unfold serve_one. cbn [cn_input cn_output cn_handler].
  destruct (request_read input) as [input' [q|e|]] eqn:Hread.
  2,3: intros [= <- <-]; cbn; split; [done|]; by exists qs, ps, rs, input.
  specialize (HI q h Hh).
  destruct (handle_request handler q h) as [h' [r|e|]] eqn:Hreq; cbn in HI.
  2,3: intros [= <- <-]; cbn; split; [done|]; by exists qs, ps, rs, input.
  destruct writable; intros [= <- <-]; cbn; (split; [done|]); [|by exists qs, ps, rs, input].
  apply request_read_spec in Hread as (p & -> & _ & Henc).
  exists (qs ++ [q]), (ps ++ [p]), (rs ++ [r]), input'. split_and!.
  - by apply Forall2_app; [|constructor].
  - apply Forall2_app; [done|]. constructor; [by exists h, h'|done].
  - cbn [cl_sent]. rewrite Hsent, fmap_app, (join_app (frame_of <$> ps)). cbn. by rewrite app_nil_r, <-!app_assoc.
  - cbn [cl_output]. rewrite Hout, fmap_app, (join_app (response_write <$> rs)). cbn. by rewrite app_nil_r.
  - done.
Qed.

(** A call of the handler that keeps [I]. *)
Definition keeps (I : S → Prop) (e : Event) : Prop :=
  match e with Called f => ∀ h, I h → I (f h) | _ => True end.

(** The invariant of the system. *)
Definition served (I : S → Prop) (s : Listening) : Prop :=
  I (ls_handler s) ∧ Forall (conversation I) (ls_clients s).

Lemma listen_step_served (I : S → Prop) t e s s' :
  (∀ q h, I h → I (handle_request handler q h).1) → keeps I e →
  served I s → listen_step t e s = Some s' → served I s'.
Proof.
  intros HI He [Hh Hc]. destruct e as [sent|e| |i writable|f]; cbn.
  - destruct (ls_accepting s); [|done]. intros [= <-]. split; [done|]. cbn.
    apply Forall_app_2; [done|]. constructor; [apply conversation_new|done].
  - destruct (ls_accepting s); [|done]. by intros [= <-].
  - destruct (ls_accepting s && t); [|done]. by intros [= <-].
  - destruct (ls_clients s !! i) as [[sent input output [|]]|] eqn:Hi; [done| |done].
    destruct (serve_one _ _ _) as [c ended] eqn:Hserve. intros [= <-].
    pose proof (Forall_lookup_1 _ _ _ _ Hc Hi) as Hconv.
    destruct (conversation_turn I _ _ _ _ _ _ _ Hh HI Hconv Hserve) as [Hh' Hconv'].
    split; cbn; [done|]. by apply Forall_insert.
  - intros [= <-]. split; [by apply He|done].
Qed.

Lemma listen_steps_served (I : S → Prop) t es s s' :
  (∀ q h, I h → I (handle_request handler q h).1) → Forall (keeps I) es →
  served I s → listen_steps t es s = Some s' → served I s'.
Proof.
  intros HI Hes. revert s. induction Hes as [|e es He Hes IH]; intros s Hs; cbn; [by intros [= <-]|].
  destruct (listen_step t e s) as [s1|] eqn:Hstep; cbn; [|done].
  apply IH. by eapply listen_step_served.
Qed.

(** What a client received is a beginning of the answers to its requests. *)
Definition cut_conversation (I : S → Prop) (c : Client) : Prop :=
  ∃ qs ps rs rest, Forall2 encodes qs ps ∧ Forall2 (answered I) qs rs ∧
    cl_sent c = mjoin (frame_of <$> ps) ++ rest ∧
    cl_output c `prefix_of` mjoin (response_write <$> rs).

Lemma conversation_cut (I : S → Prop) c o input e :
  conversation I c → o `prefix_of` cl_output c → cut_conversation I (mkClient (cl_sent c) input o e).
Proof.
  intros (qs & ps & rs & rest & Hq & Hr & Hs & Ho & _) Hp. exists qs, ps, rs, rest.
  split_and!; [done..|]. cbn. by rewrite <-Ho.
Qed.

(** While the runtime is dropped. *)
Definition dropping (I : S → Prop) (s : Listening) : Prop :=
  I (ls_handler s) ∧ Forall (λ c, if cl_ended c then cut_conversation I c else conversation I c)
    (ls_clients s).

Lemma drop_task_dropping (I : S → Prop) i n s :
  (∀ q h, I h → I (handle_request handler q h).1) → dropping I s → dropping I (drop_task i n s).
Proof.
  intros HI [Hh Hc]. unfold drop_task.
  destruct (ls_clients s !! i) as [[sent input output [|]]|] eqn:Hi; [done| |done].
  destruct (serve_one _ _ _) as [c ended] eqn:Hserve.
  pose proof (Forall_lookup_1 _ _ _ _ Hc Hi) as Hconv. cbn in Hconv.
  destruct (conversation_turn I _ _ _ _ _ _ _ Hh HI Hconv Hserve) as [Hh' Hconv'].
  split; cbn; [done|]. apply Forall_insert; [done|]. cbn.
  by apply (conversation_cut I _ _ _ _ Hconv'), prefix_take.
Qed.

Lemma drop_runtime_cut (I : S → Prop) cuts s :
  (∀ q h, I h → I (handle_request handler q h).1) → served I s →
  Forall (λ c, is_Some (cl_ended c) ∧ cut_conversation I c) (ls_clients (drop_runtime cuts s)).
Proof.
  intros HI [Hh Hc].
  assert (dropping I s) as Hd.
  { split; [done|]. eapply Forall_impl; [exact Hc|]. intros c Hconv. cbn.
    destruct (cl_ended c) eqn:He; [|done]. destruct c. by apply (conversation_cut I _ _ _ _ Hconv). }
  unfold drop_runtime. cbn. clear Hh Hc. revert s Hd.
  induction cuts as [|[i n] cuts IH]; intros s Hd; cbn; [|by apply IH, drop_task_dropping].
  destruct Hd as [_ Hc]. apply Forall_fmap. eapply Forall_impl; [exact Hc|].
  intros c Hconv. cbn. split; [by eexists|].
  destruct c as [sent input output [e|]]; cbn in *.
  - destruct Hconv as (qs & ps & rs & rest & ?). by exists qs, ps, rs, rest.
  - by apply (conversation_cut I (mkClient sent input output None)).
Qed.

(** Nothing that was written is taken back. *)
Lemma drop_runtime_keeps cuts s i c :
  ls_clients s !! i = Some c →
  ∃ c', ls_clients (drop_runtime cuts s) !! i = Some c' ∧ cl_output c `prefix_of` cl_output c'.
Proof.
  unfold drop_runtime. cbn. revert s c. induction cuts as [|[j n] cuts IH]; intros s c Hi; cbn.
  { rewrite list_lookup_fmap, Hi. cbn. by eexists. }
  assert (∃ c1, ls_clients (drop_task j n s) !! i = Some c1 ∧ cl_output c `prefix_of` cl_output c1)
    as (c1 & Hi1 & Hp).
  { unfold drop_task. destruct (ls_clients s !! j) as [[sent input output [|]]|] eqn:Hj; [by eauto| |by eauto].
    destruct (serve_one _ _ _) as [c2 ended] eqn:Hserve. cbn [ls_clients].
    destruct (decide (i = j)) as [->|Hne]; [|rewrite list_lookup_insert_ne by congruence; by eauto].
    rewrite list_lookup_insert_eq by by eapply lookup_lt_Some. eexists. split; [done|].
    rewrite Hi in Hj. injection Hj as ->. cbn.
    destruct (serve_one_extends _ _ _ _ _ Hserve) as [more Hmore]. cbn in Hmore. rewrite Hmore.
    rewrite take_app_add. by apply prefix_app_r. }
  destruct (IH _ _ Hi1) as (c' & Hi' & Hp'). exists c'. split; [done|]. by etrans.
Qed.

(** ** How long a connection can last *)

(** The turns a client's task has before it. *)
Definition turns_left (s : Listening) (i : nat) : nat :=
  match ls_clients s !! i with
  | Some (mkClient _ input _ None) => 1 + length input
  | _ => 0
  end.
Definition is_turn (i : nat) (e : Event) : bool :=
  match e with Turn j _ => bool_decide (i = j) | _ => false end.

Lemma listen_step_turns t e s s' i :
  (i < length (ls_clients s))%nat → listen_step t e s = Some s' →
  (i < length (ls_clients s'))%nat ∧
  ((if is_turn i e then 1 else 0) + turns_left s' i ≤ turns_left s i)%nat.
Proof.
  intros Hi. destruct e as [sent|e| |j writable|f]; cbn.
  - destruct (ls_accepting s); [|done]. intros [= <-]. unfold turns_left. cbn.
    rewrite length_app, lookup_app_l by done. cbn. lia.
  - destruct (ls_accepting s); [|done]. by intros [= <-].
  - destruct (ls_accepting s && t); [|done]. by intros [= <-].
  - destruct (ls_clients s !! j) as [[sent input output [|]]|] eqn:Hj; [done| |done].
    destruct (serve_one _ _ _) as [c ended] eqn:Hserve. intros [= <-].
    unfold turns_left. cbn [ls_clients]. rewrite length_insert. split; [done|].
    case_bool_decide as Hij; [subst j|by rewrite list_lookup_insert_ne by congruence].
    rewrite list_lookup_insert_eq, Hj by done. destruct ended; [lia|].
    apply serve_one_consumes in Hserve. cbn in Hserve. lia.
  - by intros [= <-].
Qed.

Lemma listen_steps_turns t es s s' i :
  (i < length (ls_clients s))%nat → listen_steps t es s = Some s' →
  (length (filter (is_turn i) es) + turns_left s' i ≤ turns_left s i)%nat.
Proof.
  revert s. induction es as [|e es IH]; intros s Hi; cbn [listen_steps]; [intros [= <-]; cbn; lia|].
  destruct (listen_step t e s) as [s1|] eqn:Hstep; [|done].
  destruct (listen_step_turns _ _ _ _ _ Hi Hstep) as [Hi' Hle]. intros Hr.
  specialize (IH _ Hi' Hr). rewrite filter_cons. destruct (is_turn i e) eqn:He.
  - rewrite decide_True by done. cbn. lia.
  - rewrite decide_False by (by intros ?). lia.
Qed.

(** C35: a connection that was taken is served to its end whatever happens to
    the listener and on the other connections: as long as its task has not
    ended it can take a turn, and in every interleaving it takes at most one
    more turn than the bytes it has to read. *)
Theorem connections_are_served_to_their_end t s i c :
  ls_clients s !! i = Some c → cl_ended c = None →
  (∀ writable, is_Some (listen_step t (Turn i writable) s)) ∧
  ∀ es s', listen_steps t es s = Some s' →
    (length (filter (is_turn i) es) ≤ 1 + length (cl_input c))%nat.
Proof.
  intros Hi Hend. destruct c as [sent input output ended]. cbn in *. subst ended. split.
  - intros writable. cbn. rewrite Hi. destruct (serve_one _ _ _). by eexists.
  - intros es s' Hr. apply (listen_steps_turns _ _ _ _ i) in Hr; [|by eapply lookup_lt_Some].
    unfold turns_left in Hr at 2. rewrite Hi in Hr. lia.
Qed.
End Socket.

(** ** The socket of the agent *)

Section AgentSocket.
Context `{SshCerts, !Yubikeys, Zstd, Hex, AgentEnv, AgentToml, MapOrder} {N : Type} `{!Rpc N}.
Implicit Types (self : Handler) (s : Listening (S := HandlerState N)).

(** Before the first connection. *)
Lemma listen_served self h s :
  handler_wf h → listen true h = Ret s → served (handler self) handler_wf s.
Proof. intros Hwf [= <-]. by split; [|constructor]. Qed.

Lemma handle_request_keeps_wf self q (h : HandlerState N) :
  handler_wf h → handler_wf (handle_request (handler self) q h).1.
Proof. apply handle_request_keeps. Qed.

(** Another holder of the handler: [ffi_get_certificate]. *)
Definition library_event self (e : Event (S := HandlerState N)) : Prop :=
  match e with
  | Called f => ∃ fetch, ∀ h, f h = (get_certificate_async self fetch h).1
  | _ => True
  end.
Lemma library_event_keeps self e : library_event self e → keeps handler_wf e.
Proof.
  destruct e; try done. intros [fetch Hf] h Hwf. rewrite Hf.
  by apply (get_certificate_keeps self fetch).
Qed.

(** Whatever clients connect and however their requests interleave, with each
    other and with calls of the library: the state stays in order, and on every
    connection the bytes written are the answers to the requests read, one each
    and in order, where every answer to a request to sign is a signature of the
    data by the key the request asked for. *)
Definition serves_its_clients self s : Prop :=
  ∀ t es s' i c, Forall (library_event self) es → listen_steps (handler self) t es s = Some s' →
  ls_clients s' !! i = Some c →
  handler_wf (ls_handler s') ∧
  ∃ qs ps rs rest, Forall2 encodes qs ps ∧ length rs = length qs ∧
    cl_sent c = mjoin (frame_of <$> ps) ++ rest ∧
    cl_output c = mjoin (response_write <$> rs) ∧
    ∀ n blob data flags, qs !! n = Some (QSign blob data flags) →
      ∃ (h1 : HandlerState N) sig, handler_wf h1 ∧ signed_by self h1 blob data sig ∧
        rs !! n = Some (RSignResponse sig).

Lemma served_serves_its_clients self s :
  served (handler self) handler_wf s → serves_its_clients self s.
Proof.
  intros Hserved t es s' i c Hes Hsteps Hi.
  destruct (listen_steps_served (handler self) handler_wf t es s s') as [Hwf' Hconv];
    [intros; by apply handle_request_keeps_wf
    |by eapply Forall_impl; [|apply library_event_keeps]|done..|].
  split; [done|]. pose proof (Forall_lookup_1 _ _ _ _ Hconv Hi) as Hc.
  destruct Hc as (qs & ps & rs & rest & Hq & Hr & Hsent & Hout & _).
  exists qs, ps, rs, rest. split; [done|].
  split; [by symmetry; eapply Forall2_length|]. do 2 (split; [done|]).
  intros n blob data flags Hn.
  destruct (Forall2_lookup_l _ _ _ _ _ Hr Hn) as (r & Hrn & h1 & h2 & Hh1 & Hreq).
  destruct (signatures_are_by_the_key_asked_for _ _ _ flags _ _ _ Hh1 Hreq)
    as (sig & -> & Hsig).
  by exists h1, sig.
Qed.
End AgentSocket.
