(* ===== verification/Shell.v ===== *)
(** * The agent: the process around the library

    What the command line program and the foreign function interface of the
    agent do to the machine they run on, besides calling the library: files with
    their modes, the key files and the FIDO devices.  Standard output is shared
    with the library, which prints too: it is the [ag_out] of its world.  Log
    macros ([error!], [debug!]) are left out. *)
From Stdlib Require Import ZArith Lia.
From S2P Require Import Prelude Machine Text Deps Proto AgentConfig AgentClient.

Record File : Type := mkFile { file_contents : string; file_mode : Z }.

(** ** The system and the key files *)

Class Shell `{SshCerts} := {
  (** the error of the n-th call of the file system or the runtime, if it fails *)
  io_fault : nat → option string;
  (** what of a text the n-th call wrote before it failed *)
  io_written : nat → string → string;
  (** the mode a new file gets: [0o666] less the umask *)
  default_file_mode : Z;
  (** [std::env::temp_dir()] with a name pushed, and [std::process::id()] *)
  temp_path : string → string;
  process_id : Z;
  (** the paths in a directory, each or its error *)
  dir_entries : string → list (result string string);
  sk_from_path : string → result string PrivateKey;
  pk_from_path : string → result string PublicKey;
  (** [set_device_path], [set_pin] and the text [write] writes *)
  sk_set_device_path : string → PrivateKey → PrivateKey;
  sk_set_pin : string → PrivateKey → PrivateKey;
  sk_write : PrivateKey → string;
}.

(** The setters do not change the key. *)
Class ShellLaws `{Shell} : Prop := {
  sk_set_device_path_pubkey p k : pubkey (sk_set_device_path p k) = pubkey k;
  sk_set_pin_pubkey p k : pubkey (sk_set_pin p k) = pubkey k;
}.

(** ** FIDO devices *)

(** The errors of sshcerts the program tells apart. *)
Inductive SSHCertsError : Type :=
| FidoInvalidPin (attempts : option Z)
| FidoKeyLocked
| FidoKeyBlocked
| FidoPinRequired
| OtherSshError (e : string).

Record FidoAttestation : Type := {
  fa_auth_data : bytes;
  fa_auth_data_sig : bytes;
  fa_intermediate : bytes;
  fa_challenge : bytes;
  fa_alg : Z;
}.
Record FidoSSHKey `{SshCerts} : Type := {
  fk_private_key : PrivateKey;
  fk_attestation : FidoAttestation;
}.
Record FidoDeviceDescriptor : Type := { fd_path : string; fd_product_string : string }.

Class Fido `{SshCerts} := {
  (** [generate_new_ssh_key(application, comment, pin, device)] *)
  generate_new_ssh_key : string → string → option string → option string → nat →
    result SSHCertsError FidoSSHKey;
  list_fido_devices : nat → list FidoDeviceDescriptor;
  device_requires_pin : string → nat → result string bool;
  device_pin_retries : string → nat → result string Z;
}.

(** The attestation as it is sent. *)
Definition u2f_attestation (a : FidoAttestation) : AgentU2FAttestation :=
  {| au_auth_data := fa_auth_data a; au_auth_data_sig := fa_auth_data_sig a;
     au_intermediate := fa_intermediate a; au_challenge := fa_challenge a;
     au_alg := fa_alg a |}.

(** ** The state of the process *)

Record ShellWorld (N : Type) : Type := mkShell {
  sh_agent : AgentWorld N;
  sh_files : gmap string File;
  sh_io : nat;
}.
Arguments mkShell {_}.
Arguments sh_agent {_} _.
Arguments sh_files {_} _.
Arguments sh_io {_} _.

(** Standard output, which the library writes to as well. *)
Definition sh_out {N} (s : ShellWorld N) : list string := ag_out (sh_agent s).

Section ShellEffects.
Context `{Shell} {N : Type}.

#[local] Abbreviation shell_st := (st (ShellWorld N)).

(** A call of the agent's library. *)
Definition in_agent {E A} (m : st (AgentWorld N) E A) : shell_st E A := λ s,
  let '(a, r) := m (sh_agent s) in (mkShell a (sh_files s) (sh_io s), r).

(** [println!]. *)
Definition println {E} (l : string) : shell_st E () := in_agent (agent_println l).

(** A call of the system; [None] when it worked. *)
Definition io_call {E} : shell_st E (option string) := λ s,
  (mkShell (sh_agent s) (sh_files s) (S (sh_io s)), Ret (io_fault (sh_io s))).

(** [Runtime::new()]. *)
Definition runtime_new {E} : shell_st E bool :=
  fault ← io_call; mret (bool_decide (fault = None)).

Definition set_files {E} (f : gmap string File → gmap string File) : shell_st E () :=
  modify (λ s, mkShell (sh_agent s) (f (sh_files s)) (sh_io s)).

(** [File::create]: an existing file is emptied and keeps its mode. *)
Definition file_create (path : string) : shell_st string () :=
  fault ← io_call;
  match fault with
  | Some e => throw e
  | None => set_files (λ m, <[path := mkFile "" match m !! path with
      | Some f => file_mode f | None => default_file_mode end]> m)
  end.

(** [write_all] to an open file: when it fails, a part may be written. *)
Definition file_append {E} (path text : string) : shell_st E () :=
  set_files (alter (λ f, mkFile (file_contents f +:+ text) (file_mode f)) path).
Definition file_write (path text : string) : shell_st string () :=
  s ← get;
  fault ← io_call;
  match fault with
  | Some e => file_append path (io_written (sh_io s) text);; throw e
  | None => file_append path text
  end.

(** [metadata()] of an open file: did it work. *)
Definition file_metadata {E} : shell_st E bool :=
  fault ← io_call; mret (bool_decide (fault = None)).

(** [std::fs::remove_file]. *)
Definition remove_file (path : string) : shell_st string () :=
  fault ← io_call;
  match fault with
  | Some e => throw e
  | None =>
      s ← get;
      match sh_files s !! path with
      | Some _ => set_files (delete path)
      | None => throw "No such file or directory (os error 2)"
      end
  end.

(** [std::fs::read_dir]. *)
Definition read_dir (path : string) : shell_st string (list (result string string)) :=
  fault ← io_call;
  match fault with Some e => throw e | None => mret (dir_entries path) end.

(** [std::fs::read_to_string]. *)
Definition read_to_string (path : string) : shell_st string string :=
  fault ← io_call;
  match fault with
  | Some e => throw e
  | None =>
      s ← get;
      match sh_files s !! path with
      | Some f => of_option "stream did not contain valid UTF-8" (from_utf8 (as_bytes (file_contents f)))
      | None => throw "No such file or directory (os error 2)"
      end
  end.
End ShellEffects.

Section ShellLemmas.
Context `{Shell} {N : Type}.
Implicit Types s : ShellWorld N.

Lemma in_agent_Ret {E A} (m : st (AgentWorld N) E A) s s' x :
  in_agent m s = (s', Ret x) ↔
  ∃ a, m (sh_agent s) = (a, Ret x) ∧ s' = mkShell a (sh_files s) (sh_io s).
Proof. unfold in_agent. destruct (m (sh_agent s)). naive_solver. Qed.
Lemma println_Ret {E} l s s' u :
  (println l : st _ E ()) s = (s', Ret u) ↔
    s' = mkShell (printing [l] (sh_agent s)) (sh_files s) (sh_io s).
Proof. unfold println, in_agent, agent_println, modify, printing. destruct u. cbn. naive_solver. Qed.
Lemma io_call_Ret {E} s s' x :
  (io_call : st _ E _) s = (s', Ret x) ↔
    s' = mkShell (sh_agent s) (sh_files s) (S (sh_io s)) ∧ x = io_fault (sh_io s).
Proof. unfold io_call. naive_solver. Qed.
Lemma in_agent_run {E A} (m : st (AgentWorld N) E A) s s' r :
  in_agent m s = (s', r) →
  ∃ a, m (sh_agent s) = (a, r) ∧ s' = mkShell a (sh_files s) (sh_io s).
Proof. unfold in_agent. destruct (m (sh_agent s)) as [a o]. intros [= <- <-]. by exists a. Qed.

(** [s'] differs from [s] in its files only, and only in the file [p]. *)
Definition touches (p : string) s s' : Prop :=
  sh_agent s' = sh_agent s ∧ sh_out s' = sh_out s ∧
  ∀ q, q ≠ p → sh_files s' !! q = sh_files s !! q.
#[export] Instance touches_preorder p : PreOrder (touches p).
Proof.
  split; [by intros s|]. intros s1 s2 s3 (? & ? & Ha) (? & ? & Hb).
  split_and!; [congruence|congruence|]. intros q Hq. by rewrite Hb, Ha.
Qed.

(** The file as [File::create] leaves it. *)
Definition emptied s (p : string) : File :=
  mkFile "" match sh_files s !! p with Some f => file_mode f | None => default_file_mode end.

Lemma file_create_run p s s' r :
  file_create p s = (s', r) → touches p s s' ∧
  match r with
  | Ret _ => sh_files s' !! p = Some (emptied s p)
  | Raise _ => sh_files s' = sh_files s
  | Panic => False
  end.
Proof.
  unfold file_create, set_files, io_call. st_unfold. cbn.
  destruct (io_fault (sh_io s)); intros [= <- <-]; (split; [split_and!; [done..|]|]); cbn; try done.
  - intros q Hq. by rewrite lookup_insert_ne.
  - by rewrite lookup_insert_eq.
Qed.

Lemma file_write_run p text s s' r f :
  sh_files s !! p = Some f → file_write p text s = (s', r) → touches p s s' ∧
  match r with
  | Ret _ => sh_files s' !! p = Some (mkFile (file_contents f +:+ text) (file_mode f))
  | Raise e => io_fault (sh_io s) = Some e ∧ sh_io s' = S (sh_io s) ∧ is_Some (sh_files s' !! p)
  | Panic => False
  end.
Proof.
  intros Hf. unfold file_write, file_append, set_files, io_call. st_unfold. cbn.
  destruct (io_fault (sh_io s)); intros [= <- <-]; (split; [split_and!; [done..|]|]); cbn; try done.
  1,3: intros q Hq; by rewrite lookup_alter_ne.
  all: rewrite lookup_alter_eq, Hf; by eauto.
Qed.

Lemma remove_file_run p s s' r :
  remove_file p s = (s', r) → touches p s s' ∧
  match r with
  | Ret _ => sh_files s' !! p = None
  | Raise _ => sh_files s' = sh_files s ∧
      (is_Some (io_fault (sh_io s)) ∨ sh_files s !! p = None)
  | Panic => False
  end.
Proof.
  unfold remove_file, set_files, io_call. st_unfold. cbn.
  destruct (io_fault (sh_io s)) eqn:Hio; cbn; [|case_match eqn:Hp; cbn]; intros [= <- <-].
  all: (split; [split_and!; [done..|]|]); cbn; try (by eauto).
  - intros q Hq. by rewrite lookup_delete_ne.
  - by rewrite lookup_delete_eq.
Qed.
End ShellLemmas.

#[export] Hint Rewrite @println_Ret @io_call_Ret : st_inv.
