(* ===== verification/Cli.v ===== *)
(** * The command line of the agent: arguments and keys

    [rustica-agent-cli/src/config/mod.rs]: the arguments every subcommand
    declares, and what is read of them.  The parser is the crate clap: an
    [ArgMatches] is what it found, [matches_ok] is what it promises for the
    arguments a command declares, and the class [Clap] is its lookup of a
    subcommand, with what it promises of names that are declared and of names
    that are not. *)
From Stdlib Require Import ZArith Lia.
From S2P Require Import Prelude Machine Text Deps Proto AgentProtocol AgentConfig AgentClient.
From S2P Require Import AgentHandler Shell.

(** ** clap *)

(** [Arg], without its help text. *)
Record Arg : Type := mkArg {
  arg_id : string;
  arg_long : option string;
  arg_short : option ascii;
  arg_takes_value : bool;
  arg_required : bool;
  arg_default : option string;
  arg_possible : list string;
  (** [validator] and [value_parser]: does the text pass; a validator may panic *)
  arg_validator : option (string → outcome string ());
  arg_requires : option string;
}.

(** [Arg::new(id).long(..).takes_value(..)], and what is added to it. *)
Definition arg (id : string) (long : option string) (short : option ascii) (value : bool) : Arg :=
  mkArg id long short value false None [] None None.
Definition required (a : Arg) : Arg :=
  mkArg (arg_id a) (arg_long a) (arg_short a) (arg_takes_value a) true (arg_default a)
    (arg_possible a) (arg_validator a) (arg_requires a).
Definition default_value (v : string) (a : Arg) : Arg :=
  mkArg (arg_id a) (arg_long a) (arg_short a) true (arg_required a) (Some v)
    (arg_possible a) (arg_validator a) (arg_requires a).
Definition possible_values (l : list string) (a : Arg) : Arg :=
  mkArg (arg_id a) (arg_long a) (arg_short a) (arg_takes_value a) (arg_required a)
    (arg_default a) l (arg_validator a) (arg_requires a).
Definition validator (f : string → outcome string ()) (a : Arg) : Arg :=
  mkArg (arg_id a) (arg_long a) (arg_short a) (arg_takes_value a) (arg_required a)
    (arg_default a) (arg_possible a) (Some f) (arg_requires a).
Definition requires (id : string) (a : Arg) : Arg :=
  mkArg (arg_id a) (arg_long a) (arg_short a) (arg_takes_value a) (arg_required a)
    (arg_default a) (arg_possible a) (arg_validator a) (Some id).

Record Command : Type := mkCommand { cmd_name : string; cmd_args : list Arg }.
Definition add_args (l : list Arg) (c : Command) : Command :=
  mkCommand (cmd_name c) (cmd_args c ++ l).

(** What was given on the command line, defaults included. *)
Record ArgMatches : Type := mkMatches {
  am_values : gmap string string;
  am_flags : gset string;
}.
Definition value_of (id : string) (m : ArgMatches) : option string := am_values m !! id.
Definition is_present (id : string) (m : ArgMatches) : bool :=
  bool_decide (id ∈ am_flags m ∨ is_Some (am_values m !! id)).

(** [ArgMatches::subcommand_matches]: for the declared subcommands, what was
    found on the command line and the name that is asked for, the matches or
    none; the outer [None] is a panic. *)
Class Clap := {
  subcommand_matches :
    list string → option (string * ArgMatches) → string → option (option ArgMatches);
}.

(** A declared subcommand has matches when it was found; asking for a name that
    is not declared never has any, and is an error that a build with debug
    assertions may stop at. *)
Class ClapLaws `{Clap} : Prop := {
  declared_subcommand names found name :
    name ∈ names → subcommand_matches names found name = Some (match found with
      | Some (n, m) => if decide (n = name) then Some m else None
      | None => None
      end);
  undeclared_subcommand names found name :
    name ∉ names → (∀ n m, found = Some (n, m) → n ∈ names) →
    subcommand_matches names found name = Some None ∨ subcommand_matches names found name = None;
}.

(** What clap promises of one argument. *)
Definition arg_ok (m : ArgMatches) (a : Arg) : Prop :=
  (arg_required a = true ∨ is_Some (arg_default a) → is_Some (value_of (arg_id a) m)) ∧
  ∀ v, value_of (arg_id a) m = Some v →
    (arg_possible a ≠ [] → v ∈ arg_possible a) ∧
    match arg_validator a with Some f => f v = Ret () | None => True end ∧
    match arg_requires a with Some id => is_Some (value_of id m) | None => True end.
Definition matches_ok (c : Command) (m : ArgMatches) : Prop := Forall (arg_ok m) (cmd_args c).

(** ** Errors *)

(** [multimode::Error]. *)
Inductive MultiModeError : Type :=
| NoCertificateKey
| NoKeyDir
| BadKeyDir (e : string)
| CertificateIsUnknownKey (fp : string)
| UnknownPublicKey (fp : string)
| RusticaAgentError (e : RusticaAgentLibraryError).

Inductive ConfigurationError : Type :=
| BadConfigurationFile (e : RusticaAgentLibraryError)
| BadSlot
| CannotAttestFileBasedKey
| CannotProvisionFile
| CannotReadFile (e : string)
| MissingSSHKey
| CliParsingError
| YubikeyManagementKeyInvalid
| YubikeyNoKeypairFound
| InvalidFidoKeyName
| MultiModeErrorOf (e : MultiModeError)
| NoMode
| YubikeyError (e : string)
| UnableToDetermineKey.

Section Cli.
Context `{SshCerts, !Yubikeys, !Shell, Zstd, Hex, AgentEnv, AgentToml} {N : Type}.

#[local] Abbreviation cli_st := (st (ShellWorld N) ConfigurationError).

(** ** The arguments that commands share *)

Definition new_run_agent_subcommand (name : string) : Command :=
  mkCommand name [default_value "/etc/rustica/config.toml" (arg "config" (Some "config") None true)].

Definition add_request_options : Command → Command := add_args
  [possible_values ["user"; "host"] (arg "kind" (Some "kind") (Some "k"%char) true);
   arg "duration" (Some "duration") (Some "d"%char) true;
   arg "principals" None (Some "n"%char) true;
   arg "authority" (Some "authority") None true].

Definition add_daemon_options : Command → Command := add_args
  [arg "certificate-priority" (Some "priority") None false;
   arg "socket" (Some "socket") None true].

(** The argument for a slot, a file and a FIDO device. *)
Definition slot_arg : Arg := validator slot_validator (arg "slot" (Some "slot") (Some "s"%char) true).
Definition file_arg : Arg := arg "file" (Some "file") (Some "f"%char) true.
Definition fido_arg : Arg := arg "fido-device-path" (Some "fido") None true.
Definition pin_env_arg : Arg :=
  default_value "YK_PIN" (arg "pin-env" (Some "pinenv") (Some "p"%char) true).
Definition management_key_arg : Arg :=
  default_value "010203040506070801020304050607080102030405060708"
    (arg "management-key" (Some "mgmkey") (Some "m"%char) true).

(** ** What is read of them *)

(** A Yubikey, the first one found, at the slot a text names. *)
Definition yubikey_at (slot : string) : cli_st Signatory :=
  slot ← of_outcome (slot_parser slot);
  match slot with
  | Some s => yk ← in_agent (device yk_new) ≫= unwrap; mret (SYubikey s yk)
  | None => throw BadSlot
  end.

Definition get_signatory (cmd_slot config_slot file config_key : option string)
    : cli_st Signatory :=
  match cmd_slot, config_slot, file, config_key with
  | Some slot, _, _, _ => yubikey_at slot
  | _, _, Some file, _ =>
      match sk_from_path file with
      | Ok p => mret (SDirect p)
      | Err e => throw (CannotReadFile (e +:+ ": " +:+ file))
      end
  | _, Some slot, _, _ => yubikey_at slot
  | _, _, _, Some key_string =>
      match sk_from_string key_string with
      | Some p => mret (SDirect p)
      | None => throw CliParsingError
      end
  | None, None, None, None => throw MissingSSHKey
  end.

Definition parse_config_from_args (m : ArgMatches) : cli_st UpdatableConfiguration :=
  path ← unwrap (value_of "config" m);
  match updatable_new path with
  | Ok c => mret c
  | Err e => throw (BadConfigurationFile e)
  end.

Definition parse_certificate_config_from_args (m : ArgMatches) (config : Config)
    : CertificateConfig :=
  let o := certificate_config_from (cfg_options config) in
  {| cc_principals :=
       match value_of "principals" m with
       | Some principals => split ","%char principals
       | None => cc_principals o
       end;
     cc_hosts := cc_hosts o;
     cc_cert_type :=
       match value_of "kind" m with
       | Some kind => default User (cert_type_try_from kind)
       | None => cc_cert_type o
       end;
     cc_duration :=
       match value_of "duration" m with
       | Some duration => default 10 (parse_u64 duration)
       | None => cc_duration o
       end;
     cc_authority :=
       match value_of "authority" m with
       | Some authority => authority
       | None => cc_authority o
       end |}.

Definition parse_socket_path_from_args (m : ArgMatches) (config : Config) : string :=
  match value_of "socket" m, cfg_socket config with
  | Some socket, _ => socket
  | _, Some socket => socket
  | None, None => temp_path ("rustica." +:+ int_to_string process_id)
  end.

(** The value of an environment variable that an argument names. *)
Definition env_named (id : string) (m : ArgMatches) : cli_st (option string) :=
  pin_env ← unwrap (value_of id m);
  mret (env_var pin_env).

(** A management key in hex. *)
Definition management_key_of (m : ArgMatches) : cli_st bytes :=
  key ← unwrap (value_of "management-key" m);
  of_option YubikeyManagementKeyInvalid (hex_decode key).
End Cli.
