(* ===== verification/CliModes.v ===== *)
(** * The command line of the agent: its modes

    [configure] of [rustica-agent-cli/src/config/mod.rs] and the files beside
    it, one for each subcommand: what it declares and what it makes of the
    arguments. *)
From Stdlib Require Import ZArith Lia.
From S2P Require Import Prelude Machine Text Deps Proto AgentProtocol AgentConfig AgentClient.
From S2P Require Import AgentHandler Shell Cli.

(** ** What is to be done *)

(** A handler before its first request: no certificate is cached. *)
Record RunConfig `{Yubikeys} : Type := {
  rn_socket_path : string;
  rn_pubkey : PublicKey;
  rn_handler : Handler;
  rn_configuration : UpdatableConfiguration;
  rn_identities : gmap bytes PrivateKey;
}.
Definition start_handler `{Yubikeys} {N} (c : RunConfig) (a : AgentWorld N) : HandlerState N :=
  mkHandlerState (rn_configuration c) None 0 (rn_identities c) a.

Record ImmediateConfig `{Yubikeys} : Type := {
  im_updatable_configuration : UpdatableConfiguration;
  im_certificate_options : CertificateConfig;
  im_signatory : Signatory;
  im_out : option string;
}.
Record ProvisionPIVConfig `{Yubikeys} : Type := {
  pv_slot : SlotId;
  pv_yubikey : Yubikey;
  pv_pin : string;
  pv_management_key : bytes;
  pv_require_touch : bool;
  pv_pin_policy : YkPinPolicy;
  pv_subject : string;
}.
Record RegisterConfig `{Yubikeys} : Type := {
  rg_updatable_configuration : UpdatableConfiguration;
  rg_signatory : Signatory;
  rg_attestation : AgentPIVAttestation;
}.
Variant SKType := SKEd25519 | SKEcdsa.
Record ProvisionAndRegisterFidoConfig : Type := {
  pf_updatable_configuration : UpdatableConfiguration;
  pf_app_name : string;
  pf_comment : string;
  pf_key_type : SKType;
  pf_pin : option string;
  pf_out : option string;
}.
Record RefreshAttestedX509Config `{Yubikeys} : Type := {
  rx_updatable_configuration : UpdatableConfiguration;
  rx_signatory : Signatory;
  rx_pin : string;
  rx_management_key : bytes;
}.

Inductive RusticaAgentAction `{Yubikeys} : Type :=
| Run (c : RunConfig)
| Immediate (c : ImmediateConfig)
| ProvisionPIV (c : ProvisionPIVConfig)
| Register (c : RegisterConfig)
| ProvisionAndRegisterFido (c : ProvisionAndRegisterFidoConfig)
| ListPIVKeys (show_full : bool)
| ListFidoDevices
| GitConfig (pk : PublicKey)
| RefreshAttestedX509 (c : RefreshAttestedX509Config)
| GetAllowedSigners (c : UpdatableConfiguration).

Section Modes.
Context `{SshCerts, !Yubikeys, !Shell, Zstd, Hex, AgentEnv, AgentToml, MapOrder, !Clap} {N : Type}.

#[local] Abbreviation cli_st := (st (ShellWorld N) ConfigurationError).

(** ** single *)

Definition configure_singlemode (m : ArgMatches) : cli_st RusticaAgentAction :=
  updatable_configuration ← parse_config_from_args m;
  let config := uc_configuration updatable_configuration in
  let certificate_options := parse_certificate_config_from_args m config in
  let socket_path := parse_socket_path_from_args m config in
  signatory ← get_signatory (value_of "slot" m) (cfg_slot config) (value_of "file" m) (cfg_key config);
  '(signatory, pubkey) ←
    match signatory with
    | SYubikey slot yk =>
        cert ← in_agent (device (yk_fetch_pubkey yk slot));
        cert ← of_option YubikeyNoKeypairFound cert;
        mret (SYubikey slot yk, cert)
    | SDirect privkey =>
        let privkey := match value_of "fido-device-path" m with
          | Some path => sk_set_device_path path privkey | None => privkey end in
        mret (SDirect privkey, pubkey privkey)
    end;
  mret (Run
    {| rn_socket_path := socket_path;
       rn_pubkey := pubkey;
       rn_handler :=
         {| ha_pubkey := pubkey;
            ha_signatory := signatory;
            ha_certificate_options := certificate_options;
            ha_piv_identities := ∅;
            ha_notification_function := true;
            ha_certificate_priority := is_present "certificate-priority" m |};
       rn_configuration := updatable_configuration;
       rn_identities := ∅ |}).

Definition singlemode_command : Command :=
  add_args [slot_arg; file_arg; fido_arg]
    (add_request_options (add_daemon_options (new_run_agent_subcommand "single"))).

(** ** multi *)

(** The keys of a directory: [.pub] files are public keys, the others private
    ones; what does not parse is reported and left out. *)
Fixpoint keys_of_entries {E} (entries : list (result string string))
    : st (ShellWorld N) E (list PublicKey * list PrivateKey) :=
  match entries with
  | [] => mret ([], [])
  | Err e :: entries => println ("Error: " +:+ e);; keys_of_entries entries
  | Ok path :: entries =>
      if ends_with ".pub" path then
        match pk_from_path path with
        | Ok key => '(pks, sks) ← keys_of_entries entries; mret (key :: pks, sks)
        | Err e => println ("Error for " +:+ path +:+ ": " +:+ e);; keys_of_entries entries
        end
      else
        match sk_from_path path with
        | Ok key => '(pks, sks) ← keys_of_entries entries; mret (pks, key :: sks)
        | Err e => println ("Error for " +:+ path +:+ ": " +:+ e);; keys_of_entries entries
        end
  end.

Definition get_keys_from_dir (directory : string)
    : st (ShellWorld N) MultiModeError (list PublicKey * list PrivateKey) :=
  entries ← map_err BadKeyDir (read_dir directory);
  '(public_keys, private_keys) ← keys_of_entries entries;
  println ("Loaded: " +:+ int_to_string (vec_len public_keys) +:+ " public keys, and " +:+
    int_to_string (vec_len private_keys) +:+ " private keys");;
  mret (public_keys, private_keys).

(** The loop of [validate_public_keys]: a key is taken out of the devices' keys
    when it is found, so it is found once. *)
Fixpoint take_keys (public_keys : list PublicKey)
    (all_keys key_map : gmap bytes YubikeyPIVKeyDescriptor)
    : result MultiModeError (gmap bytes YubikeyPIVKeyDescriptor) :=
  match public_keys with
  | [] => Ok key_map
  | public_key :: public_keys =>
      let encoded := pk_encode public_key in
      match all_keys !! encoded with
      | Some key => take_keys public_keys (delete encoded all_keys) (<[encoded := key]> key_map)
      | None => Err (UnknownPublicKey (pk_hash public_key))
      end
  end.

Definition validate_public_keys (public_keys : list PublicKey)
    : st (ShellWorld N) MultiModeError (gmap bytes YubikeyPIVKeyDescriptor) :=
  all_keys ← map_err RusticaAgentError (in_agent get_all_piv_keys);
  of_result (take_keys public_keys all_keys ∅).

(** The loops of multi mode's [get_signatory]. *)
Fixpoint signatory_of_piv (certificate_fingerprint : string)
    (l : list (bytes * YubikeyPIVKeyDescriptor))
    : st (ShellWorld N) MultiModeError (option (PublicKey * Signatory)) :=
  match l with
  | [] => mret None
  | (key, des) :: l =>
      key ← unwrap (pk_from_bytes key);
      if decide (certificate_fingerprint = pk_hash key) then
        yk ← in_agent (device (yk_open (pd_serial des))) ≫= unwrap;
        mret (Some (pd_public_key des, SYubikey (pd_slot des) yk))
      else signatory_of_piv certificate_fingerprint l
  end.
Definition signatory_of_keys (certificate_fingerprint : string) (private_keys : list PrivateKey)
    : option (PublicKey * Signatory) :=
  (λ k, (pubkey k, SDirect k)) <$>
    head (filter (λ k, certificate_fingerprint = pk_hash (pubkey k)) private_keys).

Definition multimode_get_signatory (certificate_fingerprint : string)
    (public_keys : gmap bytes YubikeyPIVKeyDescriptor) (private_keys : list PrivateKey)
    : st (ShellWorld N) MultiModeError (PublicKey * Signatory) :=
  found ← signatory_of_piv certificate_fingerprint (iterate public_keys);
  match found with
  | Some found => mret found
  | None =>
      of_option (CertificateIsUnknownKey certificate_fingerprint)
        (signatory_of_keys certificate_fingerprint private_keys)
  end.

(** [collect] of keys into a map: a later one replaces an earlier one. *)
Definition by_encoding (l : list PrivateKey) : gmap bytes PrivateKey :=
  foldl (λ m k, <[pk_encode (pubkey k) := k]> m) ∅ l.

Definition configure_multimode (m : ArgMatches) : cli_st RusticaAgentAction :=
  updatable_configuration ← parse_config_from_args m;
  let config := uc_configuration updatable_configuration in
  let certificate_options := parse_certificate_config_from_args m config in
  let socket_path := parse_socket_path_from_args m config in
  certificate_fingerprint ← of_option (MultiModeErrorOf NoCertificateKey) (value_of "cert-for" m);
  key_dir ← of_option (MultiModeErrorOf NoKeyDir) (value_of "key-dir" m);
  '(public_keys, private_keys) ← map_err MultiModeErrorOf (get_keys_from_dir key_dir);
  key_map ← map_err MultiModeErrorOf (validate_public_keys public_keys);
  '(pubkey, signatory) ← map_err MultiModeErrorOf
    (multimode_get_signatory certificate_fingerprint key_map private_keys);
  let private_keys := match value_of "fido-device-path" m with
    | Some path => sk_set_device_path path <$> private_keys | None => private_keys end in
  let private_keys := by_encoding private_keys in
  println ("Loaded " +:+ int_to_string (vec_len public_keys + Z.of_nat (size private_keys)) +:+
    " keys");;
  let private_keys := delete (pk_encode pubkey) private_keys in
  let key_map := delete (pk_encode pubkey) key_map in
  mret (Run
    {| rn_socket_path := socket_path;
       rn_pubkey := pubkey;
       rn_handler :=
         {| ha_pubkey := pubkey;
            ha_signatory := signatory;
            ha_certificate_options := certificate_options;
            ha_piv_identities := key_map;
            ha_notification_function := false;
            ha_certificate_priority := is_present "certificate-priority" m |};
       rn_configuration := updatable_configuration;
       rn_identities := private_keys |}).

Definition multimode_command : Command :=
  add_args
    [required (arg "key-dir" (Some "dir") None true);
     required (arg "cert-for" (Some "certfor") None true);
     fido_arg]
    (add_request_options (add_daemon_options (new_run_agent_subcommand "multi"))).
(** ** immediate *)

Definition configure_immediate (m : ArgMatches) : cli_st RusticaAgentAction :=
  updatable_configuration ← parse_config_from_args m;
  let config := uc_configuration updatable_configuration in
  let certificate_options := parse_certificate_config_from_args m config in
  signatory ← get_signatory (value_of "slot" m) (cfg_slot config) (value_of "file" m) (cfg_key config);
  mret (Immediate
    {| im_updatable_configuration := updatable_configuration;
       im_certificate_options := certificate_options;
       im_signatory := signatory;
       im_out := value_of "out" m |}).

Definition immediate_command : Command :=
  add_args [arg "out" (Some "out") (Some "o"%char) true; slot_arg; file_arg]
    (add_request_options (new_run_agent_subcommand "immediate")).

(** ** provision-piv *)

Definition pin_policy_parser (policy : string) : result string YkPinPolicy :=
  if decide (policy = "always" ∨ policy = "a") then Ok PinPolicyAlways
  else if decide (policy = "once" ∨ policy = "o") then Ok PinPolicyOnce
  else if decide (policy = "never" ∨ policy = "n") then Ok PinPolicyNever
  else Err (policy +:+ " is not a policy for pin I understand").

(** [get_one("pin-policy")]: the value as its parser read it. *)
Definition pin_policy_of (m : ArgMatches) : option YkPinPolicy :=
  policy ← value_of "pin-policy" m;
  match pin_policy_parser policy with Ok p => Some p | Err _ => None end.

Definition configure_provision_piv (m : ArgMatches) : cli_st RusticaAgentAction :=
  signatory ← get_signatory (value_of "slot" m) None None None;
  '(slot, yubikey) ←
    match signatory with
    | SYubikey slot yk => mret (slot, yk)
    | SDirect _ => throw CannotProvisionFile
    end;
  subject ← unwrap (value_of "subject" m);
  management_key ← management_key_of m;
  pin ← env_named "pin-env" m;
  mret (ProvisionPIV
    {| pv_slot := slot;
       pv_yubikey := yubikey;
       pv_pin := default "123456" pin;
       pv_management_key := management_key;
       pv_require_touch := is_present "require-touch" m;
       pv_pin_policy := default PinPolicyOnce (pin_policy_of m);
       pv_subject := subject |}).

Definition provision_piv_command : Command :=
  add_args
    [management_key_arg; slot_arg; pin_env_arg;
     arg "require-touch" (Some "require-touch") (Some "r"%char) false;
     validator (λ v, match pin_policy_parser v with Ok _ => Ret () | Err e => Raise e end)
       (arg "pin-policy" (Some "pin-policy") (Some "P"%char) true);
     default_value "Rustica-AgentQuickProvision" (arg "subject" (Some "subj") (Some "j"%char) false)]
    (mkCommand "provision-piv" []).

(** ** register *)

Definition configure_register (m : ArgMatches) : cli_st RusticaAgentAction :=
  updatable_configuration ← parse_config_from_args m;
  let config := uc_configuration updatable_configuration in
  signatory ← get_signatory (value_of "slot" m) (cfg_slot config) (value_of "file" m) (cfg_key config);
  attestation ←
    (if is_present "no-attest" m then mret {| ap_certificate := []; ap_intermediate := [] |}
     else
       match signatory with
       | SYubikey slot yk =>
           certificate ← in_agent (device (yk_fetch_attestation yk slot));
           intermediate ← in_agent (device (yk_fetch_certificate yk slot_attestation));
           mret {| ap_certificate := match certificate with Ok c => c | Err _ => [] end;
                   ap_intermediate := default [] intermediate |}
       | SDirect _ => throw CannotAttestFileBasedKey
       end);
  mret (Register
    {| rg_updatable_configuration := updatable_configuration;
       rg_signatory := signatory;
       rg_attestation := attestation |}).

Definition register_command : Command :=
  add_args [arg "no-attest" (Some "no-attest") None false; slot_arg; file_arg]
    (new_run_agent_subcommand "register").

(** ** fido-setup *)

Definition configure_fido_setup (m : ArgMatches) : cli_st RusticaAgentAction :=
  updatable_configuration ← parse_config_from_args m;
  app_name ← unwrap (value_of "application" m);
  (if starts_with "ssh:" app_name then mret () else throw InvalidFidoKeyName);;
  comment ← unwrap (value_of "comment" m);
  let key_type := if decide (value_of "kind" m = Some "ecdsa") then SKEcdsa else SKEd25519 in
  pin ← env_named "pin-env" m;
  mret (ProvisionAndRegisterFido
    {| pf_updatable_configuration := updatable_configuration;
       pf_app_name := app_name;
       pf_comment := comment;
       pf_key_type := key_type;
       pf_pin := pin;
       pf_out := value_of "out" m |}).

Definition fido_setup_command : Command :=
  add_args
    [default_value "ssh:" (arg "application" (Some "application") (Some "a"%char) true);
     default_value "RusticaAgentProvisionedKey" (arg "comment" (Some "comment") None false);
     default_value "ed25519" (possible_values ["ed25519"; "ecdsa"]
       (arg "kind" (Some "kind") (Some "k"%char) false));
     pin_env_arg;
     arg "out" (Some "out") (Some "o"%char) true]
    (new_run_agent_subcommand "fido-setup").

(** ** refresh-attested-x509 *)

Definition configure_refresh_x509_certificate (m : ArgMatches) : cli_st RusticaAgentAction :=
  updatable_configuration ← parse_config_from_args m;
  slot ← unwrap (value_of "slot" m);
  slot ← of_outcome (slot_parser slot) ≫= unwrap;
  yk ← in_agent (device yk_new) ≫= unwrap;
  pin ← env_named "pin-env" m;
  management_key ← management_key_of m;
  mret (RefreshAttestedX509
    {| rx_updatable_configuration := updatable_configuration;
       rx_signatory := SYubikey slot yk;
       rx_pin := default "123456" pin;
       rx_management_key := management_key |}).

Definition refresh_x509_command : Command :=
  add_args [required slot_arg; pin_env_arg; management_key_arg]
    (new_run_agent_subcommand "refresh-attested-x509").

(** ** list-piv-keys, list-fido-devices and allowed-signers *)

Definition configure_list_piv_keys (m : ArgMatches) : cli_st RusticaAgentAction :=
  mret (ListPIVKeys (is_present "full" m)).
Definition list_piv_keys_command : Command :=
  add_args [arg "full" (Some "full") (Some "L"%char) false] (mkCommand "list-piv-keys" []).

Definition configure_allowed_signers (m : ArgMatches) : cli_st RusticaAgentAction :=
  updatable_configuration ← parse_config_from_args m;
  mret (GetAllowedSigners updatable_configuration).

(** ** git-config *)

(** The public key of a file, read as a private or as a public key. *)
Definition public_key_of_file (file : string) : cli_st PublicKey :=
  match sk_from_path file, pk_from_path file with
  | Ok p, _ => mret (pubkey p)
  | _, Ok p => mret p
  | _, _ => throw (CannotReadFile "Could not read the key as either a private or public key")
  end.

(** And of a slot of the connected Yubikeys: where several have one, a serial
    number tells them apart. *)
Definition public_key_of_slot (slot : SlotId) (serial : option string) : cli_st PublicKey :=
  all_keys ← map_err (λ e, YubikeyError (library_error_to_string e)) (in_agent get_all_piv_keys);
  let candidate_keys := filter (λ x, pd_slot x = slot) (iterate all_keys).*2 in
  match candidate_keys, serial with
  | [], _ => throw YubikeyNoKeypairFound
  | [x], _ => mret (pd_public_key x)
  | _, None => throw UnableToDetermineKey
  | l, Some serial =>
      x ← of_option YubikeyNoKeypairFound
        (last (filter (λ x, int_to_string (pd_serial x) = serial) l));
      mret (pd_public_key x)
  end.

Definition configure_git_config (m : ArgMatches) : cli_st RusticaAgentAction :=
  slot ←
    match value_of "slot" m with
    | Some slot => s ← of_outcome (slot_parser slot) ≫= unwrap; mret (Some s)
    | None => mret None
    end;
  public_key ←
    match value_of "file" m, slot with
    | Some f, None => public_key_of_file f
    | None, Some slot => public_key_of_slot slot (value_of "serial" m)
    | None, None | Some _, Some _ => throw UnableToDetermineKey
    end;
  mret (GitConfig public_key).

Definition git_config_command : Command :=
  add_args
    [file_arg; slot_arg;
     requires "slot" (arg "serial" (Some "serial") (Some "S"%char) true)]
    (mkCommand "git-config" []).

(** ** The subcommands *)

Definition commands : list Command :=
  [immediate_command; multimode_command; fido_setup_command; provision_piv_command;
   register_command; singlemode_command; list_piv_keys_command;
   mkCommand "list-fido-devices" []; git_config_command; refresh_x509_command;
   new_run_agent_subcommand "allowed-signers"].

(** The handlers, by the name [configure] asks for, in its order. *)
Definition handlers : list (string * (ArgMatches → cli_st RusticaAgentAction)) :=
  [("immediate", configure_immediate);
   ("multi", configure_multimode);
   ("fido-setup", configure_fido_setup);
   ("provision-piv", configure_provision_piv);
   ("register", configure_register);
   ("single", configure_singlemode);
   ("list-piv-keys", configure_list_piv_keys);
   ("list-fido-devices", λ _, mret ListFidoDevices);
   ("git-config", configure_git_config);
   ("refresh-attested-x509", configure_refresh_x509_certificate);
   ("allowed_signers", configure_allowed_signers)].

(** The first handler whose name has matches; without one the help text is
    printed.  [found] is the subcommand clap found, with its arguments. *)
Fixpoint dispatch (help : string) (l : list (string * (ArgMatches → cli_st RusticaAgentAction)))
    (found : option (string * ArgMatches)) : cli_st RusticaAgentAction :=
  match l with
  | [] => println help;; throw NoMode
  | (name, handle) :: l =>
      m ← unwrap (subcommand_matches (cmd_name <$> commands) found name);
      match m with Some m => handle m | None => dispatch help l found end
  end.

Definition configure (help : string) (found : option (string * ArgMatches))
    : cli_st RusticaAgentAction :=
  dispatch help handlers found.
End Modes.
