(* ===== verification/CommandLine.v ===== *)
(** * The command line of the agent: what holds of it

    The commands' declarations make the [unwrap]s of their handlers safe; each
    command but one is carried out by its own handler; every way to start the
    agent gives a handler in order; and multi mode offers every key of its
    directory. *)
From Stdlib Require Import ZArith Lia.
From S2P Require Import Prelude Machine Text Deps Proto AgentProtocol AgentConfig AgentClient.
From S2P Require Import AgentHandler Shell Cli CliModes.

Section CommandLine.
Context `{SshCerts, !Yubikeys, !Shell, Zstd, Hex, AgentEnv, AgentToml, MapOrder, !Clap} {N : Type}.

#[local] Abbreviation cli_st := (st (ShellWorld N) ConfigurationError).
Implicit Types s : ShellWorld N.

(** ** The effects do not panic *)

Lemma total_in_agent {E A} (m : st (AgentWorld N) E A) :
  total m → total (in_agent (N := N) m).
Proof.
  intros Hm s. unfold in_agent. specialize (Hm (sh_agent s)). by destruct (m _).
Qed.
Lemma total_device {E A} (f : nat → A) : total (device f : st (AgentWorld N) E A).
Proof. by intros s. Qed.
Lemma total_println {E} l : total (println (E := E) (N := N) l).
Proof. by intros s. Qed.
Lemma total_io_call {E} : total (io_call (E := E) (N := N)).
Proof. by intros s. Qed.
Lemma total_read_dir path : total (read_dir (N := N) path).
Proof. unfold read_dir. totally. apply total_io_call. Qed.
#[local] Hint Resolve total_in_agent total_device total_println total_read_dir : total.

(** The readers can be listed, and the Yubikeys that are asked for are there. *)
Definition devices_connected : Prop :=
  (∀ n, is_Some (yk_new n)) ∧ (∀ serial n, is_Some (yk_open serial n)) ∧
  (∀ n, is_Some (yk_readers n)).

(** The slot in a configuration file is read without a panic. *)
Definition file_slots_parse : Prop :=
  ∀ path c slot, updatable_new path = Ok c → cfg_slot (uc_configuration c) = Some slot →
    ∃ r, slot_parser (E := ()) slot = Ret r.

Lemma slot_parser_error {E E'} slot r :
  slot_parser (E := E) slot = Ret r → slot_parser (E := E') slot = Ret r.
Proof. unfold slot_parser. repeat (case_match; try done); by intros [= <-]. Qed.

Lemma total_device_unwrap {E A} (f : nat → option A) :
  (∀ n, is_Some (f n)) → total (in_agent (N := N) (device f) ≫= unwrap : st _ E A).
Proof.
  intros Hf s. unfold in_agent, device, mbind, st_bind, unwrap. cbn.
  by destruct (Hf (ag_device (sh_agent s))) as [a ->].
Qed.

Lemma total_yubikey_at slot :
  devices_connected → (∃ r, slot_parser (E := ()) slot = Ret r) →
  total (yubikey_at (N := N) slot).
Proof.
  intros (Hnew & _) [r Hr]. unfold yubikey_at. apply total_bind.
  - apply total_of_outcome. by rewrite (slot_parser_error _ _ Hr).
  - intros [sl|]; [|totally]. apply total_bind; [by apply total_device_unwrap|totally].
Qed.

Lemma total_get_signatory cmd_slot config_slot file config_key :
  devices_connected →
  (∀ slot, cmd_slot = Some slot ∨ config_slot = Some slot →
    ∃ r, slot_parser (E := ()) slot = Ret r) →
  total (get_signatory (N := N) cmd_slot config_slot file config_key).
Proof.
  intros Hd Hs. unfold get_signatory.
  destruct cmd_slot, config_slot, file, config_key; try case_match;
    try (apply total_yubikey_at; [done|apply Hs; tauto]); totally.
Qed.

(** ** Reading declared arguments *)

Definition declares (c : Command) (a : Arg) : Prop := a ∈ cmd_args c.

Lemma declared_value c m a :
  matches_ok c m → declares c a → arg_required a = true ∨ is_Some (arg_default a) →
  is_Some (value_of (arg_id a) m).
Proof. intros Hm Ha. exact (proj1 (proj1 (Forall_forall _ _) Hm a Ha)). Qed.

Lemma declared_slot c m slot :
  matches_ok c m → declares c slot_arg ∨ declares c (required slot_arg) →
  value_of "slot" m = Some slot →
  ∃ s : SlotId, slot_parser (E := ()) slot = Ret (Some s).
Proof.
  intros Hm Ha Hv.
  assert (slot_validator slot = Ret ()) as Hok.
  { destruct Ha as [Ha|Ha]; apply (proj1 (Forall_forall _ _) Hm) in Ha as [_ Ha];
      by apply Ha in Hv as (_ & Hv & _). }
  unfold slot_validator in Hok. unfold mbind, outcome_bind in Hok.
  destruct (slot_parser slot) as [[sl|]| |] eqn:Hs; try done.
  exists sl. by eapply slot_parser_error.
Qed.

Lemma total_parse_config c m :
  matches_ok c m → declares c (default_value "/etc/rustica/config.toml" (arg "config" (Some "config") None true)) →
  total (parse_config_from_args (N := N) m).
Proof.
  intros Hm Ha. unfold parse_config_from_args. apply total_bind.
  - apply total_unwrap. apply (declared_value _ _ _ Hm Ha). right. by eexists.
  - intros path. totally.
Qed.

(** What the configuration that was read says of its slot. *)
Lemma parsed_slot m s s' c slot :
  file_slots_parse → parse_config_from_args m s = (s', Ret c) →
  cfg_slot (uc_configuration c) = Some slot → ∃ r, slot_parser (E := ()) slot = Ret r.
Proof.
  intros Hf Hp Hs. unfold parse_config_from_args in Hp.
  apply st_bind_Ret in Hp as (s1 & path & _ & Hp).
  destruct (updatable_new path) as [c'|] eqn:Hu; st_inv. by eapply Hf.
Qed.

Lemma total_management_key c m :
  matches_ok c m → declares c management_key_arg → total (management_key_of (N := N) m).
Proof.
  intros Hm Ha. unfold management_key_of. apply total_bind; [|totally].
  apply total_unwrap. apply (declared_value _ _ _ Hm Ha). right. by eexists.
Qed.

Lemma total_env_named c m :
  matches_ok c m → declares c pin_env_arg → total (env_named (N := N) "pin-env" m).
Proof.
  intros Hm Ha. unfold env_named. apply total_bind; [|totally].
  apply total_unwrap. apply (declared_value _ _ _ Hm Ha). right. by eexists.
Qed.

(** ** The keys of the devices *)

Lemma total_piv_keys_of_slots `{!YubikeysLaws} yk serial pin slots all :
  Forall (λ n, 130 ≤ n < 150) slots → total (piv_keys_of_slots (N := N) yk serial pin slots all).
Proof.
  intros Hs. revert all. induction Hs as [|n slots Hn _ IH]; intros all; cbn; [totally|].
  apply total_bind; [apply total_unwrap, retired_slot_exists, Hn|].
  intros slot. totally; apply IH.
Qed.

Lemma retired_slots : Forall (λ n, 130 ≤ n < 150) (seqZ 130 20).
Proof. apply Forall_forall. intros n Hn%elem_of_seqZ. lia. Qed.

Lemma total_list_serials : devices_connected → total (list_yubikey_serials (N := N)).
Proof.
  intros (_ & _ & Hreaders). unfold list_yubikey_serials. apply total_bind; [totally|].
  intros [u|e]; [|totally]. apply total_bind; [|totally].
  intros a. unfold device, mbind, st_bind, unwrap. by destruct (Hreaders (ag_device a)) as [l ->].
Qed.

Lemma total_get_all_piv_keys `{!YubikeysLaws} :
  devices_connected → total (get_all_piv_keys (N := N)).
Proof.
  intros Hd. unfold get_all_piv_keys. apply total_bind; [by apply total_list_serials|].
  intros serials.
  generalize (∅ : gmap bytes YubikeyPIVKeyDescriptor) as all.
  induction serials as [|serial serials IH]; intros all; cbn; [totally|].
  totally. by apply total_piv_keys_of_slots, retired_slots.
Qed.
#[local] Hint Resolve total_get_all_piv_keys : total.

(** ** Multi mode *)

Lemma total_keys_of_entries {E} entries : total (keys_of_entries (N := N) (E := E) entries).
Proof. induction entries as [|[path|e] entries IH]; cbn; totally. Qed.

Lemma total_get_keys_from_dir dir : total (get_keys_from_dir (N := N) dir).
Proof. unfold get_keys_from_dir. totally. apply total_keys_of_entries. Qed.

(** A descriptor's key is what its slot answered. *)
Definition fetched (d : YubikeyPIVKeyDescriptor) : Prop :=
  ∃ yk n n', yk_open (pd_serial d) n = Some yk ∧
    yk_fetch_pubkey yk (pd_slot d) n' = Some (pd_public_key d).

(** And the descriptor is filed under the key's encoding. *)
Definition piv_wf (m : gmap bytes YubikeyPIVKeyDescriptor) : Prop :=
  ∀ blob d, m !! blob = Some d → blob = pk_encode (pd_public_key d) ∧ fetched d.

Lemma piv_wf_insert m pk d :
  pd_public_key d = pk → fetched d → piv_wf m → piv_wf (<[pk_encode pk := d]> m).
Proof. intros <- Hf Hm blob d' [[<- <-]|[_ Hb]]%lookup_insert_Some; [done|by apply Hm]. Qed.
Lemma piv_wf_delete m blob : piv_wf m → piv_wf (delete blob m).
Proof. intros Hm blob' d [_ Hb]%lookup_delete_Some. by apply Hm. Qed.

Lemma piv_keys_of_slots_wf yk serial pin slots all a a' all' :
  (∃ n, yk_open serial n = Some yk) → piv_wf all →
  piv_keys_of_slots (N := N) yk serial pin slots all a = (a', Ret all') → piv_wf all'.
Proof.
  intros [n0 Hopen]. revert all a.
  induction slots as [|n slots IH]; intros all a Hall; cbn.
  { intros Hr. by st_inv. }
  intros Hr. apply st_bind_Ret in Hr as (a1 & slot & _ & Hr).
  apply st_bind_Ret in Hr as (a2 & [pk|] & Hpk & Hr); [|by eapply IH].
  apply device_Ret in Hpk as [Hpk _].
  apply st_bind_Ret in Hr as (a3 & subject & _ & Hr). eapply IH, Hr.
  apply piv_wf_insert; [done| |done]. by exists yk, n0, (ag_device a1).
Qed.

Lemma get_all_piv_keys_wf a a' all :
  get_all_piv_keys (N := N) a = (a', Ret all) → piv_wf all.
Proof.
  unfold get_all_piv_keys. intros Hr. apply st_bind_Ret in Hr as (a1 & serials & _ & Hr).
  assert (piv_wf ∅) as Hwf by (by intros blob d ?%lookup_empty_Some).
  revert Hr Hwf. generalize (∅ : gmap bytes YubikeyPIVKeyDescriptor) as all0. revert a1.
  induction serials as [|serial serials IH]; intros a1 all0 Hr Hwf; cbn in Hr; [by st_inv|].
  apply st_bind_Ret in Hr as (a2 & [yk|] & Hyk & Hr); [|by apply throw_Ret in Hr].
  apply device_Ret in Hyk as [Hyk _].
  apply st_bind_Ret in Hr as (a3 & all1 & Hs & Hr). eapply IH; [done|].
  eapply piv_keys_of_slots_wf; [by exists (ag_device a1)|done..].
Qed.

Lemma take_keys_Ok public_keys all_keys key_map m :
  piv_wf all_keys → piv_wf key_map → take_keys public_keys all_keys key_map = Ok m →
  piv_wf m ∧ dom m = dom key_map ∪ list_to_set (pk_encode <$> public_keys).
Proof.
  revert all_keys key_map. induction public_keys as [|pk public_keys IH]; intros all_keys key_map Ha Hk; cbn.
  { intros [= <-]. split; [done|set_solver]. }
  destruct (all_keys !! pk_encode pk) as [key|] eqn:Hkey; [|done]. intros Hr.
  apply IH in Hr as [Hwf Hdom].
  - split; [done|]. rewrite Hdom, dom_insert_L. set_solver.
  - by apply piv_wf_delete.
  - intros blob d [[<- <-]|[_ Hb]]%lookup_insert_Some; [by apply Ha|by apply Hk].
Qed.

Lemma validate_public_keys_Ret public_keys s s' m :
  validate_public_keys (N := N) public_keys s = (s', Ret m) →
  piv_wf m ∧ dom m = list_to_set (pk_encode <$> public_keys).
Proof.
  unfold validate_public_keys. intros Hr.
  apply st_bind_Ret in Hr as (s1 & all & Ha & Hr). apply map_err_Ret in Ha.
  apply in_agent_Ret in Ha as (a & Ha & _). apply of_result_Ret in Hr as [_ Hr].
  apply take_keys_Ok in Hr as [Hwf Hdom].
  - split; [done|]. rewrite Hdom. set_solver.
  - by eapply get_all_piv_keys_wf.
  - by intros blob d ?%lookup_empty_Some.
Qed.

Lemma total_signatory_of_piv `{!SshCertsLaws} fp (l : list (bytes * YubikeyPIVKeyDescriptor)) :
  devices_connected → Forall (λ x, ∃ pk, x.1 = pk_encode pk) l →
  total (signatory_of_piv (N := N) fp l).
Proof.
  intros Hd. induction 1 as [|[blob d] l [pk Hpk] _ IH]; cbn in *; [totally|]. subst blob.
  destruct (pk_encode_parses pk) as (pk' & Hp & _). apply total_bind; [by apply total_unwrap|].
  intros key. case_decide; [|done].
  apply total_bind; [apply total_device_unwrap; intros; apply Hd|totally].
Qed.

Lemma iterate_wf (m : gmap bytes YubikeyPIVKeyDescriptor) :
  piv_wf m → Forall (λ x, ∃ pk, x.1 = pk_encode pk) (iterate m).
Proof.
  intros Hm. rewrite iterate_perm. apply Forall_forall. intros [blob d] Hin%elem_of_map_to_list.
  apply Hm in Hin as [Hin _]. eauto.
Qed.

(** ** No handler panics on what clap lets through *)

#[local] Ltac declared := unfold declares; cbn;
  repeat first [apply list_elem_of_here | apply list_elem_of_further].

(** The start that most modes share: the configuration and the signatory. *)
Lemma total_config_and_signatory {A} c m
    (k : UpdatableConfiguration → Signatory → cli_st A) :
  matches_ok c m →
  declares c (default_value "/etc/rustica/config.toml" (arg "config" (Some "config") None true)) →
  declares c slot_arg → devices_connected → file_slots_parse →
  (∀ conf sig, total (k conf sig)) →
  total (conf ← parse_config_from_args m;
    sig ← get_signatory (value_of "slot" m) (cfg_slot (uc_configuration conf))
      (value_of "file" m) (cfg_key (uc_configuration conf));
    k conf sig).
Proof.
  intros Hm Hc Hsl Hd Hf Hk. apply total_bind_Ret; [by eapply total_parse_config|].
  intros s s' conf Hconf. apply total_bind; [|by intros sig].
  apply total_get_signatory; [done|]. intros slot [Hs|Hs].
  - destruct (declared_slot c m slot Hm (or_introl Hsl) Hs) as [x Hx]. by eexists.
  - by eapply parsed_slot.
Qed.

Lemma total_singlemode m :
  matches_ok singlemode_command m → devices_connected → file_slots_parse →
  total (configure_singlemode (N := N) m).
Proof.
  intros Hm Hd Hf. unfold configure_singlemode.
  apply (total_config_and_signatory singlemode_command); [done|declared|declared|done..|].
  intros conf []; totally.
Qed.

Lemma total_immediate m :
  matches_ok immediate_command m → devices_connected → file_slots_parse →
  total (configure_immediate (N := N) m).
Proof.
  intros Hm Hd Hf. unfold configure_immediate.
  apply (total_config_and_signatory immediate_command); [done|declared|declared|done..|totally].
Qed.

Lemma total_register m :
  matches_ok register_command m → devices_connected → file_slots_parse →
  total (configure_register (N := N) m).
Proof.
  intros Hm Hd Hf. unfold configure_register.
  apply (total_config_and_signatory register_command); [done|declared|declared|done..|].
  totally.
Qed.

Lemma total_multimode `{!YubikeysLaws, !SshCertsLaws} m :
  matches_ok multimode_command m → devices_connected →
  total (configure_multimode (N := N) m).
Proof.
  intros Hm Hd. unfold configure_multimode.
  apply total_bind; [eapply total_parse_config; [done|declared]|]. intros conf.
  apply total_bind; [totally|]. intros fp. apply total_bind; [totally|]. intros dir.
  apply total_bind; [apply total_map_err, total_get_keys_from_dir|]. intros [pks sks].
  apply total_bind_Ret; [unfold validate_public_keys; totally|].
  intros s s' key_map Hk. apply map_err_Ret, validate_public_keys_Ret in Hk as [Hwf _].
  apply total_bind; [|totally]. apply total_map_err. unfold multimode_get_signatory.
  apply total_bind; [by apply total_signatory_of_piv, iterate_wf|totally].
Qed.

Lemma total_provision_piv m :
  matches_ok provision_piv_command m → devices_connected →
  total (configure_provision_piv (N := N) m).
Proof.
  intros Hm Hd. unfold configure_provision_piv. apply total_bind.
  - apply total_get_signatory; [done|]. intros slot [Hs|Hs]; [|done].
    assert (declares provision_piv_command slot_arg) as Ha by declared.
    destruct (declared_slot _ m slot Hm (or_introl Ha) Hs) as [x Hx]. by eexists.
  - intros sig. apply total_bind; [totally|]. intros [slot yk].
    apply total_bind; [apply total_unwrap, (declared_value _ _ (default_value
      "Rustica-AgentQuickProvision" (arg "subject" (Some "subj") (Some "j"%char) false)) Hm);
      [declared|right; by eexists]|]. intros subject.
    apply total_bind; [eapply total_management_key; [done|declared]|]. intros key.
    apply total_bind; [eapply total_env_named; [done|declared]|totally].
Qed.

Lemma total_fido_setup m :
  matches_ok fido_setup_command m → total (configure_fido_setup (N := N) m).
Proof.
  intros Hm. unfold configure_fido_setup.
  apply total_bind; [eapply total_parse_config; [done|declared]|]. intros conf.
  apply total_bind; [apply total_unwrap, (declared_value _ _ (default_value "ssh:"
    (arg "application" (Some "application") (Some "a"%char) true)) Hm);
    [declared|right; by eexists]|]. intros app.
  apply total_bind; [totally|]. intros _.
  apply total_bind; [apply total_unwrap, (declared_value _ _ (default_value
    "RusticaAgentProvisionedKey" (arg "comment" (Some "comment") None false)) Hm);
    [declared|right; by eexists]|]. intros comment.
  apply total_bind; [eapply total_env_named; [done|declared]|totally].
Qed.

Lemma total_refresh_x509 m :
  matches_ok refresh_x509_command m → devices_connected →
  total (configure_refresh_x509_certificate (N := N) m).
Proof.
  intros Hm (Hnew & _). unfold configure_refresh_x509_certificate.
  apply total_bind; [eapply total_parse_config; [done|declared]|]. intros conf.
  apply total_bind_Ret; [apply total_unwrap, (declared_value _ _ (required slot_arg) Hm);
    [declared|by left]|].
  intros s s' slot [_ Hs]%unwrap_Ret.
  assert (declares refresh_x509_command (required slot_arg)) as Ha by declared.
  destruct (declared_slot _ m slot Hm (or_intror Ha) Hs) as [x Hx].
  apply total_bind.
  - intros s1. unfold of_outcome, mbind, st_bind, unwrap.
    by rewrite (slot_parser_error _ _ Hx).
  - intros sl. apply total_bind; [by apply total_device_unwrap|]. intros yk.
    apply total_bind; [eapply total_env_named; [done|declared]|]. intros pin.
    apply total_bind; [eapply total_management_key; [done|declared]|totally].
Qed.

Lemma total_git_config `{!YubikeysLaws} m :
  matches_ok git_config_command m → devices_connected → total (configure_git_config (N := N) m).
Proof.
  intros Hm Hd. unfold configure_git_config. apply total_bind.
  - destruct (value_of "slot" m) as [slot|] eqn:Hs; [|totally].
    assert (declares git_config_command slot_arg) as Ha by declared.
    destruct (declared_slot _ m slot Hm (or_introl Ha) Hs) as [x Hx].
    apply total_bind; [|totally]. intros s1. unfold of_outcome, mbind, st_bind, unwrap.
    by rewrite (slot_parser_error _ _ Hx).
  - intros slot. unfold public_key_of_file, public_key_of_slot. totally.
Qed.

(** ** Which handler runs *)

(** What clap found is a declared command, with arguments it let through. *)
Definition found_ok (found : option (string * ArgMatches)) : Prop :=
  ∀ n m, found = Some (n, m) → ∃ c, c ∈ commands ∧ n = cmd_name c ∧ matches_ok c m.

(** The handlers that are asked for under a declared name: all but the last. *)
#[local] Abbreviation declared_handlers := (take 10 (handlers (N := N))).
Lemma handlers_split : handlers (N := N) =
  declared_handlers ++ [("allowed_signers", configure_allowed_signers)].
Proof. done. Qed.
Lemma declared_handlers_ok :
  Forall (λ x, x.1 ∈ cmd_name <$> commands) declared_handlers ∧ NoDup declared_handlers.*1.
Proof.
  split; [|by apply (bool_decide_unpack _); vm_compute].
  cut (Forall (λ n, n ∈ cmd_name <$> commands) declared_handlers.*1); [by intros ?%Forall_fmap|].
  by apply (bool_decide_unpack _); vm_compute.
Qed.

Lemma dispatch_declared `{!ClapLaws} help l rest found s :
  Forall (λ x, x.1 ∈ cmd_name <$> commands) l →
  dispatch (N := N) help (l ++ rest) found s =
    match found with
    | Some (n, m) =>
        match list_find (λ x, x.1 = n) l with
        | Some (_, (_, h)) => h m s
        | None => dispatch help rest found s
        end
    | None => dispatch help rest found s
    end.
Proof.
  induction 1 as [|[name h] l Hname _ IH]; cbn [app dispatch]; [by destruct found as [[]|]|].
  cbn in Hname. rewrite (declared_subcommand _ found _ Hname). unfold mbind, st_bind, unwrap.
  destruct found as [[n m]|]; [|exact IH]. cbn [list_find fst].
  destruct (decide (n = name)) as [->|Hn]; [by rewrite decide_True|].
  rewrite decide_False by congruence. rewrite IH. by destruct (list_find _ l) as [[? []]|].
Qed.

(** ** What a handler fails with *)

Lemma raises_in_agent {E A} (P : E → Prop) (m : st (AgentWorld N) E A) :
  raises P m → raises P (in_agent (N := N) m).
Proof.
  intros Hm s s' e. unfold in_agent. destruct (m (sh_agent s)) as [a r] eqn:Hr.
  intros [= <- ->]. by eapply Hm.
Qed.
Lemma raises_device {E A} (P : E → Prop) (f : nat → A) :
  raises P (device f : st (AgentWorld N) E A).
Proof. by intros a a' e. Qed.
Lemma raises_println {E} (P : E → Prop) l : raises P (println (E := E) (N := N) l).
Proof. by intros s s' e. Qed.
Lemma raises_slot_parser {S E} (P : E → Prop) slot :
  raises P (of_outcome (slot_parser slot) : st S E _).
Proof.
  intros s s' e [= _ Hr]. exfalso. revert Hr. unfold slot_parser. by repeat case_match.
Qed.
#[local] Hint Resolve raises_in_agent raises_device raises_println raises_slot_parser : raises.

Definition not_no_mode (e : ConfigurationError) : Prop := e ≠ NoMode.

#[local] Ltac raise_mode :=
  repeat first
    [ progress raise
    | done
    | apply raises_throw; done
    | apply raises_of_option; done
    | match goal with |- raises _ (match ?x with _ => _ end) => destruct x end ].

Lemma raises_yubikey_at slot : raises not_no_mode (yubikey_at (N := N) slot).
Proof. unfold yubikey_at. raise_mode. Qed.
Lemma raises_get_signatory a b c d : raises not_no_mode (get_signatory (N := N) a b c d).
Proof.
  unfold get_signatory. destruct a, b, c, d; try apply raises_yubikey_at; raise_mode.
Qed.
Lemma raises_parse_config m : raises not_no_mode (parse_config_from_args (N := N) m).
Proof. unfold parse_config_from_args. raise_mode. Qed.
Lemma raises_env_named id m : raises not_no_mode (env_named (N := N) id m).
Proof. unfold env_named. raise_mode. Qed.
Lemma raises_management_key m : raises not_no_mode (management_key_of (N := N) m).
Proof. unfold management_key_of. raise_mode. Qed.
#[local] Hint Resolve raises_get_signatory raises_parse_config raises_env_named
  raises_management_key : raises.

(** What the handler of a command can fail with. *)
Lemma handlers_raise name h m :
  (name, h) ∈ declared_handlers → raises not_no_mode (h m).
Proof.
  unfold handlers. cbn [take]. intros Hin. repeat (apply elem_of_cons in Hin as [Heq|Hin]);
    [..|by apply not_elem_of_nil in Hin]; injection Heq as -> ->.
  - unfold configure_immediate. raise_mode.
  - unfold configure_multimode, get_keys_from_dir, validate_public_keys. raise_mode.
  - unfold configure_fido_setup. raise_mode.
  - unfold configure_provision_piv. raise_mode.
  - unfold configure_register. raise_mode.
  - unfold configure_singlemode. raise_mode.
  - raise_mode.
  - raise_mode.
  - unfold configure_git_config, public_key_of_file, public_key_of_slot. raise_mode.
  - unfold configure_refresh_x509_certificate. raise_mode.
Qed.

(** A declared command runs the handler of its name; [allowed-signers], whose
    handler is asked for under another name, and no command at all end alike. *)
Lemma configure_command `{!ClapLaws} help c m :
  c ∈ commands → cmd_name c ≠ "allowed-signers" →
  ∃ h, (cmd_name c, h) ∈ declared_handlers ∧
    ∀ s, configure (N := N) help (Some (cmd_name c, m)) s = h m s.
Proof.
  intros Hc Hn. unfold commands in Hc.
  repeat (apply elem_of_cons in Hc as [->|Hc]); [..|by apply not_elem_of_nil in Hc]; [..|by destruct Hn].
  all: eexists; split;
    [unfold handlers; cbn [take];
       repeat first [apply list_elem_of_here | apply list_elem_of_further]
    |intros s; unfold configure; rewrite handlers_split, dispatch_declared
       by apply declared_handlers_ok; reflexivity].
Qed.

Definition no_handler (found : option (string * ArgMatches)) : Prop :=
  found = None ∨ ∃ m, found = Some ("allowed-signers", m).

(** The state after the help text was printed. *)
Definition helped (help : string) s : ShellWorld N :=
  mkShell (printing [help] (sh_agent s)) (sh_files s) (sh_io s).

Lemma configure_without_handler `{!ClapLaws} help found s :
  no_handler found →
  (subcommand_matches (cmd_name <$> commands) found "allowed_signers" = None ∧
     configure (N := N) help found s = (s, Panic)) ∨
  (subcommand_matches (cmd_name <$> commands) found "allowed_signers" = Some None ∧
     configure help found s = (helped help s, Raise NoMode)).
Proof.
  intros Hf. unfold configure. rewrite handlers_split, dispatch_declared by apply declared_handlers_ok.
  assert (match found with
    | Some (n, m) => match list_find (λ x, x.1 = n) declared_handlers with
        | Some (_, (_, h)) => h m s
        | None => dispatch help [("allowed_signers", configure_allowed_signers)] found s
        end
    | None => dispatch help [("allowed_signers", configure_allowed_signers)] found s
    end = dispatch help [("allowed_signers", configure_allowed_signers)] found s) as ->
    by (destruct Hf as [->|[m ->]]; reflexivity).
  cbn [dispatch]. unfold mbind, st_bind at 1, unwrap.
  destruct (undeclared_subcommand (cmd_name <$> commands) found "allowed_signers") as [Hs|Hs].
  - apply (bool_decide_unpack _). vm_compute. done.
  - intros n m ->. destruct Hf as [|[m' [= -> ->]]]; [done|].
    apply (bool_decide_unpack _). vm_compute. done.
  - right. rewrite Hs. done.
  - left. rewrite Hs. done.
Qed.

(** *** No handler panics on what clap lets through *)

Lemma total_declared `{!YubikeysLaws, !SshCertsLaws} c h m :
  c ∈ commands → (cmd_name c, h) ∈ declared_handlers → matches_ok c m →
  devices_connected → file_slots_parse → total (h m).
Proof.
  intros Hc Hh Hm Hd Hf. unfold handlers in Hh. cbn [take] in Hh.
  assert (∀ h', (cmd_name c, h') ∈ declared_handlers → h = h') as Huniq.
  { intros h' Hh'. unfold handlers in Hh'. cbn [take] in Hh'.
    apply list_elem_of_lookup in Hh as [i Hi], Hh' as [j Hj].
    assert (i = j) as ->; [|by simplify_eq].
    eapply (NoDup_lookup _ _ _ (cmd_name c) (proj2 declared_handlers_ok)).
    - by apply (list_lookup_fmap_Some_2 fst) in Hi.
    - by apply (list_lookup_fmap_Some_2 fst) in Hj. }
  unfold commands in Hc.
  repeat (apply elem_of_cons in Hc as [->|Hc]); [..|by apply not_elem_of_nil in Hc].
  all: try (erewrite (Huniq _) by (unfold handlers; cbn [take];
    repeat first [apply list_elem_of_here | apply list_elem_of_further])).
  - by apply total_immediate.
  - by apply total_multimode.
  - by apply total_fido_setup.
  - by apply total_provision_piv.
  - by apply total_register.
  - by apply total_singlemode.
  - apply total_mret.
  - by intros s.
  - by apply total_git_config.
  - by apply total_refresh_x509.
  - exfalso. clear Huniq Hm.
    repeat (apply elem_of_cons in Hh as [Heq|Hh]; [by injection Heq|]). by apply not_elem_of_nil in Hh.
Qed.

(** Which commands give an action. *)
Definition commands_of (a : RusticaAgentAction) : list string :=
  match a with
  | Run _ => ["single"; "multi"]
  | GitConfig _ => ["git-config"]
  | ListFidoDevices => ["list-fido-devices"]
  | ListPIVKeys _ => ["list-piv-keys"]
  | ProvisionPIV _ => ["provision-piv"]
  | ProvisionAndRegisterFido _ => ["fido-setup"]
  | Register _ => ["register"]
  | Immediate _ => ["immediate"]
  | RefreshAttestedX509 _ => ["refresh-attested-x509"]
  | GetAllowedSigners _ => ["allowed-signers"]
  end.

Lemma handlers_do name h m s s' a :
  (name, h) ∈ declared_handlers → h m s = (s', Ret a) → name ∈ commands_of a.
Proof.
  intros Hin Hr. unfold handlers in Hin. cbn [take] in Hin.
  repeat (apply elem_of_cons in Hin as [Heq|Hin]); [..|by apply not_elem_of_nil in Hin];
    injection Heq as -> ->.
  all: unfold configure_immediate, configure_fido_setup, configure_provision_piv, configure_multimode,
    configure_singlemode, configure_register, configure_list_piv_keys, configure_git_config,
    configure_refresh_x509_certificate in Hr; st_inv_all; cbn; set_solver.
Qed.

(** ** Properties *)

(** C13: nothing the user can type makes the start of the agent panic, unless
    clap itself does: for what clap lets through - a subcommand or none, its
    defaults filled in, required arguments there, validators passed - every
    handler returns or reports an error, as long as the Yubikeys that are asked
    for stay connected, their readers can be listed, and the slot written in
    the configuration file is one.  The panic that is left is that of a clap
    built with debug assertions, when the program asks for the undeclared
    [allowed_signers] - for that command and when no command is given. *)
Theorem command_line_does_not_panic `{!YubikeysLaws, !SshCertsLaws, !ClapLaws} help found s :
  found_ok found → devices_connected → file_slots_parse →
  (configure (N := N) help found s).2 ≠ Panic ∨
  no_handler found ∧ subcommand_matches (cmd_name <$> commands) found "allowed_signers" = None.
Proof.
  intros Hok Hd Hf.
  assert (no_handler found ∨ ∃ c m, found = Some (cmd_name c, m) ∧ c ∈ commands ∧ matches_ok c m ∧
    cmd_name c ≠ "allowed-signers") as [Hn|(c & m & -> & Hc & Hm & Hne)].
  { destruct found as [[n m]|]; [|by left; left].
    destruct (Hok n m eq_refl) as (c & Hc & -> & Hm).
    destruct (decide (cmd_name c = "allowed-signers")) as [->|Hne]; [|by right; exists c, m].
    left; right. by exists m. }
  - destruct (configure_without_handler help found s Hn) as [[Hs _]|[_ Hr]]; [by right|].
    left. by rewrite Hr.
  - left. destruct (configure_command help c m Hc Hne) as (h & Hin & Hrun). rewrite Hrun.
    by apply (total_declared c h m).
Qed.

(** C39: of the subcommands the program declares all but one are carried out:
    what a command returns is the action of that command, and it does not end
    with the help text.  [allowed-signers] is declared with a dash but asked
    for with an underscore, so it ends as the program does without a command:
    the help text is printed, nothing else happens, and there is no action - or
    clap panics, where its debug assertions are compiled in. *)
Theorem every_command_but_one_is_carried_out `{!ClapLaws} help c m s :
  c ∈ commands →
  (cmd_name c ≠ "allowed-signers" → ∀ s' r, configure (N := N) help (Some (cmd_name c, m)) s = (s', r) →
    match r with
    | Ret a => cmd_name c ∈ commands_of a
    | Raise e => e ≠ NoMode
    | Panic => True
    end) ∧
  (cmd_name c = "allowed-signers" → ∀ found, found = None ∨ found = Some (cmd_name c, m) →
    match subcommand_matches (cmd_name <$> commands) found "allowed_signers" with
    | Some _ => configure help found s = (helped help s, Raise NoMode)
    | None => configure help found s = (s, Panic)
    end).
Proof.
  intros Hc. split.
  - intros Hn s' r Hr. destruct (configure_command help c m Hc Hn) as (h & Hin & Hrun).
    rewrite Hrun in Hr. destruct r as [a|e|]; [|by eapply handlers_raise|done].
    by eapply handlers_do.
  - intros -> found Hf.
    destruct (configure_without_handler help found s) as [[-> ->]|[-> ->]]; [|done..].
    destruct Hf as [->| ->]; [by left|by right; exists m].
Qed.
End CommandLine.

Section StartedAgent.
Context `{SshCerts, !Yubikeys, !Shell, Zstd, Hex, AgentEnv, AgentToml, MapOrder, !Clap} {N : Type}
  `{!Rpc N}.

#[local] Abbreviation cli_st := (st (ShellWorld N) ConfigurationError).
Implicit Types s : ShellWorld N.

(** ** What is loaded from a directory *)

Definition public_of (e : result string string) : option PublicKey :=
  match e with
  | Ok path => if ends_with ".pub" path then
      match pk_from_path path with Ok k => Some k | Err _ => None end else None
  | Err _ => None
  end.
Definition private_of (e : result string string) : option PrivateKey :=
  match e with
  | Ok path => if ends_with ".pub" path then None else
      match sk_from_path path with Ok k => Some k | Err _ => None end
  | Err _ => None
  end.

Lemma keys_of_entries_Ret {E} entries s s' pks sks :
  keys_of_entries (E := E) (N := N) entries s = (s', Ret (pks, sks)) →
  pks = omap public_of entries ∧ sks = omap private_of entries.
Proof.
  revert s s' pks sks. induction entries as [|[path|e] entries IH]; intros s s' pks sks; cbn.
  - intros Hr. by st_inv.
  - destruct (ends_with ".pub" path); [destruct (pk_from_path path)|destruct (sk_from_path path)];
      intros Hr; apply st_bind_Ret in Hr as (s1 & x & Hx & Hr).
    + destruct x as [pks' sks']. apply IH in Hx as [-> ->]. by st_inv.
    + by apply IH in Hr.
    + destruct x as [pks' sks']. apply IH in Hx as [-> ->]. by st_inv.
    + by apply IH in Hr.
  - intros Hr. apply st_bind_Ret in Hr as (s1 & [] & _ & Hr). by apply IH in Hr.
Qed.

Lemma get_keys_from_dir_Ret dir s s' pks sks :
  get_keys_from_dir (N := N) dir s = (s', Ret (pks, sks)) →
  pks = omap public_of (dir_entries dir) ∧ sks = omap private_of (dir_entries dir).
Proof.
  unfold get_keys_from_dir. intros Hr.
  apply st_bind_Ret in Hr as (s1 & entries & He & Hr). apply map_err_Ret in He.
  assert (entries = dir_entries dir) as ->.
  { unfold read_dir in He. apply st_bind_Ret in He as (s2 & [e|] & _ & He); by st_inv. }
  apply st_bind_Ret in Hr as (s2 & [pks' sks'] & Hk & Hr).
  apply keys_of_entries_Ret in Hk as [-> ->]. by st_inv.
Qed.

(** ** The key that asks for certificates *)

Lemma signatory_of_piv_Ret (fp : string) (m : gmap bytes YubikeyPIVKeyDescriptor)
    (l : list (bytes * YubikeyPIVKeyDescriptor)) s s' (pk : PublicKey) (sig : Signatory) :
  (∀ x, x ∈ l → m !! x.1 = Some x.2) →
  signatory_of_piv (N := N) fp l s = (s', Ret (Some (pk, sig))) →
  ∃ blob d key yk n, m !! blob = Some d ∧ pk_from_bytes blob = Some key ∧ fp = pk_hash key ∧
    pk = pd_public_key d ∧ yk_open (pd_serial d) n = Some yk ∧ sig = SYubikey (pd_slot d) yk.
Proof.
  revert s. induction l as [|[blob d] l IH]; intros s Hl; cbn.
  { intros Hr. by st_inv. }
  intros Hr. apply st_bind_Ret in Hr as (s1 & key & [-> Hkey]%unwrap_Ret & Hr).
  case_decide as Hfp; [|eapply IH; [|done]; intros x Hx; apply Hl; by right].
  apply st_bind_Ret in Hr as (s2 & yk & Hyk & Hr).
  apply st_bind_Ret in Hyk as (s3 & yk' & Hyk & [-> Hy]%unwrap_Ret).
  apply in_agent_Ret in Hyk as (a & [Hyk _]%device_Ret & _). rewrite Hyk in Hy.
  apply mret_Ret in Hr as [_ Hr]. injection Hr as -> ->.
  eexists blob, d, key, yk, _.
  split_and!; [by apply (Hl (blob, d)), list_elem_of_here|done..|exact Hy|done].
Qed.

Lemma signatory_of_keys_Some fp sks pk sig :
  signatory_of_keys fp sks = Some (pk, sig) →
  ∃ k, k ∈ sks ∧ fp = pk_hash (pubkey k) ∧ pk = pubkey k ∧ sig = SDirect k.
Proof.
  unfold signatory_of_keys. destruct (filter _ sks) as [|k l] eqn:Hf; [done|]. cbn.
  intros [= <- <-]. assert (k ∈ filter (λ k, fp = pk_hash (pubkey k)) sks) as Hk
    by (rewrite Hf; apply list_elem_of_here).
  apply list_elem_of_filter in Hk as [Hfp Hk]. by exists k.
Qed.

Lemma by_encoding_dom l : dom (by_encoding l) = list_to_set ((λ k, pk_encode (pubkey k)) <$> l).
Proof.
  unfold by_encoding. rewrite <-(right_id_L ∅ (∪) (list_to_set _)), <-(dom_empty_L (D := gset bytes) (A := PrivateKey)).
  generalize (∅ : gmap bytes PrivateKey). induction l as [|k l IH]; intros m; cbn; [set_solver|].
  rewrite IH, dom_insert_L. set_solver.
Qed.
Lemma by_encoding_keyed l blob k : by_encoding l !! blob = Some k → blob = pk_encode (pubkey k).
Proof.
  unfold by_encoding. assert (∀ blob k, (∅ : gmap bytes PrivateKey) !! blob = Some k →
    blob = pk_encode (pubkey k)) as Hm by (by intros ?? ?%lookup_empty_Some).
  revert Hm. generalize (∅ : gmap bytes PrivateKey). induction l as [|k' l IH]; intros m Hm; cbn; [auto|].
  apply IH. intros blob' k0 [[<- <-]|[_ Hb]]%lookup_insert_Some; [done|by apply Hm].
Qed.

(** ** A handler in order *)

(** The handler's key is the one its signatory signs with, and every key is
    filed under its own encoding. *)
Record well_started (c : RunConfig) : Prop := {
  ws_pubkey : ha_pubkey (rn_handler c) = rn_pubkey c;
  ws_signatory :
    match ha_signatory (rn_handler c) with
    | SDirect sk => pubkey sk = rn_pubkey c
    | SYubikey slot yk => ∃ yk' n, yk_fetch_pubkey yk' slot n = Some (rn_pubkey c) ∧
        (yk' = yk ∨ ∃ serial n1 n2, yk_open serial n1 = Some yk' ∧ yk_open serial n2 = Some yk)
    end;
  ws_keyed blob k : rn_identities c !! blob = Some k → blob = pk_encode (pubkey k);
  ws_piv blob d : ha_piv_identities (rn_handler c) !! blob = Some d →
    blob = pk_encode (pd_public_key d) ∧ fetched d;
}.

(** The key that asks for certificates is not offered a second time. *)
Definition offered_once (c : RunConfig) : Prop :=
  rn_identities c !! pk_encode (rn_pubkey c) = None ∧
  ha_piv_identities (rn_handler c) !! pk_encode (rn_pubkey c) = None.

Lemma singlemode_well_started m s s' a :
  configure_singlemode (N := N) m s = (s', Ret a) →
  ∃ c, a = Run c ∧ well_started c ∧ offered_once c.
Proof.
  unfold configure_singlemode. intros Hr.
  apply st_bind_Ret in Hr as (s1 & conf & _ & Hr).
  apply st_bind_Ret in Hr as (s2 & sig & _ & Hr).
  apply st_bind_Ret in Hr as (s3 & [sig' pk] & Hsig & Hr). apply mret_Ret in Hr as [_ ->].
  eexists. split; [done|].
  split; [|by split; apply lookup_empty].
  split; cbn; [done| |by intros blob k ?%lookup_empty_Some..].
  destruct sig as [slot yk|sk].
  - apply st_bind_Ret in Hsig as (s4 & cert & Hcert & Hsig).
    apply in_agent_Ret in Hcert as (ag & [Hcert _]%device_Ret & _).
    apply st_bind_Ret in Hsig as (s5 & cert' & [_ Hc]%of_option_Ret & Hsig).
    apply mret_Ret in Hsig as [_ [= -> ->]]. rewrite Hcert in Hc.
    exists yk, (ag_device (sh_agent s2)). split; [exact Hc|by left].
  - by apply mret_Ret in Hsig as [_ [= -> ->]].
Qed.

(** The signatory of multi mode: a slot of the directory or a key of it. *)
Lemma multimode_get_signatory_Ret `{!SshCertsLaws} fp key_map sks s s' pk sig :
  piv_wf key_map → multimode_get_signatory (N := N) fp key_map sks s = (s', Ret (pk, sig)) →
  pk_hash pk = fp ∧
  match sig with
  | SDirect k => pubkey k = pk ∧ k ∈ sks
  | SYubikey slot yk => ∃ d n, key_map !! pk_encode pk = Some d ∧ pd_public_key d = pk ∧
      pd_slot d = slot ∧ yk_open (pd_serial d) n = Some yk ∧ fetched d
  end.
Proof.
  intros Hwf Hsig. unfold multimode_get_signatory in Hsig.
  apply st_bind_Ret in Hsig as (s8 & found & Hfound & Hsig).
  assert (∀ x, x ∈ iterate key_map → key_map !! x.1 = Some x.2) as Hit.
  { intros [blob d] Hin. rewrite iterate_perm in Hin. by apply elem_of_map_to_list in Hin. }
  destruct found as [[pk' sig']|].
  - apply mret_Ret in Hsig as [_ [= -> ->]].
    destruct (signatory_of_piv_Ret _ _ _ _ _ _ _ Hit Hfound)
      as (blob & d & key & yk & n & Hd & Hkey & -> & -> & Hopen & ->).
    destruct (Hwf _ _ Hd) as [-> Hf]. destruct (pk_encode_parses (pd_public_key d)) as (pk' & Hp & Hh).
    rewrite Hkey in Hp. injection Hp as <-. split; [done|]. by exists d, n.
  - apply of_option_Ret in Hsig as [_ Hsig].
    by apply signatory_of_keys_Some in Hsig as (k & Hk & -> & -> & ->).
Qed.

(** A run of multi mode, taken apart. *)
Lemma configure_multimode_Ret `{!ShellLaws, !SshCertsLaws} m s s' a :
  configure_multimode (N := N) m s = (s', Ret a) →
  ∃ c fp dir, a = Run c ∧ value_of "cert-for" m = Some fp ∧ value_of "key-dir" m = Some dir ∧
    well_started c ∧ offered_once c ∧ pk_hash (rn_pubkey c) = fp ∧
    dom (rn_identities c) = list_to_set ((λ k, pk_encode (pubkey k)) <$>
      omap private_of (dir_entries dir)) ∖ {[pk_encode (rn_pubkey c)]} ∧
    dom (ha_piv_identities (rn_handler c)) =
      list_to_set (pk_encode <$> omap public_of (dir_entries dir)) ∖ {[pk_encode (rn_pubkey c)]} ∧
    match ha_signatory (rn_handler c) with
    | SDirect k => k ∈ omap private_of (dir_entries dir)
    | SYubikey _ _ =>
        ∃ pk, pk ∈ omap public_of (dir_entries dir) ∧ pk_encode pk = pk_encode (rn_pubkey c)
    end.
Proof.
  unfold configure_multimode. intros Hr.
  apply st_bind_Ret in Hr as (s1 & conf & _ & Hr).
  apply st_bind_Ret in Hr as (s2 & fp & [_ Hfp]%of_option_Ret & Hr).
  apply st_bind_Ret in Hr as (s3 & dir & [_ Hdir]%of_option_Ret & Hr).
  apply st_bind_Ret in Hr as (s4 & [pks sks] & Hkeys & Hr).
  apply map_err_Ret, get_keys_from_dir_Ret in Hkeys as [-> ->].
  apply st_bind_Ret in Hr as (s5 & key_map & Hmap & Hr).
  apply map_err_Ret, validate_public_keys_Ret in Hmap as [Hwf Hdom].
  apply st_bind_Ret in Hr as (s6 & [pk sig] & Hsig & Hr). apply map_err_Ret in Hsig.
  apply st_bind_Ret in Hr as (s7 & [] & _ & Hr). apply mret_Ret in Hr as [_ ->].
  set (sks := omap private_of (dir_entries dir)) in *.
  set (sks' := match value_of "fido-device-path" m with
    | Some path => sk_set_device_path path <$> sks | None => sks end).
  assert ((λ k, pk_encode (pubkey k)) <$> sks' = (λ k, pk_encode (pubkey k)) <$> sks) as Hsame.
  { unfold sks'. destruct (value_of "fido-device-path" m) as [path|]; [|done].
    rewrite <-list_fmap_compose. apply list_fmap_ext. intros i k _. cbn.
    by rewrite sk_set_device_path_pubkey. }
  eexists _, fp, dir. split; [done|]. split; [done|]. split; [done|]. cbn.
  destruct (multimode_get_signatory_Ret _ _ _ _ _ _ _ Hwf Hsig) as [Hhash Hfrom].
  split; [|split; [by split; apply lookup_delete_eq|split; [exact Hhash|split_and!]]].
  - split; cbn; [done| | |].
    + destruct sig as [slot yk|sk]; [|apply Hfrom].
      destruct Hfrom as (d & n & _ & Hd & Hslot & Hopen & (yk' & n1 & n2 & Hopen' & Hfetch)).
      exists yk', n2. split; [by rewrite <-Hslot, Hfetch, Hd|]. right. eauto.
    + intros blob k [Hne Hk]%lookup_delete_Some. by eapply by_encoding_keyed.
    + intros blob d [Hne Hd]%lookup_delete_Some. apply Hwf in Hd as [-> Hf]. done.
  - by rewrite dom_delete_L, by_encoding_dom, Hsame.
  - by rewrite dom_delete_L, Hdom.
  - destruct sig as [slot yk|sk]; [|apply Hfrom].
    destruct Hfrom as (d & n & Hd & _). apply elem_of_dom_2 in Hd. rewrite Hdom in Hd.
    apply elem_of_list_to_set, list_elem_of_fmap in Hd as (pk' & Heq & Hin). by exists pk'.
Qed.

(** ** A handler in order, however it was started *)

Lemma dispatch_Ret help l found s s' a :
  dispatch (N := N) help l found s = (s', Ret a) →
  ∃ name h m, (name, h) ∈ l ∧ h m s = (s', Ret a).
Proof.
  induction l as [|[name h] l IH]; cbn [dispatch]; intros Hr; [by st_inv|].
  apply st_bind_Ret in Hr as (s1 & [m|] & [-> _]%unwrap_Ret & Hr).
  - exists name, h, m. split; [apply list_elem_of_here|done].
  - apply IH in Hr as (n & h' & m & Hin & Hr). exists n, h', m.
    split; [by apply list_elem_of_further|done].
Qed.

(** Only two of the modes start the agent. *)
Lemma configure_Run help found s s' c :
  configure (N := N) help found s = (s', Ret (Run c)) →
  ∃ m, configure_singlemode m s = (s', Ret (Run c)) ∨ configure_multimode m s = (s', Ret (Run c)).
Proof.
  intros (name & h & m & Hin & Hr)%dispatch_Ret. exists m. unfold handlers in Hin.
  repeat (apply elem_of_cons in Hin as [Heq|Hin]);
    [injection Heq as -> ->..|by apply not_elem_of_nil in Hin].
  2: { by right. }
  5: { by left. }
  all: exfalso; unfold configure_immediate, configure_fido_setup, configure_provision_piv,
    configure_register, configure_list_piv_keys, configure_git_config,
    configure_refresh_x509_certificate, configure_allowed_signers in Hr; by st_inv_all.
Qed.

Lemma well_started_handler_wf c (a : AgentWorld N) : well_started c → handler_wf (start_handler c a).
Proof. intros Hc. split; cbn; [done|]. intros blob k Hk. by apply (ws_keyed _ Hc). Qed.

Lemma configure_well_started `{!ShellLaws, !SshCertsLaws} help found s s' c :
  configure (N := N) help found s = (s', Ret (Run c)) → well_started c ∧ offered_once c.
Proof.
  intros (m & [Hr|Hr])%configure_Run.
  - by apply singlemode_well_started in Hr as (c' & [= <-] & Hc).
  - by apply configure_multimode_Ret in Hr as (c' & fp & dir & [= <-] & _ & _ & Hc & Ho & _).
Qed.

(** C36: multi mode serves its directory: the key it asks certificates for is the
    one of the given fingerprint, and the list of identities of the agent it
    starts holds, besides that key and its certificate, exactly the keys of the
    directory - the private keys and the public keys of Yubikey slots.  A key
    file that asks for certificates is used as it was read: the FIDO device that
    the command line names is set on the other keys only. *)
Theorem multimode_serves_its_directory `{!ShellLaws, !SshCertsLaws} m s s' c a st' l :
  configure_multimode (N := N) m s = (s', Ret (Run c)) →
  identities (rn_handler c) (start_handler c a) = (st', Ret (RIdentities l)) →
  ∃ fp dir ids tail, value_of "cert-for" m = Some fp ∧ value_of "key-dir" m = Some dir ∧
    pk_hash (rn_pubkey c) = fp ∧ l = ids ++ tail ∧
    (∀ blob, blob ∈ key_blob <$> ids ↔ blob ≠ pk_encode (rn_pubkey c) ∧
      ((∃ k, k ∈ omap private_of (dir_entries dir) ∧ blob = pk_encode (pubkey k)) ∨
       (∃ pk, pk ∈ omap public_of (dir_entries dir) ∧ blob = pk_encode pk))) ∧
    pk_encode (rn_pubkey c) ∈ key_blob <$> tail ∧ (length tail ≤ 2)%nat ∧
    match ha_signatory (rn_handler c) with
    | SDirect k => k ∈ omap private_of (dir_entries dir)
    | SYubikey _ _ =>
        ∃ pk, pk ∈ omap public_of (dir_entries dir) ∧ pk_encode pk = pk_encode (rn_pubkey c)
    end.
Proof.
  intros Hr Hl.
  apply configure_multimode_Ret in Hr
    as (c' & fp & dir & [= <-] & Hfp & Hdir & Hc & Ho & Hhash & Hids & Hpiv & Hsig).
  destruct (every_identity_is_listed (rn_handler c) (start_handler c a)) as [Hp|Hlist].
  { by rewrite Hl in Hp. }
  destruct Hlist as (ids & tail & Heq & Hin & Htail). rewrite Hl in Heq. cbn in Heq, Hin.
  injection Heq as ->. exists fp, dir, ids, tail. split_and!; try done.
  - intros blob. rewrite list_elem_of_fmap. split.
    + intros (i & -> & [(b & k & Hk & ->)|(b & d & Hd & ->)]%Hin); cbn.
      * pose proof (ws_keyed _ Hc _ _ Hk) as ->. destruct Ho as [Ho _].
        split; [congruence|]. left.
        apply elem_of_dom_2 in Hk. rewrite Hids in Hk.
        apply elem_of_difference in Hk as [Hk _].
        apply elem_of_list_to_set, list_elem_of_fmap in Hk as (k' & -> & Hk'). by exists k'.
      * destruct (ws_piv _ Hc _ _ Hd) as (-> & _).
        destruct Ho as [_ Ho]. split; [congruence|]. right.
        apply elem_of_dom_2 in Hd. rewrite Hpiv in Hd.
        apply elem_of_difference in Hd as [Hd _].
        apply elem_of_list_to_set, list_elem_of_fmap in Hd as (pk & -> & Hpk). by exists pk.
    + intros (Hne & [(k & Hk & ->)|(pk & Hpk & ->)]).
      * assert (pk_encode (pubkey k) ∈ dom (rn_identities c)) as Hk'.
        { rewrite Hids. apply elem_of_difference. split; [|set_solver].
          apply elem_of_list_to_set, list_elem_of_fmap. by exists k. }
        apply elem_of_dom in Hk' as [k' Hk']. pose proof (ws_keyed _ Hc _ _ Hk') as Heq.
        eexists. split; [|apply Hin; left; by exists (pk_encode (pubkey k)), k']. done.
      * assert (pk_encode pk ∈ dom (ha_piv_identities (rn_handler c))) as Hk'.
        { rewrite Hpiv. apply elem_of_difference. split; [|set_solver].
          apply elem_of_list_to_set, list_elem_of_fmap. by exists pk. }
        apply elem_of_dom in Hk' as [d Hd]. destruct (ws_piv _ Hc _ _ Hd) as (Heq & _).
        eexists. split; [|apply Hin; right; by exists (pk_encode pk), d]. done.
  - rewrite <-(ws_pubkey _ Hc). revert Htail.
    destruct (get_certificate_async _ _ _).2 as [[cert|]| |];
      intros Ht; cbv zeta in Ht; [destruct (ha_certificate_priority _)|..]; subst tail; cbn; set_solver.
  - revert Htail. destruct (get_certificate_async _ _ _).2 as [[cert|]| |];
      intros Ht; cbv zeta in Ht; [destruct (ha_certificate_priority _)|..]; subst tail; cbn; lia.
Qed.
End StartedAgent.
