(* ===== verification/AgentMain.v ===== *)
(** * The agent: the command line program

    [main] of [rustica-agent-cli/src/main.rs]: what each action that
    [configure] chose does, with the library, to the terminal and to the
    files. *)
From Stdlib Require Import ZArith Lia.
From S2P Require Import Prelude Machine Text Deps Proto AgentProtocol AgentConfig AgentClient.
From S2P Require Import AgentHandler AgentSocket Shell Cli CliModes.

(** Texts for the terminal only: [{:?}] of the errors, [{:#}] of a certificate
    and [{:?}] of the bytes of an X.509 certificate, when they parse. *)
Class TerminalText `{SshCerts} := {
  configuration_error_debug : ConfigurationError → string;
  library_error_debug : RusticaAgentLibraryError → string;
  cert_pretty : Certificate PublicKey → string;
  x509_debug : bytes → option string;
}.

(** What [main] can fail with. *)
Inductive MainError : Type :=
| MainLibrary (e : RusticaAgentLibraryError)
| MainSigning
| MainIo (e : string)
| MainSsh (e : SSHCertsError).

Section Main.
Context `{SshCerts, !Yubikeys, !Shell, !Fido, !TerminalText, Zstd, Hex, AgentEnv, AgentToml, MapOrder,
  !Clap} {N : Type} `{!Rpc N}.

#[local] Abbreviation main_st := (st (ShellWorld N) MainError).

Definition tab : string := String "009" "".

(** ** What the actions do *)

Fixpoint println_all {E} (lines : list string) : st (ShellWorld N) E () :=
  match lines with
  | [] => mret ()
  | l :: lines => println l;; println_all lines
  end.

Definition list_fido : main_st () :=
  devices ← in_agent (device list_fido_devices);
  println_all ((λ d, fd_path d +:+ " - " +:+ fd_product_string d) <$> devices).

Definition piv_key_line (show_full : bool) (des : YubikeyPIVKeyDescriptor) : string :=
  let key_form := if show_full then pk_to_string (pd_public_key des)
                  else pk_hash (pd_public_key des) in
  int_to_string (pd_serial des) +:+ tab +:+ slot_debug (pd_slot des) +:+ ":" +:+ tab +:+ key_form.
Definition list_piv_keys (show_full : bool) : main_st () :=
  all_keys ← map_err MainLibrary (in_agent get_all_piv_keys);
  println_all ((λ x, piv_key_line show_full x.2) <$> iterate all_keys).

Definition provision_piv (config : ProvisionPIVConfig) : main_st () :=
  attestation ← in_agent (provision_new_key (pv_slot config) (pv_yubikey config) (pv_pin config)
    (pv_subject config) (pv_management_key config) (pv_require_touch config)
    (pv_pin_policy config));
  match attestation with
  | Some _ => mret ()
  | None => println "Provisioning Error";; throw MainSigning
  end.

(** [File::create(&out)?], the attempt at its mode - which is set on a copy of
    the permissions only - and the write. *)
Definition write_key_file (out : string) (key : PrivateKey) : main_st () :=
  map_err MainIo (file_create out);;
  ok ← file_metadata;
  (if ok : bool then mret ()
   else println ("Error: Could not set file permissions on: " +:+ out));;
  map_err MainIo (file_write out (sk_write key)).

(** The new key goes to the file, or to the terminal. *)
Definition deliver_key (out : option string) (key : PrivateKey) : main_st () :=
  match out with
  | Some out => write_key_file out key
  | None => println ("Your new private key handle:" +:+ newline +:+ sk_write key)
  end.

Definition provision_and_register_fido (prf : ProvisionAndRegisterFidoConfig) : main_st () :=
  new_fido_key ← in_agent (device (generate_new_ssh_key (pf_app_name prf) (pf_comment prf)
    (pf_pin prf) None));
  new_fido_key ← match new_fido_key with Ok k => mret k | Err e => throw (MainSsh e) end;
  let key := fk_private_key new_fido_key in
  map_err MainLibrary (in_agent (register_u2f_key
    (cfg_servers (uc_configuration (pf_updatable_configuration prf))) (SDirect key)
    (pf_app_name prf) (u2f_attestation (fk_attestation new_fido_key))));;
  println "Key was successfully registered!";;
  deliver_key (pf_out prf) key;;
  println ("You key fingerprint: " +:+ pk_hash (pubkey key)).

Definition register (config : RegisterConfig) : main_st () :=
  map_err MainLibrary (in_agent (register_key
    (cfg_servers (uc_configuration (rg_updatable_configuration config)))
    (rg_signatory config) (rg_attestation config)));;
  println "Key was successfully registered".

Definition immediate (config : ImmediateConfig) : main_st () :=
  '(cert, _) ← map_err MainLibrary (in_agent (fetch_new_certificate
    (im_updatable_configuration config) (im_signatory config)
    (im_certificate_options config) false));
  match im_out config with
  | Some out_file =>
      map_err MainIo (file_create out_file);;
      map_err MainIo (file_write out_file (cert_to_string cert))
  | None => println (cert_pretty cert)
  end.

Definition refresh_attested_x509 (config : RefreshAttestedX509Config) : main_st () :=
  answer ← attempt (in_agent (fetch_new_attested_x509_certificate
    (cfg_servers (uc_configuration (rx_updatable_configuration config))) (rx_signatory config)));
  match answer with
  | Ok cert =>
      match rx_signatory config with
      | SYubikey slot yk =>
          ok ← in_agent (device (yk_unlock yk (as_bytes (rx_pin config))
            (rx_management_key config)));
          (if ok : bool then mret () else panic);;
          ok ← in_agent (device (yk_write_certificate yk slot cert));
          (if ok : bool then mret () else panic)
      | SDirect _ =>
          parsed_cert ← unwrap (x509_debug cert);
          println ("Certificate: " +:+ parsed_cert)
      end
  | Err e => println ("Error: " +:+ library_error_debug e)
  end.

Definition print_allowed_signers (config : UpdatableConfiguration) : main_st () :=
  allowed_signers ← map_err MainLibrary (in_agent (get_allowed_signers
    (cfg_servers (uc_configuration config))));
  println allowed_signers.

(** The agent that is started: its handler and its socket, where the program
    then waits. *)
Record Started : Type := {
  sd_handler : Handler;
  sd_listening : Listening (S := HandlerState N);
}.

(** [UnixListener::bind] and what is before the loop. *)
Definition bind_and_listen {E} (c : RunConfig) : st (ShellWorld N) E Started :=
  fault ← io_call;
  s ← get;
  listening ← of_outcome (E := E)
    (match listen (bool_decide (fault = None)) (start_handler c (sh_agent s)) with
     | Ret l => Ret l | _ => Panic end);
  mret {| sd_handler := rn_handler c; sd_listening := listening |}.

Definition run_agent (config : RunConfig) : main_st Started :=
  println "Starting Rustica Agent";;
  println ("Access Fingerprint: " +:+ pk_hash (rn_pubkey config));;
  println ("SSH_AUTH_SOCK=" +:+ rn_socket_path config +:+ "; export SSH_AUTH_SOCK;");;
  bind_and_listen config.

(** ** main *)

Definition perform (action : RusticaAgentAction) : main_st (option Started) :=
  match action with
  | Run config => started ← run_agent config; mret (Some started)
  | GitConfig public_key => println (git_config_from_public_key public_key);; mret None
  | ListFidoDevices => list_fido;; mret None
  | ListPIVKeys show_full => list_piv_keys show_full;; mret None
  | ProvisionPIV config => provision_piv config;; mret None
  | ProvisionAndRegisterFido prf => provision_and_register_fido prf;; mret None
  | Register config => register config;; mret None
  | Immediate config => immediate config;; mret None
  | RefreshAttestedX509 config => refresh_attested_x509 config;; mret None
  | GetAllowedSigners config => print_allowed_signers config;; mret None
  end.

(** The agent it starts, if it starts one. *)
Definition main (help : string) (found : option (string * ArgMatches))
    : main_st (option Started) :=
  action ← attempt (configure help found);
  match action with
  | Ok action => perform action
  | Err NoMode => mret None
  | Err e => println ("Error: " +:+ configuration_error_debug e);; mret None
  end.
End Main.

(** ** Lemmas *)

Section MainLemmas.
Context `{SshCerts, !Yubikeys, !Shell, !Fido, !TerminalText, Zstd, Hex, AgentEnv, AgentToml, MapOrder,
  !Clap} {N : Type} `{!Rpc N}.
Implicit Types s : ShellWorld N.

Lemma map_err_io_run {S A} (m : st S string A) (s s' : S) r :
  map_err MainIo m s = (s', r) → ∃ o, m s = (s', o) ∧
    match o with Ret x => r = Ret x | Raise e => r = Raise (MainIo e) | Panic => r = Panic end.
Proof. apply map_err_run. Qed.

(** The key file afterwards: the key's text, with the mode of the file that was
    there before or of any new file. *)
Lemma write_key_file_run out key s s' r :
  write_key_file out key s = (s', r) →
  (∀ p, p ≠ out → sh_files s' !! p = sh_files s !! p) ∧ prints (sh_agent s) (sh_agent s') ∧
  match r with
  | Ret _ => sh_files s' !! out =
      Some (mkFile (sk_write key) (file_mode (emptied s out)))
  | Raise e => ∃ text, e = MainIo text
  | Panic => False
  end.
Proof.
  unfold write_key_file. intros [(s1 & u & Hc & Hrun)|[(e & Hc & ->)|[Hc ->]]]%st_bind_run.
  all: apply map_err_io_run in Hc as (o & Hc & Ho); apply file_create_run in Hc as [Ht Hc].
  2: { destruct o; simplify_eq. destruct Ht as (-> & ? & ?). split_and!; [done..|by eexists]. }
  2: by destruct o.
  destruct o; simplify_eq.
  apply st_bind_run in Hrun as [(s2 & ok & Hm & Hrun)|[(e & Hm & ->)|[Hm ->]]]; [|done..].
  injection Hm as <- <-.
  apply st_bind_run in Hrun as [(s3 & u' & Hp & Hrun)|[(e & Hp & ->)|[Hp ->]]];
    [|by case_bool_decide..].
  assert (sh_files s3 = sh_files s1 ∧ prints (sh_agent s1) (sh_agent s3)) as [Hfiles Hagent]
    by (case_bool_decide; injection Hp as <- _; split; [done..|by eexists]).
  apply map_err_io_run in Hrun as (o & Hw & Ho').
  eapply file_write_run in Hw as [Ht' Hw]; [|by rewrite Hfiles].
  destruct Ht as (Ha & _ & Hq), Ht' as (Ha' & _ & Hq').
  split; [intros p Hp'; by rewrite Hq', Hfiles, Hq|]. split; [by rewrite Ha', <-Ha|].
  destruct o; simplify_eq; [by rewrite Hw|by eexists|done].
Qed.

(** A server answered [x]; the ones before it failed. *)
Definition first_answer {A} (f : RusticaRemote → st (AgentWorld N) RefreshError A)
    (servers : list RusticaRemote) (x : A) (a a' : AgentWorld N) : Prop :=
  ∃ tried server rest a1, servers = tried ++ server :: rest ∧ all_failed f tried a a1 ∧
    f server a1 = (a', Ret x).

(** And that was said. *)
Definition answered_aloud {A} (f : RusticaRemote → st (AgentWorld N) RefreshError A)
    (servers : list RusticaRemote) (x : A) (a a' : AgentWorld N) : Prop :=
  ∃ a1, first_answer f servers x a a1 ∧ prints a1 a'.

(** A server accepted the registration. *)
Definition registered_with (f : RusticaRemote → st (AgentWorld N) RefreshError ())
    (servers : list RusticaRemote) : AgentWorld N → AgentWorld N → Prop :=
  first_answer f servers ().

Lemma first_server_outcome {A} e (f : RusticaRemote → st (AgentWorld N) RefreshError A) l a a' r :
  first_server e f l a = (a', r) →
  match r with
  | Ret x => first_answer f l x a a'
  | Raise e' => e' = e ∧ all_failed f l a a'
  | Panic => True
  end.
Proof.
  intros [[-> Hall]|(tried & server & rest & a1 & o & -> & Hall & Hf & Ho)]%first_server_run;
    [done|]. destruct o; [subst r|done|by subst r]. by eexists _, _, _, _.
Qed.

(** What is done with the new key changes no other file and nothing the library
    sees but standard output. *)
Lemma deliver_key_run out key s s' r :
  deliver_key out key s = (s', r) →
  (∀ p, out ≠ Some p → sh_files s' !! p = sh_files s !! p) ∧ prints (sh_agent s) (sh_agent s') ∧
  match r with
  | Ret _ => match out with
      | Some out => file_contents <$> sh_files s' !! out = Some (sk_write key)
      | None => ("Your new private key handle:" +:+ newline +:+ sk_write key) ∈ sh_out s'
      end
  | Raise e => is_Some out ∧ ∃ text, e = MainIo text
  | Panic => False
  end.
Proof.
  unfold deliver_key. destruct out as [out|].
  - intros (Hq & Ha & Hf)%write_key_file_run. split; [intros p Hp; apply Hq; congruence|].
    split; [done|]. destruct r; [by rewrite Hf|by eauto|done].
  - intros [= <- <-]. cbn. split_and!; [done|by eexists|set_solver].
Qed.

(** The library when the new key has been made. *)
Definition key_made (a : AgentWorld N) : AgentWorld N :=
  mkAgentWorld (ag_net a) (ag_clock a) (S (ag_device a)) (ag_notified a) (ag_writes a) (ag_disk a)
    (ag_out a).

(** The registration of a new FIDO key by one server. *)
Definition asks_for_fido prf k (server : RusticaRemote) : st (AgentWorld N) RefreshError () :=
  register_u2f_key_async server (SDirect (fk_private_key k)) (pf_app_name prf)
    (u2f_attestation (fk_attestation k)).
Definition fido_servers prf : list RusticaRemote :=
  cfg_servers (uc_configuration (pf_updatable_configuration prf)).

(** Either no server has the key, and the program stops; or one has, and the key
    is delivered. *)
Lemma provision_and_register_fido_run prf s s' r :
  provision_and_register_fido prf s = (s', r) →
  sh_files s' = sh_files s ∧ sh_out s' = sh_out s ∧
    match r with
    | Ret _ | Raise (MainIo _) => False
    | Raise (MainLibrary _) => ∃ k,
        all_failed (asks_for_fido prf k) (fido_servers prf) (key_made (sh_agent s)) (sh_agent s')
    | Raise _ => ag_net (sh_agent s') = ag_net (sh_agent s)
    | Panic => True
    end ∨
  ∃ k a s1, generate_new_ssh_key (pf_app_name prf) (pf_comment prf) (pf_pin prf) None
      (ag_device (sh_agent s)) = Ok k ∧
    registered_with (asks_for_fido prf k) (fido_servers prf) (key_made (sh_agent s)) a ∧
    prints a (sh_agent s1) ∧ sh_files s1 = sh_files s ∧
    (deliver_key (pf_out prf) (fk_private_key k);;
     println ("You key fingerprint: " +:+ pk_hash (pubkey (fk_private_key k)))) s1 = (s', r).
Proof.
  unfold provision_and_register_fido.
  intros [(s1 & res & Hg & Hrun)|[(e & Hg & ->)|[Hg ->]]]%st_bind_run;
    [injection Hg as <- <-|done..].
  apply st_bind_run in Hrun as [(s2 & k & Hk & Hrun)|[(e & Hk & ->)|[Hk ->]]].
  2: { destruct (generate_new_ssh_key _ _ _ _ _); [done|]. injection Hk as <- <-. by left. }
  2: by destruct (generate_new_ssh_key _ _ _ _ _).
  destruct (generate_new_ssh_key _ _ _ _ _) as [k'|] eqn:Hgen; [|done]. injection Hk as <- ->.
  apply st_bind_run in Hrun as [(s3 & u & Hreg & Hrun)|[(e & Hreg & ->)|[Hreg ->]]].
  all: apply map_err_run in Hreg as (o & Hreg & Ho); apply in_agent_run in Hreg as (a & Hreg & ->);
    cbn in Hreg; pose proof (run_preserves _ _ _ _ _ (silent_register_u2f_key _ _ _ _) Hreg) as Hquiet;
    apply first_server_outcome in Hreg; destruct o as [[]| |]; simplify_eq; cbn.
  - right. apply st_bind_run in Hrun as [(s4 & [] & Hp & Hrun)|[(e & Hp & ->)|[Hp ->]]];
      [injection Hp as <-|done..].
    eexists k, a, _. split_and!; [done|exact Hreg| | |exact Hrun]; [by eexists|done].
  - left. destruct Hreg as [-> Hreg]. split_and!; [done..|]. by exists k.
  - by left.
Qed.

(** ** Properties *)

(** C38: a FIDO key that a server registered is not lost silently: the program
    ends well only when one of the servers accepted the key and its private half
    is in the file, alone, or on the terminal; when no server accepts it no
    file is touched and nothing is printed; and when the file cannot be written
    the program says so, although the key is registered.  No other file is ever
    changed. *)
Theorem registered_fido_key_is_delivered prf s s' r :
  provision_and_register_fido prf s = (s', r) →
  (∀ p, pf_out prf ≠ Some p → sh_files s' !! p = sh_files s !! p) ∧
  let registered k :=
    generate_new_ssh_key (pf_app_name prf) (pf_comment prf) (pf_pin prf) None
      (ag_device (sh_agent s)) = Ok k ∧
    ∃ a, answered_aloud (asks_for_fido prf k) (fido_servers prf) () a (sh_agent s') in
  match r with
  | Ret _ => ∃ k, registered k ∧ match pf_out prf with
      | Some out => file_contents <$> sh_files s' !! out = Some (sk_write (fk_private_key k))
      | None => ("Your new private key handle:" +:+ newline +:+ sk_write (fk_private_key k))
          ∈ sh_out s'
      end
  | Raise (MainIo _) => is_Some (pf_out prf) ∧ ∃ k, registered k
  | Raise _ | Panic => sh_files s' = sh_files s ∧ sh_out s' = sh_out s
  end.
Proof.
  intros [(Hf & Ho & Hr)|(k & a & s1 & Hgen & Hreg & Hs1 & Hf & Hrun)]%provision_and_register_fido_run.
  { split; [by intros; rewrite Hf|]. by destruct r as [|[]|]. }
  apply st_bind_run in Hrun as [(s2 & [] & Hd & Hrun)|[(e & Hd & ->)|[Hd ->]]];
    apply deliver_key_run in Hd as (Hq & Ha & Hd).
  - injection Hrun as <- <-. cbn.
    split; [intros p Hp; by rewrite Hq, Hf|]. exists k.
    split; [split; [done|]|destruct (pf_out prf); [done|set_solver]].
    eexists _, _. split; [exact Hreg|]. etrans; [exact Hs1|]. etrans; [exact Ha|]. by eexists.
  - destruct Hd as (Hout & text & ->). split; [intros p Hp; by rewrite Hq, Hf|].
    split; [done|]. exists k. split; [done|]. eexists _, _. split; [exact Hreg|]. by etrans.
  - done.
Qed.
End MainLemmas.
