(* ===== verification/Ffi.v ===== *)
(** * The foreign function interface: starting agents

    [rustica-agent/src/ffi/agent.rs].  A C string is the bytes before its zero
    byte; a pointer that may be null is an option, and so is a pointer that is
    returned.  An array with its length is a list. *)
From Stdlib Require Import ZArith Lia.
From S2P Require Import Prelude Machine Text Deps Proto AgentProtocol AgentConfig AgentClient.
From S2P Require Import AgentHandler AgentSocket Shell Cli CliModes CommandLine AgentMain.

(** ** C strings *)

(** [CStr::to_str]. *)
Definition to_str (p : bytes) : option string := from_utf8 p.

(** [CString::new]: a zero byte inside is refused, with the text of the error. *)
Definition nul_position (s : string) : option nat :=
  fst <$> list_find (λ b, b = Byte.x00) (as_bytes s).
Definition cstring_new (s : string) : result string bytes :=
  match nul_position s with
  | None => Ok (as_bytes s)
  | Some n => Err ("nul byte found in provided data at position: " +:+ int_to_string (Z.of_nat n))
  end.
Definition cstring_or_null (s : string) : option bytes :=
  match cstring_new s with Ok c => Some c | Err _ => None end.

(** A parameter that may be null: what is used when it is, and whether the text
    can be read. *)
Definition nullable {A} (default : A) (f : string → A) (p : option bytes) : option A :=
  match p with None => Some default | Some p => f <$> to_str p end.

Section Ffi.
Context `{SshCerts, !Yubikeys, !Shell, Zstd, Hex, AgentEnv, AgentToml, MapOrder} {N : Type}.

(** No error type: a function returns or panics. *)
#[local] Abbreviation ffi_st := (st (ShellWorld N) Empty_set).

(** Return early. *)
Definition or_return {A B} (o : option A) (b : B) (f : A → ffi_st B) : ffi_st B :=
  match o with Some a => f a | None => mret b end.
Definition or_null {A B} (o : option A) (f : A → ffi_st (option B)) : ffi_st (option B) :=
  or_return o None f.

(** [UpdatableConfiguration::new(config_path)] of a C string; why it failed is
    only logged. *)
Definition configuration_at (config_path : bytes) : option UpdatableConfiguration :=
  path ← to_str config_path;
  match updatable_new path with Ok c => Some c | Err _ => None end.

(** ** Agents *)

(** The agent that runs once [run_with_termination_channel] was spawned: a
    socket that cannot be bound ends its task only. *)
Definition spawn_agent {E} (c : RunConfig) : st (ShellWorld N) E Started :=
  fault ← io_call;
  s ← get;
  let h := start_handler c (sh_agent s) in
  mret {| sd_handler := rn_handler c;
          sd_listening := match listen (bool_decide (fault = None)) h with
                          | Ret l => l
                          | _ => mkListening h false [] []
                          end |}.

(** The identities in further slots: of each the serial, the slot and the pin. *)
Fixpoint open_piv_identities (keys : list (Z * SlotId * option string))
    (piv_identities : gmap bytes YubikeyPIVKeyDescriptor)
    : ffi_st (option (gmap bytes YubikeyPIVKeyDescriptor)) :=
  match keys with
  | [] => mret (Some piv_identities)
  | (serial, slot, pin) :: keys =>
      yk ← in_agent (device (yk_open serial));
      or_null yk (λ yk,
      pubkey ← in_agent (device (yk_fetch_pubkey yk slot));
      or_null pubkey (λ pubkey,
      subject ← in_agent (device (yk_fetch_subject yk slot));
      open_piv_identities keys (<[pk_encode pubkey :=
        {| pd_serial := serial; pd_slot := slot; pd_public_key := pubkey; pd_pin := pin;
           pd_subject := default "" subject |}]> piv_identities)))
  end.

(** A pin is a number, and zero is none. *)
Definition piv_pin (x : Z) : option string :=
  let pin := as_u32 x in if decide (pin ≠ 0) then Some (int_to_string pin) else None.

(** [{:?}] of a text without characters that are escaped. *)
Definition quoted (s : string) : string := String "034" (s +:+ String "034" "").

Definition with_authority (authority : string) (c : CertificateConfig) : CertificateConfig :=
  {| cc_principals := cc_principals c; cc_hosts := cc_hosts c; cc_cert_type := cc_cert_type c;
     cc_duration := cc_duration c; cc_authority := authority |}.

(** What the agent for a key is made of. *)
Definition direct_run_config (socket_path : string) (private_key : PrivateKey)
    (updatable_configuration : UpdatableConfiguration) (authority : string)
    (piv_identities : gmap bytes YubikeyPIVKeyDescriptor) (certificate_priority : bool)
    : RunConfig :=
  {| rn_socket_path := socket_path;
     rn_pubkey := pubkey private_key;
     rn_handler :=
       {| ha_pubkey := pubkey private_key;
          ha_signatory := SDirect private_key;
          ha_certificate_options := with_authority authority
            (certificate_config_from (cfg_options (uc_configuration updatable_configuration)));
          ha_piv_identities := piv_identities;
          ha_notification_function := true;
          ha_certificate_priority := certificate_priority |};
     rn_configuration := updatable_configuration;
     rn_identities := ∅ |}.

Definition start_direct_rustica_agent_with_piv_idents
    (private_key config_path socket_path : bytes) (pin device_path : option bytes)
    (authority : bytes) (certificate_priority : bool) (piv_serials piv_slots piv_pins : list Z)
    : ffi_st (option Started) :=
  println "Starting a new Rustica instance!";;
  or_null (configuration_at config_path) (λ updatable_configuration,
  or_null (to_str socket_path) (λ socket_path,
  println ("Socket path: " +:+ socket_path);;
  or_null (to_str authority) (λ authority,
  or_null (to_str private_key ≫= sk_from_string) (λ private_key,
  or_null (nullable private_key (λ pin, sk_set_pin pin private_key) pin) (λ private_key,
  or_null (nullable private_key (λ d, sk_set_device_path d private_key) device_path) (λ private_key,
  let key_serials := as_u32 <$> piv_serials in
  let piv_pins := piv_pin <$> piv_pins in
  or_null (mapM slot_try_from piv_slots) (λ key_slots,
  piv ← open_piv_identities (zip (zip key_serials key_slots) piv_pins) ∅;
  or_null piv (λ piv_identities,
  println ("Fingerprint: " +:+ quoted (pk_hash (pubkey private_key)));;
  println "Additional Fingerprints:";;
  println_all ((λ x, pk_hash (pd_public_key x.2)) <$> iterate piv_identities);;
  rt ← runtime_new;
  if rt : bool then
    started ← spawn_agent (direct_run_config socket_path private_key updatable_configuration
      authority piv_identities certificate_priority);
    mret (Some started)
  else mret None)))))))).

Definition start_direct_rustica_agent (private_key config_path socket_path : bytes)
    (pin device_path : option bytes) (authority : bytes) (certificate_priority : bool)
    : ffi_st (option Started) :=
  start_direct_rustica_agent_with_piv_idents private_key config_path socket_path pin device_path
    authority certificate_priority [] [] [].

Definition start_yubikey_rustica_agent (yubikey_serial slot : Z) (config_path socket_path : bytes)
    (authority : bytes) (certificate_priority : bool) : ffi_st (option Started) :=
  println "Starting a new Rustica instance!";;
  or_null (to_str authority) (λ authority,
  or_null (configuration_at config_path) (λ updatable_configuration,
  rt ← runtime_new;
  if rt : bool then
    let certificate_options := with_authority authority
      (certificate_config_from (cfg_options (uc_configuration updatable_configuration))) in
    yk ← in_agent (device (yk_open yubikey_serial));
    yk ← unwrap yk;
    slot ← unwrap (slot_try_from slot);
    pubkey ← in_agent (device (yk_fetch_pubkey yk slot));
    or_null pubkey (λ pubkey,
    signer ← in_agent (device (yk_open yubikey_serial));
    signer ← unwrap signer;
    println ("Slot: Ok(" +:+ slot_debug slot +:+ ")");;
    or_null (to_str socket_path) (λ socket_path,
    started ← spawn_agent
      {| rn_socket_path := socket_path;
         rn_pubkey := pubkey;
         rn_handler :=
           {| ha_pubkey := pubkey;
              ha_signatory := SYubikey slot signer;
              ha_certificate_options := certificate_options;
              ha_piv_identities := ∅;
              ha_notification_function := true;
              ha_certificate_priority := certificate_priority |};
         rn_configuration := updatable_configuration;
         rn_identities := ∅ |};
    mret (Some started)))
  else mret None)).

Definition ffi_get_git_config_string_from_private_key (private_key : bytes) : option bytes :=
  private_key ← to_str private_key ≫= sk_from_string;
  cstring_or_null (git_config_from_public_key (pubkey private_key)).

(** The certificate of a running agent, for the process it runs in: what
    happens to the handler, what is printed and what is returned. *)
Definition ffi_get_certificate `{!Rpc N} (rai : Handler) (fetch_new_cert_if_needed : bool)
    : st (HandlerState N) Empty_set (list string * option bytes) :=
  answer ← attempt (get_certificate_async rai fetch_new_cert_if_needed);
  mret (match answer with
        | Ok (Some certificate) =>
            match cstring_new (cert_to_string certificate) with
            | Ok c => ([], Some c)
            | Err e => (["failed to create a new CSTring from serialized cert: " +:+ e], None)
            end
        | Ok None => ([], None)
        | Err e => (["failed to fetch certificate: " +:+ library_error_to_string e], None)
        end).

(** The end of an agent: the message to its listener is sent by a task of the
    runtime that is dropped when the function returns.  [es] is what still
    happens until then, the message may be received or not; [cuts] where the
    tasks are. *)
Definition shutdown_rustica_agent `{!Rpc N} (self : Handler) (es : list (Event (S := HandlerState N)))
    (cuts : list (nat * nat)) (rai : Listening (S := HandlerState N))
    : option (bool * Listening (S := HandlerState N)) :=
  s ← listen_steps (handler self) true es rai;
  Some (true, drop_runtime (handler self) cuts s).
End Ffi.

Lemma or_return_run `{SshCerts, !Shell} {N A B} (o : option A) (b : B)
    (f : A → st (ShellWorld N) Empty_set B) s s' r :
  or_return o b f s = (s', r) →
  (o = None ∧ s' = s ∧ r = Ret b) ∨ (∃ a, o = Some a ∧ f a s = (s', r)).
Proof. destruct o as [a|]; [right; by exists a|]. intros [= <- <-]. by left. Qed.

(** ** Every way to start an agent *)

Section Started.
Context `{SshCerts, !Yubikeys, !Shell, !Fido, !TerminalText, Zstd, Hex, AgentEnv, AgentToml, MapOrder,
  !Clap}
  {N : Type} `{!Rpc N}.
Implicit Types (s : ShellWorld N) (d : Started (N := N)).

(** [d] was started from [s]. *)
Inductive started_from s d : Prop :=
| by_command_line help found s' :
    main help found s = (s', Ret (Some d)) → started_from s d
| by_start_direct key conf socket pin device authority priority serials slots pins s' :
    start_direct_rustica_agent_with_piv_idents key conf socket pin device authority priority
      serials slots pins s = (s', Ret (Some d)) → started_from s d
| by_start_yubikey serial slot conf socket authority priority s' :
    start_yubikey_rustica_agent serial slot conf socket authority priority s
      = (s', Ret (Some d)) → started_from s d.

(** Its handler was made from a configuration in order, and has no clients. *)
Definition in_order d : Prop :=
  ∃ c a, well_started c ∧ sd_handler d = rn_handler c ∧
    ls_handler (sd_listening d) = start_handler c a ∧ ls_clients (sd_listening d) = [].

Lemma in_order_serves d : in_order d → serves_its_clients (sd_handler d) (sd_listening d).
Proof.
  intros (c & a & Hc & -> & Hh & Hcl). apply served_serves_its_clients. split.
  - rewrite Hh. by apply well_started_handler_wf.
  - rewrite Hcl. constructor.
Qed.

Lemma bind_and_listen_in_order {E} c s s' d :
  well_started c → (bind_and_listen c : st _ E _) s = (s', Ret d) → in_order d.
Proof.
  intros Hc Hr. unfold bind_and_listen, io_call in Hr. revert Hr. st_unfold. cbn.
  case_bool_decide; [|done]. intros [= <- <-]. by exists c, (sh_agent s).
Qed.
Lemma spawn_agent_in_order {E} c s s' d :
  well_started c → (spawn_agent c : st _ E _) s = (s', Ret d) → in_order d.
Proof.
  intros Hc Hr. unfold spawn_agent, io_call in Hr. revert Hr. st_unfold. cbn.
  case_bool_decide; intros [= <- <-]; by exists c, (sh_agent s).
Qed.

Lemma main_in_order `{!ShellLaws, !SshCertsLaws} help found s s' d :
  main help found s = (s', Ret (Some d)) → in_order d.
Proof.
  unfold main. intros Hr.
  apply st_bind_Ret in Hr as (s1 & [action|e] & Ha & Hr); apply attempt_Ret in Ha.
  2: by destruct e; st_inv.
  destruct action as [c|c|c|c|c|c| |c|c|c]; cbn [perform] in Hr.
  1: { apply configure_well_started in Ha as [Hc _]. apply st_bind_Ret in Hr as (s2 & d' & Hr & Hd).
       apply mret_Ret in Hd as [-> [= ->]]. unfold run_agent in Hr.
       do 3 (apply st_bind_Ret in Hr as (? & ? & _ & Hr)). by eapply bind_and_listen_in_order. }
  all: by apply st_bind_Ret in Hr as (s2 & u & _ & [_ ?]%mret_Ret).
Qed.

Lemma or_null_Ret {A B} (o : option A) (f : A → st (ShellWorld N) Empty_set (option B)) s s' b :
  or_null o f s = (s', Ret (Some b)) → ∃ a, o = Some a ∧ f a s = (s', Ret (Some b)).
Proof. by intros [(_ & _ & [=])|Hr]%or_return_run. Qed.

Lemma open_piv_identities_Ret keys m s s' m' :
  piv_wf m → open_piv_identities keys m s = (s', Ret (Some m')) → piv_wf m'.
Proof.
  revert m s. induction keys as [|[[serial slot] pin] keys IH]; intros m s Hm; cbn.
  { intros Hr. by apply mret_Ret in Hr as [_ [= ->]]. }
  intros Hr. apply st_bind_Ret in Hr as (s1 & yk & Hyk & Hr).
  apply in_agent_Ret in Hyk as (a1 & [Hyk _]%device_Ret & _).
  apply or_null_Ret in Hr as (yk' & Hsome & Hr). rewrite Hyk in Hsome.
  apply st_bind_Ret in Hr as (s2 & pk & Hpk & Hr).
  apply in_agent_Ret in Hpk as (a2 & [Hpk _]%device_Ret & _).
  apply or_null_Ret in Hr as (pk' & Hsome' & Hr). rewrite Hpk in Hsome'.
  apply st_bind_Ret in Hr as (s3 & subject & _ & Hr). eapply IH; [|exact Hr].
  intros blob d [[<- <-]|[_ Hd]]%lookup_insert_Some; [|by apply Hm]. split; [done|].
  by eexists yk', _, _.
Qed.

Lemma start_direct_in_order `{!ShellLaws} key conf socket pin device authority priority serials slots
    pins s s' d :
  start_direct_rustica_agent_with_piv_idents key conf socket pin device authority priority
    serials slots pins s = (s', Ret (Some d)) → in_order d.
Proof.
  unfold start_direct_rustica_agent_with_piv_idents. intros Hr.
  apply st_bind_Ret in Hr as (? & ? & _ & Hr). apply or_null_Ret in Hr as (c & _ & Hr).
  apply or_null_Ret in Hr as (path & _ & Hr). apply st_bind_Ret in Hr as (? & ? & _ & Hr).
  do 5 apply or_null_Ret in Hr as (? & _ & Hr).
  apply st_bind_Ret in Hr as (? & piv & Hpiv & Hr). apply or_null_Ret in Hr as (m & -> & Hr).
  do 4 (apply st_bind_Ret in Hr as (? & ? & _ & Hr)).
  match type of Hr with (if ?b then _ else _) _ = _ => destruct b end; [|by st_inv].
  apply st_bind_Ret in Hr as (? & d' & Hd & Hr). apply mret_Ret in Hr as [-> [= ->]].
  eapply spawn_agent_in_order; [|exact Hd].
  split; cbn; [done|done|by intros blob k ?%lookup_empty_Some|].
  eapply open_piv_identities_Ret; [|exact Hpiv]. by intros blob k ?%lookup_empty_Some.
Qed.

Lemma start_yubikey_in_order serial slot conf socket authority priority s s' d :
  start_yubikey_rustica_agent serial slot conf socket authority priority s
    = (s', Ret (Some d)) → in_order d.
Proof.
  unfold start_yubikey_rustica_agent. intros Hr.
  apply st_bind_Ret in Hr as (? & ? & _ & Hr). do 2 apply or_null_Ret in Hr as (? & _ & Hr).
  apply st_bind_Ret in Hr as (? & [] & _ & Hr); [|by st_inv].
  apply st_bind_Ret in Hr as (? & yk & Hyk & Hr).
  apply in_agent_Ret in Hyk as (? & [Hyk _]%device_Ret & _).
  apply st_bind_Ret in Hr as (? & yk1 & [_ Hyk1]%unwrap_Ret & Hr).
  apply st_bind_Ret in Hr as (? & sl & _ & Hr).
  apply st_bind_Ret in Hr as (? & pk & Hpk & Hr).
  apply in_agent_Ret in Hpk as (? & [Hpk _]%device_Ret & _).
  apply or_null_Ret in Hr as (pk1 & Hpk1 & Hr).
  apply st_bind_Ret in Hr as (? & sg & Hsg & Hr).
  apply in_agent_Ret in Hsg as (? & [Hsg _]%device_Ret & _).
  apply st_bind_Ret in Hr as (? & sg1 & [_ Hsg1]%unwrap_Ret & Hr).
  apply st_bind_Ret in Hr as (? & ? & _ & Hr). apply or_null_Ret in Hr as (? & _ & Hr).
  apply st_bind_Ret in Hr as (? & d' & Hd & Hr). apply mret_Ret in Hr as [-> [= ->]].
  rewrite Hyk in Hyk1. rewrite Hpk in Hpk1. rewrite Hsg in Hsg1.
  eapply spawn_agent_in_order; [|exact Hd].
  split; cbn; [done| |by intros blob k ?%lookup_empty_Some..].
  eexists yk1, _. split; [exact Hpk1|]. right. eauto.
Qed.

(** What the library does to the handler of a running agent is an event that
    [serves_its_clients] allows. *)
Lemma ffi_get_certificate_event (self : Handler) fetch :
  library_event (N := N) self (Called (λ h, (ffi_get_certificate self fetch h).1)).
Proof.
  exists fetch. intros h. unfold ffi_get_certificate, attempt. st_unfold.
  by destruct (get_certificate_async self fetch h) as [h' []].
Qed.

(** An agent that is shut down, whenever that is, leaves no connection open:
    each has received a beginning of the answers to its requests in order, and
    nothing of what it had received before is taken back. *)
Theorem shutdown_cuts_the_last_answer_only d es0 l es cuts b l2 :
  in_order d → Forall (library_event (sd_handler d)) (es0 ++ es) →
  listen_steps (handler (sd_handler d)) true es0 (sd_listening d) = Some l →
  shutdown_rustica_agent (sd_handler d) es cuts l = Some (b, l2) →
  b = true ∧ ls_accepting l2 = false ∧
  Forall (λ c, is_Some (cl_ended c) ∧ cut_conversation (handler (sd_handler d)) handler_wf c) (ls_clients l2) ∧
  ∃ l1, listen_steps (handler (sd_handler d)) true es l = Some l1 ∧
    ∀ i c, ls_clients l1 !! i = Some c →
      ∃ c', ls_clients l2 !! i = Some c' ∧ cl_output c `prefix_of` cl_output c'.
Proof.
  intros (c & a & Hc & Hd & Hh & Hcl) [He0 He]%Forall_app Hs0. unfold shutdown_rustica_agent.
  destruct (listen_steps _ true es l) as [l1|] eqn:Hs1; [|done]. intros [= <- <-].
  split; [done|]. split; [done|].
  assert (∀ q (h : HandlerState N), handler_wf h →
    handler_wf (handle_request (handler (sd_handler d)) q h).1) as HI
    by (intros; by apply handle_request_keeps_wf).
  assert (∀ e, library_event (sd_handler d) e → keeps handler_wf e) as Hk
    by (intros e; apply library_event_keeps).
  assert (served (handler (sd_handler d)) handler_wf (sd_listening d)) as Hserved.
  { split; [rewrite Hh; by apply well_started_handler_wf|rewrite Hcl; constructor]. }
  eapply listen_steps_served in Hserved; [|done|by eapply (Forall_impl _ _ _ He0)|exact Hs0].
  eapply listen_steps_served in Hserved; [|done|by eapply (Forall_impl _ _ _ He)|exact Hs1].
  split; [by apply drop_runtime_cut|]. exists l1. split; [done|].
  intros i c0 Hi. by apply drop_runtime_keeps.
Qed.

(** C8: however an agent is started - from the command line, or by another
    program for a key or for a slot of a Yubikey - it starts in order: the
    public key it offers is the one its signatory signs with, every loaded key
    and every slot is filed under its own encoding.  And it serves its clients:
    however their requests interleave with each other and with calls of the
    library, the bytes written on a connection are the answers to the requests
    read, in order, and every signature is of the data asked for, by the key
    asked for. *)
Theorem started_agents_serve_their_clients `{!ShellLaws, !SshCertsLaws} s d :
  started_from s d → in_order d ∧ serves_its_clients (sd_handler d) (sd_listening d).
Proof.
  intros Hd. assert (in_order d) as Ho; [|split; [done|by apply in_order_serves]].
  destruct Hd as [help found s' Hr|key conf socket pin device authority priority serials slots pins s' Hr
    |serial slot conf socket authority priority s' Hr].
  - by eapply main_in_order.
  - by eapply start_direct_in_order.
  - by eapply start_yubikey_in_order.
Qed.
End Started.
