(* ===== verification/FfiEnroll.v ===== *)
(** * The foreign function interface: new keys

    [rustica-agent/src/ffi/enrollment.rs]: a new FIDO key in a file, or a new
    key in a slot of a Yubikey, registered with one of the configured servers;
    and [ffi_refresh_x509_certificate] of [yubikey_utils.rs].  What they return
    is a number or a truth value. *)
From Stdlib Require Import ZArith Lia.
From S2P Require Import Prelude Machine Text Deps Proto AgentProtocol AgentConfig AgentClient.
From S2P Require Import AgentHandler AgentSocket Shell Cli CliModes CommandLine AgentMain Ffi.

(** [GenerateAndEnrollStatus] and its values. *)
Variant GenerateAndEnrollStatus := Success | ConfigurationFailure | ParameterError | PinRequired
  | KeyLocked | KeyBlocked | UnknownAttemptsRemaining | InternalError | KeyFileError
  | KeyRegistrationError.
Definition enroll_status (s : GenerateAndEnrollStatus) : Z :=
  match s with
  | Success => 0 | ConfigurationFailure => 1 | ParameterError => 2 | PinRequired => 3
  | KeyLocked => 4 | KeyBlocked => 5 | UnknownAttemptsRemaining => 6 | InternalError => 7
  | KeyFileError => 8 | KeyRegistrationError => 9
  end.

Section FfiEnroll.
Context `{SshCerts, !Yubikeys, !Shell, !Fido, Zstd, Hex, AgentEnv, AgentToml} {N : Type} `{!Rpc N}.

#[local] Abbreviation ffi_st := (st (ShellWorld N) Empty_set).

(** Return a status early. *)
Definition or_status {A} (o : option A) (e : GenerateAndEnrollStatus) (f : A → ffi_st Z)
    : ffi_st Z := or_return o (enroll_status e) f.

(** The loop over the servers: the address of the first that accepts. *)
Fixpoint first_to_accept {A} (f : RusticaRemote → st (AgentWorld N) RefreshError A)
    (servers : list RusticaRemote) : ffi_st (option (RusticaRemote * A)) :=
  match servers with
  | [] => mret None
  | server :: servers =>
      answer ← attempt (in_agent (f server));
      match answer with
      | Ok x => mret (Some (server, x))
      | Err _ => first_to_accept f servers
      end
  end.

(** What the device said when no key was made. *)
Definition generation_failure (e : SSHCertsError) : Z :=
  match e with
  | FidoInvalidPin (Some attempts) =>
      if decide (attempts = 0) then enroll_status UnknownAttemptsRemaining else - attempts
  | FidoKeyLocked => enroll_status KeyLocked
  | FidoKeyBlocked => enroll_status KeyBlocked
  | FidoPinRequired => enroll_status PinRequired
  | FidoInvalidPin None | OtherSshError _ => enroll_status InternalError
  end.

(** The new key goes to the file; what was written of it is removed when that
    fails.  (The mode is set on a copy of the permissions.) *)
Definition save_key (out : string) (key : PrivateKey) : ffi_st bool :=
  out_file ← attempt (file_create out);
  match out_file with
  | Err _ => mret false
  | Ok _ =>
      ok ← file_metadata;
      if negb ok then mret false
      else
        written ← attempt (file_write out (sk_write key));
        match written with
        | Err _ => (attempt (remove_file out) : ffi_st (result string ()));; mret false
        | Ok _ => mret true
        end
  end.

(** The key is offered to the servers, and its file removed when none accepts. *)
Definition offer_key (servers : list RusticaRemote) (out : string) (new_fido_key : FidoSSHKey)
    : ffi_st Z :=
  accepted ← first_to_accept (λ server, register_u2f_key_async server
    (SDirect (fk_private_key new_fido_key)) "ssh:"
    (u2f_attestation (fk_attestation new_fido_key))) servers;
  match accepted with
  | Some (server, _) =>
      println ("Key was successfully registered with server: " +:+ rr_address server);;
      mret (enroll_status Success)
  | None =>
      removed ← attempt (remove_file out);
      match removed with Ok _ => mret (enroll_status KeyRegistrationError) | Err _ => panic end
  end.

Definition enroll_key (servers : list RusticaRemote) (out : string) (new_fido_key : FidoSSHKey)
    : ffi_st Z :=
  rt ← runtime_new;
  if negb rt then mret (enroll_status InternalError)
  else
    saved ← save_key out (fk_private_key new_fido_key);
    if negb saved then mret (enroll_status KeyFileError)
    else offer_key servers out new_fido_key.

Definition ffi_generate_and_enroll_fido (config_path out : bytes)
    (comment pin device_path : option bytes) : ffi_st Z :=
  or_status (configuration_at config_path) ConfigurationFailure (λ updatable_configuration,
  or_status (to_str out) ParameterError (λ out,
  or_status (nullable "FFI-RusticaAgent-Generated-Key" id comment) ParameterError (λ comment,
  or_status (nullable None Some pin) ParameterError (λ pin,
  or_status (nullable None Some device_path) ParameterError (λ device_path,
  new_fido_key ← in_agent (device (generate_new_ssh_key "ssh:" comment pin device_path));
  match new_fido_key with
  | Err e => mret (generation_failure e)
  | Ok new_fido_key =>
      enroll_key (cfg_servers (uc_configuration updatable_configuration)) out new_fido_key
  end))))).

(** ** Yubikeys *)

Definition touch_policy_of (touch_policy : Z) : YkTouchPolicy :=
  if decide (touch_policy = 0) then TouchPolicyNever
  else if decide (touch_policy = 1) then TouchPolicyCached else TouchPolicyAlways.
Definition pin_policy_of_u8 (pin_policy : Z) : YkPinPolicy :=
  if decide (pin_policy = 0) then PinPolicyNever
  else if decide (pin_policy = 1) then PinPolicyOnce else PinPolicyAlways.

Definition generate_and_enroll (yubikey_serial slot touch_policy pin_policy : Z)
    (subject config_path pin management_key : bytes) : ffi_st bool :=
  println "Generating and enrolling a new key!";;
  or_return (configuration_at config_path) false (λ updatable_configuration,
  management_key ← unwrap (to_str management_key);
  management_key ← unwrap (hex_decode management_key);
  slot ← unwrap (slot_try_from slot);
  yk ← in_agent (device (yk_open yubikey_serial));
  yk ← unwrap yk;
  pin ← unwrap (to_str pin);
  unlocked ← in_agent (device (yk_unlock yk (as_bytes pin) management_key));
  if negb unlocked then println "Could not unlock key";; mret false
  else
  subject ← unwrap (to_str subject);
  ok ← in_agent (device (yk_provision yk slot subject (touch_policy_of touch_policy)
    (pin_policy_of_u8 pin_policy)));
  if negb ok then mret false
  else
  certificate ← in_agent (device (yk_fetch_attestation yk slot));
  intermediate ← in_agent (device (yk_fetch_certificate yk slot_attestation));
  match certificate, intermediate with
  | Ok certificate, Some intermediate =>
      rt ← runtime_new;
      if negb rt then mret false
      else
      accepted ← first_to_accept (λ server, register_key_async server (SYubikey slot yk)
        {| ap_certificate := certificate; ap_intermediate := intermediate |})
        (cfg_servers (uc_configuration updatable_configuration));
      match accepted with
      | Some (server, _) =>
          println ("Key was successfully registered with server: " +:+ rr_address server);;
          mret true
      | None => mret false
      end
  | _, _ => mret false
  end).

Definition ffi_refresh_x509_certificate (yubikey_serial slot : Z)
    (config_path pin management_key : bytes) : ffi_st bool :=
  println "Refreshing certificate!";;
  or_return (configuration_at config_path) false (λ updatable_configuration,
  management_key ← unwrap (to_str management_key);
  management_key ← unwrap (hex_decode management_key);
  slot ← unwrap (slot_try_from slot);
  yk ← in_agent (device (yk_open yubikey_serial));
  yk ← unwrap yk;
  pin ← unwrap (to_str pin);
  unlocked ← in_agent (device (yk_unlock yk (as_bytes pin) management_key));
  if negb unlocked then println "Could not unlock key";; mret false
  else
  rt ← runtime_new;
  if negb rt then mret false
  else
  issued ← first_to_accept (λ server, refresh_attested_x509_certificate_async server
    (SYubikey slot yk)) (cfg_servers (uc_configuration updatable_configuration));
  match issued with
  | Some (server, c) =>
      println ("Certificate was issued from server: " +:+ rr_address server);;
      yk ← in_agent (device (yk_open yubikey_serial));
      yk ← unwrap yk;
      unlocked ← in_agent (device (yk_unlock yk (as_bytes pin) management_key));
      (if unlocked : bool then mret () else panic);;
      in_agent (device (yk_write_certificate yk slot c))
  | None => mret false
  end).
End FfiEnroll.

(** ** Lemmas *)

Section EnrollLemmas.
Context `{SshCerts, !Yubikeys, !Shell, !Fido, Zstd, Hex, AgentEnv, AgentToml} {N : Type} `{!Rpc N}.
Implicit Types s : ShellWorld N.

Lemma first_to_accept_run {A} (f : RusticaRemote → st (AgentWorld N) RefreshError A) l s s' r :
  first_to_accept f l s = (s', r) →
  s' = mkShell (sh_agent s') (sh_files s) (sh_io s) ∧
  match r with
  | Ret (Some (_, x)) => first_answer f l x (sh_agent s) (sh_agent s')
  | Ret None => all_failed f l (sh_agent s) (sh_agent s')
  | Raise _ => False
  | Panic => ∃ server a, server ∈ l ∧ (f server a).2 = Panic
  end.
Proof.
  revert s. induction l as [|server l IH]; intros s; cbn [first_to_accept].
  { intros [= <- <-]. destruct s. by split; [|constructor]. }
  unfold mbind at 1, st_bind at 1, attempt at 1, in_agent at 1.
  destruct (f server (sh_agent s)) as [a [x|e|]] eqn:Hf.
  - intros [= <- <-]. split; [done|]. by eexists [], server, l, _; split; [|split; [constructor|]].
  - intros Hr. apply IH in Hr as [Hs Hr]. cbn in Hs, Hr. split; [done|].
    destruct r as [[[server' x]|]|[]|]; [| |].
    + destruct Hr as (tried & server1 & rest & a1 & -> & Hall & Ha).
      exists (server :: tried), server1, rest, a1. split_and!; [done|by econstructor|done].
    + by econstructor.
    + destruct Hr as (server1 & a1 & Hin & Ha). exists server1, a1. split; [by right|done].
  - intros [= <- <-]. split; [done|]. exists server, (sh_agent s). split; [by left|by rewrite Hf].
Qed.

(** What a server is asked to register. *)
#[local] Abbreviation asks k := (λ server, register_u2f_key_async (N := N) server
  (SDirect (fk_private_key k)) "ssh:" (u2f_attestation (fk_attestation k))).

(** Two calls of the system in a row failed. *)
Definition twice_failed : Prop := ∃ n, is_Some (io_fault n) ∧ is_Some (io_fault (S n)).

(** The file does not hold a new key: it is as it was, gone or empty - or the
    system would not let it go. *)
Definition holds_no_key (out : string) s s' : Prop :=
  sh_files s' !! out = sh_files s !! out ∨
  from_option (λ f, file_contents f = "") True (sh_files s' !! out) ∨ twice_failed.

Lemma save_key_run out key s s' r :
  save_key out key s = (s', r) → touches out s s' ∧
  match r with
  | Ret true => file_contents <$> sh_files s' !! out = Some (sk_write key)
  | Ret false => holds_no_key out s s'
  | _ => False
  end.
Proof.
  unfold save_key.
  intros [(s1 & o & Hc & Hrun)|[([] & _)|[Hc _]]]%st_bind_run;
    apply attempt_run in Hc as (o' & Hc & Ho); apply file_create_run in Hc as [Ht1 Hc]; [|by destruct o'].
  destruct o' as [[]|e|]; simplify_eq.
  2: { injection Hrun as <- <-. split; [done|]. left. by rewrite Hc. }
  apply st_bind_run in Hrun as [(s2 & ok & Hm & Hrun)|[([] & _)|[Hm _]]]; [|done].
  assert (touches out s1 s2 ∧ sh_files s2 = sh_files s1) as [Ht2 Hf2] by (by injection Hm as <- _).
  rewrite <-Hf2 in Hc.
  destruct ok; cbn [negb] in Hrun.
  2: { injection Hrun as <- <-. split; [by etrans|]. right. left. by rewrite Hc. }
  apply st_bind_run in Hrun as [(s3 & o & Hw & Hrun)|[([] & _)|[Hw _]]];
    apply attempt_run in Hw as (o' & Hw & Ho);
    (eapply file_write_run in Hw as [Ht3 Hw]; [|exact Hc]); [|by destruct o'].
  destruct o' as [[]|e|]; simplify_eq.
  - injection Hrun as <- <-. split; [by etrans; [|etrans]|]. by rewrite Hw.
  - destruct Hw as (Hio & Hn & Hex).
    apply st_bind_run in Hrun as [(s4 & o & Hr & Hrun)|[([] & _)|[Hr _]]];
      apply attempt_run in Hr as (o' & Hr & Ho); apply remove_file_run in Hr as [Ht4 Hr]; [|by destruct o'].
    injection Hrun as <- <-. split; [by do 2 (etrans; [done|]); etrans|]. right.
    destruct o' as [[]|e'|]; [by left; rewrite Hr| |done]. right.
    destruct Hr as [_ [Hr|Hr]]; [|by rewrite Hr in Hex; destruct Hex].
    exists (sh_io s2). rewrite Hio, <-Hn. by eauto.
Qed.

(** A server accepts the key, or all refuse it and the file is removed - or the
    system refuses that, which panics. *)
Lemma offer_key_run servers out k s s' r :
  offer_key servers out k s = (s', r) →
  (∀ p, p ≠ out → sh_files s' !! p = sh_files s !! p) ∧
  match r with
  | Ret v =>
      (v = 0 ∧ answered_aloud (asks k) servers () (sh_agent s) (sh_agent s') ∧
        sh_files s' = sh_files s) ∨
      (v ≠ 0 ∧ all_failed (asks k) servers (sh_agent s) (sh_agent s') ∧ sh_files s' !! out = None)
  | Raise _ => False
  | Panic => (∃ server a, server ∈ servers ∧ (asks k server a).2 = Panic) ∨
      (all_failed (asks k) servers (sh_agent s) (sh_agent s') ∧
       (is_Some (io_fault (sh_io s)) ∨ sh_files s !! out = None))
  end.
Proof.
  unfold offer_key.
  intros [(s1 & o & Ha & Hrun)|[([] & _)|[Ha ->]]]%st_bind_run; apply first_to_accept_run in Ha as [Hs1 Ha].
  2: { split; [by rewrite Hs1|]. by left. }
  destruct o as [[server []]|]; cbn in Ha.
  { injection Hrun as <- <-. split; [by rewrite Hs1|]. left. cbn.
    split_and!; [done| |by rewrite Hs1]. eexists. split; [exact Ha|]. by eexists. }
  apply st_bind_run in Hrun as [(s2 & o & Hr & Hrun)|[([] & _)|[Hr _]]];
    apply attempt_run in Hr as (o' & Hr & Ho); apply remove_file_run in Hr as [(Hag & _ & Hq) Hr];
    [|by destruct o'].
  assert (sh_files s1 = sh_files s ∧ sh_io s1 = sh_io s) as [Hf1 Hio] by (by rewrite Hs1).
  rewrite Hf1 in Hr, Hq. rewrite Hio in Hr.
  destruct o' as [[]|e'|]; simplify_eq; injection Hrun as <- <-; (split; [done|]); right;
    rewrite Hag; [done|]. by destruct Hr.
Qed.

(** Whether a server has the key and where it is. *)
Definition enrolled (servers : list RusticaRemote) (out : string) (k : FidoSSHKey) s s' : Prop :=
  answered_aloud (asks k) servers () (sh_agent s) (sh_agent s') ∧
  file_contents <$> sh_files s' !! out = Some (sk_write (fk_private_key k)).
Definition not_enrolled (servers : list RusticaRemote) (out : string) (k : FidoSSHKey) s s' : Prop :=
  (sh_agent s' = sh_agent s ∨ all_failed (asks k) servers (sh_agent s) (sh_agent s')) ∧
  holds_no_key out s s'.

Lemma enroll_key_run servers out k s s' r :
  enroll_key servers out k s = (s', r) →
  (∀ p, p ≠ out → sh_files s' !! p = sh_files s !! p) ∧
  match r with
  | Ret v => (v = 0 ∧ enrolled servers out k s s') ∨ (v ≠ 0 ∧ not_enrolled servers out k s s')
  | Raise _ => False
  | Panic => (∃ server a, server ∈ servers ∧ (asks k server a).2 = Panic) ∨
      (∃ n, is_Some (io_fault n))
  end.
Proof.
  unfold enroll_key.
  intros [(s1 & rt & Hrt & Hrun)|[([] & _)|[Hrt _]]]%st_bind_run; [|done].
  assert (sh_files s1 = sh_files s ∧ sh_agent s1 = sh_agent s) as [Hf1 Ha1] by (by injection Hrt as <- _).
  destruct rt; cbn [negb] in Hrun.
  2: { injection Hrun as <- <-. split; [by rewrite Hf1|]. right. split; [done|].
       split; [by left|]. left. by rewrite Hf1. }
  apply st_bind_run in Hrun as [(s2 & saved & Hs & Hrun)|[([] & _)|[Hs _]]];
    apply save_key_run in Hs as [(Ha2 & _ & Hq) Hs]; [|done].
  rewrite Ha1 in Ha2. rewrite Hf1 in Hq.
  destruct saved; cbn [negb] in Hrun.
  2: { injection Hrun as <- <-. split; [done|]. right. split; [done|]. split; [by left|].
       unfold holds_no_key in *. by rewrite Hf1 in Hs. }
  apply offer_key_run in Hrun as [Hq' Hr]. split; [intros p Hp; by rewrite Hq', Hq|].
  rewrite Ha2 in Hr. destruct r as [v|[]|].
  - destruct Hr as [(-> & Hreg & Hf)|(Hv & Hall & Hf)].
    + left. split; [done|]. split; [done|]. by rewrite Hf.
    + right. split; [done|]. split; [by right|]. right. left. by rewrite Hf.
  - destruct Hr as [Hr|[_ [Hr|Hr]]]; [by left|right; by eexists|]. by rewrite Hr in Hs.
Qed.

(** The device made the key [k]: the state after that. *)
Definition generated (comment pin device_path : option bytes) (k : FidoSSHKey) s s1 : Prop :=
  s1 = (in_agent (E := Empty_set) (device (λ _, ())) s).1 ∧
  ∃ c p d, nullable "FFI-RusticaAgent-Generated-Key" id comment = Some c ∧
    nullable None Some pin = Some p ∧ nullable None Some device_path = Some d ∧
    generate_new_ssh_key "ssh:" c p d (ag_device (sh_agent s)) = Ok k.

Lemma generation_failure_ne e : generation_failure e ≠ 0.
Proof. destruct e as [[n|]| | | |]; cbn; [case_decide; cbn; lia|done..]. Qed.

(** ** Properties *)

(** C12: a key that a program enrolls through the interface is either enrolled or
    gone.  The result is 0 only when a server of the configuration registered
    the key that the device made and the file holds it; with any other result
    no key was made and nothing was touched, or every server that was asked
    refused the key and the file does not hold it, unless the system failed on
    the file twice in a row.  No other file is ever changed, and the call panics
    only if a registration does or if the system fails. *)
Theorem enrolled_keys_are_registered config_path out comment pin dev s s' r :
  ffi_generate_and_enroll_fido config_path out comment pin dev s = (s', r) →
  (∀ p, to_str out ≠ Some p → sh_files s' !! p = sh_files s !! p) ∧
  match r with
  | Ret v =>
      (v ≠ 0 ∧ sh_files s' = sh_files s ∧ ag_net (sh_agent s') = ag_net (sh_agent s)) ∨
      ∃ conf path k s1, configuration_at config_path = Some conf ∧ to_str out = Some path ∧
        generated comment pin dev k s s1 ∧
        let servers := cfg_servers (uc_configuration conf) in
        (v = 0 ∧ enrolled servers path k s1 s') ∨ (v ≠ 0 ∧ not_enrolled servers path k s1 s')
  | Raise _ => False
  | Panic => (∃ server k a, (asks k server a).2 = Panic) ∨ (∃ n, is_Some (io_fault n))
  end.
Proof.
  unfold ffi_generate_and_enroll_fido. intros Hr.
  apply or_return_run in Hr as [(_ & -> & ->)|(conf & Hconf & Hr)]; [by split; [|left]|].
  apply or_return_run in Hr as [(_ & -> & ->)|(path & Hpath & Hr)]; [by split; [|left]|].
  apply or_return_run in Hr as [(_ & -> & ->)|(c & Hc & Hr)]; [by split; [|left]|].
  apply or_return_run in Hr as [(_ & -> & ->)|(p & Hp & Hr)]; [by split; [|left]|].
  apply or_return_run in Hr as [(_ & -> & ->)|(d & Hd & Hr)]; [by split; [|left]|].
  apply st_bind_run in Hr as [(s1 & g & Hg & Hr)|[([] & _)|[Hg _]]]; [|done].
  assert (s1 = (in_agent (E := Empty_set) (device (λ _, ())) s).1) as Hs1 by (by injection Hg as <- _).
  assert (sh_files s1 = sh_files s) as Hf1 by (by rewrite Hs1).
  injection Hg as _ Hg.
  destruct g as [k|e].
  2: { injection Hr as <- <-. split; [by rewrite Hf1|]. left.
       split; [apply generation_failure_ne|]. by rewrite Hs1. }
  apply enroll_key_run in Hr as [Hq Hr]. split.
  { intros q Hne. rewrite Hq, Hf1; [done|congruence]. }
  destruct r as [v|[]|]; [|destruct Hr as [(server & a & _ & Hr)|Hr]; [left; eauto|by right]].
  right. exists conf, path, k, s1. split_and!; [done..|split; [done|]|exact Hr].
  by exists c, p, d.
Qed.
End EnrollLemmas.
