(* ===== verification/FfiSigning.v ===== *)
(** * The foreign function interface: signed data

    [rustica-agent/src/ffi/allowed_signer.rs] and [signing.rs]: the file of
    allowed signers, signing data with a key file, and verifying such a
    signature against the file.  Arguments are taken as in [Ffi.v]. *)
From Stdlib Require Import ZArith Lia.
From S2P Require Import Prelude Machine Text Deps Proto AgentProtocol AgentConfig AgentClient.
From S2P Require Import AgentHandler AgentSocket Shell Cli CliModes CommandLine AgentMain Ffi.
From S2P Require Import FfiEnroll.

(** ** Lines *)

Definition cr : ascii := "013"%char.
(** A line without the carriage return before its line feed. *)
Fixpoint strip_cr (s : string) : string :=
  match s with
  | EmptyString => EmptyString
  | String a EmptyString => if decide (a = cr) then EmptyString else s
  | String a s => String a (strip_cr s)
  end.
(** [str::lines]: what follows the last line feed is a line if there is any. *)
Fixpoint lines_of (pieces : list string) : list string :=
  match pieces with
  | [] => []
  | [last] => if is_empty last then [] else [last]
  | p :: pieces => strip_cr p :: lines_of pieces
  end.
Definition lines (s : string) : list string := lines_of (split "010"%char s).

(** ** sshcerts: signatures over data *)

Class SshSignatures `{SshCerts} := {
  SshSignature : Type;
  sig_from_armored_string : string → option SshSignature;
  sig_pubkey : SshSignature → PublicKey;
  (** [==] of public keys *)
  pk_eqb : PublicKey → PublicKey → bool;
  (** [new_with_private_key(data, namespace, key, None)], as text *)
  sig_new : bytes → string → PrivateKey → option string;
  (** [from_ssh_signature(message, signature, namespace, Some(key))] *)
  sig_verifies : bytes → SshSignature → string → PublicKey → bool;
}.

(** Armored text is text, and a signature reads back and verifies under every
    key that is equal to its own. *)
Class SshSignaturesLaws `{SshSignatures} : Prop := {
  sig_new_text data namespace sk text :
    sig_new data namespace sk = Some text →
    from_utf8 (as_bytes text) = Some text ∧ Byte.x00 ∉ as_bytes text;
  sig_new_verifies data namespace sk text :
    sig_new data namespace sk = Some text →
    ∃ signature, sig_from_armored_string text = Some signature ∧
      sig_pubkey signature = pubkey sk ∧
      ∀ pk, pk_eqb (pubkey sk) pk = true → sig_verifies data signature namespace pk = true;
}.

Section FfiSigning.
Context `{SshCerts, !Yubikeys, !Shell, !SshSignatures, Zstd, Hex, AgentEnv, AgentToml}
  {N : Type} `{!Rpc N}.

#[local] Abbreviation ffi_st := (st (ShellWorld N) Empty_set).

(** ** The file of allowed signers *)

Variant GetAllowedSignersStatus := SignersSuccess | SignersConfigurationError
  | SignersParameterError | SignersInternalError | AllowedSignersFileError.
Definition signers_status (s : GetAllowedSignersStatus) : Z :=
  match s with
  | SignersSuccess => 0 | SignersConfigurationError => 1 | SignersParameterError => 2
  | SignersInternalError => 3 | AllowedSignersFileError => 4
  end.

(** The answer of the first server goes to the open file. *)
Definition fetch_to_file (servers : list RusticaRemote) (out_path : string) : ffi_st Z :=
  data ← first_to_accept get_allowed_signers_async servers;
  match data with
  | Some (server, allowed_signers) =>
      println ("Allowed signers were successfully fetched from server: " +:+ rr_address server);;
      written ← attempt (file_write out_path allowed_signers);
      mret (signers_status match written with
        | Ok _ => SignersSuccess | Err _ => AllowedSignersFileError end)
  | None => mret (signers_status SignersInternalError)
  end.

Definition ffi_get_allowed_signers (config_path out_path : bytes) : ffi_st Z :=
  or_return (configuration_at config_path) (signers_status SignersConfigurationError)
    (λ updatable_configuration,
  or_return (to_str out_path) (signers_status SignersParameterError) (λ out_path,
  rt ← runtime_new;
  if negb rt then mret (signers_status SignersInternalError)
  else
    out_file ← attempt (file_create out_path);
    match out_file with
    | Err _ => mret (signers_status AllowedSignersFileError)
    | Ok _ => fetch_to_file (cfg_servers (uc_configuration updatable_configuration)) out_path
    end)).

(** ** Signing *)

Definition ffi_sign_data (key_path namespace : bytes) (data : bytes) : option bytes :=
  key_path ← to_str key_path;
  private_key ← (match sk_from_path key_path with Ok k => Some k | Err _ => None end
    : option PrivateKey);
  namespace ← to_str namespace;
  signature ← sig_new data namespace private_key;
  cstring_or_null signature.

(** ** Verifying *)

(** A line: the name, a space and the key. *)
Definition parse_allowed_signer (allowed_signer : string) : option (PublicKey * string) :=
  '(name, key) ← split_once " "%char allowed_signer;
  k ← pk_from_string key;
  Some (k, name).

(** The first line with the key that signed. *)
Definition find_signer (key : PublicKey) (allowed_signers : string) : option (PublicKey * string) :=
  head (filter (λ x, pk_eqb key x.1 = true) (omap parse_allowed_signer (lines allowed_signers))).

Definition ffi_verify_signed_data (allowed_signers_path namespace : bytes) (data : bytes)
    (signature_contents : bytes) : ffi_st (option bytes) :=
  or_null (to_str signature_contents ≫= sig_from_armored_string) (λ ssh_signature,
  or_null (to_str allowed_signers_path) (λ allowed_signers_path,
  allowed_signers ← attempt (read_to_string allowed_signers_path);
  match allowed_signers with
  | Err _ => mret None
  | Ok allowed_signers =>
      or_null (find_signer (sig_pubkey ssh_signature) allowed_signers) (λ allowed_signer,
      or_null (to_str namespace) (λ namespace,
      if sig_verifies data ssh_signature namespace allowed_signer.1
      then mret (cstring_or_null allowed_signer.2) else mret None))
  end)).
End FfiSigning.

(** ** Lemmas *)

Lemma strip_cr_no_cr s p : ¬ has_char cr p → strip_cr (s +:+ String " " p) = s +:+ String " " p.
Proof.
  assert (∀ p, ¬ has_char cr p → strip_cr p = p) as Hp.
  { intros q. induction q as [|a [|b q] IH]; cbn; rewrite ?has_char_cons; intros Hq; [done| |].
    - rewrite decide_False by naive_solver. done.
    - f_equal. apply IH. rewrite has_char_cons. naive_solver. }
  intros Hcr. induction s as [|a s IH].
  - apply Hp. change (EmptyString +:+ String " " p) with (String " " p).
    rewrite has_char_cons. by intros [?|?].
  - change (String a s +:+ String " " p) with (String a (s +:+ String " " p)).
    cbn [strip_cr]. destruct (s +:+ String " " p) eqn:Hs; [by destruct s|]. by rewrite IH.
Qed.

Lemma lines_of_strip l : Forall (λ s, strip_cr s = s ∧ s ≠ EmptyString) l → lines_of l = l.
Proof.
  induction 1 as [|s l [Hs Hne] Hl IH]; [done|]. cbn. destruct l as [|s' l].
  - by destruct s.
  - by rewrite Hs, IH.
Qed.

Lemma lines_join l :
  l ≠ [] → Forall (λ s, ¬ has_char "010"%char s ∧ strip_cr s = s ∧ s ≠ EmptyString) l →
  lines (join newline l) = l.
Proof.
  intros Hne Hl. unfold lines, newline. rewrite split_join; [|done|].
  - apply lines_of_strip. eapply Forall_impl; [exact Hl|]. by intros s [_ ?].
  - eapply Forall_impl; [exact Hl|]. by intros s [? _].
Qed.

(** The name and the key of a signer make a line that reads back. *)
Lemma signer_line `{SshCerts} name key :
  ¬ has_char " "%char name → ¬ has_char "010"%char name → ¬ has_char "010"%char key →
  ¬ has_char cr key →
  let line := name +:+ " " +:+ key in
  (¬ has_char "010"%char line ∧ strip_cr line = line ∧ line ≠ EmptyString) ∧
  parse_allowed_signer line = (λ k, (k, name)) <$> pk_from_string key.
Proof.
  intros Hblank Hnl Hnl' Hcr line. split; [split_and!|].
  - unfold line. change (" " +:+ key) with (String " " key).
    rewrite has_char_app, has_char_cons. intros [?|[?|?]]; done.
  - by apply strip_cr_no_cr.
  - unfold line. by destruct name.
  - unfold parse_allowed_signer, line. change (" " +:+ key) with (String " " key).
    rewrite split_once_app by done. cbn. by destruct (pk_from_string key).
Qed.

Section FfiSigningLemmas.
Context `{SshCerts, !Yubikeys, !Shell, !SshSignatures, Zstd, Hex, AgentEnv, AgentToml}
  {N : Type} `{!Rpc N}.
Implicit Types s : ShellWorld N.

Lemma cstring_new_ok t : Byte.x00 ∉ as_bytes t → cstring_new t = Ok (as_bytes t).
Proof.
  intros Ht. unfold cstring_new, nul_position.
  destruct (list_find (λ b, b = Byte.x00) (as_bytes t)) as [[i b]|] eqn:Hf; [|done].
  apply list_find_Some in Hf as (Hi & -> & _). by apply list_elem_of_lookup_2 in Hi.
Qed.

Lemma fetch_to_file_run servers path s s' r f :
  sh_files s !! path = Some f → file_contents f = "" →
  fetch_to_file servers path s = (s', r) →
  (∀ p, p ≠ path → sh_files s' !! p = sh_files s !! p) ∧
  match r with
  | Ret v =>
      (v = 0 ∧ ∃ text, answered_aloud get_allowed_signers_async servers text (sh_agent s) (sh_agent s') ∧
        file_contents <$> sh_files s' !! path = Some text) ∨
      (v = 3 ∧ all_failed get_allowed_signers_async servers (sh_agent s) (sh_agent s') ∧
        sh_files s' !! path = Some f) ∨ v = 4
  | Raise _ => False
  | Panic => ∃ server a, (get_allowed_signers_async server a : AgentWorld N * outcome _ string).2 = Panic
  end.
Proof.
  intros Hf Hempty. unfold fetch_to_file.
  intros [(s1 & o & Hs & Hr)|[([] & _)|[Hs ->]]]%st_bind_run;
    apply first_to_accept_run in Hs as [Hs1 Hs].
  2: { split; [by rewrite Hs1|]. destruct Hs as (server & a & _ & Hs). eauto. }
  assert (sh_files s1 = sh_files s) as Hf1 by (by rewrite Hs1). rewrite <-Hf1 in *.
  destruct o as [[server text]|]; [|injection Hr as <- <-; by split; [|right; left]].
  apply st_bind_run in Hr as [(s2 & [] & Hp & Hr)|[([] & _)|[Hp _]]]; [|done]. injection Hp as <-.
  apply st_bind_run in Hr as [(s3 & o & Hw & Hr)|[([] & _)|[Hw _]]];
    apply attempt_run in Hw as (o' & Hw & Ho);
    (eapply file_write_run in Hw as [(Ha3 & _ & Hq3) Hw]; [|exact Hf]); [|by destruct o'].
  destruct o' as [[]|e|]; simplify_eq; injection Hr as <- <-; (split; [done|]).
  - left. split; [done|]. exists text. split; [eexists; split; [exact Hs|]; rewrite Ha3; by eexists|]. rewrite Hw. cbn. by rewrite Hempty.
  - by right; right.
Qed.

(** The file of allowed signers holds the answer of the first server that gives
    one.  The result is 0 exactly when a server answered and its list was
    written, and then the file is that list and nothing else; no other file is
    changed.  (The file is emptied before the first server is asked, so a
    refresh that no server answers loses the list that was there.) *)
Lemma ffi_get_allowed_signers_run config_path out_path s s' r :
  ffi_get_allowed_signers config_path out_path s = (s', r) →
  (∀ p, to_str out_path ≠ Some p → sh_files s' !! p = sh_files s !! p) ∧
  match r with
  | Ret v =>
      (v = 0 ∧ ∃ conf path text, configuration_at config_path = Some conf ∧
        to_str out_path = Some path ∧
        answered_aloud get_allowed_signers_async (cfg_servers (uc_configuration conf)) text
          (sh_agent s) (sh_agent s') ∧
        file_contents <$> sh_files s' !! path = Some text) ∨
      (v = 3 ∧ ∃ conf path, configuration_at config_path = Some conf ∧
        to_str out_path = Some path ∧
        (sh_files s' = sh_files s ∨
         all_failed get_allowed_signers_async (cfg_servers (uc_configuration conf)) (sh_agent s)
           (sh_agent s') ∧ sh_files s' !! path = Some (emptied s path))) ∨
      v ∈ [1; 2; 4]
  | Raise _ => False
  | Panic => ∃ server a, (get_allowed_signers_async server a : _ * outcome _ string).2 = Panic
  end.
Proof.
  unfold ffi_get_allowed_signers. intros Hr.
  apply or_return_run in Hr as [(_ & -> & ->)|(conf & Hconf & Hr)]; [by split; [|do 2 right; left]|].
  apply or_return_run in Hr as [(_ & -> & ->)|(path & Hpath & Hr)];
    [by split; [|do 2 right; right; left]|].
  apply st_bind_run in Hr as [(s1 & rt & Hrt & Hr)|[([] & _)|[Hrt _]]]; [|done].
  assert (sh_files s1 = sh_files s ∧ sh_agent s1 = sh_agent s) as [Hf1 Ha1] by (by injection Hrt as <- _).
  destruct rt; cbn [negb] in Hr.
  2: { injection Hr as <- <-. split; [by rewrite Hf1|]. right. left. split; [done|].
       exists conf, path. split_and!; [done..|by left]. }
  apply st_bind_run in Hr as [(s2 & o & Hc & Hr)|[([] & _)|[Hc _]]];
    apply attempt_run in Hc as (o' & Hc & Ho); apply file_create_run in Hc as [(Ha2 & _ & Hq2) Hc];
    [|by destruct o'].
  destruct o' as [[]|e|]; simplify_eq.
  2: { injection Hr as <- <-. split; [by rewrite Hc, Hf1|]. do 4 right. left. }
  assert (emptied s1 path = emptied s path) as Hem by (unfold emptied; by rewrite Hf1).
  rewrite Hem in Hc. apply (fetch_to_file_run _ _ _ _ _ _ Hc eq_refl) in Hr as [Hq Hr].
  rewrite Ha2, Ha1 in Hr. split; [intros p Hp; rewrite Hq, Hq2, Hf1; [done|congruence..]|].
  destruct r as [v|[]|]; [|done]. destruct Hr as [(-> & text & Hr)|[(-> & Hr)| ->]].
  - left. split; [done|]. by exists conf, path, text.
  - right. left. split; [done|]. exists conf, path. split_and!; [done..|by right].
  - do 4 right. left.
Qed.
End FfiSigningLemmas.
