(* ===== verification/FfiDevices.v ===== *)
(** * The foreign function interface: devices and expiry

    [rustica-agent/src/ffi/yubikey_utils.rs] - the refresh of a certificate is
    in [FfiEnroll.v] - and [ffi_get_expiry_of_primary_server] of [mod.rs].  A
    list that is handed out with its length is a list; that its memory is given
    back by the caller is outside of this model. *)
From Stdlib Require Import ZArith Lia.
From S2P Require Import Prelude Machine Text Deps Proto AgentProtocol AgentConfig AgentClient.
From S2P Require Import AgentHandler AgentSocket Shell Cli CliModes CommandLine AgentMain Ffi.

(** [parse_x509_pem]. *)
Class FfiLibraries := { pem_contents : string → option bytes }.

Section FfiDevices.
Context `{SshCerts, !Yubikeys, !Shell, !Fido, !TerminalText, !FfiLibraries, X509, Zstd, Hex,
  AgentEnv, AgentToml} {N : Type}.

#[local] Abbreviation ffi_st := (st (ShellWorld N) Empty_set).

(** One operation of a device that is reported when it fails. *)
Definition device_or {A B} (f : nat → option A) (message : string) (b : B) (k : A → ffi_st B)
    : ffi_st B :=
  x ← in_agent (reported f (λ e, message +:+ ": " +:+ e));
  match x with Some x => k x | None => mret b end.

(** ** FIDO devices *)

Definition ffi_does_device_need_pin (device_path : option bytes) : ffi_st Z :=
  or_return (device_path ≫= to_str) (-1) (λ device_path,
  answer ← in_agent (device (device_requires_pin device_path));
  match answer with
  | Ok true => mret 1
  | Ok false => mret 0
  | Err e => println ("Could not determine if pin is needed: " +:+ e);; mret (-1)
  end).

Definition ffi_device_pin_retries (device_path : option bytes) : ffi_st Z :=
  or_return (device_path ≫= to_str) (-1) (λ device_path,
  answer ← in_agent (device (device_pin_retries device_path));
  match answer with
  | Ok x => mret x
  | Err e => println ("Could find how many pin retries are available: " +:+ e);; mret (-1)
  end).

(** ** Yubikeys *)

(** The pointer to the serial is itself taken as the serial: [address] is where
    it points. *)
Definition unlock_yubikey (address : Z) (pin management_key : option bytes) : ffi_st Z :=
  device_or (yk_open (as_u32 address)) "Could not connect to Yubikey" (-1) (λ yk,
  or_return pin (-6) (λ pin,
  or_return (to_str pin) (-2) (λ pin,
  or_return management_key (-4) (λ management_key,
  or_return (to_str management_key) (-2) (λ management_key,
  match hex_decode management_key with
  | None => println "Invalid management key";; mret (-3)
  | Some management_key =>
      unlocked ← in_agent (reported
        (λ n, if yk_unlock yk (as_bytes pin) management_key n then Some () else None)
        (λ e, "Error unlocking key: " +:+ e));
      match unlocked with
      | Some _ => mret 0
      | None =>
          tries ← in_agent (device (yk_pin_retries yk));
          mret (default (-9) tries)
      end
  end))))).

Definition list_yubikeys : ffi_st (option (list Z)) :=
  serials ← attempt (in_agent list_yubikey_serials);
  match serials with
  | Ok serials => mret (Some serials)
  | Err e => println (library_error_debug e);; mret None
  end.

(** The retired slots that have a subject, as text. *)
Fixpoint list_slots (yk : Yubikey) (slots : list Z) : ffi_st (list bytes) :=
  match slots with
  | [] => mret []
  | n :: slots =>
      slot ← unwrap (retired_slot_try_from n);
      subj ← in_agent (device (yk_fetch_subject yk slot));
      match subj with
      | Some subj =>
          key ← expect_ok (cstring_new (slot_debug slot +:+ " - " +:+ subj));
          keys ← list_slots yk slots;
          mret (key :: keys)
      | None => list_slots yk slots
      end
  end.
Definition list_keys (yubikey_serial : Z) : ffi_st (option (list bytes)) :=
  yk ← in_agent (device (yk_open yubikey_serial));
  or_null yk (λ yk, keys ← list_slots yk (seqZ 130 20); mret (Some keys)).

Definition check_yubikey_slot_provisioned (yubikey_serial slot_id : Z) : ffi_st bool :=
  yk ← in_agent (device (yk_open yubikey_serial));
  or_return yk false (λ yk,
  or_return (slot_try_from slot_id) false (λ slot,
  subject ← in_agent (device (yk_fetch_subject yk slot));
  mret (bool_decide (subject ≠ None)))).

Definition check_yubikey_slot_certificate_expiry (yubikey_serial slot_id : Z) : ffi_st Z :=
  yk ← in_agent (device (yk_open yubikey_serial));
  or_return yk 0 (λ yk,
  or_return (slot_try_from slot_id) 0 (λ slot,
  cert ← in_agent (device (yk_fetch_certificate yk slot));
  or_return cert 0 (λ cert,
  mret match x509_from_der cert with
       | Ok cert => as_u64 (not_after_timestamp cert)
       | Err _ => 0
       end))).

Definition ffi_get_git_config_string_from_serial_and_slot (serial slot : Z) : ffi_st (option bytes) :=
  yk ← in_agent (device (yk_open serial));
  or_null yk (λ yk,
  or_null (retired_slot_try_from slot) (λ slot,
  public_key ← in_agent (device (yk_fetch_pubkey yk slot));
  or_null public_key (λ public_key,
  mret (cstring_or_null (git_config_from_public_key public_key))))).

(** ** The expiry of the credentials *)

(** The status of a bad configuration is 1, which is also a time. *)
Definition ffi_get_expiry_of_primary_server (config_path : bytes) : Z :=
  match to_str config_path with
  | None => -1
  | Some path =>
      match updatable_new path with
      | Err _ => 1
      | Ok updatable_configuration =>
          match cfg_servers (uc_configuration updatable_configuration) with
          | [] => -1
          | server :: _ =>
              match pem_contents (rr_mtls_cert server) with
              | None => -1
              | Some der =>
                  match x509_from_der der with
                  | Err _ => -2
                  | Ok cert => not_after_timestamp cert
                  end
              end
          end
      end
  end.
End FfiDevices.
