(* ===== verification/Gui.v ===== *)
(** * The graphical agent

    [rustica-agent-gui/src/main.rs]: the directories it needs, what its window
    remembers and what one frame does with the answers of the widgets.  The
    disk is any state with the operations of the standard library on it; other
    programs may change it between two frames.  The code that the Start button
    would run is commented out in the source. *)
From Stdlib Require Import ZArith Lia.
From S2P Require Import Prelude Machine Text Deps Proto AgentConfig AgentClient AgentHandler.

(** ** Paths *)

(** [Path::join], on Unix. *)
Definition path_join (base name : string) : string :=
  if starts_with "/" name then name
  else if bool_decide (base = "") || ends_with "/" base then base +:+ name
  else base +:+ "/" +:+ name.

(** [Path::file_name]: the last component, unless it is [..]. *)
Definition is_component (s : string) : bool := negb (bool_decide (s = "") || bool_decide (s = ".")).
Definition file_name (p : string) : option string :=
  name ← last (filter (λ s, is_component s = true) (split "/" p));
  if decide (name = "..") then None else Some name.

(** ** The disk *)

(** [read_dir] is [None] when the directory cannot be read, an entry is [None]
    when it cannot; a write tells its error, and what became of the disk then. *)
Class FileSystem := {
  Fs : Type;
  fs_exists : string → Fs → bool;
  fs_is_dir : string → Fs → bool;
  fs_is_file : string → Fs → bool;
  fs_create_dir : string → nat → Fs → Fs * option string;
  fs_read_dir : string → nat → Fs → option (list (option string));
  fs_write : string → bytes → nat → Fs → Fs * option string;
  home_dir : option string;
  gui_runtime_builds : bool;
  (** the text of the error of the n-th [get_pin_retries] *)
  pin_retries_error : nat → string;
}.

(** The entries of a directory are named, and a write removes none of them. *)
Class FileSystemLaws `{FileSystem} := {
  fs_entries : string → Fs → list string;
  fs_entries_named d fs p : p ∈ fs_entries d fs → is_Some (file_name p);
  fs_write_dir p c n d fs :
    fs_exists d fs = true → fs_is_dir d fs = true →
    fs_exists d (fs_write p c n fs).1 = true ∧ fs_is_dir d (fs_write p c n fs).1 = true;
  fs_write_entries p c n d fs : fs_entries d fs ⊆+ fs_entries d (fs_write p c n fs).1;
  fs_create_dir_ok d n fs fs' :
    fs_create_dir d n fs = (fs', None) → fs_exists d fs' = true ∧ fs_is_dir d fs' = true;
}.

Record GuiWorld `{FileSystem} (N : Type) : Type := mkGuiWorld {
  gw_agent : AgentWorld N;
  gw_fs : Fs;
  gw_io : nat;
}.
Arguments mkGuiWorld {_ _}.
Arguments gw_agent {_ _} _.
Arguments gw_fs {_ _} _.
Arguments gw_io {_ _} _.

Inductive RusticaAgentGuiError : Type :=
| UnableToDetermineHomeDir
| UnableToCreateDir (e : string)
| RequiredDirIsFile (path : string)
| CouldNotReadFolder (path : string).

Definition gui_error_to_string (e : RusticaAgentGuiError) : string :=
  match e with
  | UnableToDetermineHomeDir =>
      "Cannot determine your home directory so I don't know where to find keys and configs"
  | UnableToCreateDir e => "When we tried to create a directory but we got error: " +:+ e
  | RequiredDirIsFile e => "There was a regular file where we needed a directory: " +:+ e
  | CouldNotReadFolder e => "We needed to read the following folder but failed: " +:+ e
  end.

(** ** What the window remembers *)

Record YubikeyPIVKeyDescriptorWithUse `{Yubikeys} : Type := mkUse {
  ku_descriptor : YubikeyPIVKeyDescriptor;
  ku_in_use : bool;
}.

(** [shutdown_rustica] holds what stops a running agent: whether its receiver is
    still there is all that matters. *)
Record RusticaAgentGui `{Yubikeys} : Type := mkGui {
  agent_dir : string;
  environments : list string;
  selected_environment : option nat;
  shutdown_rustica : option bool;
  certificate_priority : bool;
  status : string;
  new_env_name : string;
  new_env_content : string;
  piv_keys : gmap bytes YubikeyPIVKeyDescriptorWithUse;
  unlock_pin : string;
}.

(** What the user does in one frame: the entries of the list that are clicked,
    the texts after editing, the buttons, and per key its button and checkbox. *)
Record Frame : Type := {
  fr_environment_clicked : nat → bool;
  fr_new_env_name : string → string;
  fr_new_env_content : string → string;
  fr_import : bool;
  fr_priority : bool → bool;
  fr_unlock_pin : string → string;
  fr_unlock : bytes → bool;
  fr_use : bytes → bool → bool;
  fr_stop : bool;
}.

Section Gui.
Context `{Rcgen, SshCerts, !Yubikeys, Hex, AgentEnv, MapOrder, !FileSystem} {N : Type}.

#[local] Abbreviation gui_st := (st (GuiWorld N) RusticaAgentGuiError).

Definition set_selected (i : option nat) (g : RusticaAgentGui) : RusticaAgentGui :=
  mkGui _ _ (agent_dir g) (environments g) i (shutdown_rustica g) (certificate_priority g) (status g)
    (new_env_name g) (new_env_content g) (piv_keys g) (unlock_pin g).
Definition set_environments (l : list string) (g : RusticaAgentGui) : RusticaAgentGui :=
  mkGui _ _ (agent_dir g) l (selected_environment g) (shutdown_rustica g) (certificate_priority g)
    (status g) (new_env_name g) (new_env_content g) (piv_keys g) (unlock_pin g).
Definition set_status (s : string) (g : RusticaAgentGui) : RusticaAgentGui :=
  mkGui _ _ (agent_dir g) (environments g) (selected_environment g) (shutdown_rustica g)
    (certificate_priority g) s (new_env_name g) (new_env_content g) (piv_keys g) (unlock_pin g).
Definition set_new_env (name content : string) (g : RusticaAgentGui) : RusticaAgentGui :=
  mkGui _ _ (agent_dir g) (environments g) (selected_environment g) (shutdown_rustica g)
    (certificate_priority g) (status g) name content (piv_keys g) (unlock_pin g).
Definition set_key (k : bytes) (u : YubikeyPIVKeyDescriptorWithUse) (g : RusticaAgentGui)
    : RusticaAgentGui :=
  mkGui _ _ (agent_dir g) (environments g) (selected_environment g) (shutdown_rustica g)
    (certificate_priority g) (status g) (new_env_name g) (new_env_content g)
    (<[k := u]> (piv_keys g)) (unlock_pin g).
Definition set_priority_and_pin (priority : bool) (pin : string) (g : RusticaAgentGui)
    : RusticaAgentGui :=
  mkGui _ _ (agent_dir g) (environments g) (selected_environment g) (shutdown_rustica g)
    priority (status g) (new_env_name g) (new_env_content g) (piv_keys g) pin.

(** ** Directories *)

(** A call that sees the disk, and one that changes it. *)
Definition ask_fs {A} (f : Fs → A) : gui_st A := gets (λ s, f (gw_fs s)).
Definition read_fs {A} (f : nat → Fs → A) : gui_st A := λ s,
  (mkGuiWorld (gw_agent s) (gw_fs s) (S (gw_io s)), Ret (f (gw_io s) (gw_fs s))).
Definition write_fs {A} (f : nat → Fs → Fs * A) : gui_st A := λ s,
  let '(fs, a) := f (gw_io s) (gw_fs s) in (mkGuiWorld (gw_agent s) fs (S (gw_io s)), Ret a).
Definition gui_agent {E A} (m : st (AgentWorld N) E A) : st (GuiWorld N) E A := λ s,
  let '(a, r) := m (gw_agent s) in (mkGuiWorld a (gw_fs s) (gw_io s), r).

Definition check_create_dir (path : string) : gui_st (list string) :=
  exists_ ← ask_fs (fs_exists path);
  is_dir ← ask_fs (fs_is_dir path);
  match exists_, is_dir with
  | false, _ =>
      e ← write_fs (fs_create_dir path);
      match e with Some e => throw (UnableToCreateDir e) | None => mret [] end
  | true, false => throw (RequiredDirIsFile path)
  | true, true =>
      entries ← read_fs (fs_read_dir path);
      entries ← of_option (CouldNotReadFolder path) entries;
      mret (omap id entries)
  end.

Definition load_environments : gui_st RusticaAgentGui :=
  home_dir ← of_option UnableToDetermineHomeDir home_dir;
  let rustica_agent_home := path_join home_dir ".rusticaagent" in
  check_create_dir rustica_agent_home;;
  check_create_dir (path_join rustica_agent_home "keys");;
  environments ← check_create_dir (path_join rustica_agent_home "environments");
  let selected_environment := match environments with [] => None | _ => Some 0%nat end in
  piv_keys ← attempt (gui_agent get_all_piv_keys);
  let piv_keys := match piv_keys with Ok m => m | Err _ => ∅ end in
  unwrap (if gui_runtime_builds then Some () else None);;
  mret (mkGui _ _ (path_join home_dir ".rusticaagent") environments selected_environment None true ""
    "" "" ((λ d, mkUse _ _ d false) <$> piv_keys) "").

(** ** One frame *)

(** The list of environments; the last entry that was clicked is selected. *)
Definition choose_environment (f : Frame) (g : RusticaAgentGui) : gui_st RusticaAgentGui :=
  match selected_environment g with
  | Some selected =>
      unwrap (environments g !! selected);;
      mret (set_selected (foldl
        (λ sel i, if fr_environment_clicked f i then Some i else sel) (Some selected)
        (seq 0 (length (environments g)))) g)
  | None => mret g
  end.

(** The Import button, after the texts were edited. *)
Definition import (f : Frame) (g : RusticaAgentGui) : gui_st RusticaAgentGui :=
  let g := set_new_env (fr_new_env_name f (new_env_name g))
    (fr_new_env_content f (new_env_content g)) g in
  if fr_import f then
    match base64_decode (new_env_content g) with
    | Some cfg =>
        let env_dir := path_join (agent_dir g) "environments" in
        let env_path := path_join env_dir (new_env_name g) in
        e ← write_fs (fs_write env_path cfg);
        match e with
        | Some e => mret (set_status ("Could not add environemnt: " +:+ e) g)
        | None =>
            environments ← attempt (check_create_dir env_dir);
            environments ← expect_ok (environments : result RusticaAgentGuiError _);
            mret (set_environments environments (set_status "New environment added" g))
        end
    | None => mret (set_status "Could not decode configuration" g)
    end
  else mret g.

Definition set_pin (pin : option string) (d : YubikeyPIVKeyDescriptor) : YubikeyPIVKeyDescriptor :=
  {| pd_serial := pd_serial d; pd_slot := pd_slot d; pd_public_key := pd_public_key d;
     pd_pin := pin; pd_subject := pd_subject d |}.

(** The Unlock button of a key without a PIN: the PIN is kept if the Yubikey
    takes it. *)
Definition unlock_key (k : bytes) (g : RusticaAgentGui) (d : YubikeyPIVKeyDescriptor)
    : gui_st (RusticaAgentGui * YubikeyPIVKeyDescriptor) :=
  yk ← gui_agent (device (yk_open (pd_serial d)));
  match yk with
  | Some yk =>
      management_key ← unwrap (hex_decode MANAGEMENT_KEY);
      unlocked ← gui_agent (device (yk_unlock yk (as_bytes (unlock_pin g)) management_key));
      if unlocked : bool then mret (g, set_pin (Some (unlock_pin g)) d)
      else
        n ← gets (λ s, ag_device (gw_agent s));
        retries ← gui_agent (device (yk_pin_retries yk));
        mret (match retries with
              | Some retries =>
                  set_status ("Unlock failed, " +:+ int_to_string retries +:+ " tries remaining") g
              | None => set_status ("Could not get pin retries: " +:+ pin_retries_error n) g
              end, d)
  | None => mret (set_status "Could not open Yubikey. Still connected?" g, d)
  end.

(** The rows of the keys. *)
Fixpoint key_rows (f : Frame) (rows : list (bytes * YubikeyPIVKeyDescriptorWithUse))
    (g : RusticaAgentGui) : gui_st RusticaAgentGui :=
  match rows with
  | [] => mret g
  | (k, u) :: rows =>
      '(g, d) ← (if bool_decide (pd_pin (ku_descriptor u) = None) && fr_unlock f k
                 then unlock_key k g (ku_descriptor u) else mret (g, ku_descriptor u));
      key_rows f rows (set_key k (mkUse _ _ d (fr_use f k (ku_in_use u))) g)
  end.

(** What is below the separator when an environment is selected. *)
Definition key_section (f : Frame) (g : RusticaAgentGui) : gui_st RusticaAgentGui :=
  match selected_environment g with
  | Some selected_env =>
      config_path ← unwrap (environments g !! selected_env);
      config_name ← unwrap (file_name config_path);
      let g := set_priority_and_pin (fr_priority f (certificate_priority g))
        (fr_unlock_pin f (unlock_pin g)) g in
      g ← key_rows f (iterate (piv_keys g)) g;
      let key_path := path_join (path_join (agent_dir g) "keys") config_name in
      found ← ask_fs (fs_exists key_path);
      is_file ← ask_fs (fs_is_file key_path);
      if (found : bool) && (is_file : bool) && fr_stop f then
        match shutdown_rustica g with
        | Some receiver => unwrap (if receiver then Some () else None);; mret g
        | None => mret g
        end
      else mret g
  | None => mret g
  end.

Definition update (f : Frame) (g : RusticaAgentGui) : gui_st RusticaAgentGui :=
  g ← choose_environment f g; g ← import f g; key_section f g.

(** A run: frames, and what other programs do to the disk between them. *)
Inductive Happening : Type :=
| Drawn (f : Frame)
| Elsewhere (f : Fs → Fs).
Definition happen (h : Happening) (g : RusticaAgentGui) : gui_st RusticaAgentGui :=
  match h with
  | Drawn f => update f g
  | Elsewhere f => modify (λ s, mkGuiWorld (gw_agent s) (f (gw_fs s)) (gw_io s));; mret g
  end.
Fixpoint gui_run (hs : list Happening) (g : RusticaAgentGui) : gui_st RusticaAgentGui :=
  match hs with
  | [] => mret g
  | h :: hs => g ← happen h g; gui_run hs g
  end.
Definition gui_main (hs : list Happening) : gui_st RusticaAgentGui :=
  g ← load_environments; gui_run hs g.
End Gui.

(** ** What stays true of the window *)

Section GuiLemmas.
Context `{Rcgen, SshCerts, !Yubikeys, Hex, AgentEnv, MapOrder, !FileSystem, !FileSystemLaws} {N : Type}.

#[local] Abbreviation GuiWorld := (GuiWorld N).

(** Directories can be read, every entry of them. *)
Definition disk_reads : Prop := ∀ d n fs,
  fs_exists d fs = true → fs_is_dir d fs = true →
  ∃ l, fs_read_dir d n fs = Some (Some <$> l) ∧ l ≡ₚ fs_entries d fs.

(** Directories stay and lose nothing. *)
Definition kept (fs fs' : Fs) : Prop := ∀ d,
  fs_exists d fs = true → fs_is_dir d fs = true →
  fs_exists d fs' = true ∧ fs_is_dir d fs' = true ∧ fs_entries d fs ⊆+ fs_entries d fs'.
Definition gentle (h : Happening) : Prop :=
  match h with Drawn _ => True | Elsewhere f => ∀ fs, kept fs (f fs) end.

(** A PIN that a Yubikey of this serial number took. *)
Definition accepted (serial : Z) (pin : string) : Prop := ∃ yk management_key n n',
  yk_open serial n = Some yk ∧ yk_unlock yk (as_bytes pin) management_key n' = true.

Definition env_dir (g : RusticaAgentGui) : string := path_join (agent_dir g) "environments".

Record gui_wf (g0 g : RusticaAgentGui) (s : GuiWorld) : Prop := {
  gi_selected : ∀ i, selected_environment g = Some i → (i < length (environments g))%nat;
  gi_none : selected_environment g = None ↔ selected_environment g0 = None;
  gi_named : ∀ p, p ∈ environments g → is_Some (file_name p);
  gi_dir : fs_exists (env_dir g) (gw_fs s) = true ∧ fs_is_dir (env_dir g) (gw_fs s) = true;
  gi_grows : (length (environments g) ≤ length (fs_entries (env_dir g) (gw_fs s)))%nat;
  gi_shutdown : shutdown_rustica g = None;
  gi_pins : ∀ k u p, piv_keys g !! k = Some u → pd_pin (ku_descriptor u) = Some p →
    (∃ u0, piv_keys g0 !! k = Some u0 ∧ pd_pin (ku_descriptor u0) = Some p) ∨
    accepted (pd_serial (ku_descriptor u)) p;
}.

(** A computation that ends well. *)
Definition ends_wf (g0 : RusticaAgentGui) (m : st GuiWorld RusticaAgentGuiError RusticaAgentGui)
    (s : GuiWorld) : Prop := ∃ s' g', m s = (s', Ret g') ∧ gui_wf g0 g' s'.

Lemma ends_wf_bind g0 m f s :
  ends_wf g0 m s → (∀ s' g', gui_wf g0 g' s' → ends_wf g0 (f g') s') → ends_wf g0 (m ≫= f) s.
Proof.
  intros (s1 & g1 & Hm & Hg) Hf. destruct (Hf _ _ Hg) as (s2 & g2 & Hr & Hg2).
  exists s2, g2. split; [|done]. unfold mbind, st_bind. by rewrite Hm.
Qed.

Lemma gui_wf_fs g0 g s s' :
  kept (gw_fs s) (gw_fs s') → gui_wf g0 g s → gui_wf g0 g s'.
Proof.
  intros Hk [Hs Hno Hn [Hd1 Hd2] Hg Hsh Hp]. destruct (Hk _ Hd1 Hd2) as (? & ? & Hsub).
  split; try done. etrans; [exact Hg|]. by apply submseteq_length.
Qed.

Lemma kept_refl fs : kept fs fs.
Proof. by intros d. Qed.

Lemma choose_environment_wf f g0 g s : gui_wf g0 g s → ends_wf g0 (choose_environment f g) s.
Proof.
  intros Hg. unfold choose_environment, ends_wf.
  destruct (selected_environment g) as [i|] eqn:Hsel; [|by exists s, g].
  pose proof (gi_selected _ _ _ Hg i Hsel) as Hi.
  destruct (lookup_lt_is_Some_2 _ _ Hi) as [p Hp].
  eexists s, _. unfold mbind, st_bind, unwrap. rewrite Hp. split; [done|].
  assert (∀ l j, (j < length (environments g))%nat → Forall (λ i, (i < length (environments g))%nat) l →
    ∃ j', foldl (λ sel i, if fr_environment_clicked f i then Some i else sel) (Some j) l = Some j' ∧
      (j' < length (environments g))%nat) as Hfold.
  { induction l as [|x l IH]; intros j Hj Hl; [by exists j|]. apply Forall_cons in Hl as [Hx Hl].
    cbn. destruct (fr_environment_clicked f x); by apply IH. }
  destruct (Hfold (seq 0 (length (environments g))) i Hi) as (j & Hj & Hlt).
  { apply Forall_forall. intros x Hx. apply elem_of_seq in Hx. lia. }
  rewrite Hj. destruct Hg as [Hs Hno Hn Hd Hgr Hsh Hpins]. split; cbn; try done.
  - by intros j' [= <-].
  - split; [done|]. intros Hnone. apply Hno in Hnone. congruence.
Qed.

(** Only the texts changed. *)
Lemma gui_wf_status g0 g s m : gui_wf g0 g s → gui_wf g0 (set_status m g) s.
Proof. intros []. by split. Qed.
Lemma gui_wf_new_env g0 g s n c : gui_wf g0 g s → gui_wf g0 (set_new_env n c g) s.
Proof. intros []. by split. Qed.
Lemma gui_wf_priority_and_pin g0 g s b p : gui_wf g0 g s → gui_wf g0 (set_priority_and_pin b p g) s.
Proof. intros []. by split. Qed.
#[local] Hint Resolve gui_wf_status gui_wf_new_env gui_wf_priority_and_pin : core.

(** The directory is read again: it lists no less than before. *)
Lemma check_create_dir_lists d (s : GuiWorld) :
  disk_reads → fs_exists d (gw_fs s) = true → fs_is_dir d (gw_fs s) = true →
  ∃ l, check_create_dir d s = (mkGuiWorld (gw_agent s) (gw_fs s) (S (gw_io s)), Ret l) ∧
    l ≡ₚ fs_entries d (gw_fs s).
Proof.
  intros Hreads He Hd. destruct (Hreads d (gw_io s) (gw_fs s) He Hd) as (l & Hl & Hperm).
  exists l. split; [|done]. unfold check_create_dir, ask_fs, read_fs. st_unfold.
  rewrite He, Hd. cbn. rewrite Hl. f_equal. f_equal. clear. by induction l; cbn; f_equal.
Qed.

Lemma write_fs_run {A} (f : nat → Fs → Fs * A) (s : GuiWorld) :
  write_fs f s = (mkGuiWorld (gw_agent s) (f (gw_io s) (gw_fs s)).1 (S (gw_io s)),
    Ret (f (gw_io s) (gw_fs s)).2).
Proof. unfold write_fs. by destruct (f _ _). Qed.

Lemma import_wf f g0 g s : disk_reads → gui_wf g0 g s → ends_wf g0 (import f g) s.
Proof.
  intros Hreads Hg. unfold import. set (g1 := set_new_env _ _ g).
  assert (gui_wf g0 g1 s) as Hg1 by (by apply gui_wf_new_env). clearbody g1. clear g Hg.
  destruct (fr_import f); [|by exists s, g1].
  destruct (base64_decode (new_env_content g1)) as [cfg|]; [|eexists s, _; split; [done|auto]].
  set (p := path_join (path_join _ _) _). set (s1 := mkGuiWorld (gw_agent s) (fs_write p cfg (gw_io s) (gw_fs s)).1
    (S (gw_io s))).
  assert (kept (gw_fs s) (gw_fs s1)) as Hkept.
  { intros d He Hd. destruct (fs_write_dir p cfg (gw_io s) d (gw_fs s) He Hd). split_and!; [done..|].
    apply fs_write_entries. }
  pose proof (gui_wf_fs _ _ _ _ Hkept Hg1) as Hg2.
  destruct (gi_dir _ _ _ Hg2) as [He Hd].
  destruct (check_create_dir_lists (path_join (agent_dir g1) "environments") s1 Hreads He Hd)
    as (l & Hl & Hperm).
  unfold ends_wf, mbind at 1, st_bind at 1. rewrite write_fs_run. fold s1.
  destruct (_.2) as [e|]; [eexists s1, _; split; [done|auto]|].
  eexists _, _. unfold mbind, st_bind, attempt, expect_ok. rewrite Hl. split; [done|].
  destruct Hg2 as [Hs Hno Hn Hdir Hgr Hsh Hpins]. split; cbn in *; try done.
  - intros i Hi. apply Hs in Hi. rewrite Hperm. unfold env_dir in Hgr. lia.
  - intros q. rewrite Hperm. apply fs_entries_named.
  - unfold env_dir. cbn. by rewrite Hperm.
Qed.

Lemma gui_agent_keeps {A} (f : nat → A) (s s' : GuiWorld) r :
  gui_agent (E := RusticaAgentGuiError) (device f) s = (s', r) →
  gw_fs s' = gw_fs s ∧ r = Ret (f (ag_device (gw_agent s))).
Proof. unfold gui_agent, device. by intros [= <- <-]. Qed.

(** A row whose PIN was there, is gone or was taken. *)
Lemma unlock_key_wf k g0 g d s :
  is_Some (hex_decode MANAGEMENT_KEY) → gui_wf g0 g s →
  ∃ s' g' d', unlock_key k g d s = (s', Ret (g', d')) ∧ gui_wf g0 g' s' ∧
    piv_keys g' = piv_keys g ∧ pd_serial d' = pd_serial d ∧
    (d' = d ∨ ∃ p, pd_pin d' = Some p ∧ accepted (pd_serial d) p).
Proof.
  intros [mk Hmk] Hg. unfold unlock_key.
  set (n := ag_device (gw_agent s)).
  destruct (yk_open (pd_serial d) n) as [yk|] eqn:Hopen.
  2: { eexists _, _, d. st_unfold. unfold gui_agent, device. subst n. rewrite Hopen.
       split; [done|]. split; [|by auto]. apply gui_wf_status. by eapply gui_wf_fs, Hg. }
  destruct (yk_unlock yk (as_bytes (unlock_pin g)) mk (S n)) eqn:Hun.
  all: eexists _, _, _; st_unfold; unfold gui_agent, device; subst n; rewrite Hopen, Hmk; cbn.
  all: rewrite Hun; cbn; split; [done|].
  - split; [by eapply gui_wf_fs, Hg|]. split; [done|]. split; [done|]. right. exists (unlock_pin g).
    split; [done|]. by eexists yk, mk, _, _.
  - split; [|split; [by destruct (yk_pin_retries _ _)|by auto]].
    destruct (yk_pin_retries _ _); apply gui_wf_status; by eapply gui_wf_fs, Hg.
Qed.

(** A row is put back with its descriptor or with a PIN that was taken. *)
Lemma gui_wf_set_key g0 g s k u d b :
  piv_keys g !! k = Some u → pd_serial d = pd_serial (ku_descriptor u) →
  (d = ku_descriptor u ∨ ∃ p, pd_pin d = Some p ∧ accepted (pd_serial (ku_descriptor u)) p) →
  gui_wf g0 g s → gui_wf g0 (set_key k (mkUse _ _ d b) g) s.
Proof.
  intros Hk Hser Hd [Hs Hno Hn Hdir Hgr Hsh Hpins]. split; cbn; try done.
  intros k' u' p Hu' Hp. apply lookup_insert_Some in Hu' as [[<- <-]|[_ Hu']]; [|by eapply Hpins].
  cbn in *. destruct Hd as [->|(p' & Hp' & Hacc)]; [by eapply Hpins|].
  right. rewrite Hser. by simplify_eq.
Qed.

Lemma key_rows_wf f rows g0 g s :
  is_Some (hex_decode MANAGEMENT_KEY) → NoDup rows.*1 →
  (∀ k u, (k, u) ∈ rows → piv_keys g !! k = Some u) →
  gui_wf g0 g s → ends_wf g0 (key_rows f rows g) s.
Proof.
  intros Hmk. revert g s. induction rows as [|[k u] rows IH]; intros g s Hnd Hrows Hg.
  { by exists s, g. }
  apply NoDup_cons in Hnd as [Hk Hnd].
  assert (piv_keys g !! k = Some u) as Hu by (apply Hrows; left).
  assert (∃ s1 g1 d, (if bool_decide (pd_pin (ku_descriptor u) = None) && fr_unlock f k
      then unlock_key k g (ku_descriptor u) else mret (g, ku_descriptor u)) s = (s1, Ret (g1, d)) ∧
    gui_wf g0 g1 s1 ∧ piv_keys g1 = piv_keys g ∧ pd_serial d = pd_serial (ku_descriptor u) ∧
    (d = ku_descriptor u ∨ ∃ p, pd_pin d = Some p ∧ accepted (pd_serial (ku_descriptor u)) p))
    as (s1 & g1 & d & Hrun & Hg1 & Hkeys & Hser & Hd).
  { destruct (_ && _); [by apply unlock_key_wf|]. eexists s, g, _. split; [done|]. auto. }
  cbn [key_rows]. unfold ends_wf, mbind at 1, st_bind at 1. rewrite Hrun. apply IH; [done| |].
  - intros k' u' Hin. cbn. rewrite lookup_insert_ne, Hkeys; [apply Hrows; by right|].
    intros <-. apply Hk. apply list_elem_of_fmap. by exists (k, u').
  - eapply gui_wf_set_key; [by rewrite Hkeys|done..].
Qed.

Lemma iterate_rows {A} (m : gmap bytes A) :
  NoDup (iterate m).*1 ∧ ∀ k u, (k, u) ∈ iterate m → m !! k = Some u.
Proof.
  split; [rewrite iterate_perm; apply NoDup_fst_map_to_list|].
  intros k u. rewrite iterate_perm. by apply elem_of_map_to_list.
Qed.

Lemma key_section_wf f g0 g s :
  is_Some (hex_decode MANAGEMENT_KEY) → gui_wf g0 g s → ends_wf g0 (key_section f g) s.
Proof.
  intros Hmk Hg. unfold key_section.
  destruct (selected_environment g) as [i|] eqn:Hsel; [|by exists s, g].
  destruct (lookup_lt_is_Some_2 _ _ (gi_selected _ _ _ Hg i Hsel)) as [p Hp].
  destruct (gi_named _ _ _ Hg p (list_elem_of_lookup_2 _ _ _ Hp)) as [name Hname].
  unfold ends_wf, mbind at 1, st_bind at 1, unwrap at 1. rewrite Hp.
  unfold mbind at 1, st_bind at 1, unwrap at 1. rewrite Hname.
  set (g1 := set_priority_and_pin _ _ g).
  assert (gui_wf g0 g1 s) as Hg1 by (by apply gui_wf_priority_and_pin). clearbody g1.
  apply ends_wf_bind.
  - apply key_rows_wf; [done|apply iterate_rows..|done].
  - intros s2 g2 Hg2. unfold ends_wf, ask_fs. st_unfold.
    destruct (_ && _); [|by exists s2, g2]. rewrite (gi_shutdown _ _ _ Hg2). by exists s2, g2.
Qed.

Lemma happen_wf h g0 g s :
  disk_reads → is_Some (hex_decode MANAGEMENT_KEY) → gentle h → gui_wf g0 g s →
  ends_wf g0 (happen h g) s.
Proof.
  intros Hreads Hmk Hh Hg. destruct h as [f|f]; cbn.
  - apply ends_wf_bind; [by apply choose_environment_wf|]. intros s1 g1 Hg1.
    apply ends_wf_bind; [by apply import_wf|]. intros s2 g2 Hg2. by apply key_section_wf.
  - eexists _, g. split; [done|]. eapply gui_wf_fs, Hg. apply Hh.
Qed.

Lemma gui_run_wf hs g0 g s :
  disk_reads → is_Some (hex_decode MANAGEMENT_KEY) → Forall gentle hs → gui_wf g0 g s →
  ends_wf g0 (gui_run hs g) s.
Proof.
  intros Hreads Hmk. revert g s. induction hs as [|h hs IH]; intros g s Hhs Hg; [by exists s, g|].
  apply Forall_cons in Hhs as [Hh Hhs]. cbn.
  apply ends_wf_bind; [by apply happen_wf|]. intros s1 g1 Hg1. by apply IH.
Qed.

(** ** The start *)

Lemma check_create_dir_Ret d (s s' : GuiWorld) l :
  disk_reads → check_create_dir d s = (s', Ret l) →
  fs_exists d (gw_fs s') = true ∧ fs_is_dir d (gw_fs s') = true ∧
  (∀ p, p ∈ l → is_Some (file_name p)) ∧ (length l ≤ length (fs_entries d (gw_fs s')))%nat.
Proof.
  intros Hreads Hrun. destruct (fs_exists d (gw_fs s)) eqn:He, (fs_is_dir d (gw_fs s)) eqn:Hd.
  1: { destruct (check_create_dir_lists d s Hreads He Hd) as (l' & Hl & Hperm).
       rewrite Hrun in Hl. simplify_eq. cbn. split_and!; [done..| |by rewrite Hperm].
       intros p. rewrite Hperm. apply fs_entries_named. }
  all: revert Hrun; unfold check_create_dir, ask_fs; st_unfold; rewrite He, ?Hd; try done.
  all: rewrite write_fs_run; destruct (fs_create_dir d _ _) as [fs [e|]] eqn:Hc; intros [= <- <-].
  all: apply fs_create_dir_ok in Hc as [? ?]; cbn.
  all: split_and!; [done..|intros p Hp; by apply not_elem_of_nil in Hp|lia].
Qed.

Lemma load_environments_wf (s s' : GuiWorld) g :
  disk_reads → load_environments s = (s', Ret g) →
  gui_wf g g s' ∧ (selected_environment g = None ↔ environments g = []).
Proof.
  intros Hreads Hrun. unfold load_environments in Hrun. st_inv.
  match goal with Hc : check_create_dir _ _ = (_, Ret ?l) |- _ =>
    apply check_create_dir_Ret in Hc as (He & Hd & Hn & Hl); [|done] end.
  match goal with Hg : gui_agent _ _ = _ |- _ =>
    unfold gui_agent in Hg; destruct (get_all_piv_keys _) as [a r]; apply (f_equal fst) in Hg; cbn in Hg; subst end.
  match goal with |- context [match ?l with [] => None | _ :: _ => Some 0%nat end] =>
    split; [|by destruct l]; split; cbn; try done; [intros i; destruct l; intros Hi; simplify_eq; cbn; lia|]
  end.
  intros k u p Hu Hp. left. by exists u.
Qed.

(** ** Properties *)

(** C37: the window keeps working: as long as its directories can be read and
    other programs remove nothing from them, no frame panics, whatever is
    clicked and typed; the environment that is selected is one of the list;
    every PIN that is kept was known at the start or taken by a Yubikey with
    the serial number of its key.  But an environment can be selected only if
    there was one at the start, and nothing is ever running that could be
    stopped. *)
Theorem the_window_keeps_working (s s1 : GuiWorld) g0 hs :
  disk_reads → is_Some (hex_decode MANAGEMENT_KEY) → Forall gentle hs →
  load_environments s = (s1, Ret g0) →
  ∃ s2 g, gui_run hs g0 s1 = (s2, Ret g) ∧
    (∀ i, selected_environment g = Some i → (i < length (environments g))%nat) ∧
    (selected_environment g = None ↔ environments g0 = []) ∧
    shutdown_rustica g = None ∧
    ∀ k u p, piv_keys g !! k = Some u → pd_pin (ku_descriptor u) = Some p →
      (∃ u0, piv_keys g0 !! k = Some u0 ∧ pd_pin (ku_descriptor u0) = Some p) ∨
      accepted (pd_serial (ku_descriptor u)) p.
Proof.
  intros Hreads Hmk Hhs Hload. apply load_environments_wf in Hload as [Hwf Hnone]; [|done].
  destruct (gui_run_wf hs g0 g0 s1 Hreads Hmk Hhs Hwf) as (s2 & g & Hrun & [Hs Hno Hn Hd Hg Hsh Hp]).
  exists s2, g. split; [done|]. split; [done|]. split; [by rewrite Hno|]. done.
Qed.
End GuiLemmas.
