(* ===== verification/EndToEnd.v ===== *)
(** * The agent and the server together

    The server's handlers as the service the agent talks to: the theorems of
    the two sides meet.  [peers_of] is what the TLS layer gives the server for
    the credentials of a client, [addr] where it sees the client. *)
From Stdlib Require Import ZArith Lia.
From S2P Require Import Prelude Machine Text Deps Key Auth Logging Schema World.
From S2P Require Import Authorizer Signing Proto Server Validation Issuance Registration.
From S2P Require Import X509Issuance AllowedSigners AgentConfig AgentClient.

Section EndToEnd.
Context `{Lru, SshCerts, Rcgen, Hmac, Env, Hex, X509, !Attestation, !Zstd, !Yubikeys,
  AgentEnv, AgentToml} {A : Type} `{!Authorizer A}.
Context (srv : RusticaServer A) (addr : SocketAddr) (peers_of : RusticaRemote → list bytes).

Definition request_of {M} (remote : RusticaRemote) (m : M) : Request M :=
  mkRequest (Some addr) (Some (peers_of remote)) m.

(** The service is the server. *)
#[export] Instance server_rpc : Rpc World := {|
  rpc_connect := λ _ w, (w, Online);
  rpc_challenge := λ remote m, challenge_handler srv (request_of remote m);
  rpc_certificate := λ remote m, certificate_handler srv (request_of remote m);
  rpc_register_key := λ remote m, register_key_handler srv (request_of remote m);
  rpc_register_u2f_key := λ remote m, register_u2f_key_handler srv (request_of remote m);
  rpc_attested_x509_certificate := λ remote m, attested_x509_handler srv (request_of remote m);
  rpc_allowed_signers := λ remote, allowed_signers_handler srv (request_of remote ());
|}.

(** What a client with a key file sends names the time of the server's clock,
    and the credentials it was asked with are readable. *)
Lemma completed_in_time remote sk notification (a a' : AgentWorld World) client chal ts1 :
  EnvLaws → SshCertsLaws →
  complete_rustica_challenge remote (SDirect sk) notification a = (a', Ret (client, chal)) →
  clock (w_clock (ag_net a)) = Some ts1 →
  ∃ peer info, head (peers_of remote) = Some peer ∧ extract_certificate_information peer = Ok info ∧
    parse_u64 (ch_challenge_time chal) = Some (as_secs ts1).
Proof.
  intros ?? Hrun Hts1.
  apply complete_rustica_challenge_Ret in Hrun
    as (_ & a1 & n0 & n & pk0 & resp & Hpk & Hconn & Hch & [_ Htime _] & _ & _).
  cbn in Hpk. injection Hpk as <- <-. cbn in Hconn. injection Hconn as <-. cbn in Hch.
  apply challenge_handler_for in Hch as (ts & info & pk & cert & Hc & _ &
    [(certs & peer & Hcerts & Hp & He) _ Ht _ _ _ _ _ _]).
  cbn in *. simplify_eq. exists peer, info. split; [done|]. split; [done|].
  rewrite Htime, Ht. apply parse_u64_to_string. by eapply as_secs_range, clock_range.
Qed.

(** A challenge that a client with a key file completed is one the server
    accepts. *)
Lemma completed_accepted remote sk notification (a a' : AgentWorld World) client chal ts1 now :
  EnvLaws → HexLaws → SshCertsLaws →
  complete_rustica_challenge remote (SDirect sk) notification a = (a', Ret (client, chal)) →
  clock (w_clock (ag_net a)) = Some ts1 →
  as_secs ts1 ≤ now ≤ as_secs ts1 + 5 → len (ch_challenge chal) ≤ 1024 →
  ∃ pk info, accepted srv (hmac_key srv) (peers_of remote) chal now pk info ∧
    pk_hash pk = pk_hash (pubkey sk) ∧ ch_pubkey chal = pk_to_string (pubkey sk).
Proof.
  intros ??? Hrun Hts1 Hwin Hlen.
  apply complete_rustica_challenge_Ret in Hrun
    as (_ & a1 & n0 & n & pk0 & resp & Hpk & Hconn & Hch & [Hkey Htime Hchal] & _ & _).
  cbn in Hpk. injection Hpk as <- <-. cbn in Hconn. injection Hconn as <-. cbn in Hch.
  apply challenge_handler_for in Hch as (ts & info & pk & cert & Hc & _ &
    [(certs & peer & Hcerts & Hp & He) Hpk Ht Hparse Hid Hck Hsig _ Hmode]).
  cbn in *. simplify_eq.
  destruct (pk_to_string_parses (pubkey sk)) as (pk' & Hpk' & Hhash). simplify_eq.
  exists pk, info. split; [|by split]. split; [by eauto|done| |by rewrite Hkey].
  assert (parse_u64 (time resp) = Some (as_secs ts)) as Hrt.
  { rewrite Ht. apply parse_u64_to_string. by eapply as_secs_range, clock_range. }
  destruct (require_rustica_proof srv) eqn:Hmode'; cbn in Hmode; rewrite Hmode in Hchal.
  - destruct Hchal as (c & c' & a2 & a3 & Hc' & Hown & Hsign & Hch).
    rewrite Hparse in Hc'. injection Hc' as <-.
    unfold resign in Hsign. apply of_option_Ret in Hsign as [-> Hsign].
    destruct (cert_sign_parses _ _ _ Hsign) as (c'' & Hread & Htbs').
    pose proof (transitivity (cert_sign_tbs _ _ _ Hsign) Htbs') as (Hk & _ & _ & Hkid & _ & _ & _ & _ & _ & Hs).
    cbn in *. exists (as_secs ts), c''. rewrite Htime, Hch.
    split_and!; [done|lia|lia|done| |congruence|congruence].
    rewrite <-Hkid, Hid, hex_decode_encode, Ht. by rewrite Hkey.
  - exists (as_secs ts), cert. rewrite Htime, Hchal.
    split_and!; [done|lia|lia|done| |done].
    by rewrite Hid, hex_decode_encode, Ht, Hkey.
Qed.

(** ** Properties *)

(** C6: client and server agree, as far as the server's limit lets them: within
    five seconds and in either mode, the server's verdict on the challenge that
    an agent with a key file completed depends on the length of the certificate
    only.  With at most 1024 bytes it is accepted and proves the agent's own
    key, with more - as for a long RSA key - it is refused, with a warning. *)
Theorem client_and_server_agree_on_the_challenge remote sk notification
    (a a' : AgentWorld World) client chal ts1 w2 ts2 :
  EnvLaws → HmacLaws → HexLaws → SshCertsLaws →
  complete_rustica_challenge remote (SDirect sk) notification a = (a', Ret (client, chal)) →
  clock (w_clock (ag_net a)) = Some ts1 → clock (w_clock w2) = Some ts2 →
  as_secs ts1 ≤ as_secs ts2 ≤ as_secs ts1 + 5 →
  in_u64 (as_secs ts2 + validity_length (client_authority srv)) →
  ∃ pk info r, extract_certificate_information <$> head (peers_of remote) = Some (Ok info) ∧
    pk_hash pk = pk_hash (pubkey sk) ∧
    validate_request srv (hmac_key srv) (peers_of remote) chal w2 =
      if decide (len (ch_challenge chal) ≤ 1024) then
        (set_clock (S (w_clock w2)) w2, Ret (pk, identities info, r))
      else (refused_as_too_long info w2, Raise Unknown).
Proof.
  intros ???? Hrun Hts1 Hts2 Hwin Hval. case_decide as Hlen.
  2: { destruct (completed_in_time remote sk notification a a' client chal ts1)
      as (peer & info & Hp & He & Hrt); [done..|].
    exists (pubkey sk), info, None. rewrite Hp. cbn. rewrite He. split_and!; [done..|].
    eapply validate_request_too_long; [done|exact Hts2|done|done|exact Hrt|done|lia]. }
  destruct (completed_accepted remote sk notification a a' client chal ts1 (as_secs ts2))
    as (pk & info & Hacc & Hhash & _); [done..|].
  assert (∃ r, renewal srv (as_secs ts2) (cert_expiry info) = Ret r) as [r Hr].
  { unfold renewal, u64_add. rewrite u64_of_ok by done. case_decide; cbn; eauto. }
  pose proof Hacc as [(peer & Hp & He) _ _ _].
  exists pk, info, r. rewrite Hp. cbn. rewrite He. split; [done|]. split; [done|].
  rewrite (validate_request_run _ _ _ _ _ ts2 pk info) by done. by rewrite Hr.
Qed.

(** C7: the certificate an agent with a key file receives from a server is for
    the agent's own key and of the type it asked for; its principals, validity
    and extensions are those the server's authorizer granted to this key and
    to the identities of the agent's credentials. *)
Theorem agent_receives_a_certificate_for_its_own_key remote sk options notification
    (a a' : AgentWorld World) rc credentials :
  EnvLaws → HmacLaws → SshCertsLaws → AuthorizerLaws A →
  (∀ a s, authorities (signer srv) !! a = Some s → SignerLaws s) →
  (∀ n d, clock n = Some d → 5 ≤ as_secs d) →
  refresh_certificate_async remote (SDirect sk) options notification a = (a', Ret (rc, credentials)) →
  ∃ cert authz w1 w2 info q, rc_cert rc = cert_to_string cert ∧
    pk_hash (c_key cert) = pk_hash (pubkey sk) ∧ c_cert_type cert = cc_cert_type options ∧
    extract_certificate_information <$> head (peers_of remote) = Some (Ok info) ∧
    authorize_ssh_cert (authorizer srv) q w1 = (w2, Ret authz) ∧
    sp_fingerprint q = pk_hash (pubkey sk) ∧ sp_mtls_identities q = identities info ∧
    sp_principals q = cc_principals options ∧ sp_servers q = cc_hosts options ∧
    c_principals cert = sa_principals authz ∧ c_valid_after cert = sa_valid_after authz ∧
    c_valid_before cert = sa_valid_before authz ∧ c_extensions cert = sa_extensions authz.
Proof.
  intros ?? Hssh ? Hl Hclock Hrun. unfold refresh_certificate_async in Hrun.
  apply st_bind_Ret in Hrun as (a1 & [client chal] & Hch & Hrun).
  apply complete_rustica_challenge_Ret in Hch
    as (-> & a2 & n0 & n & pk0 & resp0 & Hpk & _ & _ & [Hkey _ _] & _ & _).
  cbn in Hpk. injection Hpk as <- <-.
  apply st_bind_Ret in Hrun as (a3 & now & _ & Hrun).
  apply st_bind_Ret in Hrun as (a4 & before & _ & Hrun).
  apply st_bind_Ret in Hrun as (a5 & resp & Hr & Hrun).
  unfold rpc in Hr. apply map_err_Ret, call_Ret in Hr as (n1 & Hr & ->). cbn in Hr.
  apply st_bind_Ret in Hrun as (a6 & u & Hu & Hrun). case_decide as Hcode;
    [by apply throw_Ret in Hu|]. apply mret_Ret in Hrun as [-> [= -> ->]]. cbn.
  apply certificate_handler_cases in Hr as [(e & He & -> & _)|Hi]; [by destruct e|..|done].
  destruct Hi as (ad & peers & chal' & pk & ids & refresh & ty & ca & authz & cert & Hi).
  destruct (issued_says _ _ _ _ _ _ _ _ _ _ _ _ _ _ _ Hssh Hl Hi)
    as (Hk & Hty & _ & _ & _ & Hps & Hva & Hvb & Hex & _ & _).
  destruct (iss_peer _ _ _ _ _ _ _ _ _ _ _ _ _ _ _ Hi) as (_ & Hpeers & Hchal). cbn in Hpeers, Hchal.
  injection Hpeers as <-. injection Hchal as <-.
  destruct (iss_validated _ _ _ _ _ _ _ _ _ _ _ _ _ _ _ Hi) as [w1 Hv].
  apply validate_request_inv in Hv as (ts & info & _ & -> & [(peer & Hp & Hinfo) _ _ Hpk'] & _ & _);
    [|done|done|by intros ? ?%Hclock].
  rewrite Hkey in Hpk'. destruct (pk_to_string_parses (pubkey sk)) as (pk' & Hpk'' & Hhash).
  rewrite Hpk' in Hpk''. injection Hpk'' as <-.
  destruct (iss_authorized _ _ _ _ _ _ _ _ _ _ _ _ _ _ _ Hi) as (w2 & w3 & _ & Hauth).
  pose proof (iss_type _ _ _ _ _ _ _ _ _ _ _ _ _ _ _ Hi) as Hq. cbn in Hq.
  pose proof cert_type_as_u32_values as [Hu1 Hu2].
  eexists cert, authz, w2, w3, info, _. split; [apply Hi|]. split; [congruence|].
  split. { rewrite Hty. destruct ty, (cc_cert_type options); congruence. }
  split; [by rewrite Hp; cbn; rewrite Hinfo|]. split; [exact Hauth|]. cbn.
  split_and!; [congruence|done..].
Qed.
End EndToEnd.
