(* ===== verification/Enrolled.v ===== *)
(** * From a new FIDO key to the server's table

    The program that registers a new FIDO key, talking to the server: what is in
    the server's table of registered keys afterwards. *)
From Stdlib Require Import ZArith Lia.
From S2P Require Import Prelude Machine Text Deps Key Auth Logging Schema World.
From S2P Require Import Database External Authorizer Signing Proto Server Validation Issuance.
From S2P Require Import Registration AllowedSigners AgentConfig AgentClient AgentHandler Shell Cli.
From S2P Require Import CliModes AgentMain EndToEnd.

Section Enrolled.
Context `{Lru, SshCerts, Rcgen, Hmac, Env, Hex, X509, Asn1, !Attestation, !Zstd, !Yubikeys, !Shell,
  !Fido, !TerminalText, AgentEnv, AgentToml, MapOrder}.
Context (srv : RusticaServer AuthorizationMechanism) (addr : SocketAddr)
  (peers_of : RusticaRemote → list bytes) (local : LocalDatabase).
Context (Hlocal : authorizer srv = MLocal local) (Hup : Local.db_up local).

#[local] Existing Instance server_rpc.
#[local] Instance the_server : Rpc World := server_rpc srv addr peers_of.

(** ** What leaves the table alone *)

Lemma challenge_handler_same_db req : preserves same_db (challenge_handler srv req).
Proof. unfold challenge_handler. preserve; done. Qed.

(** ** One server *)

(** The database behind the service. *)
Definition db_of (a : AgentWorld World) : Database := w_db (ag_net a).
Definition keeps_db (a a' : AgentWorld World) : Prop := db_of a' = db_of a.
#[local] Instance keeps_db_preorder : PreOrder keeps_db.
Proof. unfold keeps_db. split; [done|]. intros a1 a2 a3 ? ?. congruence. Qed.

Lemma prints_keeps_db a a' : prints a a' → keeps_db a a'.
Proof. by intros [lines ->]. Qed.
Lemma keeps_db_call {E' B} (m : st World E' B) :
  preserves same_db m → preserves keeps_db (call m : st (AgentWorld World) E' B).
Proof. intros Hm a. specialize (Hm (ag_net a)). unfold call. by destruct (m (ag_net a)). Qed.
Lemma keeps_db_device {E' B} (f : nat → B) :
  preserves keeps_db (device f : st (AgentWorld World) E' B).
Proof. done. Qed.
Lemma keeps_db_notify {E'} b : preserves keeps_db (notify b : st (AgentWorld World) E' ()).
Proof. by destruct b. Qed.
#[local] Hint Resolve keeps_db_device keeps_db_notify : preserves.

Lemma complete_challenge_keeps_db remote signatory notification :
  preserves keeps_db (complete_rustica_challenge remote signatory notification).
Proof.
  unfold complete_rustica_challenge, signatory_pubkey, get_rustica_client, resign, rpc. preserve.
  - by apply keeps_db_call.
  - apply preserves_map_err, keeps_db_call, challenge_handler_same_db.
Qed.

(** What a registered key is: a new row of the server's table, for the owner of
    the agent's credentials. *)
Definition in_the_table (remote : RusticaRemote) (key : PublicKey) (a a' : AgentWorld World) : Prop :=
  ∃ row info, extract_certificate_information <$> head (peers_of remote) = Some (Ok info) ∧
    registered_keys (db_of a') = registered_keys (db_of a) ++ [row] ∧
    rk_fingerprint row = pk_hash key ∧ rk_user row = join "," (Server.identities info) ∧
    pk_hash key ∉ rk_fingerprint <$> registered_keys (db_of a).

(** Where attestation is required: what was verified. *)
Definition attested (key : PublicKey) (application : string) (att : AgentU2FAttestation) : Prop :=
  ∃ data firmware attested_key,
    verify_auth_data (au_auth_data att) (au_auth_data_sig att) (au_challenge att) (au_alg att)
      (au_intermediate att) = Some (data, firmware) ∧
    ssh_public_key data application = Some attested_key ∧ pk_hash attested_key = pk_hash key.

Lemma register_with_one_server remote sk app att (a a' : AgentWorld World) r :
  EnvLaws → HmacLaws → SshCertsLaws → (∀ n d, clock n = Some d → 5 ≤ as_secs d) →
  register_u2f_key_async remote (SDirect sk) app att a = (a', r) →
  match r with
  | Ret _ => in_the_table remote (pubkey sk) a a' ∧
      (require_attestation_chain srv = true → attested (pubkey sk) app att)
  | Raise _ => keeps_db a a'
  | Panic => True
  end.
Proof.
  intros ??? Hclock. unfold register_u2f_key_async.
  pose proof (complete_challenge_keeps_db remote (SDirect sk) false a) as Hkeep.
  intros [(a1 & [client chal] & Hch & Hrun)|[(e & Hch & ->)|[Hch ->]]]%st_bind_run;
    [|by rewrite Hch in Hkeep|done].
  rewrite Hch in Hkeep. cbn in Hkeep.
  apply complete_rustica_challenge_Ret in Hch
    as (-> & a2 & n0 & n & pk0 & resp0 & Hpk & _ & _ & [Hkey _ _] & _ & _).
  cbn in Hpk. injection Hpk as <- <-.
  apply map_err_run in Hrun as (o & Hrun & Ho). unfold call in Hrun.
  destruct (rpc_register_u2f_key remote _ (ag_net a1)) as [w' o'] eqn:Hr. injection Hrun as <- <-.
  cbn [rpc_register_u2f_key the_server server_rpc] in Hr. destruct o' as [[]|e|]; subst r; [..|exact I].
  2: { apply (register_u2f_key_handler_fails_db srv local) in Hr; [|done..].
       unfold same_db, keeps_db, db_of in *. cbn. congruence. }
  apply register_u2f_key_handler_Ret in Hr
    as (peers & chal' & pk & ids & matt & Hpeers & Hchal & Hreg).
  cbn in Hpeers, Hchal, Hreg. injection Hpeers as <-. injection Hchal as <-.
  pose proof (registered_row _ _ _ _ _ _ _ _ _ _ _ Hlocal Hup Hreg) as (row & Hrow & Hfp & _ & Huser & Hnew).
  destruct Hreg as [(refresh & w1 & Hv) Hatt _ _].
  apply validate_request_inv in Hv as (ts & info & _ & -> & [(peer & Hp & Hinfo) _ _ Hpk'] & _ & _);
    [|done|done|by intros ? ?%Hclock].
  rewrite Hkey in Hpk'. destruct (pk_to_string_parses (pubkey sk)) as (pk' & Hpk'' & Hhash).
  rewrite Hpk' in Hpk''. injection Hpk'' as <-. unfold keeps_db, db_of in Hkeep.
  split.
  - exists row, info. unfold db_of. cbn. rewrite <-Hkeep, <-Hhash. split_and!; [|done..].
    rewrite Hp. cbn. by rewrite Hinfo.
  - intros Hreq. destruct matt as [m|].
    + destruct Hatt as (key & Hk & Hkf & _).
      apply verify_u2f_Ok in Hk as (_ & data & firmware & text & akey & Hd & Htext & Hk & Hf).
      apply from_utf8_Some in Htext. simplify_eq. exists data, firmware, akey. split; [done|].
      split; [done|congruence].
    + destruct Hatt as [(e & _ & Hno)|(key & Hk & _ & Hnone)]; [congruence|].
      apply verify_u2f_Ok in Hk as [[? ?] _]. congruence.
Qed.

Lemma all_failed_keeps_db sk app att l (a a' : AgentWorld World) :
  EnvLaws → HmacLaws → SshCertsLaws → (∀ n d, clock n = Some d → 5 ≤ as_secs d) →
  all_failed (λ server, register_u2f_key_async server (SDirect sk) app att) l a a' → keeps_db a a'.
Proof.
  intros ???? Hall. induction Hall as [|server l a a1 a2 e Hone _ IH]; [done|].
  etrans; [|exact IH]. by apply register_with_one_server in Hone.
Qed.

(** ** Properties *)

(** C23: a new FIDO key and the server's table of registered keys: when the
    program ends well, or fails only to write the file, the key it generated is
    a new row of the table, under the key's fingerprint, for the identities of
    the credentials of one of the configured servers, and where attestation is
    required the authenticator's signed data was verified to be that key's; when
    it reports that the key could not be registered the table is as it was. *)
Theorem registered_fido_key_is_in_the_servers_table prf (s s' : ShellWorld World) r :
  EnvLaws → HmacLaws → SshCertsLaws → (∀ n d, clock n = Some d → 5 ≤ as_secs d) →
  provision_and_register_fido prf s = (s', r) →
  match r with
  | Ret _ | Raise (MainIo _) => ∃ k remote,
      generate_new_ssh_key (pf_app_name prf) (pf_comment prf) (pf_pin prf) None
        (ag_device (sh_agent s)) = Ok k ∧
      remote ∈ fido_servers prf ∧
      in_the_table remote (pubkey (fk_private_key k)) (sh_agent s) (sh_agent s') ∧
      (require_attestation_chain srv = true → attested (pubkey (fk_private_key k)) (pf_app_name prf)
        (u2f_attestation (fk_attestation k)))
  | Raise _ => db_of (sh_agent s') = db_of (sh_agent s)
  | Panic => True
  end.
Proof.
  intros ???? [(_ & _ & Hr)|(k & a & s1 & Hgen & Hreg & Hs1 & _ & Hrun)]%provision_and_register_fido_run.
  { destruct r as [|[]|]; [done| |unfold db_of; congruence|done|unfold db_of; congruence|done].
    destruct Hr as [k Hall]. by apply all_failed_keeps_db in Hall. }
  assert (prints (sh_agent s1) (sh_agent s') ∧
    match r with Raise e => ∃ text, e = MainIo text | _ => True end) as [Ha Hr].
  { apply st_bind_run in Hrun as [(s2 & [] & Hd & Hrun)|[(e & Hd & ->)|[Hd ->]]];
      apply deliver_key_run in Hd as (_ & Hp & Hd); [|by destruct Hd|done].
    injection Hrun as <- <-. split; [|done]. etrans; [exact Hp|by eexists]. }
  pose proof (prints_keeps_db _ _ (transitivity Hs1 Ha)) as Hkeep. clear Ha Hs1 Hrun.
  destruct Hreg as (tried & remote & rest & a1 & Hservers & Hall & Hreg).
  apply all_failed_keeps_db in Hall; [|done..].
  apply register_with_one_server in Hreg as [Hin Hatt]; [|done..].
  assert (in_the_table remote (pubkey (fk_private_key k)) (sh_agent s) (sh_agent s')) as Hin'
    by (unfold in_the_table, keeps_db in *; by rewrite Hall, <-Hkeep in Hin).
  assert (remote ∈ fido_servers prf) by (rewrite Hservers; set_solver).
  destruct r; [by exists k, remote| |done]. destruct Hr as [text ->]. by exists k, remote.
Qed.
End Enrolled.

#[export] Existing Instance keeps_db_preorder.
#[export] Hint Resolve keeps_db_device keeps_db_notify : preserves.
