(* ===== verification/Tokens.v ===== *)
(** * The X.509 certificate of a token

    The program that refreshes the certificate in a slot of a Yubikey, talking
    to the server: whose certificate ends up in the slot. *)
From Stdlib Require Import ZArith Lia.
From S2P Require Import Prelude Machine Text Deps Key Auth Logging Schema World.
From S2P Require Import Database External Authorizer Signing Proto Server Validation Issuance.
From S2P Require Import Registration X509Issuance AllowedSigners Service AgentConfig AgentClient.
From S2P Require Import AgentHandler Shell Cli CliModes AgentMain EndToEnd Enrolled.

(** ** The client's side *)

Section Client.
Context `{SshCerts, !Yubikeys, Zstd, AgentEnv, AgentToml} {N : Type} `{!Rpc N}.

(** A certificate for a slot is the answer to a request with the slot's own
    attestation. *)
Lemma refresh_attested_x509_Ret remote slot yk (a a' : AgentWorld N) cert :
  refresh_attested_x509_certificate_async remote (SYubikey slot yk) a = (a', Ret cert) →
  ∃ n csr attestation intermediate n0 n1 resp,
    yk_fetch_attestation yk slot n = Ok attestation ∧
    rpc_connect remote (ag_net a) = (n0, Online) ∧
    rpc_attested_x509_certificate remote
      {| xq_key_id := ""; xq_csr := csr; xq_attestation := attestation;
         xq_attestation_intermediate := intermediate |} n0 = (n1, Ret resp) ∧
    xs_certificate resp = cert ∧ xs_error_code resp = 0.
Proof.
  unfold refresh_attested_x509_certificate_async. intros Hrun.
  apply st_bind_Ret in Hrun as (a1 & csr0 & [_ ->]%device_Ret & Hrun).
  apply st_bind_Ret in Hrun as (a2 & csr & [-> _]%of_option_Ret & Hrun).
  apply st_bind_Ret in Hrun as (a3 & ok & [_ ->]%device_Ret & Hrun).
  apply st_bind_Ret in Hrun as (a4 & u & Hu & Hrun).
  destruct ok; [apply mret_Ret in Hu as [-> ->]|by apply panic_Ret in Hu].
  apply st_bind_Ret in Hrun as (a5 & att & [-> ->]%device_Ret & Hrun).
  apply st_bind_Ret in Hrun as (a6 & attestation & Hatt & Hrun). cbn [ag_device] in Hatt.
  destruct (yk_fetch_attestation yk slot _) as [att|e] eqn:Hfetch; [|by apply throw_Ret in Hatt].
  apply mret_Ret in Hatt as [-> ->].
  apply st_bind_Ret in Hrun as (a7 & ok & [_ ->]%device_Ret & Hrun).
  apply st_bind_Ret in Hrun as (a8 & u' & Hu' & Hrun).
  destruct ok; [apply mret_Ret in Hu' as [-> ->]|by apply panic_Ret in Hu'].
  apply st_bind_Ret in Hrun as (a9 & i0 & [_ ->]%device_Ret & Hrun).
  apply st_bind_Ret in Hrun as (a10 & intermediate & [-> _]%of_option_Ret & Hrun).
  apply st_bind_Ret in Hrun as (a11 & client & Hcl & Hrun).
  unfold get_rustica_client in Hcl. apply st_bind_Ret in Hcl as (a12 & d & Hd & Hcl).
  apply call_Ret in Hd as (n0 & Hd & ->). cbn in Hd.
  destruct (rpc_connect remote (ag_net a)) as [n0' d'] eqn:Hconn. injection Hd as -> ->.
  destruct d; [by apply throw_Ret in Hcl..|]. apply mret_Ret in Hcl as [-> ->].
  apply st_bind_Ret in Hrun as (a13 & resp & Hr & Hrun). unfold rpc in Hr.
  apply map_err_Ret, call_Ret in Hr as (n1 & Hr & ->). cbn in Hr.
  case_decide as Hcode; [|by apply throw_Ret in Hrun]. apply mret_Ret in Hrun as [_ ->].
  by exists (S (S (ag_device a))), csr, att, intermediate, n0, n1, resp.
Qed.
End Client.

Section Tokens.
Context `{Lru, SshCerts, Rcgen, Hmac, Env, Hex, X509, Asn1, !Attestation, !Zstd, !Yubikeys, !Shell,
  !Fido, !TerminalText, AgentEnv, AgentToml, MapOrder}.
Context (srv : RusticaServer AuthorizationMechanism) (addr : SocketAddr)
  (peers_of : RusticaRemote → list bytes) (local : LocalDatabase).
Context (Hlocal : authorizer srv = MLocal local) (Hup : Local.db_up local).

#[local] Existing Instance server_rpc.
#[local] Instance the_server : Rpc World := server_rpc srv addr peers_of.

Lemma refresh_attested_x509_keeps_db remote signatory :
  preserves keeps_db (refresh_attested_x509_certificate_async remote signatory).
Proof.
  unfold refresh_attested_x509_certificate_async, get_rustica_client, rpc. preserve.
  - by apply keeps_db_call.
  - apply preserves_map_err, keeps_db_call.
    exact (attested_x509_same_db srv (request_of addr peers_of _ _)).
Qed.

Lemma all_failed_keeps_db_x509 signatory l (a a' : AgentWorld World) :
  all_failed (λ server, refresh_attested_x509_certificate_async server signatory) l a a' →
  keeps_db a a'.
Proof.
  induction 1 as [|s l a a1 a2 e Hs _ IH]; [done|]. etrans; [|exact IH].
  by apply (run_preserves _ _ _ _ _ (refresh_attested_x509_keeps_db s signatory)) in Hs.
Qed.

(** The certificate [cert] is for the token with this [attestation], and a row
    of the database says that the client of [remote] may have it. *)
Definition certifies_the_token (db : Database) (remote : RusticaRemote) (attestation cert : bytes)
    : Prop :=
  (∃ new leaf, x509_from_der cert = Ok new ∧ x509_from_der attestation = Ok leaf ∧
    subject_pki new = subject_pki leaf) ∧
  ∃ intermediate key att info user rest authority,
    verify_piv_certificate_chain attestation intermediate = Ok key ∧
    k_attestation key = Some (Piv att) ∧
    extract_certificate_information <$> head (peers_of remote) = Some (Ok info) ∧
    Server.identities info = user :: rest ∧ Local.x509_allowed db user authority att.

Lemma one_server_certifies remote slot yk (a a' : AgentWorld World) cert :
  db_wf (db_of a) →
  refresh_attested_x509_certificate_async remote (SYubikey slot yk) a = (a', Ret cert) →
  ∃ n attestation, yk_fetch_attestation yk slot n = Ok attestation ∧
    certifies_the_token (db_of a) remote attestation cert.
Proof.
  intros Hwf (n & csr & attestation & intermediate & n0 & n1 & resp & Hatt & Hconn & Hr & <- & _)
    %refresh_attested_x509_Ret.
  exists n, attestation. split; [done|]. cbn in Hconn. injection Hconn as <-.
  cbn [rpc_attested_x509_certificate the_server server_rpc] in Hr.
  apply attested_x509_handler_Ret in Hr as (info & key & authz & Hi).
  destruct (xd_same_key _ _ _ _ _ _ _ _ Hi) as (new & leaf & Hnew & Hleaf & Hpki).
  split; [by exists new, leaf|].
  destruct (xd_peer _ _ _ _ _ _ _ _ Hi) as (peer & Hpeer & Hinfo). cbn in Hpeer.
  destruct (xd_authorized _ _ _ _ _ _ _ _ Hi) as (ad & w1 & w2 & _ & Hdb & Ha).
  rewrite Hlocal in Ha. cbn in Ha. unfold db_of in *. rewrite <-Hdb in Hwf |- *.
  apply Local.authorize_x509_allowed in Ha as (att & user & rest & Hk & Hu & _ & _ & Hall);
    [|done..].
  eexists intermediate, key, att, info, user, rest, _.
  split; [apply Hi|]. split; [exact Hk|]. injection Hpeer as ->. cbn. rewrite Hinfo.
  split; [done|]. split; [exact Hu|exact Hall].
Qed.

(** ** Properties *)

(** C20: a token receives a certificate of its own key only: when the program
    that refreshes the certificate of a slot ends without an error message, one
    of the configured servers has made the certificate, it is in the slot, it
    is for the key that the slot's own attestation proves, and a row of the
    database gives the token with that serial number to the first name of the
    credentials that were used. *)
Theorem token_receives_a_certificate_for_its_own_key config slot yk (s s' : ShellWorld World) :
  db_wf (db_of (sh_agent s)) → rx_signatory config = SYubikey slot yk →
  refresh_attested_x509 config s = (s', Ret ()) →
  (∃ e, sh_out s' = sh_out s ++ ["Error: " +:+ library_error_debug e]) ∨
  ∃ remote cert attestation n1 n2,
    remote ∈ cfg_servers (uc_configuration (rx_updatable_configuration config)) ∧
    yk_fetch_attestation yk slot n1 = Ok attestation ∧
    certifies_the_token (db_of (sh_agent s)) remote attestation cert ∧
    yk_write_certificate yk slot cert n2 = true ∧ sh_out s' = sh_out s.
Proof.
  intros Hwf Hsig. unfold refresh_attested_x509. rewrite Hsig. intros Hrun.
  apply st_bind_Ret in Hrun as (s1 & answer & Hans & Hrun). apply attempt_Ret in Hans.
  apply in_agent_run in Hans as (a1 & Hf & ->).
  pose proof (run_preserves _ _ _ _ _ (silent_fetch_x509 _ _) Hf) as Hquiet. unfold silent in Hquiet.
  destruct answer as [cert|e].
  2: { apply println_Ret in Hrun as ->. left. exists e. unfold sh_out. cbn. by rewrite Hquiet. }
  apply first_server_outcome in Hf as (tried & remote & rest & a2 & Hservers & Hall & Hone).
  right. apply all_failed_keeps_db_x509 in Hall. unfold keeps_db in Hall. rewrite <-Hall in Hwf.
  apply one_server_certifies in Hone as (n & attestation & Hatt & Hcert); [|done].
  rewrite Hall in Hcert.
  apply st_bind_Ret in Hrun as (s2 & ok & Hok & Hrun). apply in_agent_run in Hok as (a3 & Hun & ->).
  apply device_Ret in Hun as [_ ->].
  apply st_bind_Ret in Hrun as (s3 & u & Hu & Hrun).
  destruct ok; [apply mret_Ret in Hu as [-> ->]|by apply panic_Ret in Hu].
  apply st_bind_Ret in Hrun as (s4 & ok & Hok & Hrun). apply in_agent_run in Hok as (a4 & Hw & ->).
  destruct ok; [apply mret_Ret in Hrun as [-> _]|by apply panic_Ret in Hrun].
  apply device_Ret in Hw as [Hw ->]. cbn in Hw.
  eexists remote, cert, attestation, n, _. split; [rewrite Hservers; set_solver|].
  split; [exact Hatt|]. split; [exact Hcert|]. split; [by symmetry|exact Hquiet].
Qed.
End Tokens.
