(* ===== verification/SignedData.v ===== *)
(** * From the server's list of signers to verified data

    The list a server keeps of the keys that may sign, the file an agent makes
    of it and the verification against that file: the name that a verification
    returns is that of the first signer of the server's list whose key signed. *)
From Stdlib Require Import ZArith Lia.
From S2P Require Import Prelude Machine Text Deps Key Auth Logging Schema World.
From S2P Require Import Authorizer Signing Proto Server Validation AllowedSigners.
From S2P Require Import AgentConfig AgentClient Shell AgentMain Ffi FfiEnroll FfiSigning EndToEnd.

(** ** The list as a text *)

Section SignersText.
Context `{SshCerts, !SshSignatures}.

(** A signer that makes one line of two fields. *)
Record signer_ok (s : AllowedSigner) : Prop := {
  so_identity_blank : ¬ has_char " "%char (as_identity s);
  so_identity_line : ¬ has_char "010"%char (as_identity s);
  so_pubkey_line : ¬ has_char "010"%char (as_pubkey s);
  so_pubkey_cr : ¬ has_char cr (as_pubkey s);
}.

(** The first signer of the list whose key is [key]. *)
Definition has_key (key : PublicKey) (s : AllowedSigner) : bool :=
  match pk_from_string (as_pubkey s) with Some k => pk_eqb key k | None => false end.
Definition signer_of (key : PublicKey) (response : AllowedSigners) : option AllowedSigner :=
  head (filter (λ s, has_key key s = true) (allowed_signers_list response)).

Lemma find_signer_lines key l :
  Forall signer_ok l →
  filter (λ x, pk_eqb key x.1 = true) (omap parse_allowed_signer
    ((λ s, as_identity s +:+ " " +:+ as_pubkey s) <$> l)) =
  omap (λ s, (λ k, (k, as_identity s)) <$> pk_from_string (as_pubkey s))
    (filter (λ s, has_key key s = true) l).
Proof.
  induction 1 as [|s l [Hb Hl Hp Hcr] Hall IH]; [done|].
  destruct (signer_line _ _ Hb Hl Hp Hcr) as [_ Hline]. cbn [fmap list_fmap omap list_omap].
  rewrite Hline, (filter_cons (λ s, has_key key s = true)).
  assert (has_key key s = match pk_from_string (as_pubkey s) with
    | Some k => pk_eqb key k | None => false end) as Hs by done.
  destruct (pk_from_string (as_pubkey s)) as [k|] eqn:Hk; cbn [fmap option_fmap option_map];
    [rewrite filter_cons; cbn [fst]; rewrite <-Hs|]; destruct (has_key key s); try done.
  rewrite !decide_True by done. cbn. rewrite Hk. cbn. by rewrite IH.
Qed.

Lemma find_signer_key key text k name : find_signer key text = Some (k, name) → pk_eqb key k = true.
Proof.
  unfold find_signer. intros Hh.
  assert ((k, name) ∈ filter (λ x, pk_eqb key x.1 = true) (omap parse_allowed_signer (lines text)))
    as Hin by (destruct (filter _ _); [done|]; injection Hh as ->; left).
  by apply list_elem_of_filter in Hin as [Hin _].
Qed.

Lemma find_signer_text key response :
  Forall signer_ok (allowed_signers_list response) →
  snd <$> find_signer key (signers_text response) = as_identity <$> signer_of key response.
Proof.
  intros Hok. unfold find_signer, signers_text, signer_of.
  destruct (allowed_signers_list response) as [|s0 l0] eqn:Hl; [done|]. rewrite <-Hl in *.
  rewrite lines_join.
  - rewrite find_signer_lines by done.
    destruct (filter _ (allowed_signers_list response)) as [|s l] eqn:Hf; [done|]. cbn.
    assert (s ∈ filter (λ s, has_key key s = true) (allowed_signers_list response)) as Hs
      by (rewrite Hf; left).
    apply list_elem_of_filter in Hs as [Hs _]. unfold has_key in Hs.
    by destruct (pk_from_string (as_pubkey s)).
  - by rewrite Hl.
  - apply Forall_fmap. eapply Forall_impl; [exact Hok|]. intros s [Hb Hn Hp Hcr].
    by apply signer_line.
Qed.
End SignersText.

(** ** What an agent receives *)

Section Received.
Context `{Lru, SshCerts, Rcgen, Hmac, Env, Hex, X509, !Attestation, !Zstd, !Yubikeys,
  AgentEnv, AgentToml} {A : Type} `{!Authorizer A, !AuthorizerLaws A}.
Context (srv : RusticaServer A) (addr : SocketAddr) (peers_of : RusticaRemote → list bytes).
#[local] Instance rpc : Rpc World := server_rpc srv addr peers_of.
Implicit Types a : AgentWorld World.

(** What the server's cache holds while it is valid is a list of the
    authorizer. *)
Definition cache_good (w : World) : Prop :=
  ∀ n t, clock n = Some t → t ≤ expiry_timestamp (w_cache w) →
    AllowedSigners.served srv (compressed_allowed_signers (w_cache w)).

Lemma admit_request_clock request w w' t :
  admit_request srv request w = (w', Ret t) → ∃ n, clock n = Some t.
Proof.
  unfold admit_request. intros Hr. st_inv_all; eauto.
Qed.

Lemma allowed_signers_handler_good request w w' r :
  cache_good w → allowed_signers_handler srv request w = (w', r) →
  cache_good w' ∧
  match r with Ret reply => AllowedSigners.served srv (compressed_signers reply) | _ => True end.
Proof.
  intros Hgood. unfold allowed_signers_handler.
  intros [(w1 & t & Ht & Hr)|[(e & Ht & ->)|[Ht ->]]]%st_bind_run;
    pose proof (admit_request_same_cache srv request w) as Hs; rewrite Ht in Hs; cbn in Hs.
  2,3: split; [|done]; unfold cache_good; by rewrite Hs.
  assert (cache_good w1) as Hgood1 by (unfold cache_good; by rewrite Hs).
  apply admit_request_clock in Ht as [n Hn].
  apply st_bind_run in Hr as [(w2 & c & Hc & Hr)|[(e & [=] & _)|[[=] _]]]. apply gets_Ret in Hc as [-> ->].
  destruct (cached_reply t (w_cache w1)) as [reply|] eqn:Hreply.
  { injection Hr as <- <-. apply cached_reply_Some in Hreply as [Hle ->]. split; [done|].
    by apply (Hgood1 n t). }
  apply st_bind_run in Hr as [(w3 & c & Hc & Hr)|[(e & [=] & _)|[[=] _]]]. apply gets_Ret in Hc as [-> ->].
  rewrite Hreply in Hr. apply refresh_cache_run in Hr. destruct r as [reply|e|].
  - destruct Hr as [Hserved Hw]. split; [|done]. unfold cache_good. by rewrite Hw.
  - split; [|done]. unfold cache_good. by rewrite Hr.
  - split; [|done]. unfold cache_good. by rewrite Hr.
Qed.

Lemma get_allowed_signers_good `{!ZstdLaws} remote a a' r :
  cache_good (ag_net a) → get_allowed_signers_async remote a = (a', r) →
  cache_good (ag_net a') ∧
  match r with
  | Ret text => ∃ w w' l, Authorizer.get_allowed_signers (authorizer srv) w = (w', Ret l) ∧
      text = signers_text l
  | _ => True
  end.
Proof.
  intros Hgood. unfold get_allowed_signers_async.
  intros [(a1 & client & Hcl & Hr)|[(e & Hcl & ->)|[Hcl ->]]]%st_bind_run.
  2: by injection Hcl as <- _. 2: done.
  injection Hcl as <- <-.
  apply st_bind_run in Hr as [(a2 & reply & Hc & Hr)|[(e & Hc & ->)|[Hc ->]]].
  all: unfold rpc in Hc; apply map_err_run in Hc as (o & Hc & Ho); unfold call in Hc; cbn in Hc.
  all: destruct (allowed_signers_handler srv _ (ag_net a)) as [w o'] eqn:Hh; injection Hc as <- ->;
    apply allowed_signers_handler_good in Hh as [Hgood' Hserved]; [|done].
  2,3: by split.
  destruct o as [reply'| |]; simplify_eq. destruct Hserved as (w1 & w2 & l & Hl & Hz).
  apply zstd_decode_encode in Hz as [Hz1 Hz2]. rewrite Hz1, Hz2 in Hr. injection Hr as <- <-.
  split; [done|]. by exists w1, w2, l.
Qed.
End Received.

(** ** From the server's list to the name *)

Section SignedData.
Context `{Lru, SshCerts, Rcgen, Hmac, Env, Hex, X509, !Attestation, !Zstd, !Yubikeys, !Shell,
  !SshSignatures, !Fido, AgentEnv, AgentToml} {A : Type} `{!Authorizer A, !AuthorizerLaws A}.
Context (srv : RusticaServer A) (addr : SocketAddr) (peers_of : RusticaRemote → list bytes).
#[local] Instance rpc' : Rpc World := server_rpc srv addr peers_of.
Implicit Types s : ShellWorld World.

Lemma all_failed_good `{!ZstdLaws} l (a a' : AgentWorld World) :
  all_failed get_allowed_signers_async l a a' → cache_good srv (ag_net a) →
  cache_good srv (ag_net a').
Proof.
  induction 1 as [|server l a a1 a2 e Hs Hl IH]; [done|]. intros Hgood. apply IH.
  by apply (get_allowed_signers_good srv addr peers_of) in Hs as [Hgood' _].
Qed.

Lemma file_holds_the_list `{!ZstdLaws} config_path out_path s s' :
  cache_good srv (ag_net (sh_agent s)) →
  ffi_get_allowed_signers config_path out_path s = (s', Ret 0) →
  ∃ w w' l path, Authorizer.get_allowed_signers (authorizer srv) w = (w', Ret l) ∧
    to_str out_path = Some path ∧
    file_contents <$> sh_files s' !! path = Some (signers_text l).
Proof.
  intros Hgood Hr. apply ffi_get_allowed_signers_run in Hr as [_ Hr].
  destruct Hr as [(_ & conf & path & text & _ & Hpath & Hfirst & Hf)|[(Hv & _)|Hv]];
    [|done|by repeat (apply elem_of_cons in Hv as [?|Hv]); [done..|by apply not_elem_of_nil in Hv]].
  destruct Hfirst as (a2 & (tried & server & rest & a1 & _ & Hall & Hs) & _).
  apply all_failed_good in Hall; [|done].
  apply (get_allowed_signers_good srv addr peers_of) in Hs as [_ (w & w' & l & Hl & ->)]; [|done].
  by exists w, w', l, path.
Qed.

(** What the file says of a signature with the key [sk]. *)
Lemma verify_signed `{!SshSignaturesLaws} kp sk key_path namespace data signature path p l s s' r :
  to_str key_path = Some kp → sk_from_path kp = Ok sk →
  ffi_sign_data key_path namespace data = Some signature →
  to_str path = Some p → file_contents <$> sh_files s !! p = Some (signers_text l) →
  from_utf8 (as_bytes (signers_text l)) = Some (signers_text l) → io_fault (sh_io s) = None →
  Forall signer_ok (allowed_signers_list l) →
  ffi_verify_signed_data (N := World) path namespace data signature s = (s', r) →
  r = Ret (signer_of (pubkey sk) l ≫= λ signer, cstring_or_null (as_identity signer)).
Proof.
  intros Hkp Hsk Hsign Hpath Hf Hutf Hio Hok. unfold ffi_sign_data in Hsign.
  rewrite Hkp in Hsign. cbn in Hsign. rewrite Hsk in Hsign. cbn in Hsign.
  destruct (to_str namespace) as [ns|] eqn:Hns; [cbn in Hsign|done].
  destruct (sig_new data ns sk) as [text|] eqn:Hnew; [cbn in Hsign|done].
  destruct (sig_new_text _ _ _ _ Hnew) as [Htext Hnul].
  destruct (sig_new_verifies _ _ _ _ Hnew) as (sig & Hparse & Hpub & Hver).
  unfold cstring_or_null in Hsign. rewrite cstring_new_ok in Hsign by done. injection Hsign as <-.
  unfold ffi_verify_signed_data. unfold to_str at 1. rewrite Htext. cbn. rewrite Hparse, Hpath. cbn.
  unfold read_to_string, io_call. st_unfold. cbn. rewrite Hio. cbn.
  destruct (sh_files s !! p) as [f|]; [|done]. injection Hf as Hf. rewrite Hf, Hutf, Hpub.
  pose proof (find_signer_text (pubkey sk) l Hok) as Hfind.
  destruct (find_signer (pubkey sk) (signers_text l)) as [[k name]|] eqn:Hfs;
    destruct (signer_of (pubkey sk) l) as [signer|]; try done.
  - injection Hfind as ->. cbn. rewrite Hns. cbn. rewrite Hver; [by intros [= _ <-]|].
    by eapply find_signer_key.
  - by intros [= _ <-].
Qed.

(** ** Properties *)

(** C10: data that was signed is attributed by the server's list.  Once an agent
    made its file of allowed signers from the server, a verification of data
    that some key signed returns the name of the first signer of the
    authorizer's list who has that key, and no name when none has it - for
    names without spaces and line breaks, and as long as the file is not
    changed. *)
Theorem signed_data_is_attributed_by_the_servers_list `{!ZstdLaws, !SshSignaturesLaws}
    config_path out_path s s1 :
  cache_good srv (ag_net (sh_agent s)) →
  ffi_get_allowed_signers config_path out_path s = (s1, Ret 0) →
  ∃ w w' l path, Authorizer.get_allowed_signers (authorizer srv) w = (w', Ret l) ∧
    to_str out_path = Some path ∧
    ∀ key_path kp sk namespace data signature s2 s3 r,
      to_str key_path = Some kp → sk_from_path kp = Ok sk →
      ffi_sign_data key_path namespace data = Some signature →
      sh_files s2 !! path = sh_files s1 !! path → io_fault (sh_io s2) = None →
      from_utf8 (as_bytes (signers_text l)) = Some (signers_text l) →
      Forall signer_ok (allowed_signers_list l) →
      ffi_verify_signed_data (N := World) out_path namespace data signature s2 = (s3, r) →
      r = Ret (signer_of (pubkey sk) l ≫= λ signer, cstring_or_null (as_identity signer)).
Proof.
  intros Hgood Hr. apply file_holds_the_list in Hr as (w & w' & l & path & Hl & Hpath & Hf); [|done].
  exists w, w', l, path. split_and!; [done..|].
  intros key_path kp sk namespace data signature s2 s3 r Hkp Hsk Hsign Hsame Hio Hutf Hok Hv.
  apply (verify_signed kp sk key_path namespace data signature out_path path l s2 s3); try done.
  by rewrite Hsame.
Qed.
End SignedData.
