(* ===== verification/Toy.v ===== *)
(** * Small libraries to run the model on

    A concrete instance of every library class, small enough to evaluate, with
    a proof of its laws: the examples run the program with them, and they show
    that the laws the theorems assume can hold.  Keys are names, a signature is
    the signer's name, an HMAC is a checksum; texts are printed positives. *)
From Stdlib Require Import ZArith Lia Strings.Byte.
From S2P Require Import Prelude Machine Text Deps Key Auth Logging Schema World KmsSigner.

Module Toy.

(** ** Positives as text, three bits a character *)

Fixpoint to_oct (p : positive) : string :=
  match p with
  | xH => "a"
  | xO xH => "b"
  | xI xH => "c"
  | xO (xO xH) => "d"
  | xO (xI xH) => "e"
  | xI (xO xH) => "f"
  | xI (xI xH) => "g"
  | xO (xO (xO p)) => String "0" (to_oct p)
  | xO (xO (xI p)) => String "1" (to_oct p)
  | xO (xI (xO p)) => String "2" (to_oct p)
  | xO (xI (xI p)) => String "3" (to_oct p)
  | xI (xO (xO p)) => String "4" (to_oct p)
  | xI (xO (xI p)) => String "5" (to_oct p)
  | xI (xI (xO p)) => String "6" (to_oct p)
  | xI (xI (xI p)) => String "7" (to_oct p)
  end.

Fixpoint of_oct (s : string) : option positive :=
  match s with
  | EmptyString => None
  | String c EmptyString =>
      if decide (c = "a"%char) then Some xH
      else if decide (c = "b"%char) then Some (xO xH)
      else if decide (c = "c"%char) then Some (xI xH)
      else if decide (c = "d"%char) then Some (xO (xO xH))
      else if decide (c = "e"%char) then Some (xO (xI xH))
      else if decide (c = "f"%char) then Some (xI (xO xH))
      else if decide (c = "g"%char) then Some (xI (xI xH))
      else None
  | String c s =>
      p ← of_oct s;
      if decide (c = "0"%char) then Some (xO (xO (xO p)))
      else if decide (c = "1"%char) then Some (xO (xO (xI p)))
      else if decide (c = "2"%char) then Some (xO (xI (xO p)))
      else if decide (c = "3"%char) then Some (xO (xI (xI p)))
      else if decide (c = "4"%char) then Some (xI (xO (xO p)))
      else if decide (c = "5"%char) then Some (xI (xO (xI p)))
      else if decide (c = "6"%char) then Some (xI (xI (xO p)))
      else if decide (c = "7"%char) then Some (xI (xI (xI p)))
      else None
  end.

Lemma of_to_oct p : of_oct (to_oct p) = Some p.
Proof.
  revert p. fix IH 1.
  assert (∀ c p, to_oct p ≠ EmptyString ∧
    of_oct (String c (to_oct p)) = (p' ← of_oct (to_oct p);
      if decide (c = "0"%char) then Some (xO (xO (xO p')))
      else if decide (c = "1"%char) then Some (xO (xO (xI p')))
      else if decide (c = "2"%char) then Some (xO (xI (xO p')))
      else if decide (c = "3"%char) then Some (xO (xI (xI p')))
      else if decide (c = "4"%char) then Some (xI (xO (xO p')))
      else if decide (c = "5"%char) then Some (xI (xO (xI p')))
      else if decide (c = "6"%char) then Some (xI (xI (xO p')))
      else if decide (c = "7"%char) then Some (xI (xI (xI p')))
      else None)) as Hs.
  { intros c p. assert (to_oct p ≠ EmptyString) as Hne by
      by destruct p as [[[?|?|]|[?|?|]|]|[[?|?|]|[?|?|]|]|].
    split; [done|]. by destruct (to_oct p). }
  intros [[[p|p|]|[p|p|]|]|[[p|p|]|[p|p|]|]|]; try reflexivity;
    cbn [to_oct]; rewrite (proj2 (Hs _ p)), IH; reflexivity.
Qed.

(** A value of a countable type as text and back. *)
Definition print {A} `{Countable A} (a : A) : string := to_oct (encode a).
Definition scan {A} `{Countable A} (s : string) : option A := of_oct s ≫= decode.

Lemma scan_print {A} `{Countable A} (a : A) : scan (print a) = Some a.
Proof. unfold scan, print. rewrite of_to_oct. cbn. apply decode_encode. Qed.

(** ** sshcerts *)

Definition signature_of (name : string) : bytes := as_bytes name.

(** The text of a certificate: the signer's name, then what was signed, each
    field printed. *)
Definition cert_fields (c : Certificate string) : list string :=
  [print (of_bytes (c_signature c)); print (c_key c); print (c_cert_type c); print (c_serial c);
   print (c_key_id c); print (c_principals c); print (c_valid_after c); print (c_valid_before c);
   print (map_to_list (c_critical_options c)); print (map_to_list (c_extensions c));
   print (c_signature_key c)].
Definition print_cert (c : Certificate string) : string := join " " (cert_fields c).

Definition scan_fields (l : list string) : option (string * Certificate string) :=
  match l with
  | [sig; key; ty; serial; id; ps; va; vb; co; ex; sk] =>
      sig ← scan sig; key ← scan key; ty ← scan ty; serial ← scan serial; id ← scan id;
      ps ← scan ps; va ← scan va; vb ← scan vb; co ← scan co; ex ← scan ex; sk ← scan sk;
      Some (sig, mkCertificate key ty serial id ps va vb (list_to_map co) (list_to_map ex) sk
        (signature_of sk) None [])
  | _ => None
  end.
Definition scan_cert (s : string) : result string (Certificate string) :=
  match scan_fields (split " "%char s) with
  | Some (sig, c) => if decide (sig = c_signature_key c) then Ok c else Err "bad signature"
  | None => Err "bad certificate"
  end.

Lemma to_oct_no_blank p : ¬ has_char " "%char (to_oct p).
Proof.
  revert p. fix IH 1.
  intros [[[p|p|]|[p|p|]|]|[[p|p|]|[p|p|]|]|]; cbn [to_oct]; rewrite has_char_cons;
    intros [Hc|Hc]; try discriminate; try (by apply has_char_nil in Hc); by apply IH in Hc.
Qed.

(** The text is of letters and digits. *)
Lemma to_oct_ascii p : Forall (λ b, in_range 48 103 b = true) (as_bytes (to_oct p)).
Proof.
  revert p. fix IH 1.
  intros [[[p|p|]|[p|p|]|]|[[p|p|]|[p|p|]|]|]; cbn [to_oct];
    try (apply Forall_cons_2; [reflexivity|apply Forall_nil_2]);
    (apply Forall_cons_2; [reflexivity|apply IH]).
Qed.
Lemma print_ascii {A} `{Countable A} (a : A) :
  from_utf8 (as_bytes (print a)) = Some (print a) ∧ Byte.x00 ∉ as_bytes (print a).
Proof.
  unfold print. pose proof (to_oct_ascii (encode a)) as Ho. split.
  - apply from_utf8_ascii. eapply Forall_impl; [exact Ho|]. intros b Hb. unfold in_range in *.
    apply bool_decide_eq_true in Hb. apply bool_decide_eq_true. lia.
  - intros Hin. apply (proj1 (Forall_forall _ _) Ho) in Hin. discriminate.
Qed.

Lemma print_no_blank {A} `{Countable A} (a : A) : ¬ has_char " "%char (print a).
Proof. apply to_oct_no_blank. Qed.

Lemma scan_print_cert c :
  scan_fields (split " "%char (print_cert c)) = Some (of_bytes (c_signature c),
    mkCertificate (c_key c) (c_cert_type c) (c_serial c) (c_key_id c) (c_principals c)
      (c_valid_after c) (c_valid_before c) (c_critical_options c) (c_extensions c)
      (c_signature_key c) (signature_of (c_signature_key c)) None []).
Proof.
  unfold print_cert. rewrite split_join; [|done|].
  - unfold cert_fields, scan_fields. rewrite !scan_print. cbn. by rewrite !list_to_map_to_list.
  - unfold cert_fields. repeat constructor; apply print_no_blank.
Qed.

Definition ssh : SshCerts := {|
  PublicKey := string;
  PrivateKey := string;
  Fingerprint := string;
  fingerprint_hash := λ s, s;
  fingerprint := λ s, s;
  pk_from_string := strip_prefix "key ";
  pk_to_string := λ s, "key " +:+ s;
  pk_from_bytes := λ b, strip_prefix "key " (of_bytes b);
  pk_encode := λ s, as_bytes ("key " +:+ s);
  sk_from_string := strip_prefix "private ";
  sk_from_bytes := λ b, strip_prefix "private " (of_bytes b);
  pubkey := λ s, s;
  sk_comment := λ s, s;
  sk_is_sk := λ s, starts_with "sk-" s;
  sk_sign := λ s b, Some (as_bytes s ++ b);
  cert_type_to_string := λ t, match t with User => "user certificate" | Host => "host certificate" end;
  cert_type_as_u32 := λ t, match t with User => 1 | Host => 2 end;
  cert_type_try_from := λ s, if decide (s = "user") then Some User
    else if decide (s = "host") then Some Host else None;
  standard_extensions := {[ "permit-pty" := "" ]};
  cert_builder := λ pk ty ca, Some (mkCertificate pk ty 0 "" [] 0 0 ∅ ∅ ca [] None []);
  cert_sign := λ c sk, if decide (c_signature_key c = sk) then Some
    (mkCertificate (c_key c) (c_cert_type c) (c_serial c) (c_key_id c) (c_principals c)
      (c_valid_after c) (c_valid_before c) (c_critical_options c) (c_extensions c)
      (c_signature_key c) (signature_of sk) None []) else None;
  tbs_certificate := λ c, as_bytes (print_cert c);
  add_signature := λ c sig, Some
    (mkCertificate (c_key c) (c_cert_type c) (c_serial c) (c_key_id c) (c_principals c)
      (c_valid_after c) (c_valid_before c) (c_critical_options c) (c_extensions c)
      (c_signature_key c) sig None []);
  cert_to_string := print_cert;
  cert_from_string := scan_cert;
  cert_from_bytes := λ b, match scan_cert (of_bytes b) with Ok c => Some c | Err _ => None end;
|}.

#[local] Existing Instance ssh.

Lemma ssh_laws : SshCertsLaws.
Proof.
  split.
  - intros pk ty ca c. cbn. by intros [= <-].
  - intros c sk c'. cbn. case_decide; [|done]. by intros [= <-].
  - intros c sig c'. cbn. by intros [= <-].
  - intros c sk c'. cbn -[scan_cert print_cert]. case_decide as Hk; [|done]. intros [= <-].
    unfold scan_cert. rewrite scan_print_cert. eexists.
    rewrite decide_True by (etrans; [apply of_bytes_as_bytes|exact (eq_sym Hk)]).
    split; [done|]. by repeat split.
  - intros pk. exists pk. split; [|done].
    by apply (proj2 (strip_prefix_Some "key " ("key " +:+ pk) pk)).
  - intros pk. exists pk. split; [|done].
    change (strip_prefix "key " (of_bytes (as_bytes ("key " +:+ pk))) = Some pk).
    rewrite of_bytes_as_bytes.
    by apply (proj2 (strip_prefix_Some "key " ("key " +:+ pk) pk)).
  - done.
Qed.

(** ** ring and hex *)

Definition byte_of (z : Z) : byte := default Byte.x00 (Byte.of_N (Z.to_N (z mod 256))).
Definition checksum (k : Z) (m : bytes) : Z :=
  foldl (λ acc b, (acc * 31 + Z.of_N (Byte.to_N b)) mod 65521) k m.

Definition hmac : Hmac := {|
  HmacKey := Z;
  hmac_sign := λ k m, [byte_of (checksum k m); byte_of (checksum k m / 256)];
  hmac_verify := λ k m t,
    bool_decide (t = [byte_of (checksum k m); byte_of (checksum k m / 256)]);
  sha256 := λ m, [byte_of (checksum 7 m)];
|}.
#[local] Existing Instance hmac.

Lemma hmac_laws : HmacLaws.
Proof. split. intros k m t. cbn. apply bool_decide_eq_true. Qed.

Definition hex_digit (n : N) : ascii :=
  ascii_of_N (if decide (n < 10)%N then 48 + n else 87 + n).
Definition hex_value (a : ascii) : option N :=
  let n := N_of_ascii a in
  if decide (48 ≤ n ≤ 57)%N then Some (n - 48)%N
  else if decide (97 ≤ n ≤ 102)%N then Some (n - 87)%N
  else if decide (65 ≤ n ≤ 70)%N then Some (n - 55)%N
  else None.

Fixpoint hex_of (b : bytes) : string :=
  match b with
  | [] => EmptyString
  | x :: b => String (hex_digit (Byte.to_N x / 16)) (String (hex_digit (Byte.to_N x mod 16)) (hex_of b))
  end.
Fixpoint of_hex (s : string) : option bytes :=
  match s with
  | EmptyString => Some []
  | String _ EmptyString => None
  | String a (String b s) =>
      x ← hex_value a; y ← hex_value b; c ← Byte.of_N (x * 16 + y); l ← of_hex s; Some (c :: l)
  end.

Definition hex : Hex := {| hex_encode := hex_of; hex_decode := of_hex |}.
#[local] Existing Instance hex.

Lemma hex_laws : HexLaws.
Proof.
  split; cbn.
  - induction b as [|x b IH]; cbn; [done|]. rewrite IH. lia.
  - induction b as [|x b IH]; [done|]. cbn [hex_of of_hex]. rewrite IH. by destruct x.
Qed.

(** ** x509-parser: a certificate is its names, its expiry and its key *)

(** The text of a PIV certificate: its key, its policies and its serial. *)
Definition scan_piv (b : bytes) : option (string * Z * Z * Z) :=
  strip_prefix "piv " (of_bytes b) ≫= scan.
Definition piv_cert (name : string) (pin touch serial : Z) : bytes :=
  as_bytes ("piv " +:+ print (name, pin, touch, serial)).

Definition x509 : X509 := {|
  X509Certificate := list string * Z * string;
  x509_from_der := λ b, match scan_piv b with
    | Some (pk, _, _, _) => Ok ([], 0, pk)
    | None => match scan (of_bytes b) with
              | Some c => Ok c | None => Err "not a certificate" end
    end;
  not_after_timestamp := λ c, c.1.2;
  subject_rdns := λ c, (λ n, [("2.5.4.10", Some "Rustica"); (OID_COMMON_NAME, Some n)]) <$> c.1.1;
  Spki := string;
  subject_pki := λ c, c.2;
|}.
Definition mtls_cert (names : list string) (expiry : Z) : bytes :=
  as_bytes (print (names, expiry, "mtls key")).

(** ** zstd: nothing is compressed *)

Definition zstd : Zstd := {|
  zstd_encoder_new := Ok ();
  zstd_write_all := λ _, Ok ();
  zstd_finish := λ b, Ok b;
  zstd_decoder_new := λ _, Ok ();
  zstd_read_to_string := λ b, Ok (of_bytes b);
|}.
Lemma zstd_laws : ZstdLaws (H := zstd).
Proof. split. cbn. intros s bs [= <-]. by rewrite of_bytes_as_bytes. Qed.

(** ** lru: a bounded map that evicts some other entry *)

Definition evict (m : gmap string Z) : option (string * Z) := head (map_to_list m).
Definition lru : Lru := {|
  LruCache := Z * gmap string Z;
  lru_new := λ n, (n, ∅);
  lru_peek := λ c k, c.2 !! k;
  lru_push := λ c k v,
    match c.2 !! k with
    | Some old => ((c.1, <[k := v]> c.2), Some (k, old))
    | None =>
        if decide (Z.of_nat (size c.2) < c.1) then ((c.1, <[k := v]> c.2), None)
        else match evict c.2 with
             | Some (k', v') => ((c.1, <[k := v]> (delete k' c.2)), Some (k', v'))
             | None => ((c.1, <[k := v]> c.2), None)
             end
    end;
|}.
#[local] Existing Instance lru.

Lemma evict_Some m k v : evict m = Some (k, v) → m !! k = Some v.
Proof.
  unfold evict. intros Hh. apply elem_of_map_to_list. destruct (map_to_list m); [done|].
  cbn in Hh. simplify_eq. set_solver.
Qed.

Lemma lru_laws : LruLaws.
Proof.
  split.
  - done.
  - intros [n m] k v c' r. cbn. repeat case_match; intros [= <- <-]; cbn; by simplify_map_eq.
  - intros [n m] k v old. cbn. by intros ->.
  - intros [n m] k v. cbn. intros Hk. rewrite Hk. case_decide; cbn; [done|].
    destruct (evict m) as [[k' v']|] eqn:He; cbn; [|done]. apply evict_Some in He.
    split; [congruence|done].
  - intros [n m] k v k' Hk. cbn. destruct (m !! k); cbn; [by simplify_map_eq|].
    case_decide; cbn; [by simplify_map_eq|].
    destruct (evict m) as [[k'' v'']|] eqn:He; cbn; [|by simplify_map_eq].
    intros Hne. rewrite lookup_insert_ne by done. apply lookup_delete_ne. congruence.
Qed.

(** ** attestation: a chain is its key and its policies *)

Definition attestation : Attestation (H := ssh) := {|
  verify_certificate_chain := λ client intermediate,
    if decide (intermediate = as_bytes "root") then
      '(pk, pin, touch, serial) ← scan_piv client;
      Some {| piv_public_key := pk; piv_pin_policy := pin; piv_touch_policy := touch;
              piv_firmware := "5.4.3"; piv_serial := serial |}
    else None;
  AuthData := string;
  aaguid := λ d, as_bytes "aaguid";
  ssh_public_key := λ d app, if decide (app = "ssh:") then Some d else None;
  verify_auth_data := λ data sig chal a intermediate,
    if decide (intermediate = as_bytes "root" ∧ sig = chal) then
      Some (of_bytes data, Some "5.4.3") else None;
|}.

(** ** rcgen *)

Definition default_params (names : list string) : CertificateParams string :=
  {| alg := PKCS_ECDSA_P256_SHA256; not_before := 0; not_after := 0; serial_number := None;
     subject_alt_names := DnsName <$> names; distinguished_name := []; is_ca := false;
     key_usages := []; extended_key_usages := []; name_constraints := None;
     custom_extensions := []; use_authority_key_identifier_extension := false;
     key_pair := None |}.

(** A certificate is its parameters' names, its validity and its key. *)
Definition rcgen : Rcgen := {|
  KeyPair := string;
  keypair_from_remote := λ r, Some (of_bytes (remote_public_key r));
  RcgenCertificate := list string * Z * string;
  base64_decode := λ s, Some (as_bytes s);
  keypair_from_der := λ b, Some (of_bytes b);
  params_new := default_params;
  date_in_range := λ s, bool_decide (0 ≤ s < 253402300800);
  from_params := λ p n, Some ((distinguished_name p).*2, not_after p,
    default ("random " +:+ int_to_string (Z.of_nat n)) (key_pair p));
  serialize_private_key_pem := λ c, c.2;
  serialize_pem := λ c n, Ok (print c);
  serialize_pem_with_signer := λ c ca n, Some (print c);
  CsrKey := string;
  csr_from_der := λ b, match strip_prefix "csr " (of_bytes b) with
    | Some k => Ok (default_params [], k) | None => Err "not a request" end;
  serialize_der_with_signer := λ csr ca n,
    Some (as_bytes (print ((distinguished_name csr.1).*2, not_after csr.1, csr.2)));
|}.

Definition parse_arcs (l : list string) : option (list Z) := mapM parse_u64 l.
Definition asn1 : Asn1 := {|
  oid_from_str := λ s,
    match split "."%char s with
    | [] | [_] => None
    | l => Some <$> parse_arcs l
    end;
  write_utf8_string := λ s, Some (as_bytes s);
|}.

(** ** Yubikeys *)

(** One Yubikey, number 7, with the key [yk] in its first slot; or one for
    every number, and always there. *)
Definition yubikeys_of (plugged : bool) : Yubikeys (H := ssh) := {|
  SlotId := Z;
  slot_try_from := λ z, if decide (130 ≤ z < 150 ∨ z = 154) then Some z else None;
  retired_slot_try_from := λ z, if decide (130 ≤ z < 150) then Some z else None;
  slot_attestation := 249;
  slot_to_string := int_to_string;
  slot_debug := int_to_string;
  Yubikey := Z;
  device_error_text := λ _, "device error";
  yk_context := λ _, Ok ();
  yk_readers := λ _, Some [Some 7; None];
  yk_open := λ serial _, if decide (plugged = true ∨ serial = 7) then Some 7 else None;
  yk_new := λ n, if decide (plugged = false ∧ n = 100%nat) then None else Some 7;
  yk_serial := λ yk, yk;
  yk_reconnect := λ _ _, true;
  yk_fetch_pubkey := λ _ slot _, if decide (slot = 130) then Some "yk"
    else if decide (slot = 131) then Some "yk host" else None;
  yk_fetch_subject := λ _ _ _, None;
  yk_sign := λ _ data slot _, if decide (slot = 130) then Some (as_bytes "yk" ++ data) else None;
  yk_unlock := λ _ pin _ _, bool_decide (pin = as_bytes "123456");
  yk_pin_retries := λ _ _, Some 3;
  yk_generate_csr := λ _ _ _, None;
  yk_fetch_attestation := λ _ _ _, Err "none";
  yk_fetch_certificate := λ _ _ _, None;
  yk_provision := λ _ _ _ _ _ _, true;
  yk_write_certificate := λ _ _ _ _, true;
  csr_signer_new := λ serial slot _, Some {| remote_public_key := as_bytes (int_to_string slot);
    remote_sign := λ m _, Some m; remote_algorithm := PKCS_ECDSA_P384_SHA384 |};
|}.

Definition yubikeys : Yubikeys (H := ssh) := yubikeys_of false.

Lemma yubikeys_laws plugged : YubikeysLaws (H0 := yubikeys_of plugged).
Proof. split. cbn. intros n Hn. rewrite decide_True by lia. eauto. Qed.

(** ** Amazon's service: a key is its name *)

Definition kms : Kms (H := ssh) := {|
  signing_algorithm_from := λ s, if decide (s = "ECDSA_SHA_256") then EcdsaSha256
    else if decide (s = "ECDSA_SHA_384") then EcdsaSha384 else UnknownSpec s;
  kms_get_public_key := λ _ id _, Some (Some (as_bytes ("key " +:+ id)));
  kms_sign := λ _ id _ _ _, Ok (Some (as_bytes ("kms " +:+ id)));
  der_encoding_to_ssh_public_key := λ b, Some (of_bytes b);
  format_signature_for_ssh := λ _ b, Some b;
|}.

(** ** The environment *)

(** A clock that reads [ts] seconds and then one more each time, an author
    that approves with [approval]. *)
Definition env (b : profile) (ts : Z) (approval : gmap string string) : Env := {|
  build := b;
  clock := λ n, if decide (in_u64 (ts + Z.of_nat n)) then Some (from_secs (ts + Z.of_nat n))
    else None;
  db_opens := λ p, bool_decide (p = "rustica.db");
  db_fault := λ _, None;
  unique_violation := "UNIQUE constraint failed: registered_keys.fingerprint";
  author_connect := λ _ _ _, Connected;
  author_authorize := λ _ _, Ok approval;
  author_add_identity_data := λ _ _, Ok ();
  author_allowed_signers := λ _, Ok [("alice", "key k1"); ("bob", "key k2")];
  status_to_string := message;
  map_order := map_to_list;
|}.

Lemma env_laws b ts approval : EnvLaws (H := env b ts approval).
Proof.
  split.
  - intros n d. cbn. case_decide; [|done]. intros [= <-].
    unfold in_duration, from_secs, NANOS_PER_SEC. machine.
  - done.
Qed.
End Toy.
