(* ===== verification/Examples.v ===== *)
(** * The server's theorems at work

    Concrete runs of the server's parts with the small libraries of [Toy]:
    each lemma applies one theorem to an input on which its hypotheses hold. *)
From Stdlib Require Import ZArith Lia.
From S2P Require Import Prelude Machine Text Deps Key Auth Logging Schema World.
From S2P Require Import Database External Authorizer Signing Proto Server Validation Issuance.
From S2P Require Import Registration X509Issuance AllowedSigners Toy.

#[local] Existing Instance Toy.ssh.
#[local] Existing Instance Toy.lru.
#[local] Existing Instance Toy.hmac.
#[local] Existing Instance Toy.hex.
#[local] Existing Instance Toy.x509.
#[local] Existing Instance Toy.rcgen.
#[local] Existing Instance Toy.asn1.
#[local] Existing Instance Toy.zstd.
#[local] Existing Instance Toy.lru_laws.
#[local] Existing Instance Toy.attestation.
#[local] Existing Instance Toy.ssh_laws.
#[local] Existing Instance Toy.hmac_laws.
#[local] Existing Instance Toy.hex_laws.

(** The author's approval and a release build at 1700000000. *)
Definition approval : gmap string string :=
  <["serial" := "7"]> (<["valid_before" := "1700000100"]> (<["valid_after" := "1700000000"]>
  (<["principals" := "alice,root"]> (<["authority" := "prod"]>
  (<["extension.permit-pty" := ""]> (<["force_source_ip" := "true"]> ∅)))))).

#[local] Instance release : Env := Toy.env Release 1700000000 approval.
#[local] Instance release_laws : EnvLaws := Toy.env_laws _ _ _.
Lemma clock_late n d : clock n = Some d → 5 ≤ as_secs d.
Proof.
  intros Hd. cbn [clock release Toy.env] in Hd. case_decide as Hin; [|discriminate].
  injection Hd as <-. unfold as_secs, from_secs. rewrite Z.div_mul by discriminate. lia.
Qed.

(** Key k1 may get user certificates for alice; its token 42 an mTLS one. *)
Definition db1 : Database :=
  {| fingerprint_principal_authorizations :=
       [{| fpa_fingerprint := "k1"; fpa_principal := "alice"; fpa_authority := "prod" |};
        {| fpa_fingerprint := "k2"; fpa_principal := "bob"; fpa_authority := "prod" |}];
     fingerprint_host_authorizations := [];
     fingerprint_extensions :=
       [{| fe_fingerprint := "k1"; fe_extension_name := "permit-pty";
           fe_extension_value := None; fe_authority := "prod" |}];
     fingerprint_permissions :=
       [{| fp_fingerprint := "k1"; fp_host_unrestricted := true;
           fp_principal_unrestricted := false; fp_can_create_host_certs := false;
           fp_can_create_user_certs := true; fp_max_creation_time := 10;
           fp_authority := "prod" |}];
     registered_keys := [];
     x509_authorizations :=
       [{| xr_user := "alice"; xr_hsm_serial := "42"; xr_require_touch := true;
           xr_authority := "prod" |}] |}.

Lemma db1_wf : db_wf db1.
Proof. split; vm_compute; repeat constructor; set_solver. Qed.

Definition w1 : World :=
  mkWorld _ 0%nat [] db1 0%nat 0%nat [] (lru_new 100)
    {| compressed_allowed_signers := []; expiry_timestamp := 0 |} 0%nat [] [].

Definition local : LocalDatabase := {| path := "rustica.db" |}.
Lemma local_up : Local.db_up local.
Proof. by split. Qed.

Definition ask1 : SshAuthorizationRequestProperties :=
  {| sp_fingerprint := "k1"; sp_mtls_identities := ["alice"]; sp_requester_ip := "10.0.0.1:22";
     sp_principals := ["root"]; sp_servers := []; sp_valid_before := 1700000100;
     sp_valid_after := 1700000000; sp_cert_type := User; sp_authority := "prod" |}.

(** The value a run returned. *)
Definition returned {S E A} (r : S * outcome E A) : option A :=
  match r.2 with Ret a => Some a | _ => None end.

Definition grant1 : SshAuthorization :=
  {| sa_serial := 0; sa_valid_before := 1700000010; sa_valid_after := 1700000000;
     sa_principals := ["alice"]; sa_hosts := None; sa_extensions := {[ "permit-pty" := "" ]};
     sa_force_command := None; sa_force_source_ip := false; sa_authority := "prod" |}.

Lemma run_eq {S E A} (r : S * outcome E A) a : r.2 = Ret a → r = (r.1, Ret a).
Proof. destruct r. by intros <-. Qed.

Lemma database_grants_only_what_the_tables_say_witness :
  ∃ r, Local.grants db1 1700000000 ask1 r grant1.
Proof.
  assert ((Local.authorize_ssh_cert local ask1 w1).2 = Ret grant1) as Hrun
    by (vm_compute; reflexivity).
  destruct (Local.database_grants_only_what_the_tables_say local ask1 w1 _ grant1
    (run_eq _ _ Hrun)) as [_ [r Hr]].
  exists r. exact Hr.
Defined.

Lemma database_decides_by_the_permission_row_witness :
  (Local.authorize_ssh_cert local ask1 w1).2 = Ret grant1 ∧
  ∃ a, (Local.authorize_ssh_cert local ask1 w1).2 = Ret a ∧
    ∃ r, Local.grants db1 1700000000 ask1 r a.
Proof.
  split; [vm_compute; reflexivity|].
  destruct (proj2 (Local.database_decides_by_the_permission_row local ask1 w1 local_up db1_wf)
    _ (list_elem_of_here _ _) eq_refl) as [(a & Ha & Hg)|(Hd & _)]; [|discriminate].
  exists a. split; [exact Ha|]. eexists. exact Hg.
Defined.

Definition reg1 : RegisterKeyRequestProperties :=
  {| rp_fingerprint := "k9"; rp_pubkey := "key k9"; rp_mtls_identities := ["alice"; "a2"];
     rp_requester_ip := ""; rp_attestation := None |}.

Lemma database_registers_each_fingerprint_once_witness :
  (Local.register_key local reg1 w1).2 = Ret () ∧
  db_wf (w_db (Local.register_key local reg1 w1).1).
Proof.
  destruct (Local.database_registers_each_fingerprint_once local reg1 w1 db1_wf)
    as (Hwf & Hnew & _).
  split; [|exact Hwf]. apply (Hnew local_up). vm_compute. inversion 1.
Defined.

Lemma database_serves_what_it_registered_witness :
  (Local.get_allowed_signers local (Local.register_key local reg1 w1).1).2 =
    Ret {| allowed_signers_list := [{| as_identity := "alice,a2"; as_pubkey := "key k9" |}] |}.
Proof.
  assert ((Local.register_key local reg1 w1).2 = Ret ()) as Hrun by (vm_compute; reflexivity).
  destruct (Local.database_serves_what_it_registered local reg1 w1 _ local_up
    (run_eq _ _ Hrun)) as (before & Hb & Ha).
  rewrite Ha. vm_compute in Hb. injection Hb as <-. reflexivity.
Defined.

Definition token1 : PIVAttestation :=
  {| pin_policy := PinOnce; touch_policy := TouchCached; pa_serial := 42; pa_firmware := "5.4.3";
     pa_certificate := []; pa_intermediate := [] |}.
Definition ask_x509 : X509AuthorizationRequestProperties :=
  {| xp_authority := "prod"; xp_mtls_identities := ["alice"]; xp_requester_ip := "10.0.0.1:22";
     xp_attestation := []; xp_attestation_intermediate := [];
     xp_key := {| k_fingerprint := "k1"; k_attestation := Some (Piv token1) |} |}.

Lemma database_x509_needs_an_allowed_token_witness :
  (Local.authorize_attested_x509_cert local ask_x509 w1).2 = Ret
    {| xa_authority := "prod"; xa_issuer := "Rustica"; xa_common_name := "alice";
       xa_sans := ["alice"]; xa_serial := 0xFEFEFEFEFE; xa_valid_before := 1700043200;
       xa_valid_after := 1700000000; xa_extensions := [] |}.
Proof.
  assert (in_u64 (as_secs (from_secs 1700000000) + 43200)) as Hr by (vm_compute; split; congruence).
  destruct (Local.database_x509_needs_an_allowed_token local ask_x509 w1
    (from_secs 1700000000) local_up db1_wf eq_refl Hr) as [Ht _].
  refine (Ht _). eexists. split; [apply list_elem_of_here|]. vm_compute.
  split_and!; [reflexivity..|congruence].
Defined.

(** ** The external authorizer *)

Definition author : AuthServer :=
  {| server := "author"; port := "50052"; ca := ""; mtls_cert := ""; mtls_key := "" |}.

Lemma external_extensions_are_the_prefixed_keys_witness :
  External.extensions_of_response approval !! "permit-pty" = Some "".
Proof. rewrite External.external_extensions_are_the_prefixed_keys. reflexivity. Defined.

Lemma external_ssh_answer_decides_witness :
  ∃ a, (External.authorize_ssh_cert author ask1 w1).2 = Ret a.
Proof.
  pose proof (External.external_ssh_answer_decides author ask1 w1 eq_refl) as Hd.
  cbv zeta in Hd. destruct Hd as [Hd _]. apply Hd. split.
  - intros k Hk. rewrite !elem_of_cons in Hk.
    destruct Hk as [->|[->|[->|Hk]]]; [| | |by apply not_elem_of_nil in Hk];
      eexists _, _; split; reflexivity.
  - intros k Hk. rewrite !elem_of_cons in Hk.
    destruct Hk as [->|[->|Hk]]; [| |by apply not_elem_of_nil in Hk]; eexists; reflexivity.
Defined.

Lemma external_ssh_asks_for_the_requester_witness :
  ∃ q, w_author (External.authorize_ssh_cert author ask1 w1).1 = [Authorize q] ∧
    ar_identities q !! "key_fingerprint" = Some "k1".
Proof.
  assert (in_u64 (sp_valid_before ask1)) as Hb by (vm_compute; split; congruence).
  assert (in_u64 (sp_valid_after ask1)) as Ha by (vm_compute; split; congruence).
  destruct (External.external_ssh_asks_for_the_requester author ask1 w1 _ _ Hb Ha
    (surjective_pairing _)) as [Hno|(q & Hq & Hf & _)].
  - vm_compute in Hno. discriminate.
  - exists q. split; [exact Hq|exact Hf].
Defined.

(** ** Signing *)

Definition signer1 : FileSigner :=
  {| ssh_keys := Some ("user-ca", "host-ca"); x509_certificate := None;
     client_certificate_authority := Some (["ca"], 0, "ca key") |}.
Definition signer2 : FileSigner :=
  {| ssh_keys := Some ("user-ca-2", "host-ca-2"); x509_certificate := None;
     client_certificate_authority := None |}.
Definition mechanism1 : SigningMechanism :=
  {| default_authority := "prod";
     authorities := {[ "prod" := file_signer signer1; "dev" := file_signer signer2 ]} |}.

Lemma mechanism1_laws a s : authorities mechanism1 !! a = Some s → SignerLaws s.
Proof.
  cbn [authorities mechanism1]. rewrite lookup_insert_Some, lookup_singleton_Some.
  intros [[_ <-]|[_ [_ <-]]]; apply file_signer_laws.
Qed.

(** The mechanism of a run that returned. *)
Lemma run_returned {S E A} (r : S * outcome E A) a :
  returned r = Some a → r = (r.1, Ret a).
Proof. destruct r as [s [x| |]]; cbn; by intros [= <-]. Qed.

Definition mechanism2 : SigningMechanism :=
  {| default_authority := "prod"; authorities := <["prod" := file_signer signer1]> ∅ |}.

Lemma mechanism_keys_have_one_role_witness :
  convert_to_signing_mechanism mret "prod" [("prod", file_signer signer1)] w1
    = (w1, Ret mechanism2) ∧
  pk_hash ("user-ca" : PublicKey) ≠ pk_hash ("host-ca" : PublicKey).
Proof.
  assert (convert_to_signing_mechanism mret "prod" [("prod", file_signer signer1)] w1
    = (w1, Ret mechanism2)) as Hr by reflexivity.
  split; [exact Hr|]. intros Heq.
  destruct (mechanism_keys_have_one_role mret "prod" [("prod", file_signer signer1)] w1 _ mechanism2
    "prod" "prod" (file_signer signer1) (file_signer signer1) User Host _ _ Hr
    eq_refl eq_refl eq_refl eq_refl Heq) as [_ Ht].
  discriminate.
Defined.

Definition signers1 : list (string * Signer) :=
  [("prod", file_signer signer1); ("dev", file_signer signer2)].

Lemma mechanism_does_not_depend_on_the_order_witness :
  ∃ m, convert_to_signing_mechanism mret "prod" (reverse signers1) w1 = (w1, Ret m).
Proof.
  assert (signers1 ≡ₚ reverse signers1) as Hp by (symmetry; apply reverse_Permutation).
  assert (NoDup signers1.*1) as Hnd by (apply (bool_decide_unpack _); vm_compute; exact I).
  destruct (mechanism_does_not_depend_on_the_order "prod" _ _ w1 Hp Hnd) as [[_ Hr]|[Hno _]].
  - eexists. exact Hr.
  - destruct Hno. apply (bool_decide_unpack _). vm_compute. exact I.
Defined.

Definition unsigned1 : Certificate string :=
  mkCertificate "k1" User 1 "id" ["alice"] 0 10 ∅ ∅ "user-ca" [] None [].

Lemma mechanism_signs_what_it_was_given_witness :
  ∃ c, returned (sign mechanism1 "prod" unsigned1 w1) = Some c ∧ same_tbs unsigned1 c.
Proof.
  destruct (returned (sign mechanism1 "prod" unsigned1 w1)) as [c|] eqn:Hr;
    [|vm_compute in Hr; discriminate].
  exists c. split; [reflexivity|].
  apply (mechanism_signs_what_it_was_given mechanism1 "prod" unsigned1 w1 _ c mechanism1_laws
    (run_returned _ _ Hr)).
Defined.

(** ** A server, its challenge and a client's answer *)

Definition server1 : RusticaServer AuthorizationMechanism :=
  {| hmac_key := 5 : HmacKey; challenge_key := "ck" : PrivateKey; authorizer := MLocal local;
     signer := mechanism1; require_rustica_proof := true; require_attestation_chain := true;
     client_authority :=
       {| authority := "prod"; validity_length := 86400; expiration_renewal_period := 3600 |};
     allowed_signers :=
       {| cache_validity_length := 10; lru_rate_limiter_size := 4; rate_limit_cooldown := 5 |} |}.
(** The same without a client signature. *)
Definition server2 : RusticaServer AuthorizationMechanism :=
  {| hmac_key := 5 : HmacKey; challenge_key := "ck" : PrivateKey; authorizer := MLocal local;
     signer := mechanism1; require_rustica_proof := false; require_attestation_chain := true;
     client_authority := client_authority server1; allowed_signers := allowed_signers server1 |}.

Definition peers1 : list bytes := [Toy.mtls_cert ["alice"] 1700001800].
Definition addr1 : SocketAddr := {| addr_to_string := "10.0.0.1:22"; ip_to_string := "10.0.0.1" |}.
Definition challenge_request : Request ChallengeRequest :=
  mkRequest (Some addr1) (Some peers1) {| cr_pubkey := "key k1" |}.

Definition response1 : ChallengeResponse :=
  Eval vm_compute in default {| time := ""; challenge := ""; no_signature_required := false |}
    (returned (challenge_handler server1 challenge_request w1)).

(** The client signs the challenge with its own key. *)
Definition client_certificate : string :=
  Eval vm_compute in
  match cert_from_string (challenge response1) with
  | Ok c => match cert_sign (set_signature_key "k1" c) ("k1" : PrivateKey) with
            | Some c => cert_to_string c | None => "" end
  | Err _ => ""
  end.
Definition challenge1 : Challenge :=
  {| ch_pubkey := "key k1"; ch_challenge := client_certificate; ch_challenge_signature := "";
     ch_challenge_time := time response1 |}.

(** One second later. *)
Definition w2 : World := set_clock 1%nat w1.
Definition info1 : MtlsCertificateInfo := {| identities := ["alice"]; cert_expiry := 1700001800 |}.

Lemma accepted1 : accepted server1 5 peers1 challenge1 1700000001 "k1" info1.
Proof.
  split.
  - eexists. split; vm_compute; reflexivity.
  - vm_compute. congruence.
  - eexists 1700000000, _. split_and!; [vm_compute; reflexivity|lia|lia|vm_compute; reflexivity|
      vm_compute; reflexivity|vm_compute; split; reflexivity].
  - vm_compute. reflexivity.
Qed.

Lemma validate_request_accepts_exactly_witness :
  validate_request server1 5 peers1 challenge1 w2 = (set_clock 2%nat w2,
    Ret ("k1", ["alice"],
      Some {| rs_not_after := 1700086401; rs_not_before := 1700000001 |})).
Proof.
  assert (5 ≤ as_secs (from_secs 1700000001)) as Hge by (vm_compute; congruence).
  apply (validate_request_accepts_exactly server1 5 peers1 challenge1 w2 _
    (from_secs 1700000001) "k1" ["alice"] _ release_laws Toy.hmac_laws eq_refl Hge).
  exists info1. split; [exact accepted1|]. split_and!; vm_compute; reflexivity.
Defined.

Lemma validate_request_window_witness :
  (validate_request server1 5 peers1 challenge1 (set_clock 6%nat w1)).2 = Raise TimeExpired.
Proof.
  assert (5 ≤ as_secs (from_secs 1700000006)) as Hge by (vm_compute; congruence).
  assert (extract_certificate_information (Toy.mtls_cert ["alice"] 1700001800) = Ok info1) as He
    by (vm_compute; reflexivity).
  assert (parse_u64 (ch_challenge_time challenge1) = Some 1700000000) as Hp
    by (vm_compute; reflexivity).
  assert (¬ 1700000000 ≤ as_secs (from_secs 1700000006) ≤ 1700000000 + 5) as Hout
    by (vm_compute; intros [_ Hc]; apply Hc; reflexivity).
  pose proof (validate_request_window server1 5 peers1 _ challenge1 (set_clock 6%nat w1)
    (from_secs 1700000006) info1 1700000000 release_laws eq_refl Hge eq_refl He Hp Hout) as Hw.
  cbv zeta in Hw. rewrite Hw. vm_compute. reflexivity.
Defined.

Lemma challenge_text_is_unambiguous_witness :
  hmac_text "17" "key k1" ["alice"] ≠ hmac_text "18" "key k1" ["alice"].
Proof.
  assert (¬ has_char "-"%char (join "," ["alice"])) as Hd
    by (vm_compute; intros Hc; repeat (apply elem_of_cons in Hc as [Hc|Hc]; [discriminate|]);
        by apply not_elem_of_nil in Hc).
  intros Heq.
  destruct (challenge_text_is_unambiguous 17 18 "key k1" "key k1" ["alice"] ["alice"]
    ltac:(lia) ltac:(lia) Hd Hd Heq) as [Ht _]. discriminate.
Defined.

Lemma client_certificate_is_renewed_in_its_last_period_witness :
  renewal server1 1700000001 1700001800 =
    Ret (Some {| rs_not_after := 1700086401; rs_not_before := 1700000001 |}).
Proof.
  rewrite (client_certificate_is_renewed_in_its_last_period server1 1700000001 1700001800);
    [vm_compute; reflexivity|vm_compute; split; congruence|lia|cbn; lia|vm_compute; split; congruence].
Defined.

Definition response2 : ChallengeResponse :=
  Eval vm_compute in default {| time := ""; challenge := ""; no_signature_required := false |}
    (returned (challenge_handler server2 challenge_request w1)).

Lemma challenge_response_is_accepted_witness :
  ∃ pk ids r, validate_request server2 5 peers1
      {| ch_pubkey := "key k1"; ch_challenge := challenge response2;
         ch_challenge_signature := ""; ch_challenge_time := time response2 |} w2 =
    (set_clock 2%nat w2, Ret (pk, ids, r)).
Proof.
  assert ((challenge_handler server2 challenge_request w1).2 = Ret response2) as Hrun
    by (vm_compute; reflexivity).
  assert (as_secs (from_secs 1700000000) ≤ as_secs (from_secs 1700000001)
    ≤ as_secs (from_secs 1700000000) + 5) as Hwin by (vm_compute; split; congruence).
  assert (len (challenge response2) ≤ 1024) as Hlen by (vm_compute; congruence).
  assert (in_u64 (as_secs (from_secs 1700000001) + validity_length (client_authority server2)))
    as Hv by (vm_compute; split; congruence).
  destruct (challenge_response_is_accepted server2 challenge_request peers1 w1 _ w2
    (from_secs 1700000000) (from_secs 1700000001) response2 "" release_laws Toy.hmac_laws
    Toy.hex_laws Toy.ssh_laws eq_refl eq_refl (run_eq _ _ Hrun) eq_refl eq_refl Hwin Hlen Hv)
    as (pk & ids & r & _ & Hr).
  exists pk, ids, r. exact Hr.
Defined.

(** ** A certificate *)

Definition certificate_request : Request CertificateRequest :=
  mkRequest (Some addr1) (Some peers1)
    {| cq_cert_type := 1; cq_key_id := ""; cq_principals := ["root"]; cq_servers := [];
       cq_extensions := ∅; cq_critical_options := ∅; cq_valid_after := 0;
       cq_valid_before := 1700000100; cq_challenge := Some challenge1 |}.

Definition reply1 : CertificateResponse :=
  Eval vm_compute in default (create_response Unknown)
    (returned (certificate_handler server1 certificate_request w2)).

Lemma reply1_run : (certificate_handler server1 certificate_request w2).2 = Ret reply1.
Proof. vm_compute. reflexivity. Qed.

Lemma certificate_needs_proof_and_authorization_witness :
  cs_error_code reply1 = 0 ∧ ∃ peers chal pk,
    ∃ w' ids refresh, validate_request server1 5 peers chal w2 = (w', Ret (pk, ids, refresh)).
Proof.
  destruct (certificate_needs_proof_and_authorization server1 certificate_request w2 _ reply1
    mechanism1_laws (run_eq _ _ reply1_run)) as [(Hc & Hi)|(e & _ & Hc & Hn & _)].
  - split; [exact Hc|]. destruct Hi as (addr & peers & chal & pk & ids & refresh & ty & ca & authz & cert & Hi).
    destruct (iss_validated _ _ _ _ _ _ _ _ _ _ _ _ _ _ _ Hi) as [w' Hv].
    exists peers, chal, pk, w', ids, refresh. exact Hv.
  - exfalso. apply Hn. rewrite <-Hc. vm_compute. reflexivity.
Defined.

Lemma every_certificate_is_logged_once_witness :
  ∃ ci, audit_log (certificate_handler server1 certificate_request w2).1 =
    [LogCertificateIssued ci].
Proof.
  pose proof (every_certificate_is_logged_once server1 certificate_request w2 _ reply1
    mechanism1_laws (run_eq _ _ reply1_run)) as Hl.
  rewrite decide_True in Hl by (vm_compute; reflexivity).
  destruct Hl as (ci & peers & chal & pk & refresh & w' & Hl & _).
  exists ci. rewrite Hl. reflexivity.
Defined.

Lemma certificate_says_what_was_authorized_witness :
  ∃ cert : Certificate string, cs_certificate reply1 = cert_to_string cert ∧
    ∃ ty ca : string, c_key_id cert = "Rustica-JITC-for-" +:+ ty ∧ c_signature_key cert = ca.
Proof.
  destruct (certificate_says_what_was_authorized server1 certificate_request w2 _ reply1
    Toy.ssh_laws mechanism1_laws (run_eq _ _ reply1_run) ltac:(vm_compute; reflexivity))
    as (addr & peers & chal & pk & ids & refresh & ty & ca & authz & cert & Hi & _ & _ & Hca & Hid & _).
  exists cert. split; [apply Hi|]. exists (pk_hash pk), ca. split; [exact Hid|exact Hca].
Defined.

Lemma database_certificates_are_backed_by_rows_witness :
  ∃ r, r ∈ fingerprint_permissions db1 ∧ fp_can_create_user_certs r = true.
Proof.
  destruct (database_certificates_are_backed_by_rows server1 local certificate_request w2 _ reply1
    Toy.ssh_laws eq_refl mechanism1_laws (run_eq _ _ reply1_run) ltac:(vm_compute; reflexivity))
    as (addr & peers & chal & pk & ids & refresh & ty & ca & authz & cert & r & Hi & Hr & _ & Hm & _).
  exists r. split; [exact Hr|]. pose proof (iss_type _ _ _ _ _ _ _ _ _ _ _ _ _ _ _ Hi) as Ht.
  destruct ty; [exact Hm|discriminate].
Defined.

(** ** Registering a key *)

Definition certificate1 : bytes := Toy.piv_cert "k1" 2 3 42.
Definition register_request : Request RegisterKeyRequest :=
  mkRequest (Some addr1) (Some peers1)
    {| rq_certificate := certificate1; rq_intermediate := as_bytes "root";
       rq_challenge := Some challenge1 |}.
Definition auth_data1 : bytes := as_bytes "k1".
Definition register_u2f_request : Request RegisterU2fKeyRequest :=
  mkRequest (Some addr1) (Some peers1)
    {| uq_auth_data := auth_data1; uq_auth_data_signature := sha256 (as_bytes "nonce");
       uq_sk_application := as_bytes "ssh:"; uq_u2f_challenge := as_bytes "nonce";
       uq_intermediate := as_bytes "root"; uq_alg := 0; uq_u2f_challenge_hashed := false;
       uq_challenge := Some challenge1 |}.

Lemma register_run : (register_key_handler server1 register_request w2).2 = Ret ().
Proof. vm_compute. reflexivity. Qed.
Lemma register_u2f_run : (register_u2f_key_handler server1 register_u2f_request w2).2 = Ret ().
Proof. vm_compute. reflexivity. Qed.

Lemma registered_key_is_proved_and_attested_witness :
  ∃ data, verify_certificate_chain certificate1 (as_bytes "root") = Some data.
Proof.
  destruct (registered_key_is_proved_and_attested server1 register_request w2 _
    (run_eq _ _ register_run)) as (peers & chal & pk & ids & [a|] & _ & _ & _ & Ha).
  - destruct Ha as (data & _ & _ & Hd & _). exists data. exact Hd.
  - discriminate.
Defined.

Lemma registered_u2f_key_is_proved_and_attested_witness :
  ∃ data, verify_auth_data auth_data1 (sha256 (as_bytes "nonce")) (sha256 (as_bytes "nonce")) 0
    (as_bytes "root") = Some data.
Proof.
  destruct (registered_u2f_key_is_proved_and_attested server1 register_u2f_request w2 _
    (run_eq _ _ register_u2f_run)) as (peers & chal & pk & ids & [a|] & _ & _ & _ & Ha).
  - destruct Ha as (data & firmware & _ & _ & Hd & _). exists (data, firmware). exact Hd.
  - discriminate.
Defined.

Lemma key_registration_is_logged_once_witness :
  audit_log (register_key_handler server1 register_request w2).1 =
    [LogKeyRegistered {| ki_fingerprint := "k1"; ki_mtls_identities := ["alice"] |}].
Proof.
  pose proof (key_registration_is_logged_once server1 register_request w2 _ _
    (run_eq _ _ register_run)) as (peers & chal & pk & ids & refresh & w & Hv & Hl).
  rewrite Hl. vm_compute. vm_compute in Hl. injection Hl as <- <-. reflexivity.
Defined.

Lemma registered_key_is_in_the_database_witness :
  "k1" ∉ rk_fingerprint <$> registered_keys db1.
Proof.
  destruct (registered_key_is_in_the_database server1 local register_request w2 _ eq_refl local_up
    (run_eq _ _ register_run)) as (peers & chal & pk & ids & refresh & w & row & Hv & Hr & Hf & _ & _ & Hno).
  vm_compute in Hr. injection Hr as <-. rewrite <-Hf in Hno. exact Hno.
Defined.

(** ** An attested certificate *)

Definition signer3 : FileSigner :=
  {| ssh_keys := None; x509_certificate := Some (["x509 ca"], 0, "x509 key");
     client_certificate_authority := None |}.
Definition server3 : RusticaServer AuthorizationMechanism :=
  {| hmac_key := 5 : HmacKey; challenge_key := "ck" : PrivateKey; authorizer := MLocal local;
     signer := {| default_authority := "prod"; authorities := {[ "prod" := file_signer signer3 ]} |};
     require_rustica_proof := true; require_attestation_chain := true;
     client_authority := client_authority server1; allowed_signers := allowed_signers server1 |}.
Definition x509_request : Request AttestedX509CertificateRequest :=
  mkRequest (Some addr1) (Some peers1)
    {| xq_csr := as_bytes "csr k1"; xq_key_id := ""; xq_attestation := certificate1;
       xq_attestation_intermediate := as_bytes "root" |}.

Definition reply3 : AttestedX509CertificateResponse :=
  Eval vm_compute in default {| xs_certificate := []; xs_error := "none"; xs_error_code := 1 |}
    (returned (attested_x509_handler server3 x509_request w1)).

Lemma reply3_run : (attested_x509_handler server3 x509_request w1).2 = Ret reply3.
Proof. vm_compute. reflexivity. Qed.

Lemma x509_certificate_is_for_the_attested_key_witness :
  (∃ new leaf, x509_from_der (xs_certificate reply3) = Ok new ∧
    x509_from_der certificate1 = Ok leaf ∧ subject_pki new = subject_pki leaf) ∧
  ∃ p k ca n, serialize_der_with_signer (p, k) ca n = Some (xs_certificate reply3) ∧
    is_ca p = false ∧ key_usages p = [DigitalSignature].
Proof.
  destruct (x509_certificate_is_for_the_attested_key server3 x509_request w1 _ reply3
    (run_eq _ _ reply3_run)) as (info & key & authz & Hi & p & k & ca & n & Hs & Hca & Hu & _).
  split; [exact (xd_same_key _ _ _ _ _ _ _ _ Hi)|].
  exists p, k, ca, n. split; [exact Hs|]. split; [exact Hca|exact Hu].
Defined.

Lemma x509_certificate_needs_the_users_token_witness :
  ∃ authz att user, Local.x509_allowed db1 user (xa_authority authz) att ∧
    xa_common_name authz = user.
Proof.
  destruct (x509_certificate_needs_the_users_token server3 local x509_request w1 _ reply3
    eq_refl local_up db1_wf (run_eq _ _ reply3_run))
    as (info & key & authz & att & user & rest & Hi & _ & _ & Hcn & Hall).
  exists authz, att, user. split; [exact Hall|exact Hcn].
Defined.

(** ** Allowed signers: two requests find the cache expired *)

(** The cache is served for ten seconds. *)
Definition server4 : RusticaServer AuthorizationMechanism :=
  {| hmac_key := 5 : HmacKey; challenge_key := "ck" : PrivateKey; authorizer := MLocal local;
     signer := mechanism1; require_rustica_proof := true; require_attestation_chain := true;
     client_authority := client_authority server1;
     allowed_signers :=
       {| cache_validity_length := from_secs 10; lru_rate_limiter_size := 4;
          rate_limit_cooldown := from_secs 5 |} |}.
Definition request_of (name : string) : Request () :=
  mkRequest (Some addr1) (Some [Toy.mtls_cert [name] 1700001800]) ().
Definition requests4 : list (Request ()) := [request_of "alice"; request_of "bob"].

(** Both are admitted and see the expired cache; bob gets the lock first and
    fetches, alice then finds the new list. *)
Definition state4 : system :=
  Eval vm_compute in
  default (initial w1 []) (run_schedule server4 [0; 1; 0; 1; 1; 1; 1; 0; 0]%nat (initial w1 requests4)).
Lemma state4_reached : run_schedule server4 [0; 1; 0; 1; 1; 1; 1; 0; 0]%nat (initial w1 requests4)
  = Some state4.
Proof. vm_compute. reflexivity. Qed.

Lemma allowed_signers_are_fresh_witness :
  ∃ reply, sy_requests state4 !! 0%nat = Some (Replied (from_secs 1700000000) reply) ∧
    served server4 (compressed_signers reply).
Proof.
  assert (0 ≤ cache_validity_length (allowed_signers server4)) as HV by (vm_compute; congruence).
  assert (0 < from_secs 1700000000) as Ht by (vm_compute; reflexivity).
  assert (∃ reply, sy_requests state4 !! 0%nat = Some (Replied (from_secs 1700000000) reply))
    as [reply Hi] by (eexists; vm_compute; reflexivity).
  exists reply. split; [exact Hi|].
  apply (allowed_signers_are_fresh server4 w1 requests4 state4 0 _ reply HV eq_refl
    (run_schedule_reaches _ _ _ _ state4_reached) Hi Ht).
Defined.

(** With a cache that is served for ten nanoseconds only, both fetch. *)
Definition state5 : system :=
  Eval vm_compute in
  default (initial w1 []) (run_schedule server1 [0; 0; 0; 0; 0; 1; 1; 1; 1; 1]%nat
    (initial w1 requests4)).
Lemma state5_reached :
  run_schedule server1 [0; 0; 0; 0; 0; 1; 1; 1; 1; 1]%nat (initial w1 requests4) = Some state5.
Proof. vm_compute. reflexivity. Qed.

Lemma allowed_signers_are_fetched_once_per_period_witness :
  from_secs 1700000000 + 10 < from_secs 1700000001.
Proof.
  assert (0 ≤ cache_validity_length (allowed_signers server1)) as HV by (vm_compute; congruence).
  assert (∃ b, sy_refreshes state5 !! 0%nat = Some (from_secs 1700000001, b)) as [b2 Hi]
    by (eexists; vm_compute; reflexivity).
  assert (∃ b, sy_refreshes state5 !! 1%nat = Some (from_secs 1700000000, b)) as [b1 Hj]
    by (eexists; vm_compute; reflexivity).
  apply (allowed_signers_are_fetched_once_per_period server1 w1 requests4 state5 0 1 _ _ b1 b2 HV
    (run_schedule_reaches _ _ _ _ state5_reached) Hi Hj (le_n 1)).
Defined.

(** Alice waits for bob, who holds the lock. *)
Definition state6 : system :=
  Eval vm_compute in
  default (initial w1 []) (run_schedule server4 [0; 1; 0; 1; 1; 1]%nat (initial w1 requests4)).
Lemma state6_reached : run_schedule server4 [0; 1; 0; 1; 1; 1]%nat (initial w1 requests4)
  = Some state6.
Proof. vm_compute. reflexivity. Qed.

Lemma allowed_signers_requests_are_answered_witness :
  sy_writer state6 = Some 1%nat ∧ ∃ i s', handler_step server4 i state6 s'.
Proof.
  assert (0 ≤ cache_validity_length (allowed_signers server4)) as HV by (vm_compute; congruence).
  split; [reflexivity|].
  apply (allowed_signers_requests_are_answered server4 w1 requests4 state6 HV
    (run_schedule_reaches _ _ _ _ state6_reached)).
  vm_compute. discriminate.
Defined.

Lemma allowed_signers_handler_is_a_schedule_witness :
  ∃ t refs w reply, rtc (handler_step server4 0) (initial w1 [request_of "alice"])
    (mkSystem w None [Replied t reply] refs).
Proof.
  destruct (returned (allowed_signers_handler server4 (request_of "alice") w1)) as [reply|] eqn:Hr;
    [|vm_compute in Hr; discriminate].
  destruct (allowed_signers_handler_is_a_schedule server4 (request_of "alice") w1 _ _
    (run_returned _ _ Hr)) as (t & refs & Hs).
  exists t, refs, (allowed_signers_handler server4 (request_of "alice") w1).1, reply. exact Hs.
Defined.

Lemma rate_limit_restarts_with_every_request_witness :
  (is_rate_limited server4 "alice" (from_secs 8)
    (is_rate_limited server4 "alice" (from_secs 4) w1).1).2 = Ret true.
Proof.
  assert (in_duration (from_secs 4 + rate_limit_cooldown (allowed_signers server4))) as Hd1
    by (vm_compute; split; congruence).
  assert (in_duration (from_secs 8 + rate_limit_cooldown (allowed_signers server4))) as Hd2
    by (vm_compute; split; congruence).
  assert (is_rate_limited server4 "alice" (from_secs 4) w1 =
    ((is_rate_limited server4 "alice" (from_secs 4) w1).1, Ret false)) as Hrun
    by (apply run_eq; vm_compute; reflexivity).
  rewrite (proj2 (rate_limit_restarts_with_every_request server4 "alice" (from_secs 4) (from_secs 8)
    w1 _ _ false Hd1 Hd2 Hrun) eq_refl).
  vm_compute. reflexivity.
Defined.
