(* ===== verification/ServiceExamples.v ===== *)
(** * A history of the server

    The server of [Examples] asked for a challenge, a certificate and a
    registration, one second after the other: the theorems on histories apply. *)
From Stdlib Require Import ZArith Lia.
From S2P Require Import Prelude Machine Text Deps Key Auth Logging Schema World.
From S2P Require Import Database External Authorizer Signing Proto Server Validation Issuance.
From S2P Require Import Registration X509Issuance AllowedSigners Service Toy Examples.

#[local] Existing Instance Toy.ssh.
#[local] Existing Instance Toy.lru.
#[local] Existing Instance Toy.hmac.
#[local] Existing Instance Toy.hex.
#[local] Existing Instance Toy.x509.
#[local] Existing Instance Toy.rcgen.
#[local] Existing Instance Toy.asn1.
#[local] Existing Instance Toy.zstd.
#[local] Existing Instance Toy.attestation.
#[local] Existing Instance Toy.ssh_laws.
#[local] Existing Instance Examples.release.
#[local] Existing Instance Examples.release_laws.

Definition calls1 : list Call :=
  [CChallenge challenge_request; CCertificate certificate_request; CRegisterKey register_request].
Definition history1 : list exchange :=
  [XChallenge challenge_request (Ret response1); XCertificate certificate_request (Ret reply1);
   XRegisterKey register_request (Ret ())].
Definition end1 : World := (serve_all server1 calls1 w1).1.

Lemma history1_served : history server1 w1 history1 end1.
Proof.
  assert ((serve_all server1 calls1 w1).2 = history1) as Hh by (vm_compute; reflexivity).
  apply (serve_all_history server1 calls1). rewrite <-Hh. apply surjective_pairing.
Qed.

Lemma every_grant_is_accounted_for_witness :
  ∃ entries, audit_log end1 = entries ∧ Forall2 (accounts_for server1) entries (tail history1).
Proof.
  destruct (every_grant_is_accounted_for server1 w1 history1 end1 Toy.ssh_laws mechanism1_laws
    history1_served) as (entries & Hl & Hf).
  exists entries. split; [exact Hl|exact Hf].
Defined.

(** The client certificate of the requests. *)
Lemma peer_of_requests {M} (m : M) info :
  peer_info (mkRequest (Some addr1) (Some peers1) m) info → info = info1.
Proof.
  intros (peers & peer & Hp & Hh & He). apply (inj Some) in Hp as <-.
  change (head peers1) with (Some (Toy.mtls_cert ["alice"] 1700001800)) in Hh.
  apply (inj Some) in Hh as <-.
  assert (extract_certificate_information (Toy.mtls_cert ["alice"] 1700001800) = Ok info1) as He'
    by (vm_compute; reflexivity).
  rewrite He' in He. set (i := info1) in *. clearbody i. congruence.
Qed.
Lemma names_of_requests x info : x ∈ history1 → names x info → info = info1.
Proof.
  unfold history1. rewrite !elem_of_cons. intros [->|[->|[->|Hin]]]; [..|by apply not_elem_of_nil in Hin].
  all: apply peer_of_requests.
Qed.
Lemma tagged1 : tagged (take 1 history1) (hmac_text "1700000000" "key k1" ["alice"]).
Proof.
  exists challenge_request, response1, info1. split; [set_solver|]. split; [|vm_compute; reflexivity].
  exists peers1. eexists. split; [reflexivity|]. split; vm_compute; reflexivity.
Qed.

Lemma history1_unforgeable : unforgeable server1 history1.
Proof.
  intros h1 x h2 chal info rt cert Heq Hpre Hn Hrt Hcert text _.
  assert (info = info1) as -> by (apply (names_of_requests x); [rewrite Heq; set_solver|done]).
  destruct h1 as [|y h1]; unfold history1 in Heq; cbn [app] in Heq;
    [injection Heq as <- _; discriminate|injection Heq as <- Heq].
  assert (x ∈ tail history1) as Hin by (unfold history1; cbn [tail]; rewrite Heq; set_solver).
  assert (chal = challenge1) as ->.
  { unfold history1 in Hin. cbn [tail] in Hin. rewrite !elem_of_cons in Hin.
    destruct Hin as [->|[->|Hin]]; [..|by apply not_elem_of_nil in Hin];
      assert (Some challenge1 = Some chal) as Hc by exact Hpre; by apply (inj Some) in Hc. }
  assert (parse_u64 (ch_challenge_time challenge1) = Some 1700000000) as Hrt'
    by (vm_compute; reflexivity).
  rewrite Hrt' in Hrt. apply (inj Some) in Hrt as <-.
  destruct tagged1 as (req & resp & info & Hreq & Hi & Htext).
  exists req, resp, info. split; [|split; [exact Hi|exact Htext]].
  cbn [take history1] in Hreq. set_solver.
Qed.
Lemma history1_dashless : dashless history1.
Proof. intros x info Hin Hn. rewrite (names_of_requests x info Hin Hn). apply (bool_decide_eq_false_1 _); vm_compute; reflexivity. Qed.

Lemma grants_answer_recent_challenges_witness :
  ∃ pk : PublicKey, granted_to server1 (XCertificate certificate_request (Ret reply1)) pk ["alice"] ∧
    ∃ c : Certificate PublicKey, pk_hash (c_signature_key c) = pk_hash pk.
Proof.
  destruct (grants_answer_recent_challenges server1 w1 history1 end1
    [XChallenge challenge_request (Ret response1)] (XCertificate certificate_request (Ret reply1))
    [XRegisterKey register_request (Ret ())] challenge1 release_laws Toy.hmac_laws Toy.ssh_laws
    mechanism1_laws clock_late history1_served history1_unforgeable history1_dashless eq_refl
    eq_refl eq_refl) as (pk & info & n & ts & Hg & Hn & _ & _ & Hp).
  exists pk. apply peer_of_requests in Hn as ->. split; [exact Hg|].
  destruct (Hp eq_refl) as (c & _ & Hc). exists c. exact Hc.
Defined.

Lemma table_is_the_history_of_registrations_witness :
  ∃ row, registered_keys (w_db end1) = [row] ∧ row_of row (XRegisterKey register_request (Ret ())).
Proof.
  destruct (table_is_the_history_of_registrations server1 local eq_refl local_up w1 history1 end1
    mechanism1_laws (NoDup_nil_2) history1_served) as (rows & Hr & Hf & _).
  assert (filter registers history1 = [XRegisterKey register_request (Ret ())]) as Hreg by reflexivity.
  rewrite Hreg in Hf. destruct rows as [|row [|]]; [by inversion Hf| |].
  - exists row. split; [exact Hr|]. by inversion Hf.
  - exfalso. inversion Hf as [|? ? ? ? _ Hf']. inversion Hf'.
Defined.
