(* ===== verification/SignerExamples.v ===== *)
(** * The signers at work

    A configuration with an authority of each kind, and its signers. *)
From Stdlib Require Import ZArith Lia.
From S2P Require Import Prelude Machine Text Deps Key Auth Logging Schema World Signing.
From S2P Require Import YubikeySigner KmsSigner Signers Toy Examples.

#[local] Existing Instance Toy.ssh.
#[local] Existing Instance Toy.lru.
#[local] Existing Instance Toy.hex.
#[local] Existing Instance Toy.rcgen.
#[local] Existing Instance Toy.yubikeys.
#[local] Existing Instance Toy.kms.
#[local] Existing Instance Toy.ssh_laws.
#[local] Existing Instance Examples.release.

Definition no_key : KmsKeyDefinition :=
  {| kd_id := ""; kd_algorithm := ""; kd_common_name := None |}.
Definition kms_config1 : KmsConfig :=
  {| kf_aws_access_key_id := "id"; kf_aws_secret_access_key := "secret";
     kf_aws_region := "us-west-2";
     kf_user_key := Some {| kd_id := "key-1"; kd_algorithm := "ECDSA_SHA_384"; kd_common_name := None |};
     kf_host_key := Some {| kd_id := "key-2"; kd_algorithm := "ECDSA_SHA_256"; kd_common_name := None |};
     kf_x509_key := None;
     kf_client_certificate_authority_key :=
       Some {| kd_id := "a key whose encoding is long enough"; kd_algorithm := "ECDSA_SHA_256";
               kd_common_name := None |} |}.
Definition file_config3 : FileConfig :=
  {| user_key := Some "user-ca"; host_key := Some "host-ca";
     x509_private_key := None; x509_private_key_algorithm := None;
     client_certificate_authority_private_key := None;
     client_certificate_authority_private_key_algorithm := None;
     client_certificate_authority_common_name := None |}.
Definition yubikey_config1 : YubikeyConfig :=
  {| yc_user_slot := Some (130 : SlotId); yc_host_slot := Some (131 : SlotId);
     yc_x509_slot := Some (154 : SlotId); yc_client_certificate_authority_slot := None;
     yc_client_certificate_authority_common_name := None |}.
Definition configs3 : list (string * SignerType) :=
  [("prod", TFile file_config3); ("office", TYubikey yubikey_config1); ("cloud", TAmazonKMS kms_config1)].

Definition mechanism3 : SigningMechanism :=
  default {| default_authority := ""; authorities := ∅ |}
    (returned (convert_to_signing_mechanism into_signer "prod" configs3 w1)).
Lemma mechanism3_built :
  (convert_to_signing_mechanism into_signer "prod" configs3 w1).2 = Ret mechanism3.
Proof. reflexivity. Qed.

Definition cert3 : Certificate PublicKey :=
  mkCertificate (PK := string) "k1" User 7 "id" ["root"] 0 100 ∅ ∅ "key key-1" [] None [].
Definition signed3 : Certificate PublicKey :=
  mkCertificate (PK := string) "k1" User 7 "id" ["root"] 0 100 ∅ ∅ "key key-1"
    (as_bytes "kms key-1") None [].

Lemma configured_mechanism_signs_with_its_keys_witness :
  same_tbs cert3 signed3 ∧ ∃ pk : string, get_signer_public_key mechanism3 "cloud" User = Ok pk.
Proof.
  assert (sign mechanism3 "cloud" cert3 w1 = (set_calls 1%nat w1, Ret signed3)) as Hs by reflexivity.
  destruct (configured_mechanism_signs_with_its_keys "prod" configs3 w1 _ mechanism3 "cloud" cert3 w1 _
    signed3 (run_eq _ _ mechanism3_built) Hs) as [Htbs (c & pk & _ & Hpk & _)].
  split; [exact Htbs|]. exists pk. exact Hpk.
Defined.

(** ** The Yubikey is unplugged for one call *)

Definition signer3 : YubikeySigner :=
  {| ys_ssh_keys := Some
       {| ys_user := {| ysk_slot := 130 : SlotId; ysk_public_key := "yk" : PublicKey |};
          ys_host := {| ysk_slot := 131 : SlotId; ysk_public_key := "yk host" : PublicKey |} |};
     ys_x509_certificate := None; ys_client_certificate_authority := None;
     ys_yubikey := mkMutex 0 (7 : Yubikey) |}.
(** The toy key is gone at the hundredth call. *)
Definition w100 : World := set_mutexes [false] (set_calls 100%nat w1).
Lemma unplugged_yubikey_signer_stays_broken_witness :
  ∃ w', yubikey_signer_sign signer3 cert3 w100 = (w', Panic) ∧
    (yubikey_signer_sign signer3 cert3 (sign_all [(signer3, cert3)] w')).2 =
      Raise (AccessError poison_error).
Proof.
  assert (ys_ssh_keys signer3 = Some
    {| ys_user := {| ysk_slot := 130 : SlotId; ysk_public_key := "yk" : PublicKey |};
       ys_host := {| ysk_slot := 131 : SlotId; ysk_public_key := "yk host" : PublicKey |} |})
    as Hk by reflexivity.
  assert ((mutex_id (ys_yubikey signer3) < length (w_mutexes w100))%nat) as Hlt by (cbn; lia).
  assert (poisoned (ys_yubikey signer3) w100 = false) as Hp by reflexivity.
  assert (yk_new (w_calls w100) = None) as Hno by reflexivity.
  destruct (unplugged_yubikey_signer_stays_broken signer3 _ cert3 cert3 [(signer3, cert3)] w100
    Hk Hlt Hp Hno) as (w' & Hpanic & Hafter).
  exists w'. split; [exact Hpanic|]. exact (f_equal snd Hafter).
Defined.
