(* ===== verification/ConfigExamples.v ===== *)
(** * Configuration and logging at work

    The theorems of [ServerConfig] and [LoggingThread] on concrete inputs. *)
From Stdlib Require Import ZArith Lia.
From S2P Require Import Prelude Machine Text Deps Key Auth Logging Schema World.
From S2P Require Import Database External Authorizer Signing Proto Server Validation Issuance.
From S2P Require Import YubikeySigner KmsSigner Signers LoggingThread ServerConfig.
From S2P Require Import Registration X509Issuance AllowedSigners Service ServerMain Toy Examples.

#[local] Existing Instance Toy.ssh.
#[local] Existing Instance Toy.lru.
#[local] Existing Instance Toy.hmac.
#[local] Existing Instance Toy.hex.
#[local] Existing Instance Toy.x509.
#[local] Existing Instance Toy.rcgen.
#[local] Existing Instance Toy.asn1.
#[local] Existing Instance Toy.yubikeys.
#[local] Existing Instance Toy.kms.
#[local] Existing Instance Toy.zstd.
#[local] Existing Instance Toy.attestation.
#[local] Existing Instance Toy.ssh_laws.
#[local] Existing Instance Examples.release.
#[local] Existing Instance Examples.release_laws.

(** A configuration file with one authority whose keys are in the file. *)
Definition file_config1 : FileConfig :=
  {| user_key := Some "user-ca"; host_key := Some "host-ca";
     x509_private_key := None; x509_private_key_algorithm := None;
     client_certificate_authority_private_key := Some "ca key";
     client_certificate_authority_private_key_algorithm := Some "p256";
     client_certificate_authority_common_name := Some "ca" |}.
Definition logging1 : LoggingConfiguration :=
  {| lc_identifier := Some "rustica-1"; heartbeat_interval := None; lc_stdout := Some ();
     lc_influx := None;
     lc_splunk := Some {| sk_token := "token"; sk_url := "https://splunk"; sk_timeout := 5 |};
     lc_webhook := Some {| wh_auth_header := None; wh_url := "https://hook"; wh_timeout := 5 |} |}.
Definition configuration1 : Configuration SignerType :=
  {| cf_server_cert := "cert"; cf_server_key := "key";
     cf_client_authority :=
       {| authority := "prod"; validity_length := 86400; expiration_renewal_period := 3600 |};
     cf_listen_address := "0.0.0.0:50052";
     cf_authorization := {| database := Some local; external := None |};
     cf_signing := {| sc_default_authority := "prod";
                      sc_authority_configurations := {[ "prod" := TFile file_config1 ]} |};
     cf_require_rustica_proof := true;
     cf_require_attestation_chain := true;
     cf_logging := logging1;
     cf_allowed_signers :=
       {| cache_validity_length := 10; lru_rate_limiter_size := 4; rate_limit_cooldown := 5 |} |}.

#[local] Instance inputs : ConfigInputs SignerType := {|
  read_file := λ p, if decide (p = "rustica.toml") then Some (as_bytes "toml") else None;
  toml_from_slice := λ b, if decide (b = as_bytes "toml") then Ok configuration1 else Err "bad";
  parse_socket_addr := λ s, Some {| addr_to_string := s; ip_to_string := s |};
  config_order := map_to_list;
  generate_hmac_key := λ _, Some (5 : HmacKey);
  new_private_key := λ _ _, Some ("ck" : PrivateKey);
|}.

Definition settings1 : RusticaSettings :=
  {| set_server :=
       {| hmac_key := 5 : HmacKey; challenge_key := "ck" : PrivateKey; authorizer := MLocal local;
          signer := mechanism2;
          require_rustica_proof := true; require_attestation_chain := true;
          client_authority := cf_client_authority configuration1;
          allowed_signers := cf_allowed_signers configuration1 |};
     set_client_ca_cert := Toy.print (["ca"], 0, "ca key");
     set_server_cert := "cert"; set_server_key := "key";
     set_address := {| addr_to_string := "0.0.0.0:50052"; ip_to_string := "0.0.0.0:50052" |};
     set_logging_configuration := logging1 |}.

Lemma configure_run : (configure into_signer "rustica.toml" 0 w1).2 = Ret settings1.
Proof. reflexivity. Qed.

Lemma a_configured_server_has_its_keys_witness :
  ∃ pk : string, get_signer_public_key mechanism2 "prod" User = Ok pk.
Proof.
  destruct (a_configured_server_has_its_keys into_signer "rustica.toml" 0 w1 _ settings1
    (run_eq _ _ configure_run)) as (_ & _ & Hc).
  exact (cg_default_key _ _ _ _ Hc).
Defined.

Lemma validation_is_a_dry_run_witness :
  (∃ w, configure into_signer "rustica.toml" 2 w1 = (w, Raise ValidateOnly)) ∧
  configure into_signer "rustica.toml" 1 w1 = (w1, Raise ValidateOnly).
Proof.
  destruct (validation_is_a_dry_run into_signer "rustica.toml" w1) as [Hone Hmore].
  split.
  - eexists. apply (proj1 (Hmore 2 ltac:(lia)) _). exists settings1. exact (run_eq _ _ configure_run).
  - exact (Hone (as_bytes "toml") configuration1 eq_refl eq_refl).
Defined.

Lemma mechanism2_laws a s : authorities mechanism2 !! a = Some s → SignerLaws s.
Proof.
  cbn [authorities mechanism2]. rewrite lookup_insert_Some, lookup_empty.
  intros [[_ <-]|[_ [=]]]. apply file_signer_laws.
Qed.

Definition reply2 : CertificateResponse :=
  Eval vm_compute in default (create_response Unknown)
    (returned (certificate_handler (set_server settings1) certificate_request w2)).
Lemma reply2_run :
  (certificate_handler (set_server settings1) certificate_request w2).2 = Ret reply2.
Proof. vm_compute. reflexivity. Qed.

Lemma configured_server_signs_as_configured_witness :
  ∃ authz cert tbs capk,
    signed_as_configured (TFile file_config1) tbs cert capk ∧ same_tbs tbs cert ∧
    c_principals cert = sa_principals authz.
Proof.
  assert (cs_error_code reply2 = 0) as Hcode by reflexivity.
  destruct (configured_server_signs_as_configured "rustica.toml" 0 w1 _ settings1 certificate_request
    w2 _ reply2 Toy.ssh_laws (run_eq _ _ configure_run) (run_eq _ _ reply2_run) Hcode)
    as (text & config & addr & peers & chal & pk & ids & refresh & ty & ca & authz & cert & kind & tbs
      & capk & Ht & Hc & _ & _ & Hin & Hs & Htbs & _ & _ & Hp & _).
  injection Ht as <-. injection Hc as <-. exists authz, cert, tbs, capk.
  assert (kind = TFile file_config1) as <-.
  { revert Hin. cbn [config_order inputs cf_signing configuration1 sc_authority_configurations].
    rewrite map_to_list_singleton. intros Hin. apply list_elem_of_singleton in Hin. congruence. }
  split; [exact Hs|]. split; [exact Htbs|exact Hp].
Defined.

Lemma renewed_client_certificates_are_trusted_witness :
  cs_new_client_certificate reply2 ≠ "" ∧
  ∃ (ca : RcgenCertificate) n, serialize_pem ca n = Ok (set_client_ca_cert settings1).
Proof.
  assert (cs_error_code reply2 = 0) as Hcode by reflexivity.
  destruct (renewed_client_certificates_are_trusted into_signer "rustica.toml" 0 w1 _ settings1
    certificate_request w2 _ reply2 (run_eq _ _ configure_run) mechanism2_laws
    (run_eq _ _ reply2_run) Hcode) as (ca & n & _ & _ & _ & _ & _ & _ & _ & Hca & _).
  split; [vm_compute; discriminate|]. exists ca, n. exact Hca.
Defined.

(** ** Logging: Splunk's serializer fails, the others get everything *)

#[local] Instance serde : Serde := {|
  to_json := λ l, Ok ("{" +:+ wl_identifier l +:+ "}");
  to_json_event := λ l, Err "no JSON";
  debug_map := λ m, "{}";
|}.
#[local] Instance log_clients : LogClients := {|
  log_runtime_starts := true; http_client_builds := λ _ t, bool_decide (0 < t) |}.
#[local] Instance listener : Listener := {|
  tls_fault := λ _ _ _, None; listen_fault := λ _ _, None |}.

Lemma logging1_can_log : can_log logging1.
Proof. split; [reflexivity|]. split; intros c [= <-]; reflexivity. Qed.
Lemma logging1_urls c c' :
  lc_splunk logging1 = Some c → lc_webhook logging1 = Some c' → sk_url c ≠ wh_url c'.
Proof. intros [= <-] [= <-]. discriminate. Qed.


(** A clock that always reads. *)
#[local] Instance steady : Env := {|
  build := Release; clock := λ _, Some (from_secs 1700000000); db_opens := λ _, true;
  db_fault := λ _, None; unique_violation := ""; author_connect := λ _ _ _, Connected;
  author_authorize := λ _ _, Ok ∅; author_add_identity_data := λ _ _, Ok ();
  author_allowed_signers := λ _, Ok []; status_to_string := message; map_order := map_to_list;
|}.

Definition events1 : list Received :=
  [Message (LogKeyRegistered {| ki_fingerprint := "k1"; ki_mtls_identities := ["alice"] |});
   TimedOut;
   Message (LogInternalMessage {| im_severity := Warning; im_message := "careful" |});
   Disconnected].

Lemma every_log_reaches_every_backend_witness :
  ∃ s, start_logging_thread logging1 events1 (mkLogState 0 []) = (s, Ret ()) ∧
    printed (ls_output s) = [(Info, "Key registered: [k1] Identified by: [alice]");
                             (Warning, "careful")] ∧
    posts "https://hook" (ls_output s) = ["{rustica-1}"; "{rustica-1}"; "{rustica-1}"].
Proof.
  assert (clock_works) as Hclock by (intros n; eexists; reflexivity).
  destruct (every_log_reaches_every_backend logging1 events1 0 Hclock
    logging1_can_log logging1_urls) as (s & Hr & Hp & Hw).
  exists s. split; [exact Hr|]. split; [exact (Hp eq_refl)|exact (Hw _ eq_refl)].
Defined.

(** ** The program *)

Definition process1 : Process := mkProcess _ w1 [] None.
Definition serving1 : Serving :=
  {| sv_server := set_server settings1; sv_identity := ("cert", "key");
     sv_client_ca_root := set_client_ca_cert settings1; sv_max_frame_size := 4194304;
     sv_address := set_address settings1 |}.
Lemma main_run : (main into_signer "rustica.toml" 0 process1).2 = Ret (Some serving1).
Proof. reflexivity. Qed.
Definition reply7 : CertificateResponse :=
  Eval vm_compute in default (create_response Unknown)
    (returned (certificate_handler (set_server settings1) certificate_request w2)).
Lemma reply7_run :
  (certificate_handler (set_server settings1) certificate_request w2).2 = Ret reply7.
Proof. vm_compute. reflexivity. Qed.

Definition history2 : list exchange := [XCertificate certificate_request (Ret reply7)].
Definition end2 : World := (certificate_handler (set_server settings1) certificate_request w2).1.
Lemma history2_served : history (sv_server serving1) w2 history2 end2.
Proof.
  apply (history_serve _ w2 [] w2); [constructor|]. exact (run_eq _ _ reply7_run).
Qed.
Lemma messages_sent l : messages (Message <$> l) = l.
Proof. induction l as [|x l IH]; [done|]. cbn. by f_equal. Qed.
Lemma issued_certificates_are_reported_witness :
  ∃ s line cert, start_logging_thread logging1 (Message <$> w_logs end2) (mkLogState 0 []) = (s, Ret ()) ∧
    (Info, line) ∈ printed (ls_output s) ∧ cs_certificate reply7 = cert_to_string cert ∧
    says line "Principals granted" (join ", " (c_principals cert)).
Proof.
  assert (clock_works) as Hclock by (intros n; eexists; reflexivity).
  assert (read_file (C := SignerType) "rustica.toml" = Some (as_bytes "toml")) as Ht by reflexivity.
  assert (toml_from_slice (as_bytes "toml") = Ok configuration1) as Hc by reflexivity.
  destruct (issued_certificates_are_reported "rustica.toml" 0 process1 _ serving1 (as_bytes "toml")
    configuration1 w2 history2 end2 (Message <$> w_logs end2) 0 Toy.ssh_laws Ht Hc
    (run_eq _ _ main_run) history2_served (messages_sent _) Hclock logging1_can_log eq_refl)
    as (_ & s & lines & Hs & Hsub & Hof).
  assert (filter grants history2 = history2) as Hg by reflexivity. rewrite Hg in Hof.
  destruct lines as [|line [|]]; [by inversion Hof| |exfalso; inversion Hof as [|? ? ? ? _ Hof']; inversion Hof'].
  apply Forall2_cons in Hof as [(cert & info & Hcert & _ & _ & _ & _ & _ & Hp & _) _].
  exists s, line, cert. split; [exact Hs|]. split; [|split; [exact Hcert|exact Hp]].
  eapply elem_of_sublist, Hsub. by apply list_elem_of_singleton.
Defined.
