(* ===== verification/AgentExamples.v ===== *)
(** * The agent's theorems at work

    Concrete runs of the agent, alone and against the server of [Examples]. *)
From Stdlib Require Import ZArith Lia.
From S2P Require Import Prelude Machine Text Deps Key Auth Logging Schema World.
From S2P Require Import Database External Authorizer Signing Proto Server Validation Issuance.
From S2P Require Import AgentProtocol AgentConfig AgentClient AgentHandler EndToEnd Toy Examples.

#[local] Existing Instance Toy.ssh.
#[local] Existing Instance Toy.lru.
#[local] Existing Instance Toy.hmac.
#[local] Existing Instance Toy.hex.
#[local] Existing Instance Toy.x509.
#[local] Existing Instance Toy.rcgen.
#[local] Existing Instance Toy.asn1.
#[local] Existing Instance Toy.zstd.
#[local] Existing Instance Toy.attestation.
#[local] Existing Instance Toy.yubikeys.
#[local] Existing Instance Toy.ssh_laws.
#[local] Existing Instance Toy.hmac_laws.
#[local] Existing Instance Toy.hex_laws.
#[local] Existing Instance Examples.release.
#[local] Existing Instance Examples.release_laws.

(** ** The agent's surroundings *)

#[local] Instance agent_env : AgentEnv := {|
  agent_build := Release;
  agent_clock := λ _, Some (from_secs 1700000000);
  agent_write := λ _, Written;
  agent_read := λ _, Err "no such file";
  env_var := λ _, None;
|}.
#[local] Instance agent_toml : AgentToml := {|
  toml_version := λ _, None; toml_v1 := λ _, Err "bad"; toml_v2 := λ _, Err "bad";
  toml_to_string := λ c, Some (join "," (rr_mtls_cert <$> cfg_servers c));
|}.
#[local] Program Instance map_order : MapOrder := {| iterate := λ A, map_to_list |}.
Next Obligation. done. Qed.

(** ** A server for the agent *)

(** The agent's credentials name alice; a server with the key [down] cannot be
    reached. *)
Definition peers_of (remote : RusticaRemote) : list bytes :=
  if decide (rr_mtls_cert remote = "alice") then peers1 else [].
#[local] Instance rpc1 : Rpc World := server_rpc server1 addr1 peers_of.

Definition remote1 : RusticaRemote :=
  {| rr_address := "https://rustica"; rr_ca_pem := ""; rr_mtls_cert := "alice";
     rr_mtls_key := "key" |}.
Definition remote0 : RusticaRemote :=
  {| rr_address := "https://old"; rr_ca_pem := ""; rr_mtls_cert := "nobody"; rr_mtls_key := "key" |}.
Definition agent1 : AgentWorld World := mkAgentWorld w1 0 0 0 0 [] [].
Definition key1 : PrivateKey := "k1" : string.
Definition options1 : CertificateConfig :=
  {| cc_principals := ["root"]; cc_hosts := []; cc_cert_type := User; cc_duration := 100;
     cc_authority := "" |}.

Definition no_challenge : Challenge :=
  {| ch_pubkey := ""; ch_challenge := ""; ch_challenge_signature := ""; ch_challenge_time := "" |}.
Definition answer1 : Challenge :=
  Eval vm_compute in
  match returned (complete_rustica_challenge remote1 (SDirect key1) true agent1) with
  | Some (_, chal) => chal | None => no_challenge end.
Lemma answer1_run :
  (complete_rustica_challenge remote1 (SDirect key1) true agent1).2 = Ret (remote1, answer1).
Proof. vm_compute. reflexivity. Qed.

Lemma client_and_server_agree_on_the_challenge_witness :
  ∃ pk ids r, validate_request server1 5 (peers_of remote1) answer1 w2 =
      (set_clock 2%nat w2, Ret (pk, ids, r)) ∧ pk_hash pk = "k1".
Proof.
  assert (as_secs (from_secs 1700000000) ≤ as_secs (from_secs 1700000001)
    ≤ as_secs (from_secs 1700000000) + 5) as Hwin by (vm_compute; split; congruence).
  assert (len (ch_challenge answer1) ≤ 1024) as Hlen by (vm_compute; congruence).
  assert (in_u64 (as_secs (from_secs 1700000001) + validity_length (client_authority server1)))
    as Hv by (vm_compute; split; congruence).
  destruct (client_and_server_agree_on_the_challenge server1 addr1 peers_of remote1 key1 true agent1 _
    remote1 answer1 (from_secs 1700000000) w2 (from_secs 1700000001) release_laws Toy.hmac_laws
    Toy.hex_laws Toy.ssh_laws (run_eq _ _ answer1_run) eq_refl eq_refl Hwin Hv)
    as (pk & info & r & _ & Hpk & Hrun).
  rewrite decide_True in Hrun by exact Hlen. exists pk, (Server.identities info), r.
  split; [exact Hrun|exact Hpk].
Defined.

Lemma client_signs_only_for_its_own_key_witness :
  ∃ c : Certificate string, pk_hash (c_key c : PublicKey) = "k1".
Proof.
  assert (signatory_pubkey (N := World) (SDirect key1) agent1 = (agent1, Ret (key1 : PublicKey)))
    as Hpk by reflexivity.
  assert (ag_notified (complete_rustica_challenge remote1 (SDirect key1) true agent1).1
    ≠ ag_notified agent1) as Hn by (vm_compute; discriminate).
  destruct (client_signs_only_for_its_own_key remote1 (SDirect key1) true agent1 agent1 _ _ _ Hpk
    (run_eq _ _ answer1_run) (or_intror Hn)) as (n0 & n & resp & c & _ & _ & _ & _ & Hc).
  exists c. exact Hc.
Defined.

(** ** A certificate, from the second server *)

Definition conf1 : UpdatableConfiguration :=
  {| uc_path := "agent.toml";
     uc_configuration :=
       {| cfg_version := 2; cfg_servers := [remote0; remote1]; cfg_slot := None; cfg_key := None;
          cfg_options := None; cfg_socket := None |} |}.

Definition cert0 : Certificate string := mkCertificate "" User 0 "" [] 0 0 ∅ ∅ "" [] None [].
Definition fetched1 : Certificate string * UpdatableConfiguration :=
  Eval vm_compute in default (cert0, conf1)
    (returned (fetch_new_certificate conf1 (SDirect key1) options1 true agent1)).
Lemma fetched1_run :
  (fetch_new_certificate conf1 (SDirect key1) options1 true agent1).2 = Ret fetched1.
Proof. vm_compute. reflexivity. Qed.

Lemma certificate_comes_from_the_first_server_that_answers_witness :
  ∃ tried server rest, cfg_servers (uc_configuration conf1) = tried ++ server :: rest ∧
    ∃ rc, cert_from_string (rc_cert rc) = Ok fetched1.1.
Proof.
  assert (fetch_new_certificate conf1 (SDirect key1) options1 true agent1 =
    ((fetch_new_certificate conf1 (SDirect key1) options1 true agent1).1,
     Ret (fetched1.1, fetched1.2))) as Hrun by (apply run_eq, fetched1_run).
  destruct (certificate_comes_from_the_first_server_that_answers conf1 (SDirect key1) options1 true
    agent1 _ _ Hrun) as (tried & server & rest & a1 & a2 & rc & cr & Hs & _ & _ & Hc & _).
  exists tried, server, rest. split; [exact Hs|]. exists rc. exact Hc.
Defined.

(** The credentials of the second server were renewed, the first is as it was. *)
Example fetched1_servers :
  (rr_mtls_cert <$> cfg_servers (uc_configuration fetched1.2)) !! 0%nat = Some "nobody" ∧
  (rr_mtls_cert <$> cfg_servers (uc_configuration fetched1.2)) !! 1%nat ≠ Some "alice".
Proof. split; vm_compute; [reflexivity|discriminate]. Qed.

Lemma agent_receives_a_certificate_for_its_own_key_witness :
  ∃ (rc : RusticaCert) (cert : Certificate string), rc_cert rc = cert_to_string cert ∧
    pk_hash (c_key cert : PublicKey) = "k1" ∧ c_cert_type cert = User.
Proof.
  destruct (returned (refresh_certificate_async remote1 (SDirect key1) options1 true agent1))
    as [[rc cr]|] eqn:Hr; [|vm_compute in Hr; discriminate].
  destruct (agent_receives_a_certificate_for_its_own_key server1 addr1 peers_of remote1 key1 options1
    true agent1 _ rc cr release_laws Toy.hmac_laws Toy.ssh_laws _ mechanism1_laws clock_late
    (run_returned _ _ Hr)) as (cert & authz & w3 & w4 & info & q & Hc & Hk & Ht & _).
  exists rc, cert. split; [exact Hc|]. split; [exact Hk|exact Ht].
Defined.

(** ** The handler *)

Definition handler1 : Handler :=
  {| ha_pubkey := "k1" : PublicKey; ha_signatory := SDirect key1; ha_certificate_options := options1;
     ha_piv_identities := {[ pk_encode ("yk" : PublicKey) :=
       {| pd_serial := 7; pd_slot := 130 : SlotId; pd_public_key := "yk" : PublicKey;
          pd_pin := Some "123456"; pd_subject := "" |} ]};
     ha_notification_function := true; ha_certificate_priority := true |}.
Definition state1 : HandlerState World := mkHandlerState conf1 None 0 ∅ agent1.

Lemma state1_wf : handler_wf state1.
Proof. split; [done|]. intros blob k. cbn. by rewrite lookup_empty. Qed.

Definition requests1 : list AgentRequest :=
  [QAddIdentity ("k5" : PrivateKey); QIdentities; QSign (pk_encode ("k5" : PublicKey)) [] 0].

Lemma agent_state_stays_well_formed_witness :
  handler_wf (handle_requests (handler handler1) requests1 state1).1.
Proof.
  exact (agent_state_stays_well_formed handler1 requests1 state1 _ _ state1_wf
    (surjective_pairing _)).
Defined.

Definition state2 : HandlerState World :=
  mkHandlerState conf1 (Some (set_valid_before 1700000006 cert0)) 1700000006 ∅ agent1.
Lemma state2_wf : handler_wf state2.
Proof.
  split; cbn [hs_cert hs_stale_at hs_identities state2]; [by intros c [= <-]|].
  intros blob k. by rewrite lookup_empty.
Qed.

Lemma cached_certificate_is_used_while_valid_witness :
  ag_net (hs_agent (get_certificate_async handler1 true state2).1) = w1 ∨
  1700000006 ≤ 1700000005.
Proof.
  assert ((get_certificate_async handler1 true state2).2 =
    Ret (Some (set_valid_before 1700000006 cert0))) as Hrun by (vm_compute; reflexivity).
  assert (in_u64 (as_secs (from_secs 1700000000) + 5)) as Hsoon by (vm_compute; split; congruence).
  assert (agent_clock (ag_clock (hs_agent state2)) = Some (from_secs 1700000000)) as Hd
    by reflexivity.
  destruct (cached_certificate_is_used_while_valid handler1 true state2 _
    (Some (set_valid_before 1700000006 cert0)) (from_secs 1700000000) state2_wf Hd Hsoon
    (run_eq _ _ Hrun)) as [(_ & _ & Hn)|(_ & Hle & _)].
  - left. exact Hn.
  - right. exact (Hle _ eq_refl).
Defined.

Definition yk_blob : bytes := pk_encode ("yk" : PublicKey).

Lemma signatures_are_by_the_key_asked_for_witness :
  ∃ sig, signed_by handler1 state1 yk_blob [] sig.
Proof.
  assert ((sign_request handler1 yk_blob [] 0 state1).2 =
    Ret (RSignResponse (as_bytes "yk"))) as Hrun by (vm_compute; reflexivity).
  destruct (signatures_are_by_the_key_asked_for handler1 yk_blob [] 0 state1 _
    _ state1_wf (run_eq _ _ Hrun)) as (sig & _ & Hs).
  exists sig. exact Hs.
Defined.

(** ** The protocol *)

Lemma answers_read_back_witness :
  response_read (response_write (RSignResponse (as_bytes "sig")) ++ as_bytes "more") =
    (as_bytes "more", Ret (RSignResponse (as_bytes "sig"))).
Proof.
  assert (u32_length (response_payload (RSignResponse (as_bytes "sig")))) as Hl
    by (vm_compute; reflexivity).
  exact (answers_read_back (RSignResponse (as_bytes "sig")) (as_bytes "more") Hl).
Defined.

(** A request the agent does not know, between two it knows. *)
Definition payloads1 : list bytes := [[byte_of_Z 11]; [byte_of_Z 22; byte_of_Z 11]; [byte_of_Z 11]].
Definition quiet : SshAgentHandler nat :=
  {| h_add_identity := λ _, mret RSuccess; h_identities := mret (RIdentities []);
     h_sign_request := λ _ _ _, mret RFailure |}.

Lemma connection_serves_requests_in_order_witness :
  handle_client 4 quiet (λ _, true) (mkConnected (mjoin (frame_of <$> payloads1)) [] 0%nat) =
  Some (mkConnected [] (mjoin (response_write <$> [RIdentities []; RFailure; RIdentities []])) 0%nat,
        EndedBy early_eof).
Proof.
  assert (Forall2 encodes [QIdentities; QUnknown; QIdentities] payloads1) as Henc.
  { constructor; [constructor|]. constructor; [|constructor; [constructor|constructor]].
    apply encodes_unknown. apply (bool_decide_unpack _). vm_compute. exact I. }
  assert (Forall u32_length payloads1) as Hfit by (repeat constructor; vm_compute; reflexivity).
  exact (connection_serves_requests_in_order quiet [QIdentities; QUnknown; QIdentities] payloads1
    0%nat 0%nat [RIdentities []; RFailure; RIdentities []] [] Henc Hfit eq_refl).
Defined.

Lemma connection_ends_witness :
  ∃ c' e, handle_client 100 quiet (λ _, true) (mkConnected (mjoin (frame_of <$> payloads1)) [] 0%nat)
    = Some (c', e).
Proof.
  destruct (connection_ends quiet (λ _, true) (mkConnected (mjoin (frame_of <$> payloads1)) [] 0%nat))
    as (c' & e & Hc).
  exists c', e. apply Hc. vm_compute. lia.
Defined.
