(* ===== verification/RestartExamples.v ===== *)
(** * A restart of the agent

    The agent of [AgentExamples] on a disk with two texts, one for its
    configuration before and one for after its credentials were renewed. *)
From Stdlib Require Import ZArith Lia.
From S2P Require Import Prelude Machine Text Deps Key Auth Logging Schema World.
From S2P Require Import Database External Authorizer Signing Proto Server Validation Issuance.
From S2P Require Import AgentProtocol AgentConfig AgentClient Restart AgentHandler EndToEnd Toy Examples.
From S2P Require Import AgentExamples.

#[local] Existing Instance Toy.ssh.
#[local] Existing Instance Toy.lru.
#[local] Existing Instance Toy.hmac.
#[local] Existing Instance Toy.hex.
#[local] Existing Instance Toy.x509.
#[local] Existing Instance Toy.rcgen.
#[local] Existing Instance Toy.asn1.
#[local] Existing Instance Toy.zstd.
#[local] Existing Instance Toy.attestation.
#[local] Existing Instance Toy.yubikeys.
#[local] Existing Instance Examples.release.
#[local] Existing Instance AgentExamples.rpc1.

Definition before : Config := uc_configuration conf1.
Definition after : Config := uc_configuration fetched1.2.

#[local] Instance remote_eq_dec : EqDecision RusticaRemote.
Proof. solve_decision. Defined.
#[local] Instance options_eq_dec : EqDecision Options.
Proof. solve_decision. Defined.
#[local] Instance config_eq_dec : EqDecision Config.
Proof. solve_decision. Defined.

#[local] Instance two_texts : AgentToml := {|
  toml_version := λ t, if decide (t = "before" ∨ t = "after") then Some 2 else None;
  toml_v1 := λ _, Err "bad";
  toml_v2 := λ t, if decide (t = "before") then Ok before
                  else if decide (t = "after") then Ok after else Err "bad";
  toml_to_string := λ c, if decide (c = before) then Some "before"
                         else if decide (c = after) then Some "after" else None;
|}.
#[local] Instance two_texts_laws : AgentTomlLaws.
Proof.
  split; cbn.
  - intros c t. repeat case_decide; intros [= <-]; subst; (discriminate || reflexivity || done).
  - intros t c. repeat case_decide; intros [= <-]; try reflexivity; exfalso; tauto.
Qed.

#[local] Instance disk : AgentEnv := {|
  agent_build := Release;
  agent_clock := λ _, Some (from_secs 1700000000);
  agent_write := λ _, Written;
  agent_read := λ p, if decide (p = "agent.toml") then Ok "before" else Err "no such file";
  env_var := λ _, None;
|}.

Lemma renewed_credentials_survive_a_restart_witness :
  ∃ (a' : AgentWorld World) conf', reload "agent.toml" a' = Ok conf' ∧ conf' ≠ conf1.
Proof.
  assert (reload (N := World) "agent.toml" agent1 = Ok conf1) as Hr by (vm_compute; reflexivity).
  assert ((fetch_new_certificate conf1 (SDirect key1) options1 true agent1).2 = Ret fetched1) as Hf
    by (vm_compute; reflexivity).
  assert (fetched1 = (fetched1.1, fetched1.2)) as Hp by reflexivity. rewrite Hp in Hf.
  exists (fetch_new_certificate conf1 (SDirect key1) options1 true agent1).1, fetched1.2.
  split; [|intros Hc; apply (f_equal (λ c, rr_mtls_cert <$> cfg_servers (uc_configuration c))) in Hc;
    vm_compute in Hc; discriminate].
  exact (renewed_credentials_survive_a_restart "agent.toml" conf1 (SDirect key1) options1 true agent1
    _ fetched1.1 fetched1.2 Hr (run_eq _ _ Hf)).
Defined.
