(* ===== verification/CliExamples.v ===== *)
(** * The programs around the agent at work

    The command line, the socket and the foreign function interface on concrete
    inputs: a machine with two key files and Yubikeys everywhere, a network
    with one server that answers, and the server of [Examples] for the list of
    allowed signers. *)
From Stdlib Require Import ZArith Lia.
From S2P Require Import Prelude Machine Text Deps Key Auth Logging Schema World.
From S2P Require Import Database External Authorizer Signing Proto Server Validation AllowedSigners.
From S2P Require Import AgentProtocol AgentConfig AgentClient AgentHandler AgentSocket Shell Cli.
From S2P Require Import CliModes CommandLine AgentMain Ffi FfiEnroll FfiSigning EndToEnd Enrolled SignedData.
From S2P Require Import Toy Examples.

#[local] Existing Instance Toy.ssh.
#[local] Existing Instance Toy.lru.
#[local] Existing Instance Toy.hmac.
#[local] Existing Instance Toy.hex.
#[local] Existing Instance Toy.x509.
#[local] Existing Instance Toy.rcgen.
#[local] Existing Instance Toy.asn1.
#[local] Existing Instance Toy.zstd.
#[local] Existing Instance Toy.attestation.
#[local] Existing Instance Toy.ssh_laws.
#[local] Existing Instance Toy.zstd_laws.
#[local] Existing Instance Examples.release.
#[local] Existing Instance Examples.release_laws.

(** ** The machine *)

#[local] Instance plugged : Yubikeys := Toy.yubikeys_of true.
#[local] Instance plugged_laws : YubikeysLaws := Toy.yubikeys_laws true.

(** The file [/keys/n] holds the key [n], the file [/keys/n.pub] its public
    half.  The device path and the pin of a key are not part of it. *)
Definition key_in (path : string) : result string string :=
  match strip_prefix "/keys/" path with Some k => Ok k | None => Err "no such file" end.
#[local] Instance shell : Shell := {|
  io_fault := λ _, None;
  io_written := λ _ _, "";
  default_file_mode := 420;
  temp_path := λ n, "/tmp/" +:+ n;
  process_id := 99;
  dir_entries := λ d, if decide (d = "/keys") then
    [Ok "/keys/k1"; Ok "/keys/yk.pub"; Err "unreadable"; Ok "/other"] else [];
  sk_from_path := key_in;
  pk_from_path := λ p, if decide (p = "/keys/yk.pub") then Ok "yk" else Err "no such file";
  sk_set_device_path := λ _ k, k;
  sk_set_pin := λ _ k, k;
  sk_write := λ k, "private " +:+ k;
|}.
#[local] Instance shell_laws : ShellLaws.
Proof. by split. Qed.
#[local] Instance fido : Fido := {|
  generate_new_ssh_key := λ app comment pin _ _,
    Ok {| fk_private_key := "sk-new" : PrivateKey;
          fk_attestation := {| fa_auth_data := as_bytes "sk-new"; fa_auth_data_sig := [];
                               fa_intermediate := as_bytes "root"; fa_challenge := [];
                               fa_alg := 0 |} |};
  list_fido_devices := λ _, [];
  device_requires_pin := λ _ _, Ok false;
  device_pin_retries := λ _ _, Ok 8;
|}.
#[local] Instance terminal : TerminalText := {|
  configuration_error_debug := λ _, "configuration error";
  library_error_debug := λ _, "library error";
  cert_pretty := λ c, cert_to_string c;
  x509_debug := λ _, None;
|}.

Definition config1 : Config :=
  {| cfg_version := 2;
     cfg_servers :=
       [{| rr_address := "https://old"; rr_ca_pem := ""; rr_mtls_cert := "alice"; rr_mtls_key := "key" |};
        {| rr_address := "https://rustica"; rr_ca_pem := ""; rr_mtls_cert := "alice";
           rr_mtls_key := "key" |}];
     cfg_slot := Some "R1"; cfg_key := None; cfg_options := None; cfg_socket := None |}.
#[local] Instance agent_env : AgentEnv := {|
  agent_build := Release;
  agent_clock := λ _, Some (from_secs 1700000000);
  agent_write := λ _, Written;
  agent_read := λ p, if decide (p = "agent.toml") then Ok "toml" else Err "no such file";
  env_var := λ _, None;
|}.
#[local] Instance agent_toml : AgentToml := {|
  toml_version := λ _, Some 2; toml_v1 := λ _, Err "bad"; toml_v2 := λ _, Ok config1;
  toml_to_string := λ c, Some (join "," (rr_mtls_cert <$> cfg_servers c));
|}.
#[local] Program Instance map_order : MapOrder := {| iterate := λ A, map_to_list |}.
Next Obligation. done. Qed.

(** A network whose state is the number of calls: the first server is down, the
    second registers every key. *)
#[local] Instance network : Rpc nat := {|
  rpc_connect := λ r n, (S n, if decide (rr_address r = "https://old") then Unreachable else Online);
  rpc_challenge := λ _ _ n,
    (S n, Ret {| time := "0"; challenge := "c"; no_signature_required := true |});
  rpc_certificate := λ _ _ n, (S n, Raise (unavailable "no certificates"));
  rpc_register_key := λ _ _ n, (S n, Ret ());
  rpc_register_u2f_key := λ _ _ n, (S n, Ret ());
  rpc_attested_x509_certificate := λ _ _ n, (S n, Raise (unavailable "no certificates"));
  rpc_allowed_signers := λ _ n, (S n, Raise (unavailable "no list"));
|}.

Definition shell1 : ShellWorld nat := mkShell (mkAgentWorld 0%nat 0 0 0 0 [] []) ∅ 0.

Lemma all_connected : devices_connected.
Proof.
  split_and!; [intros n|intros serial n|by intros n; eexists]; cbn.
  - rewrite decide_False by (by intros [? _]). by eexists.
  - rewrite decide_True by (by left). by eexists.
Qed.
Lemma slots_parse : file_slots_parse.
Proof.
  intros path c slot Hc Hs. unfold updatable_new, parse_config_path in Hc.
  destruct (agent_read path) as [t|e]; cbn in Hc; [|discriminate].
  injection Hc as <-. cbn in Hs. injection Hs as <-. eexists. vm_compute. reflexivity.
Qed.

(** ** The command line *)

(** clap as it is built: with or without debug assertions. *)
Definition clap_of (stops : bool) : Clap := {|
  subcommand_matches names found name :=
    if decide (name ∈ names) then
      Some match found with
        | Some (n, m) => if decide (n = name) then Some m else None
        | None => None
        end
    else if stops then None else Some None;
|}.
#[local] Instance clap : Clap := clap_of false.
Definition stopping_clap : Clap := clap_of true.
Lemma clap_of_laws stops : ClapLaws (H := clap_of stops).
Proof.
  split; intros; cbn.
  - by rewrite decide_True.
  - rewrite decide_False by done. by destruct stops; [right|left].
Qed.
#[local] Instance clap_laws : ClapLaws := clap_of_laws false.

(** [rustica-agent single --config agent.toml --file /keys/k1]. *)
Definition single1 : ArgMatches :=
  mkMatches {[ "config" := "agent.toml"; "file" := "/keys/k1" ]} ∅.
Ltac matches :=
  unfold matches_ok; cbn -[value_of]; repeat apply Forall_cons_2; try apply Forall_nil_2;
  (split; [first [intros _; vm_compute; by eexists | by intros [?|[? ?]]]
    |intros v Hv; vm_compute in Hv; first [discriminate | split; [by intros []|by split]]]).
Lemma single1_ok : matches_ok singlemode_command single1.
Proof. matches. Qed.

Lemma command_line_does_not_panic_witness :
  (configure (N := nat) "help" (Some ("single", single1)) shell1).2 ≠ Panic.
Proof.
  assert (found_ok (Some ("single", single1))) as Hok.
  { intros n m [= <- <-]. exists singlemode_command.
    split; [unfold commands; do 5 right; left|]. split; [reflexivity|exact single1_ok]. }
  destruct (command_line_does_not_panic "help" (Some ("single", single1)) shell1 Hok all_connected
    slots_parse) as [Hr|[[Hn|[m Hn]] _]]; [exact Hr|discriminate..].
Defined.

Lemma every_command_but_one_is_carried_out_witness :
  configure (N := nat) "help" (Some ("allowed-signers", single1)) shell1 =
    (helped "help" shell1, Raise NoMode) ∧ sh_out (helped "help" shell1) = ["help"].
Proof.
  assert (new_run_agent_subcommand "allowed-signers" ∈ commands) as Hin
    by (unfold commands; do 10 right; left).
  split; [|reflexivity].
  exact (proj2 (every_command_but_one_is_carried_out "help" _ single1 shell1 Hin) eq_refl
    _ (or_intror eq_refl)).
Defined.

(** With debug assertions not even an empty command line gets its help. *)
Section Stopping.
#[local] Existing Instance stopping_clap.
Example stopped : configure (N := nat) "help" None shell1 = (shell1, Panic).
Proof. reflexivity. Qed.
End Stopping.

(** [rustica-agent multi --config agent.toml --dir /keys --certfor k1]. *)
Definition multi1 : ArgMatches :=
  mkMatches {[ "config" := "agent.toml"; "key-dir" := "/keys"; "cert-for" := "k1" ]} ∅.
Definition no_run : RunConfig :=
  {| rn_socket_path := ""; rn_pubkey := "" : PublicKey;
     rn_handler := {| ha_pubkey := "" : PublicKey; ha_signatory := SDirect ("" : PrivateKey);
       ha_certificate_options := certificate_config_from None; ha_piv_identities := ∅;
       ha_notification_function := true; ha_certificate_priority := true |};
     rn_configuration := {| uc_path := ""; uc_configuration := config1 |}; rn_identities := ∅ |}.
(** The configuration of a run that starts the agent, the answer of one that
    lists identities. *)
Definition run_of (o : outcome ConfigurationError RusticaAgentAction) : option RunConfig :=
  match o with Ret (Run c) => Some c | _ => None end.
Lemma run_of_Some o d : bool_decide (run_of o = None) = false → o = Ret (Run (default d (run_of o))).
Proof. by destruct o as [[]| |]. Qed.
Definition listed_of (o : outcome AgentError Response) : option (list Identity) :=
  match o with Ret (RIdentities l) => Some l | _ => None end.
Lemma listed_of_Some o : bool_decide (listed_of o = None) = false →
  o = Ret (RIdentities (default [] (listed_of o))).
Proof. by destruct o as [[]| |]. Qed.

Definition multi1_run : RunConfig :=
  default no_run (run_of (configure_multimode (N := nat) multi1 shell1).2).
Lemma multi1_runs : (configure_multimode (N := nat) multi1 shell1).2 = Ret (Run multi1_run).
Proof. apply run_of_Some. vm_compute. reflexivity. Qed.

Definition multi1_listed : list Identity :=
  default [] (listed_of (identities (N := nat) (rn_handler multi1_run)
    (start_handler multi1_run (sh_agent shell1))).2).
Lemma multimode_serves_its_directory_witness :
  ∃ ids tail, multi1_listed = ids ++ tail ∧ pk_encode ("yk" : PublicKey) ∈ key_blob <$> ids ∧
    pk_encode ("k1" : PublicKey) ∈ key_blob <$> tail.
Proof.
  assert ((identities (N := nat) (rn_handler multi1_run)
    (start_handler multi1_run (sh_agent shell1))).2 = Ret (RIdentities multi1_listed)) as Hl
    by (apply listed_of_Some; vm_compute; reflexivity).
  destruct (multimode_serves_its_directory multi1 shell1 _ multi1_run (sh_agent shell1) _ _
    (run_eq _ _ multi1_runs) (run_eq _ _ Hl)) as (fp & dir & ids & tail & Hfp & Hdir & Hhash & Happ & Hin & Ht & _).
  injection Hdir as <-. exists ids, tail. split; [exact Happ|]. split; [|exact Ht].
  apply Hin. split; [vm_compute; discriminate|]. right. exists ("yk" : string).
  split; [vm_compute; left|reflexivity].
Defined.

(** ** The socket *)

Definition still : SshAgentHandler nat :=
  {| h_add_identity := λ _, mret RSuccess; h_identities := mret (RIdentities []);
     h_sign_request := λ _ _ _, mret RFailure |}.
Definition client1 : Client := mkClient (frame_of [byte_of_Z 11]) (frame_of [byte_of_Z 11]) [] None.
Definition listening1 : Listening := mkListening 0%nat true [client1] [].
Definition events6 : list (Event (S := nat)) := [Turn 0 true; Terminated; Turn 0 true].
Lemma connections_are_served_to_their_end_witness :
  ∃ s', listen_steps still true events6 listening1 = Some s' ∧
    (length (filter (is_turn 0) events6) ≤ 6)%nat.
Proof.
  assert (ls_clients listening1 !! 0%nat = Some client1) as Hi by reflexivity.
  assert (cl_ended client1 = None) as He by reflexivity.
  destruct (connections_are_served_to_their_end still true listening1 0 client1 Hi He) as [_ Hle].
  eexists. split; [vm_compute; reflexivity|]. eapply Hle. vm_compute. reflexivity.
Defined.

(** ** An agent that is started *)

Definition single1_main : ShellWorld nat * outcome MainError (option Started) :=
  main (N := nat) "help" (Some ("single", single1)) shell1.
Definition started_of (o : outcome MainError (option Started)) : option (Started (N := nat)) :=
  match o with Ret d => d | _ => None end.
Lemma started_of_Some o d : started_of o = Some d → o = Ret (Some d).
Proof. destruct o as [d'| |]; cbn; intros Hd; [by f_equal|discriminate..]. Qed.
Lemma single1_starts : is_Some (started_of single1_main.2).
Proof.
  assert (bool_decide (started_of single1_main.2 = None) = false) as Hs by (vm_compute; reflexivity).
  apply bool_decide_eq_false in Hs. by apply not_eq_None_Some.
Qed.
Lemma started_agents_serve_their_clients_witness :
  ∃ d : Started (N := nat), in_order d ∧ serves_its_clients (sd_handler d) (sd_listening d).
Proof.
  destruct single1_starts as [d Hr].
  exists d. apply (started_agents_serve_their_clients shell1 d).
  exact (by_command_line shell1 d "help" (Some ("single", single1)) _
    (run_eq _ _ (started_of_Some _ _ Hr))).
Defined.

(** ** New keys *)

Definition conf2 : UpdatableConfiguration := {| uc_path := "agent.toml"; uc_configuration := config1 |}.
Definition prf1 : ProvisionAndRegisterFidoConfig :=
  {| pf_updatable_configuration := conf2; pf_app_name := "ssh:"; pf_comment := "new";
     pf_key_type := SKEd25519; pf_pin := None; pf_out := Some "/keys/new" |}.
Lemma registered_fido_key_is_delivered_witness :
  ∃ k, file_contents <$> sh_files (provision_and_register_fido (N := nat) prf1 shell1).1 !!
    "/keys/new" = Some (sk_write k).
Proof.
  assert ((provision_and_register_fido (N := nat) prf1 shell1).2 = Ret ()) as Hr
    by (vm_compute; reflexivity).
  destruct (registered_fido_key_is_delivered prf1 shell1 _ _ (run_eq _ _ Hr)) as [_ (k & _ & Hf)].
  exists (fk_private_key k). exact Hf.
Defined.

Lemma enroll1_ends :
  (ffi_generate_and_enroll_fido (N := nat) (as_bytes "agent.toml") (as_bytes "/keys/new") None None
    None shell1).2 = Ret 0.
Proof. vm_compute. reflexivity. Qed.
Lemma enrolled_keys_are_registered_witness :
  ∃ conf path k s1, configuration_at (as_bytes "agent.toml") = Some conf ∧
    enrolled (cfg_servers (uc_configuration conf)) path k s1
      (ffi_generate_and_enroll_fido (N := nat) (as_bytes "agent.toml") (as_bytes "/keys/new") None
        None None shell1).1.
Proof.
  destruct (enrolled_keys_are_registered (as_bytes "agent.toml") (as_bytes "/keys/new") None None
    None shell1 _ _ (run_eq _ _ enroll1_ends))
    as [_ [(Hne & _)|(conf & path & k & s1 & Hc & _ & _ & [(_ & He)|(Hne & _)])]];
    [destruct (Hne eq_refl)| |destruct (Hne eq_refl)].
  exists conf, path, k, s1. split; [exact Hc|exact He].
Defined.

(** ** Signed data *)

(** A signature is its key, its namespace and its data, printed; a key is equal
    to the public key it prints. *)
#[local] Instance signatures : SshSignatures := {|
  SshSignature := string * string * bytes;
  sig_from_armored_string := Toy.scan;
  sig_pubkey := λ s, s.1.1;
  pk_eqb := λ a b, bool_decide (a = b);
  sig_new := λ data namespace sk, Some (Toy.print (sk : string, namespace, data));
  sig_verifies := λ data s namespace pk,
    bool_decide (s = (pk, namespace, data));
|}.
#[local] Instance signatures_laws : SshSignaturesLaws.
Proof.
  split.
  - intros data namespace sk text [= <-]. apply Toy.print_ascii.
  - intros data namespace sk text [= <-]. exists (sk, namespace, data).
    split; [apply Toy.scan_print|]. split; [reflexivity|].
    intros pk Hpk. apply bool_decide_eq_true in Hpk. subst pk. by apply bool_decide_eq_true.
Qed.

(** The database after alice registered the key [k9]. *)
Definition w5 : World := (Local.register_key local reg1 w1).1.
(** The credentials for the old server are nobody's. *)
Definition peers5 (remote : RusticaRemote) : list bytes :=
  if decide (rr_address remote = "https://old") then [] else peers1.
#[local] Instance server_network : Rpc World := server_rpc server4 addr1 peers5.
Definition shell5 : ShellWorld World := mkShell (mkAgentWorld w5 0 0 0 0 [] []) ∅ 0.
Definition list5 : AllowedSigners :=
  {| allowed_signers_list := [{| as_identity := "alice,a2"; as_pubkey := "key k9" |}] |}.

(** ** A new FIDO key and the server *)

Lemma prf1_registered : (provision_and_register_fido (N := World) prf1 shell5).2 = Ret ().
Proof. vm_compute. reflexivity. Qed.
Lemma registered_fido_key_is_in_the_servers_table_witness :
  ∃ k remote, remote ∈ fido_servers prf1 ∧
    in_the_table peers5 remote (pubkey (fk_private_key k)) (sh_agent shell5)
      (sh_agent (provision_and_register_fido (N := World) prf1 shell5).1) ∧
    attested (pubkey (fk_private_key k)) "ssh:" (u2f_attestation (fk_attestation k)).
Proof.
  destruct (registered_fido_key_is_in_the_servers_table server4 addr1 peers5 local eq_refl local_up
    prf1 shell5 _ _ release_laws Toy.hmac_laws Toy.ssh_laws clock_late (run_eq _ _ prf1_registered))
    as (k & remote & _ & Hin & Htab & Hatt).
  exists k, remote. split; [exact Hin|]. split; [exact Htab|exact (Hatt eq_refl)].
Defined.
Example old_server_refused :
  (first_server (N := World) NoServersCouldRegisterKey (asks_for_fido prf1
    {| fk_private_key := "sk-new" : PrivateKey; fk_attestation := {| fa_auth_data := [];
       fa_auth_data_sig := []; fa_intermediate := []; fa_challenge := []; fa_alg := 0 |} |})
    (take 1 (fido_servers prf1)) (sh_agent shell5)).2 = Raise NoServersCouldRegisterKey.
Proof. vm_compute. reflexivity. Qed.

Lemma cache5_good : cache_good server4 (ag_net (sh_agent shell5)).
Proof.
  intros n t Ht Hle. exfalso. cbn [clock release Toy.env] in Ht. case_decide; [|discriminate].
  injection Ht as <-. change (expiry_timestamp _) with 0 in Hle. unfold from_secs, NANOS_PER_SEC in Hle.
  lia.
Qed.
Lemma signers5_fetched :
  (ffi_get_allowed_signers (as_bytes "agent.toml") (as_bytes "/signers") shell5).2 = Ret 0.
Proof. vm_compute. reflexivity. Qed.
Lemma signed_data_is_attributed_by_the_servers_list_witness :
  ∃ l path, to_str (as_bytes "/signers") = Some path ∧
    ∀ signature s2 s3 r,
      ffi_sign_data (as_bytes "/keys/k9") (as_bytes "git") [] = Some signature →
      sh_files s2 !! path = sh_files (ffi_get_allowed_signers (N := World) (as_bytes "agent.toml")
        (as_bytes "/signers") shell5).1 !! path →
      from_utf8 (as_bytes (signers_text l)) = Some (signers_text l) →
      Forall signer_ok (allowed_signers_list l) →
      ffi_verify_signed_data (N := World) (as_bytes "/signers") (as_bytes "git") [] signature s2
        = (s3, r) →
      r = Ret (signer_of ("k9" : PublicKey) l ≫= λ signer, cstring_or_null (as_identity signer)).
Proof.
  assert (to_str (as_bytes "/keys/k9") = Some "/keys/k9") as Hkp by reflexivity.
  assert (sk_from_path "/keys/k9" = Ok ("k9" : PrivateKey)) as Hsk by reflexivity.
  destruct (signed_data_is_attributed_by_the_servers_list server4 addr1 peers5
    (as_bytes "agent.toml") (as_bytes "/signers") shell5 _ cache5_good (run_eq _ _ signers5_fetched))
    as (w & w' & l & path & _ & Hpath & Hall).
  exists l, path. split; [exact Hpath|]. intros signature s2 s3 r Hsign Hf Hutf Hok Hv.
  exact (Hall _ _ _ _ _ _ _ _ _ Hkp Hsk Hsign Hf eq_refl Hutf Hok Hv).
Defined.

(** And the name that is returned. *)
Definition signature5 : bytes :=
  Eval vm_compute in default [] (ffi_sign_data (as_bytes "/keys/k9") (as_bytes "git") [Byte.x07]).
Definition attributed5 : outcome Empty_set (option bytes) :=
  (ffi_verify_signed_data (as_bytes "/signers") (as_bytes "git") [Byte.x07] signature5
    (ffi_get_allowed_signers (as_bytes "agent.toml") (as_bytes "/signers") shell5).1).2.
Example attributed5_to_alice : attributed5 = Ret (Some (as_bytes "alice,a2")).
Proof. vm_compute. reflexivity. Qed.
