(* ===== verification/TokenExamples.v ===== *)
(** * The certificate of a token, refreshed

    A Yubikey with an attested key in slot 9a, the server of [Examples] that
    signs X.509 certificates, and the program that puts one into the slot. *)
From Stdlib Require Import ZArith Lia.
From S2P Require Import Prelude Machine Text Deps Key Auth Logging Schema World.
From S2P Require Import Database External Authorizer Signing Proto Server Validation Issuance.
From S2P Require Import Registration X509Issuance AllowedSigners AgentConfig AgentClient.
From S2P Require Import AgentHandler Shell Cli CliModes AgentMain EndToEnd Enrolled Tokens.
From S2P Require Import Toy Examples CliExamples.

#[local] Existing Instance Toy.ssh.
#[local] Existing Instance Toy.lru.
#[local] Existing Instance Toy.hmac.
#[local] Existing Instance Toy.hex.
#[local] Existing Instance Toy.x509.
#[local] Existing Instance Toy.rcgen.
#[local] Existing Instance Toy.asn1.
#[local] Existing Instance Toy.zstd.
#[local] Existing Instance Toy.attestation.
#[local] Existing Instance Examples.release.
#[local] Existing Instance CliExamples.shell.
#[local] Existing Instance CliExamples.fido.
#[local] Existing Instance CliExamples.terminal.
#[local] Existing Instance CliExamples.agent_env.
#[local] Existing Instance CliExamples.agent_toml.
#[local] Existing Instance CliExamples.map_order.

(** The key [k1], attested with the serial number 42. *)
#[local] Instance token : Yubikeys := {|
  SlotId := Z;
  slot_try_from := λ z, if decide (z = 154) then Some z else None;
  retired_slot_try_from := λ _, None;
  slot_attestation := 249;
  slot_to_string := int_to_string;
  slot_debug := int_to_string;
  Yubikey := Z;
  device_error_text := λ _, "device error";
  yk_context := λ _, Ok ();
  yk_readers := λ _, Some [Some 42];
  yk_open := λ serial _, if decide (serial = 42) then Some 42 else None;
  yk_new := λ _, Some 42;
  yk_serial := λ yk, yk;
  yk_reconnect := λ _ _, true;
  yk_fetch_pubkey := λ _ slot _, if decide (slot = 154) then Some ("k1" : PublicKey) else None;
  yk_fetch_subject := λ _ _ _, None;
  yk_sign := λ _ data slot _, Some (as_bytes "k1" ++ data);
  yk_unlock := λ _ pin _ _, bool_decide (pin = as_bytes "123456");
  yk_pin_retries := λ _ _, Some 3;
  yk_generate_csr := λ _ _ _, Some (as_bytes "csr k1");
  yk_fetch_attestation := λ _ slot _, if decide (slot = 154) then Ok certificate1 else Err "none";
  yk_fetch_certificate := λ _ slot _, if decide (slot = 249) then Some (as_bytes "root") else None;
  yk_provision := λ _ _ _ _ _ _, true;
  yk_write_certificate := λ _ _ _ _, true;
  csr_signer_new := λ _ _ _, None;
|}.
#[local] Instance token_network : Rpc World := server_rpc server3 addr1 peers5.

Definition slot9a : SlotId := 154.
Definition yubikey42 : Yubikey := 42.
Definition refresh1 : RefreshAttestedX509Config :=
  {| rx_updatable_configuration := {| uc_path := "agent.toml"; uc_configuration := config1 |};
     rx_signatory := SYubikey slot9a yubikey42;
     rx_pin := "123456"; rx_management_key := [] |}.
Definition shell6 : ShellWorld World := mkShell (mkAgentWorld w1 0 0 0 0 [] []) ∅ 0.

Lemma refresh1_ends : (refresh_attested_x509 (N := World) refresh1 shell6).2 = Ret ().
Proof. vm_compute. reflexivity. Qed.
Lemma refresh1_quiet : sh_out (refresh_attested_x509 (N := World) refresh1 shell6).1 = [].
Proof. vm_compute. reflexivity. Qed.

Lemma token_receives_a_certificate_for_its_own_key_witness :
  ∃ remote cert, rr_address remote ≠ "" ∧ certifies_the_token peers5 db1 remote certificate1 cert.
Proof.
  destruct (token_receives_a_certificate_for_its_own_key server3 addr1 peers5 local eq_refl local_up
    refresh1 slot9a yubikey42 shell6 _ db1_wf eq_refl (run_eq _ _ refresh1_ends))
    as [(e & He)|(remote & cert & att & n1 & n2 & Hin & Ha & Hc & _)].
  - exfalso. rewrite refresh1_quiet in He. discriminate.
  - assert (Ok att = (Ok certificate1 : result string bytes)) as Hatt by (rewrite <-Ha; reflexivity).
    injection Hatt as ->. exists remote, cert. split; [|exact Hc].
    cbn in Hin. rewrite !elem_of_cons in Hin.
    destruct Hin as [->|[->|Hin]]; [discriminate|discriminate|by apply not_elem_of_nil in Hin].
Defined.
