(* ===== verification/GuiExamples.v ===== *)
(** * The graphical agent at work

    A disk that is a map of files and directories, and the window of [Gui] on
    it. *)
From Stdlib Require Import ZArith Lia.
From S2P Require Import Prelude Machine Text Deps Proto AgentConfig AgentClient AgentHandler Gui.
From S2P Require Import Toy.

#[local] Existing Instance Toy.ssh.
#[local] Existing Instance Toy.hex.
#[local] Existing Instance Toy.rcgen.
#[local] Instance plugged : Yubikeys := Toy.yubikeys_of true.

(** ** A disk: [None] is a directory *)

#[local] Abbreviation Disk := (gmap string (option bytes)).
Definition parent (p : string) : string := join "/" (removelast (split "/" p)).
Definition is_directory (d : string) (fs : Disk) : bool := bool_decide (fs !! d = Some None).
Definition entries (d : string) (fs : Disk) : list string :=
  filter (λ p, parent p = d ∧ is_Some (file_name p)) (map_to_list fs).*1.
Definition put (p : string) (c : option bytes) (fs : Disk) : Disk * option string :=
  if is_directory p fs then (fs, Some "Is a directory")
  else if is_directory (parent p) fs then (<[p := c]> fs, None)
  else (fs, Some "No such file or directory").

#[local] Instance disk : FileSystem := {|
  Fs := Disk;
  fs_exists := λ p fs, bool_decide (is_Some (fs !! p));
  fs_is_dir := is_directory;
  fs_is_file := λ p fs, match fs !! p with Some (Some _) => true | _ => false end;
  fs_create_dir := λ p _, put p None;
  fs_read_dir := λ d _ fs, if is_directory d fs then Some (Some <$> entries d fs) else None;
  fs_write := λ p c _, put p (Some c);
  home_dir := Some "/home/a";
  gui_runtime_builds := true;
  pin_retries_error := λ _, "no answer";
|}.

Lemma put_keeps p c (fs : Disk) q : is_Some (fs !! q) → is_Some ((put p c fs).1 !! q).
Proof.
  unfold put. destruct (is_directory p fs), (is_directory (parent p) fs); cbn; try done.
  intros ?. destruct (decide (p = q)) as [->|Hne]; [by rewrite lookup_insert_eq|].
  by rewrite lookup_insert_ne.
Qed.
Lemma put_keeps_directories p c (fs : Disk) d :
  is_directory d fs = true → is_directory d (put p c fs).1 = true.
Proof.
  unfold put. destruct (is_directory p fs) eqn:Hp; [done|].
  destruct (is_directory (parent p) fs); cbn; [|done].
  intros Hd. unfold is_directory in *. rewrite lookup_insert_ne; [done|]. by intros ->; rewrite Hd in Hp.
Qed.
Lemma entries_grow d (fs fs' : Disk) :
  (∀ q, is_Some (fs !! q) → is_Some (fs' !! q)) → entries d fs ⊆+ entries d fs'.
Proof.
  intros Hk. apply NoDup_submseteq.
  { apply NoDup_filter, NoDup_fst_map_to_list. }
  intros q. unfold entries. rewrite !list_elem_of_filter. intros [Hq Hin]. split; [done|].
  apply list_elem_of_fmap in Hin as ([q' x] & -> & Hin). apply elem_of_map_to_list in Hin.
  destruct (Hk q') as [y Hy]; [by eexists|]. apply list_elem_of_fmap. exists (q', y).
  split; [done|]. by apply elem_of_map_to_list.
Qed.

#[local] Instance disk_laws : FileSystemLaws.
Proof.
  apply (Build_FileSystemLaws disk entries).
  - intros d fs p Hp. apply list_elem_of_filter in Hp. apply Hp.
  - intros p c n d fs _ Hd. pose proof (put_keeps_directories p (Some c) fs d Hd) as Hd'.
    split; [|done]. cbn in *. unfold is_directory in Hd'.
    apply bool_decide_eq_true in Hd'. apply bool_decide_eq_true. by eexists.
  - intros p c n d fs. apply entries_grow, put_keeps.
  - intros d n fs fs' Hc. cbn in *. unfold put in Hc.
    destruct (is_directory d fs), (is_directory (parent d) fs); simplify_eq.
    unfold is_directory. rewrite lookup_insert_eq.
    split; apply bool_decide_eq_true; [by eexists|done].
Defined.

Lemma disk_reads_well : disk_reads.
Proof.
  intros d n fs _ Hd. exists (entries d fs). split; [|done].
  change (is_directory d fs = true) in Hd.
  change ((if is_directory d fs then Some (Some <$> entries d fs) else None) =
    Some (Some <$> entries d fs)). by rewrite Hd.
Qed.

(** ** The window *)

#[local] Instance agent_env : AgentEnv := {|
  agent_build := Release;
  agent_clock := λ _, Some (from_secs 1700000000);
  agent_write := λ _, Written;
  agent_read := λ _, Err "no such file";
  env_var := λ _, None;
|}.
#[local] Program Instance map_order : MapOrder := {| iterate := λ A, map_to_list |}.
Next Obligation. done. Qed.

Definition idle : Frame :=
  {| fr_environment_clicked := λ _, false; fr_new_env_name := λ t, t; fr_new_env_content := λ t, t;
     fr_import := false; fr_priority := λ b, b; fr_unlock_pin := λ t, t; fr_unlock := λ _, false;
     fr_use := λ _ b, b; fr_stop := false |}.
(** Import a configuration under a name; unlock every key with a PIN. *)
Definition importing (name : string) : Frame :=
  {| fr_environment_clicked := λ _, false; fr_new_env_name := λ _, name;
     fr_new_env_content := λ _, "toml"; fr_import := true; fr_priority := negb;
     fr_unlock_pin := λ t, t; fr_unlock := λ _, false; fr_use := λ _ b, b; fr_stop := false |}.
Definition unlocking (pin : string) : Frame :=
  {| fr_environment_clicked := λ i, bool_decide (i = 1%nat); fr_new_env_name := λ t, t;
     fr_new_env_content := λ t, t; fr_import := false; fr_priority := λ b, b;
     fr_unlock_pin := λ _, pin; fr_unlock := λ _, true; fr_use := λ _ _, true; fr_stop := true |}.
Definition gentle_run : list Happening :=
  [Drawn idle; Drawn (importing "dev"); Elsewhere id; Drawn (unlocking "0000");
   Drawn (unlocking "123456"); Drawn idle].

(** A home directory with an environment, and an empty one. *)
Definition empty_home : Disk := {["/home/a" := None]}.
Definition used_home : Disk :=
  <["/home/a/.rusticaagent/environments/prod" := Some (as_bytes "toml")]>
  (<["/home/a/.rusticaagent/environments" := None]>
  (<["/home/a/.rusticaagent/keys" := None]>
  (<["/home/a/.rusticaagent" := None]> empty_home))).
Definition window_on (fs : Disk) : GuiWorld nat :=
  mkGuiWorld (mkAgentWorld 0%nat 0 0 0 0 [] []) fs 0.

(** What is shown: the environments, which is selected, the status and the keys
    that have a PIN. *)
Definition shown (o : outcome RusticaAgentGuiError RusticaAgentGui)
    : option (list string * option nat * string * list string) :=
  match o with
  | Ret g => Some (environments g, selected_environment g, status g,
      omap (λ x, pd_pin (ku_descriptor x.2)) (map_to_list (piv_keys g)))
  | _ => None
  end.
Example the_window_at_work : shown (gui_main gentle_run (window_on used_home)).2 =
  Some (["/home/a/.rusticaagent/environments/dev"; "/home/a/.rusticaagent/environments/prod"],
        Some 1%nat, "Unlock failed, 3 tries remaining", ["123456"; "123456"]).
Proof. vm_compute. reflexivity. Qed.
(** The first environment that is imported is listed but never selected. *)
Example the_first_environment : shown (gui_main gentle_run (window_on empty_home)).2 =
  Some (["/home/a/.rusticaagent/environments/dev"], None, "New environment added", []).
Proof. vm_compute. reflexivity. Qed.

Lemma gentle_run_gentle : Forall gentle gentle_run.
Proof. repeat constructor; done. Qed.
Lemma management_key_decodes : is_Some (hex_decode MANAGEMENT_KEY).
Proof. vm_compute. by eexists. Qed.
Definition has_environment (o : outcome RusticaAgentGuiError RusticaAgentGui) : bool :=
  match o with Ret g => bool_decide (environments g ≠ []) | _ => false end.
Lemma the_window_starts : ∃ s1 g0, load_environments (window_on used_home) = (s1, Ret g0) ∧
  environments g0 ≠ [].
Proof.
  assert (has_environment (load_environments (window_on used_home)).2 = true) as Hs
    by (vm_compute; reflexivity).
  destruct (load_environments (window_on used_home)) as [s1 [g0|e|]]; [|discriminate..].
  exists s1, g0. split; [done|]. by apply bool_decide_eq_true in Hs.
Qed.

Lemma the_window_keeps_working_witness :
  ∃ s1 g0 s2 g i, load_environments (window_on used_home) = (s1, Ret g0) ∧
    gui_run gentle_run g0 s1 = (s2, Ret g) ∧ selected_environment g = Some i.
Proof.
  destruct the_window_starts as (s1 & g0 & Hload & Hne).
  destruct (the_window_keeps_working (window_on used_home) s1 g0 gentle_run disk_reads_well
    management_key_decodes gentle_run_gentle Hload) as (s2 & g & Hrun & _ & Hsel & _).
  destruct (selected_environment g) as [i|] eqn:Hi.
  - exists s1, g0, s2, g, i. split; [exact Hload|]. split; [exact Hrun|exact Hi].
  - destruct Hne. apply Hsel. reflexivity.
Defined.

(** An import reads the list again while the selection stays a position in it:
    another environment is selected afterwards. *)
Definition selected_path (o : outcome RusticaAgentGuiError RusticaAgentGui) : option string :=
  match o with Ret g => i ← selected_environment g; environments g !! i | _ => None end.
Example an_import_moves_the_selection :
  selected_path (gui_main [Drawn idle] (window_on used_home)).2 =
    Some "/home/a/.rusticaagent/environments/prod" ∧
  selected_path (gui_main [Drawn idle; Drawn (importing "dev")] (window_on used_home)).2 =
    Some "/home/a/.rusticaagent/environments/dev".
Proof. split; vm_compute; reflexivity. Qed.
